(** * nx2elf: a shallow embedding of [nx2elf.cpp] and its specification

    The development follows the source file top to bottom: byte buffers and
    little-endian views, the [StringTable] helper, the [NsoFile] structures,
    [Decompress], [ResolvePlt], [Load], [WriteUncompressedNso] and
    [WriteElf].  Machine integers are [Z] with the wrap-around written out;
    buffers are [list byte]; an access outside a buffer, which the C++ code
    leaves undefined, ends a run with [Undefined]. *)

From Stdlib Require Import ZArith Lia.
From Stdlib Require Import Strings.Byte.
From Stdlib Require Import Sorting.Sorted.
From stdpp Require Import base option list strings gmap.

Local Open Scope Z_scope.

(** ** Machine integers *)

Definition u16 (z : Z) : Z := z mod 2 ^ 16.
Definition u32 (z : Z) : Z := z mod 2 ^ 32.
Definition u64 (z : Z) : Z := z mod 2 ^ 64.

(** Reinterpretation of a 32-bit pattern as [s32]. *)
Definition s32 (z : Z) : Z := if z <? 2 ^ 31 then z else z - 2 ^ 32.

(** Modelled from the spec: the macro ALIGN_UP of types.h, which is not part
    of the sources ("align_up"); [a] is a power of two. *)
Definition ALIGN_UP (x a : Z) : Z := Z.land (x + (a - 1)) (Z.lnot (a - 1)).

(** ** Bytes and little-endian views *)

Definition byte_to_Z (b : byte) : Z := Z.of_N (Byte.to_N b).

Definition byte_of_Z (z : Z) : byte :=
  default Byte.x00 (Byte.of_N (Z.to_N (z mod 256))).

#[global] Instance byte_eq_dec : EqDecision byte := Byte.byte_eq_dec.

Fixpoint le_bytes (n : nat) (v : Z) : list byte :=
  match n with
  | O => []
  | S n' => byte_of_Z v :: le_bytes n' (v / 256)
  end.

Fixpoint le_value (bs : list byte) : Z :=
  match bs with
  | [] => 0
  | b :: bs' => byte_to_Z b + 256 * le_value bs'
  end.

Definition zeros (n : Z) : list byte := replicate (Z.to_nat n) Byte.x00.

Definition buf_size (buf : list byte) : Z := Z.of_nat (length buf).

(** [read_bytes buf off len] is the view [buf[off .. off+len)], defined
    only when it lies inside the buffer. *)
Definition read_bytes (buf : list byte) (off len : Z) : option (list byte) :=
  if bool_decide (0 <= off /\ 0 <= len /\ off + len <= buf_size buf)
  then Some (take (Z.to_nat len) (drop (Z.to_nat off) buf))
  else None.

(** [write_bytes buf off bs] is [memcpy (&buf[off], bs, |bs|)]. *)
Definition write_bytes (buf : list byte) (off : Z) (bs : list byte)
  : option (list byte) :=
  if bool_decide (0 <= off /\ off + buf_size bs <= buf_size buf)
  then Some (take (Z.to_nat off) buf ++ bs
               ++ drop (Z.to_nat off + length bs) buf)
  else None.

Definition read_u8 (buf : list byte) (off : Z) : option Z :=
  le_value <$> read_bytes buf off 1.
Definition read_u16 (buf : list byte) (off : Z) : option Z :=
  le_value <$> read_bytes buf off 2.
Definition read_u32 (buf : list byte) (off : Z) : option Z :=
  le_value <$> read_bytes buf off 4.
Definition read_u64 (buf : list byte) (off : Z) : option Z :=
  le_value <$> read_bytes buf off 8.
Definition read_s32 (buf : list byte) (off : Z) : option Z :=
  s32 <$> read_u32 buf off.

(** ** Outcome of a call

    [Done] is a normal return, [Refused] is [return false], [Undefined] is an
    access outside a buffer. *)

Inductive outcome (A : Type) : Type :=
  | Done (a : A)
  | Refused
  | Undefined.
Arguments Done {A} a.
Arguments Refused {A}.
Arguments Undefined {A}.

#[global] Instance outcome_ret : MRet outcome := fun A a => Done a.
#[global] Instance outcome_bind : MBind outcome := fun A B f m =>
  match m with
  | Done a => f a
  | Refused => Refused
  | Undefined => Undefined
  end.
#[global] Instance outcome_fmap : FMap outcome := fun A B f m =>
  match m with
  | Done a => Done (f a)
  | Refused => Refused
  | Undefined => Undefined
  end.

(** A read that must be inside its buffer. *)
Definition must {A} (o : option A) : outcome A :=
  match o with
  | Some a => Done a
  | None => Undefined
  end.

(** [if (!b) return false;] *)
Definition require (b : bool) : outcome unit :=
  if b then Done tt else Refused.

(** ** Buffer searches *)

Definition byte_and (a b : byte) : byte :=
  byte_of_Z (Z.land (byte_to_Z a) (byte_to_Z b)).

(** The first [|needle|] bytes of [hay] agree with [needle] under [mask]. *)
Fixpoint masked_prefix (hay needle mask : list byte) : bool :=
  match needle, mask with
  | [], _ => true
  | n :: needle', m :: mask' =>
      match hay with
      | h :: hay' =>
          bool_decide (byte_and h m = byte_and n m)
          && masked_prefix hay' needle' mask'
      | [] => false
      end
  | _ :: _, [] => false
  end.

(** Modelled from the spec: memmem_m of types.h, which is not part of the
    sources ("a naive O(n.m) scan", "Matching is the FIRST occurrence").
    The result is the index of the match in [hay]. *)
Fixpoint memmem_m (hay needle mask : list byte) : option Z :=
  if masked_prefix hay needle mask then Some 0
  else match hay with
       | [] => None
       | _ :: hay' => Z.succ <$> memmem_m hay' needle mask
       end.

Fixpoint is_prefix (needle hay : list byte) : bool :=
  match needle with
  | [] => true
  | n :: needle' =>
      match hay with
      | h :: hay' => bool_decide (h = n) && is_prefix needle' hay'
      | [] => false
      end
  end.

(** [memmem] of the C library: index of the first occurrence. *)
Fixpoint memmem (hay needle : list byte) : option Z :=
  if is_prefix needle hay then Some 0
  else match hay with
       | [] => None
       | _ :: hay' => Z.succ <$> memmem hay' needle
       end.

(** Modelled from the spec: memmemr of types.h, which is not part of the
    sources ("reverse search biases to the latest occurrence"). *)
Fixpoint memmemr (hay needle : list byte) : option Z :=
  match hay with
  | [] => if is_prefix needle [] then Some 0 else None
  | _ :: hay' =>
      match memmemr hay' needle with
      | Some i => Some (Z.succ i)
      | None => if is_prefix needle hay then Some 0 else None
      end
  end.

(** ** StringTable *)

Module StringTable.

Record t : Type := mk {
  entries : gmap string Z;
  watermark : Z;
  offset : Z;
  size : Z;
  buffer : list byte
}.

Definition strlen (str : string) : Z := Z.of_nat (String.length str).

(** The members before the constructor body runs. *)
Definition empty : t :=
  {| entries := ∅; watermark := 0; offset := 0; size := 0; buffer := [] |}.

Definition AddString (str : string) (tbl : t) : t :=
  match entries tbl !! str with
  | Some _ => tbl
  | None =>
      {| entries := <[str := watermark tbl]> (entries tbl);
         watermark := u32 (watermark tbl + (u32 (strlen str) + 1));
         offset := offset tbl;
         size := size tbl;
         buffer := buffer tbl |}
  end.

(** [StringTable() { AddString(""); }] *)
Definition init : t := AddString "" empty.

Definition GetOffset (str : string) (tbl : t) : Z :=
  match entries tbl !! str with
  | Some off => off
  | None => 0
  end.

(** [strcpy] writes the characters and the terminating NUL. *)
Definition c_str (str : string) : list byte :=
  String.list_byte_of_string str ++ [Byte.x00].

Definition GetBuffer (tbl : t) : option (list byte) :=
  foldr (fun (entry : string * Z) (acc : option (list byte)) =>
           buf ← acc; write_bytes buf entry.2 (c_str entry.1))
        (Some (zeros (watermark tbl)))
        (map_to_list (entries tbl)).

Definition Finalize (tbl : t) : option t :=
  buf ← GetBuffer tbl;
  Some {| entries := entries tbl;
          watermark := watermark tbl;
          offset := offset tbl;
          size := ALIGN_UP (buf_size buf) 16;
          buffer := buf |}.

(** The table after the constructor and the calls [AddString(s)] for the
    names [s] of [names], in order. *)
Definition build (names : list string) : t :=
  foldl (fun tbl str => AddString str tbl) init names.

End StringTable.

(** ** ELF structures read from the image (elf.h is not part of the
    sources: the layouts and constants are those of the ELF64 ABI) *)

Definition SHN_UNDEF : Z := 0.
Definition SHN_LORESERVE : Z := 0xff00.
Definition STT_SECTION : Z := 3.
Definition STB_LOCAL : Z := 0.

Definition sizeof_Elf64_Sym : Z := 24.
Definition sizeof_Elf64_Rela : Z := 24.
Definition sizeof_Elf64_Dyn : Z := 16.
Definition sizeof_Elf64_Nhdr : Z := 12.
Definition sizeof_Elf64_Ehdr : Z := 64.
Definition sizeof_Elf64_Phdr : Z := 56.
Definition sizeof_Elf64_Shdr : Z := 64.

Record Elf64_Sym : Type := mkSym {
  st_name : Z;
  st_info : Z;
  st_other : Z;
  st_shndx : Z;
  st_value : Z;
  st_size : Z
}.

Definition ELF64_ST_TYPE (info : Z) : Z := Z.land info 0xf.
Definition ELF64_ST_BIND (info : Z) : Z := Z.shiftr info 4.

Definition read_sym (buf : list byte) (off : Z) : option Elf64_Sym :=
  name ← read_u32 buf off;
  info ← read_u8 buf (off + 4);
  other ← read_u8 buf (off + 5);
  shndx ← read_u16 buf (off + 6);
  value ← read_u64 buf (off + 8);
  sz ← read_u64 buf (off + 16);
  Some (mkSym name info other shndx value sz).

Record Elf64_Rela : Type := mkRela {
  r_offset : Z;
  r_info : Z;
  r_addend : Z
}.

Definition ELF64_R_TYPE (info : Z) : Z := Z.land info 0xffffffff.
Definition R_AARCH64_GLOB_DAT : Z := 1025.
Definition R_AARCH64_JUMP_SLOT : Z := 1026.

Definition read_rela (buf : list byte) (off : Z) : option Elf64_Rela :=
  o ← read_u64 buf off;
  i ← read_u64 buf (off + 8);
  a ← read_u64 buf (off + 16);
  Some (mkRela o i a).

Definition DT_PLTRELSZ : Z := 2.
Definition DT_PLTGOT : Z := 3.
Definition DT_HASH : Z := 4.
Definition DT_STRTAB : Z := 5.
Definition DT_SYMTAB : Z := 6.
Definition DT_RELA : Z := 7.
Definition DT_RELASZ : Z := 8.
Definition DT_STRSZ : Z := 10.
Definition DT_INIT : Z := 12.
Definition DT_FINI : Z := 13.
Definition DT_JMPREL : Z := 23.
Definition DT_INIT_ARRAY : Z := 25.
Definition DT_FINI_ARRAY : Z := 26.
Definition DT_INIT_ARRAYSZ : Z := 27.
Definition DT_FINI_ARRAYSZ : Z := 28.
Definition DT_GNU_HASH : Z := 0x6ffffef5.

(** ** NsoFile: the structures of the class *)

Inductive FileType : Type := kUnknown | kNso | kNro | kMod.
#[global] Instance FileType_eq_dec : EqDecision FileType.
Proof. solve_decision. Defined.

Inductive SegmentType : Type := kText | kRodata | kData.
#[global] Instance SegmentType_eq_dec : EqDecision SegmentType.
Proof. solve_decision. Defined.

Definition kNumSegment : Z := 3.

Definition seg_index (i : SegmentType) : Z :=
  match i with kText => 0 | kRodata => 1 | kData => 2 end.

(** An array [T x[kNumSegment]]. *)
Record per_segment (A : Type) : Type := mkSegs {
  at_text : A;
  at_rodata : A;
  at_data : A
}.
Arguments mkSegs {A}.
Arguments at_text {A}.
Arguments at_rodata {A}.
Arguments at_data {A}.

Definition seg_get {A} (a : per_segment A) (i : SegmentType) : A :=
  match i with
  | kText => at_text a
  | kRodata => at_rodata a
  | kData => at_data a
  end.

Definition seg_set {A} (a : per_segment A) (i : SegmentType) (x : A)
  : per_segment A :=
  match i with
  | kText => mkSegs x (at_rodata a) (at_data a)
  | kRodata => mkSegs (at_text a) x (at_data a)
  | kData => mkSegs (at_text a) (at_rodata a) x
  end.

Record SegmentHeader : Type := mkSeg {
  file_offset : Z;
  mem_offset : Z;
  mem_size : Z;
  bss_align : Z
}.

Module DataExtent.
Record t : Type := mk { offset : Z; size : Z }.
End DataExtent.

Record NsoHeader : Type := mkNsoHeader {
  magic : list byte;
  field_4 : Z;
  field_8 : Z;
  flags : Z;
  segments : per_segment SegmentHeader;
  gnu_build_id : list byte;
  segment_file_sizes : per_segment Z;
  field_6c : list byte;  (* u32[9], kept as its 36 bytes *)
  dynstr : DataExtent.t;
  dynsym : DataExtent.t;
  segment_digests : list byte  (* sha256_digest[3], 96 bytes *)
}.

Definition sizeof_NsoHeader : Z := 0x100.
Definition sizeof_NroHeader : Z := 0x70.
Definition sizeof_ModPointer : Z := 8.
Definition sizeof_ModHeader : Z := 28.

Definition nso_magic : list byte := String.list_byte_of_string "NSO0".
Definition nro_magic : list byte := String.list_byte_of_string "NRO0".
Definition mod_magic : list byte := String.list_byte_of_string "MOD0".

(** [NsoHeader header{}] *)
Definition zero_segment : SegmentHeader := mkSeg 0 0 0 0.
Definition zero_header : NsoHeader :=
  {| magic := zeros 4; field_4 := 0; field_8 := 0; flags := 0;
     segments := mkSegs zero_segment zero_segment zero_segment;
     gnu_build_id := zeros 32;
     segment_file_sizes := mkSegs 0 0 0;
     field_6c := zeros 36;
     dynstr := DataExtent.mk 0 0;
     dynsym := DataExtent.mk 0 0;
     segment_digests := zeros 96 |}.

(** *** The packed layout of NsoHeader *)

Definition take_bytes (n : nat) (bs : list byte) : list byte * list byte :=
  (take n bs, drop n bs).

Definition take_u32 (bs : list byte) : Z * list byte :=
  (le_value (take 4 bs), drop 4 bs).

Definition take_segment (bs : list byte) : SegmentHeader * list byte :=
  let '(fo, bs) := take_u32 bs in
  let '(mo, bs) := take_u32 bs in
  let '(ms, bs) := take_u32 bs in
  let '(ba, bs) := take_u32 bs in
  (mkSeg fo mo ms ba, bs).

Definition take_extent (bs : list byte) : DataExtent.t * list byte :=
  let '(o, bs) := take_u32 bs in
  let '(s, bs) := take_u32 bs in
  (DataExtent.mk o s, bs).

(** [memcpy(&header, &file[0], sizeof(header))] *)
Definition decode_NsoHeader (bs : list byte) : NsoHeader :=
  let '(mg, bs) := take_bytes 4 bs in
  let '(f4, bs) := take_u32 bs in
  let '(f8, bs) := take_u32 bs in
  let '(fl, bs) := take_u32 bs in
  let '(s0, bs) := take_segment bs in
  let '(s1, bs) := take_segment bs in
  let '(s2, bs) := take_segment bs in
  let '(id, bs) := take_bytes 32 bs in
  let '(z0, bs) := take_u32 bs in
  let '(z1, bs) := take_u32 bs in
  let '(z2, bs) := take_u32 bs in
  let '(f6c, bs) := take_bytes 36 bs in
  let '(dstr, bs) := take_extent bs in
  let '(dsym, bs) := take_extent bs in
  let '(dig, bs) := take_bytes 96 bs in
  {| magic := mg; field_4 := f4; field_8 := f8; flags := fl;
     segments := mkSegs s0 s1 s2;
     gnu_build_id := id;
     segment_file_sizes := mkSegs z0 z1 z2;
     field_6c := f6c;
     dynstr := dstr; dynsym := dsym;
     segment_digests := dig |}.

Definition encode_segment (s : SegmentHeader) : list byte :=
  le_bytes 4 (file_offset s) ++ le_bytes 4 (mem_offset s)
  ++ le_bytes 4 (mem_size s) ++ le_bytes 4 (bss_align s).

Definition encode_extent (e : DataExtent.t) : list byte :=
  le_bytes 4 (DataExtent.offset e) ++ le_bytes 4 (DataExtent.size e).

(** [memcpy(data.data(), &new_header, sizeof(NsoHeader))] *)
Definition encode_NsoHeader (h : NsoHeader) : list byte :=
  magic h ++ le_bytes 4 (field_4 h) ++ le_bytes 4 (field_8 h)
  ++ le_bytes 4 (flags h)
  ++ encode_segment (at_text (segments h))
  ++ encode_segment (at_rodata (segments h))
  ++ encode_segment (at_data (segments h))
  ++ gnu_build_id h
  ++ le_bytes 4 (at_text (segment_file_sizes h))
  ++ le_bytes 4 (at_rodata (segment_file_sizes h))
  ++ le_bytes 4 (at_data (segment_file_sizes h))
  ++ field_6c h
  ++ encode_extent (dynstr h) ++ encode_extent (dynsym h)
  ++ segment_digests h.

(** *** NroHeader, ModPointer, ModHeader *)

Record NroHeader : Type := mkNroHeader {
  nro_file_size : Z;
  nro_segments : per_segment DataExtent.t;
  nro_bss_size : Z;
  nro_gnu_build_id : list byte;
  nro_dynstr : DataExtent.t;
  nro_dynsym : DataExtent.t
}.

Definition read_extent (buf : list byte) (off : Z) : option DataExtent.t :=
  o ← read_u32 buf off;
  s ← read_u32 buf (off + 4);
  Some (DataExtent.mk o s).

(** The fields of the NroHeader at [off] that [Load] uses: file_size at +8,
    segments at +0x10, bss_size at +0x28, gnu_build_id at +0x30, dynstr at
    +0x60, dynsym at +0x68. *)
Definition read_NroHeader (buf : list byte) (off : Z) : option NroHeader :=
  fsz ← read_u32 buf (off + 8);
  s0 ← read_extent buf (off + 0x10);
  s1 ← read_extent buf (off + 0x18);
  s2 ← read_extent buf (off + 0x20);
  bss ← read_u32 buf (off + 0x28);
  id ← read_bytes buf (off + 0x30) 32;
  dstr ← read_extent buf (off + 0x60);
  dsym ← read_extent buf (off + 0x68);
  Some (mkNroHeader fsz (mkSegs s0 s1 s2) bss id dstr dsym).

Record ModHeader : Type := mkModHeader {
  mod_magic_bytes : list byte;
  dynamic_offset : Z;
  bss_start_offset : Z;
  bss_end_offset : Z;
  eh_start_offset : Z;
  eh_end_offset : Z;
  module_object_offset : Z
}.

Definition read_ModHeader (buf : list byte) (off : Z) : option ModHeader :=
  mg ← read_bytes buf off 4;
  dy ← read_s32 buf (off + 4);
  bs ← read_s32 buf (off + 8);
  be ← read_s32 buf (off + 12);
  es ← read_s32 buf (off + 16);
  ee ← read_s32 buf (off + 20);
  mo ← read_s32 buf (off + 24);
  Some (mkModHeader mg dy bs be es ee mo).

(** *** The members dyn_info, plt_info, eh_info *)

Module DynInfo.
Record t : Type := mk {
  symtab : Z; rela : Z; relasz : Z; jmprel : Z; pltrelsz : Z;
  strtab : Z; strsz : Z; pltgot : Z; hash : Z; gnu_hash : Z;
  init : Z; fini : Z; init_array : Z; init_arraysz : Z;
  fini_array : Z; fini_arraysz : Z
}.

Definition zero : t := mk 0 0 0 0 0 0 0 0 0 0 0 0 0 0 0 0.

(** The [switch (dyn->d_tag)] of [Load]. *)
Definition assign (tag v : Z) (d : t) : t :=
  let 'mk a b c e f g h i j k l m n o p q := d in
  if tag =? DT_SYMTAB then mk v b c e f g h i j k l m n o p q
  else if tag =? DT_RELA then mk a v c e f g h i j k l m n o p q
  else if tag =? DT_RELASZ then mk a b v e f g h i j k l m n o p q
  else if tag =? DT_JMPREL then mk a b c v f g h i j k l m n o p q
  else if tag =? DT_PLTRELSZ then mk a b c e v g h i j k l m n o p q
  else if tag =? DT_STRTAB then mk a b c e f v h i j k l m n o p q
  else if tag =? DT_STRSZ then mk a b c e f g v i j k l m n o p q
  else if tag =? DT_PLTGOT then mk a b c e f g h v j k l m n o p q
  else if tag =? DT_HASH then mk a b c e f g h i v k l m n o p q
  else if tag =? DT_GNU_HASH then mk a b c e f g h i j v l m n o p q
  else if tag =? DT_INIT then mk a b c e f g h i j k v m n o p q
  else if tag =? DT_FINI then mk a b c e f g h i j k l v n o p q
  else if tag =? DT_INIT_ARRAY then mk a b c e f g h i j k l m v o p q
  else if tag =? DT_INIT_ARRAYSZ then mk a b c e f g h i j k l m n v p q
  else if tag =? DT_FINI_ARRAY then mk a b c e f g h i j k l m n o v q
  else if tag =? DT_FINI_ARRAYSZ then mk a b c e f g h i j k l m n o p v
  else d.
End DynInfo.

Module PltInfo.
Record t : Type := mk { addr : Z; size : Z }.
End PltInfo.

Module EhInfo.
Record t : Type := mk {
  hdr_addr : Z; hdr_size : Z; frame_addr : Z; frame_size : Z
}.
Definition zero : t := mk 0 0 0 0.
End EhInfo.

(** The object.  Pointers into the image ([dynamic], [note]) are kept as
    offsets from [&image[0]]; [None] is the null pointer. *)
Record NsoFile : Type := mkNsoFile {
  file_type : FileType;
  header : NsoHeader;
  image : list byte;
  dynamic : option Z;
  note : option Z;
  dyn_info : DynInfo.t;
  plt_info : PltInfo.t;
  eh_info : EhInfo.t
}.

(** A default-initialised object.  The member [plt_info] has no initialiser
    in the class, so its value is whatever the caller's storage held. *)
Definition NsoFile_new (plt0 : PltInfo.t) : NsoFile :=
  {| file_type := kUnknown; header := zero_header; image := [];
     dynamic := None; note := None; dyn_info := DynInfo.zero;
     plt_info := plt0; eh_info := EhInfo.zero |}.

Definition set_file_type (v : FileType) (s : NsoFile) : NsoFile :=
  mkNsoFile v (header s) (image s) (dynamic s) (note s) (dyn_info s)
            (plt_info s) (eh_info s).
Definition set_header (v : NsoHeader) (s : NsoFile) : NsoFile :=
  mkNsoFile (file_type s) v (image s) (dynamic s) (note s) (dyn_info s)
            (plt_info s) (eh_info s).
Definition set_image (v : list byte) (s : NsoFile) : NsoFile :=
  mkNsoFile (file_type s) (header s) v (dynamic s) (note s) (dyn_info s)
            (plt_info s) (eh_info s).
Definition set_dynamic (v : option Z) (s : NsoFile) : NsoFile :=
  mkNsoFile (file_type s) (header s) (image s) v (note s) (dyn_info s)
            (plt_info s) (eh_info s).
Definition set_note (v : option Z) (s : NsoFile) : NsoFile :=
  mkNsoFile (file_type s) (header s) (image s) (dynamic s) v (dyn_info s)
            (plt_info s) (eh_info s).
Definition set_dyn_info (v : DynInfo.t) (s : NsoFile) : NsoFile :=
  mkNsoFile (file_type s) (header s) (image s) (dynamic s) (note s) v
            (plt_info s) (eh_info s).
Definition set_plt_info (v : PltInfo.t) (s : NsoFile) : NsoFile :=
  mkNsoFile (file_type s) (header s) (image s) (dynamic s) (note s)
            (dyn_info s) v (eh_info s).
Definition set_eh_info (v : EhInfo.t) (s : NsoFile) : NsoFile :=
  mkNsoFile (file_type s) (header s) (image s) (dynamic s) (note s)
            (dyn_info s) (plt_info s) v.

Definition set_segments (v : per_segment SegmentHeader) (h : NsoHeader)
  : NsoHeader :=
  mkNsoHeader (magic h) (field_4 h) (field_8 h) (flags h) v (gnu_build_id h)
              (segment_file_sizes h) (field_6c h) (dynstr h) (dynsym h)
              (segment_digests h).
Definition set_segment_file_sizes (v : per_segment Z) (h : NsoHeader)
  : NsoHeader :=
  mkNsoHeader (magic h) (field_4 h) (field_8 h) (flags h) (segments h)
              (gnu_build_id h) v (field_6c h) (dynstr h) (dynsym h)
              (segment_digests h).
Definition set_flags (v : Z) (h : NsoHeader) : NsoHeader :=
  mkNsoHeader (magic h) (field_4 h) (field_8 h) v (segments h)
              (gnu_build_id h) (segment_file_sizes h) (field_6c h) (dynstr h)
              (dynsym h) (segment_digests h).
Definition set_gnu_build_id (v : list byte) (h : NsoHeader) : NsoHeader :=
  mkNsoHeader (magic h) (field_4 h) (field_8 h) (flags h) (segments h) v
              (segment_file_sizes h) (field_6c h) (dynstr h) (dynsym h)
              (segment_digests h).
Definition set_dynstr (v : DataExtent.t) (h : NsoHeader) : NsoHeader :=
  mkNsoHeader (magic h) (field_4 h) (field_8 h) (flags h) (segments h)
              (gnu_build_id h) (segment_file_sizes h) (field_6c h) v
              (dynsym h) (segment_digests h).
Definition set_dynsym (v : DataExtent.t) (h : NsoHeader) : NsoHeader :=
  mkNsoHeader (magic h) (field_4 h) (field_8 h) (flags h) (segments h)
              (gnu_build_id h) (segment_file_sizes h) (field_6c h) (dynstr h)
              v (segment_digests h).

(** ** The symbol table and the dynamic table *)

(** The symbols [iter_dynsym] visits, in order: [dynsym.size / sizeof
    (Elf64_Sym)] entries from [&image[dyn_info.symtab]]. *)
Definition iter_dynsym (st : NsoFile) : option (list Elf64_Sym) :=
  mapM (fun i : nat =>
          read_sym (image st)
                   (DynInfo.symtab (dyn_info st)
                    + sizeof_Elf64_Sym * Z.of_nat i))
       (seq 0 (Z.to_nat (DataExtent.size (dynsym (header st))
                         / sizeof_Elf64_Sym))).

(** [for (auto dyn = dynamic; dyn->d_tag; dyn++) switch (dyn->d_tag) ...].
    Every step reads 16 bytes further, so a walk of more than [|image|]
    steps has left the image. *)
Fixpoint parse_dynamic (fuel : nat) (img : list byte) (off : Z)
    (d : DynInfo.t) : outcome DynInfo.t :=
  match fuel with
  | O => Undefined
  | S fuel' =>
      tag ← must (read_u64 img off);
      if tag =? 0 then Done d
      else
        val ← must (read_u64 img (off + 8));
        parse_dynamic fuel' img (off + sizeof_Elf64_Dyn)
                      (DynInfo.assign tag val d)
  end.

Definition walk_fuel (img : list byte) : nat := S (length img).

(** ** ResolvePlt *)

Definition plt_pattern : list Z :=
  [0xa9bf7bf0; 0xd00004d0; 0xf9428a11; 0x91144210;
   0xd61f0220; 0xd503201f; 0xd503201f; 0xd503201f].
Definition plt_mask : list Z :=
  [0xffffffff; 0x00000000; 0xff000000; 0xff000000;
   0xff000000; 0xffffffff; 0xffffffff; 0xffffffff].

Definition words_bytes (ws : list Z) : list byte :=
  concat (map (le_bytes 4) ws).

(** [base] is the offset of the scanned buffer in the image. *)
Definition ResolvePlt (st : NsoFile) (base len : Z)
  : outcome (bool * NsoFile) :=
  if negb (DynInfo.pltrelsz (dyn_info st) =? 0) then
    hay ← must (read_bytes (image st) base len);
    match memmem_m hay (words_bytes plt_pattern) (words_bytes plt_mask) with
    | Some found =>
        let plt_entry_count :=
          DynInfo.pltrelsz (dyn_info st) / sizeof_Elf64_Rela in
        let plt_entry_size := 4 * 4 in
        Done (true,
              set_plt_info
                (PltInfo.mk (base + found)
                   (u64 (plt_entry_size * 2
                         + plt_entry_size * plt_entry_count)))
                st)
    | None => Done (false, st)
    end
  else Done (false, st).

(** ** Sorting the observed section indices *)

Fixpoint insert_sorted (x : Z) (l : list Z) : list Z :=
  match l with
  | [] => [x]
  | y :: l' => if x <=? y then x :: l else y :: insert_sorted x l'
  end.

(** [std::sort] on a vector of u16. *)
Definition sort (l : list Z) : list Z := foldr insert_sorted [] l.

(** [std::unique] followed by [erase]: drop repeated neighbours. *)
Fixpoint unique (l : list Z) : list Z :=
  match l with
  | [] => []
  | x :: t =>
      match t with
      | [] => [x]
      | y :: _ => if x =? y then unique t else x :: unique t
      end
  end.

(** The indices pushed to [seen_shndx] by the first [iter_dynsym] of the
    raw-MOD path. *)
Definition collect_shndx (syms : list Elf64_Sym) : list Z :=
  st_shndx <$>
    filter (fun sym => negb ((st_shndx sym =? SHN_UNDEF)
                             || (SHN_LORESERVE <=? st_shndx sym))) syms.

Definition seen_shndx (syms : list Elf64_Sym) : list Z :=
  unique (sort (collect_shndx syms)).

(** The second [iter_dynsym] of the raw-MOD path: the value of
    [segments[kData].offset] after the loop. *)
Definition find_data_offset (data_shndx : Z) (syms : list Elf64_Sym) : Z :=
  foldl (fun off sym =>
           if (off =? 0)
              && (ELF64_ST_TYPE (st_info sym) =? STT_SECTION)
              && (st_shndx sym =? data_shndx)
           then u32 (st_value sym) else off)
        0 syms.

(** ** The build-id needle *)

(** Modelled from the spec: GnuBuildId of types.h, which is not part of the
    sources: an Elf64_Nhdr with namesz=4, descsz, type=3 followed by the
    owner "GNU" and its NUL; the description starts at offset 16. *)
Definition build_id_needle (descsz : Z) : list byte :=
  le_bytes 4 4 ++ le_bytes 4 descsz ++ le_bytes 4 3
  ++ String.list_byte_of_string "GNU" ++ [Byte.x00].

Definition offsetof_build_id : Z := 16.

(** One round of the note loop on segment [seg]. *)
Definition find_note_in (img : list byte) (seg : SegmentHeader)
  : outcome (option Z) :=
  hay ← must (read_bytes img (mem_offset seg) (mem_size seg));
  match memmemr hay (build_id_needle 16) with
  | Some i => Done (Some (mem_offset seg + i))
  | None =>
      match memmemr hay (build_id_needle 20) with
      | Some i => Done (Some (mem_offset seg + i))
      | None => Done None
      end
  end.

(** [for (auto i : {kRodata, kText, kData})], leaving at the first hit. *)
Definition find_note (img : list byte) (segs : per_segment SegmentHeader)
  : outcome (option Z) :=
  n ← find_note_in img (at_rodata segs);
  match n with
  | Some _ => Done n
  | None =>
      n ← find_note_in img (at_text segs);
      match n with
      | Some _ => Done n
      | None => find_note_in img (at_data segs)
      end
  end.

(** ** Load *)

Section Loader.

(** The LZ4 block decoder is an external collaborator: [LZ4_decompress_safe
    src dst_len] is the decoded bytes, whose number is the return value,
    or [None] for a negative return. *)
Variable LZ4_decompress_safe : list byte -> Z -> option (list byte).

(** [dst] is the offset of the destination in the image. *)
Definition Decompress (img : list byte) (dst dst_len : Z) (src : list byte)
  : outcome (bool * list byte) :=
  match LZ4_decompress_safe src dst_len with
  | Some out =>
      img' ← must (write_bytes img dst out);
      Done (bool_decide (0 < buf_size out), img')
  | None => Done (false, img)
  end.

(** The body of the segment loop of the NSO branch. *)
Definition load_segment (file : list byte) (h : NsoHeader)
    (i : SegmentType) (img : list byte) : outcome (list byte) :=
  let seg := seg_get (segments h) i in
  let file_size := seg_get (segment_file_sizes h) i in
  src ← must (read_bytes file (file_offset seg) file_size);
  if Z.testbit (flags h) (seg_index i) then
    '(ok, img') ← Decompress img (mem_offset seg) (mem_size seg) src;
    _ ← require ok;
    Done img'
  else must (write_bytes img (mem_offset seg) src).

Definition is_nso (file : list byte) : bool :=
  bool_decide (sizeof_NsoHeader <= buf_size file)
  && bool_decide (take 4 file = nso_magic).

Definition nro_offset : Z := ALIGN_UP sizeof_ModPointer 0x10.

Definition is_nro (file : list byte) : bool :=
  bool_decide (nro_offset + sizeof_NroHeader <= buf_size file)
  && bool_decide (read_bytes file nro_offset 4 = Some nro_magic).

Definition load_nso (this : NsoFile) (file : list byte) : outcome NsoFile :=
  let h := decode_NsoHeader (take (Z.to_nat sizeof_NsoHeader) file) in
  let data_seg := at_data (segments h) in
  let image_size :=
    u32 (u32 (mem_offset data_seg + mem_size data_seg)
         + bss_align data_seg) in
  img ← load_segment file h kText (zeros image_size);
  img ← load_segment file h kRodata img;
  img ← load_segment file h kData img;
  Done (set_file_type kNso (set_image img (set_header h this))).

Definition nro_segment (nro : NroHeader) (i : SegmentType)
  : SegmentHeader :=
  let e := seg_get (nro_segments nro) i in
  {| file_offset := DataExtent.offset e;
     mem_offset := DataExtent.offset e;
     mem_size := DataExtent.size e;
     bss_align := match i with
                  | kText => 0x100
                  | kRodata => 1
                  | kData => nro_bss_size nro
                  end |}.

Definition load_nro (this : NsoFile) (file : list byte) : outcome NsoFile :=
  nro ← must (read_NroHeader file nro_offset);
  _ ← require (bool_decide (nro_file_size nro = buf_size file));
  let h := header this in
  let h := set_segments (mkSegs (nro_segment nro kText)
                                (nro_segment nro kRodata)
                                (nro_segment nro kData)) h in
  let h := set_segment_file_sizes
             (mkSegs (DataExtent.size (at_text (nro_segments nro)))
                     (DataExtent.size (at_rodata (nro_segments nro)))
                     (DataExtent.size (at_data (nro_segments nro)))) h in
  let h := set_gnu_build_id (nro_gnu_build_id nro) h in
  let h := set_dynstr (nro_dynstr nro) h in
  let h := set_dynsym (nro_dynsym nro) h in
  Done (set_file_type kNro (set_image file (set_header h this))).

(** The container probe: the NSO branch, the NRO branch, or neither. *)
Definition load_container (this : NsoFile) (file : list byte)
  : outcome NsoFile :=
  if is_nso file then load_nso this file
  else if is_nro file then load_nro this file
  else Done this.

(** [mod_ptr->magic_offset] with its bounds check, in buffer [buf]. *)
Definition locate_mod (buf : list byte) : outcome Z :=
  magic_offset ← must (read_u32 buf 4);
  _ ← require (negb (bool_decide
                 (buf_size buf < magic_offset + sizeof_ModHeader)));
  Done magic_offset.

Definition mod_get_offset (mod_base relative_offset : Z) : Z :=
  u32 (mod_base + relative_offset).

(** The raw-MOD part of [Load]: the segment table is rebuilt from the PLT
    and the symbols. *)
Definition synthesize_mod (mod_base : Z) (mod_hdr : ModHeader)
    (st : NsoFile) : outcome NsoFile :=
  '(found, st) ← ResolvePlt st 0 (buf_size (image st));
  _ ← require found;
  _ ← require (negb (bool_decide (DynInfo.strtab (dyn_info st)
                                  <= DynInfo.symtab (dyn_info st))));
  let h := header st in
  let h := set_dynsym
             (DataExtent.mk (DataExtent.offset (dynsym h))
                (u32 (DynInfo.strtab (dyn_info st)
                      - DynInfo.symtab (dyn_info st)))) h in
  let st := set_header h st in
  syms ← must (iter_dynsym st);
  let seen := seen_shndx syms in
  _ ← require (bool_decide (Z.of_nat (length seen) = kNumSegment + 1));
  let data_offset := find_data_offset (seen !!! 2%nat) syms in
  _ ← require (negb (data_offset =? 0));
  let text_offset := 0 in
  let text_size :=
    u32 (PltInfo.addr (plt_info st) + PltInfo.size (plt_info st)) in
  let rodata_offset := u32 (ALIGN_UP (u32 (text_offset + text_size)) 0x1000) in
  let rodata_size := u32 (data_offset - rodata_offset) in
  let data_size := u32 (buf_size (image st) - data_offset) in
  let h := set_dynstr
             (DataExtent.mk
                (u32 (DynInfo.strtab (dyn_info st) - rodata_offset))
                (u32 (DynInfo.strsz (dyn_info st)))) h in
  let h := set_dynsym
             (DataExtent.mk
                (u32 (DynInfo.symtab (dyn_info st) - rodata_offset))
                (DataExtent.size (dynsym h))) h in
  let bss :=
    u32 (mod_get_offset mod_base (bss_end_offset mod_hdr)
         - mod_get_offset mod_base (bss_start_offset mod_hdr)) in
  let h := set_segments
             (mkSegs (mkSeg text_offset text_offset text_size 0x100)
                     (mkSeg rodata_offset rodata_offset rodata_size 1)
                     (mkSeg data_offset data_offset data_size
                            (u32 (ALIGN_UP bss 0x1000 + 1)))) h in
  let h := set_segment_file_sizes
             (mkSegs text_size rodata_size data_size) h in
  Done (set_header h st).

(** [memcpy(header.gnu_build_id.data(), build_id->build_id_raw.data(),
    n_descsz)] for a raw MOD whose note was found. *)
Definition copy_build_id (st : NsoFile) : outcome NsoFile :=
  match file_type st, note st with
  | kMod, Some n =>
      descsz ← must (read_u32 (image st) (n + 4));
      raw ← must (read_bytes (image st) (n + offsetof_build_id) descsz);
      id ← must (write_bytes (gnu_build_id (header st)) 0 raw);
      Done (set_header (set_gnu_build_id id (header st)) st)
  | _, _ => Done st
  end.

(** [Load] after the container probe. *)
Definition finish_load (file : list byte) (st : NsoFile)
  : outcome NsoFile :=
  mod_base ←
    (if negb (bool_decide (file_type st = kUnknown)) then
       locate_mod (image st)
     else if bool_decide (sizeof_ModPointer <= buf_size file) then
       locate_mod file
     else Refused);
  let buf :=
    if bool_decide (file_type st = kUnknown) then file else image st in
  mod_hdr ← must (read_ModHeader buf mod_base);
  _ ← require (bool_decide (mod_magic_bytes mod_hdr = mod_magic));
  let st :=
    if bool_decide (file_type st = kUnknown)
    then set_file_type kMod (set_image file st) else st in
  let dyn := mod_base + dynamic_offset mod_hdr in
  let st := set_dynamic (Some dyn) st in
  info ← parse_dynamic (walk_fuel (image st)) (image st) dyn (dyn_info st);
  let st := set_dyn_info info st in
  st ←
    (if bool_decide (file_type st = kMod) then
       synthesize_mod mod_base mod_hdr st
     else
       let text_seg := at_text (segments (header st)) in
       '(_, st) ← ResolvePlt st (mem_offset text_seg) (mem_size text_seg);
       Done st);
  n ← find_note (image st) (segments (header st));
  let st := set_note n st in
  st ← copy_build_id st;
  let hdr_addr := mod_get_offset mod_base (eh_start_offset mod_hdr) in
  Done (set_eh_info
          (EhInfo.mk hdr_addr
             (u64 (mod_get_offset mod_base (eh_end_offset mod_hdr)
                   - hdr_addr))
             (EhInfo.frame_addr (eh_info st))
             (EhInfo.frame_size (eh_info st)))
          st).

Definition Load (this : NsoFile) (file : list byte) : outcome NsoFile :=
  st ← load_container this file;
  finish_load file st.

(** ** WriteUncompressedNso *)

Definition fix_segment (s : SegmentHeader) (align : Z) : SegmentHeader :=
  {| file_offset := u32 (mem_offset s + sizeof_NsoHeader);
     mem_offset := mem_offset s;
     mem_size := mem_size s;
     bss_align := align |}.

Definition uncompressed_header (h : NsoHeader) : NsoHeader :=
  let h := set_flags (Z.land (flags h) 0xf8) h in
  let h := set_segment_file_sizes
             (mkSegs (mem_size (at_text (segments h)))
                     (mem_size (at_rodata (segments h)))
                     (mem_size (at_data (segments h)))) h in
  set_segments
    (mkSegs (fix_segment (at_text (segments h)) 0x100)
            (fix_segment (at_rodata (segments h)) 0)
            (fix_segment (at_data (segments h))
                         (bss_align (at_data (segments h))))) h.

(** The bytes handed to [File::Write]. *)
Definition WriteUncompressedNso (st : NsoFile) : outcome (list byte) :=
  let new_header := uncompressed_header (header st) in
  let data_seg := at_data (segments new_header) in
  let image_size := u32 (mem_offset data_seg + mem_size data_seg) in
  body ← must (read_bytes (image st) 0 image_size);
  Done (encode_NsoHeader new_header ++ body).

End Loader.

(** ** The ELF structures written by WriteElf *)

Definition SHT_NULL : Z := 0.
Definition SHT_PROGBITS : Z := 1.
Definition SHT_STRTAB : Z := 3.
Definition SHT_RELA : Z := 4.
Definition SHT_HASH : Z := 5.
Definition SHT_DYNAMIC : Z := 6.
Definition SHT_NOTE : Z := 7.
Definition SHT_NOBITS : Z := 8.
Definition SHT_DYNSYM : Z := 11.
Definition SHT_INIT_ARRAY : Z := 14.
Definition SHT_FINI_ARRAY : Z := 15.
Definition SHT_GNU_HASH : Z := 0x6ffffff6.

Definition SHF_WRITE : Z := 1.
Definition SHF_ALLOC : Z := 2.
Definition SHF_EXECINSTR : Z := 4.
Definition SHF_INFO_LINK : Z := 0x40.

Definition PT_LOAD : Z := 1.
Definition PT_DYNAMIC : Z := 2.
Definition PT_GNU_EH_FRAME : Z := 0x6474e550.
Definition PF_X : Z := 1.
Definition PF_W : Z := 2.
Definition PF_R : Z := 4.

Definition ET_DYN : Z := 3.
Definition EM_AARCH64 : Z := 183.
Definition EV_CURRENT : Z := 1.

Record Elf64_Shdr : Type := mkShdr {
  sh_name : Z;
  sh_type : Z;
  sh_flags : Z;
  sh_addr : Z;
  sh_offset : Z;
  sh_size : Z;
  sh_link : Z;
  sh_info : Z;
  sh_addralign : Z;
  sh_entsize : Z
}.

Definition zero_shdr : Elf64_Shdr := mkShdr 0 0 0 0 0 0 0 0 0 0.

Definition set_sh_offset (v : Z) (s : Elf64_Shdr) : Elf64_Shdr :=
  mkShdr (sh_name s) (sh_type s) (sh_flags s) (sh_addr s) v (sh_size s)
         (sh_link s) (sh_info s) (sh_addralign s) (sh_entsize s).

Definition encode_shdr (s : Elf64_Shdr) : list byte :=
  le_bytes 4 (sh_name s) ++ le_bytes 4 (sh_type s) ++ le_bytes 8 (sh_flags s)
  ++ le_bytes 8 (sh_addr s) ++ le_bytes 8 (sh_offset s)
  ++ le_bytes 8 (sh_size s) ++ le_bytes 4 (sh_link s)
  ++ le_bytes 4 (sh_info s) ++ le_bytes 8 (sh_addralign s)
  ++ le_bytes 8 (sh_entsize s).

Record Elf64_Phdr : Type := mkPhdr {
  p_type : Z;
  p_flags : Z;
  p_offset : Z;
  p_vaddr : Z;
  p_paddr : Z;
  p_filesz : Z;
  p_memsz : Z;
  p_align : Z
}.

#[global] Instance Elf64_Phdr_inhabited : Inhabited Elf64_Phdr :=
  populate (mkPhdr 0 0 0 0 0 0 0 0).

Definition encode_phdr (p : Elf64_Phdr) : list byte :=
  le_bytes 4 (p_type p) ++ le_bytes 4 (p_flags p) ++ le_bytes 8 (p_offset p)
  ++ le_bytes 8 (p_vaddr p) ++ le_bytes 8 (p_paddr p)
  ++ le_bytes 8 (p_filesz p) ++ le_bytes 8 (p_memsz p)
  ++ le_bytes 8 (p_align p).

Record Elf64_Ehdr : Type := mkEhdr {
  e_ident : list byte;
  e_type : Z;
  e_machine : Z;
  e_version : Z;
  e_entry : Z;
  e_phoff : Z;
  e_shoff : Z;
  e_flags : Z;
  e_ehsize : Z;
  e_phentsize : Z;
  e_phnum : Z;
  e_shentsize : Z;
  e_shnum : Z;
  e_shstrndx : Z
}.

Definition encode_ehdr (e : Elf64_Ehdr) : list byte :=
  e_ident e ++ le_bytes 2 (e_type e) ++ le_bytes 2 (e_machine e)
  ++ le_bytes 4 (e_version e) ++ le_bytes 8 (e_entry e)
  ++ le_bytes 8 (e_phoff e) ++ le_bytes 8 (e_shoff e)
  ++ le_bytes 4 (e_flags e) ++ le_bytes 2 (e_ehsize e)
  ++ le_bytes 2 (e_phentsize e) ++ le_bytes 2 (e_phnum e)
  ++ le_bytes 2 (e_shentsize e) ++ le_bytes 2 (e_shnum e)
  ++ le_bytes 2 (e_shstrndx e).

Definition set_e_shstrndx (v : Z) (e : Elf64_Ehdr) : Elf64_Ehdr :=
  mkEhdr (e_ident e) (e_type e) (e_machine e) (e_version e) (e_entry e)
         (e_phoff e) (e_shoff e) (e_flags e) (e_ehsize e) (e_phentsize e)
         (e_phnum e) (e_shentsize e) (e_shnum e) v.

(** [{ELF_MAGIC, ELFCLASS64, ELFDATA2LSB, EV_CURRENT, ELFOSABI_NONE, 0}] *)
Definition elf_ident : list byte :=
  [Byte.x7f; Byte.x45; Byte.x4c; Byte.x46; Byte.x02; Byte.x01; Byte.x01;
   Byte.x00] ++ zeros 8.

(** ** WriteElf: profiling the sections from dynsym *)

Definition segment_name (i : SegmentType) : string :=
  match i with
  | kText => ".text"
  | kRodata => ".rodata"
  | kData => ".data"
  end.

Definition segment_sh_flags (i : SegmentType) : Z :=
  match i with
  | kText => Z.lor SHF_ALLOC SHF_EXECINSTR
  | kData => Z.lor SHF_ALLOC SHF_WRITE
  | kRodata => SHF_ALLOC
  end.

(** One iteration of the loop of the lambda [vaddr_to_shdr]. *)
Definition vaddr_to_shdr_step (h : NsoHeader) (vaddr : Z)
    (acc : Elf64_Shdr * StringTable.t) (i : SegmentType)
  : Elf64_Shdr * StringTable.t :=
  let shdr := acc.1 in
  let seg := seg_get (segments h) i in
  let seg_mem_end := u32 (mem_offset seg + mem_size seg) in
  if (mem_offset seg <=? vaddr) && (vaddr <? seg_mem_end) then
    let tbl := StringTable.AddString (segment_name i) acc.2 in
    (mkShdr (StringTable.GetOffset (segment_name i) tbl) SHT_PROGBITS
            (segment_sh_flags i) (mem_offset seg) (sh_offset shdr)
            (mem_size seg) (sh_link shdr) (sh_info shdr) 8
            (sh_entsize shdr), tbl)
  else if bool_decide (i = kData) && (seg_mem_end <=? vaddr)
          && (vaddr <=? u32 (seg_mem_end + bss_align seg)) then
    let tbl := StringTable.AddString ".bss" acc.2 in
    (mkShdr (StringTable.GetOffset ".bss" tbl) SHT_NOBITS
            (Z.lor SHF_ALLOC SHF_WRITE) seg_mem_end (sh_offset shdr)
            (bss_align seg) (sh_link shdr) (sh_info shdr) 8
            (sh_entsize shdr), tbl)
  else acc.

Definition vaddr_to_shdr (h : NsoHeader) (vaddr : Z) (tbl : StringTable.t)
  : Elf64_Shdr * StringTable.t :=
  foldl (vaddr_to_shdr_step h vaddr) (zero_shdr, tbl) [kText; kRodata; kData].

(** The locals [num_shdrs], [known_sections] and [shstrtab]. *)
Record Profile : Type := mkProfile {
  num_shdrs : Z;
  known_sections : gmap Z Elf64_Shdr;
  shstrtab : StringTable.t
}.

(** The body of the first [iter_dynsym] of [WriteElf]. *)
Definition profile_sym (h : NsoHeader) (p : Profile) (sym : Elf64_Sym)
  : Profile :=
  if SHN_LORESERVE <=? st_shndx sym then p
  else
    let n := Z.max (num_shdrs p) (st_shndx sym) in
    if negb (st_shndx sym =? SHT_NULL)
       && bool_decide (known_sections p !! st_shndx sym = None) then
      let '(shdr, tbl) := vaddr_to_shdr h (st_value sym) (shstrtab p) in
      if negb (sh_type shdr =? SHT_NULL)
      then mkProfile n (<[st_shndx sym := shdr]> (known_sections p)) tbl
      else mkProfile n (known_sections p) tbl
    else mkProfile n (known_sections p) (shstrtab p).

(** The loop of [next_free]: [for (i = ...; i < SHN_LORESERVE; i++) if
    (!known_sections.count(i)) return i;] and [return SHN_UNDEF] after it.
    [fuel] bounds the number of rounds. *)
Fixpoint next_free_from (fuel : nat) (known : gmap Z Elf64_Shdr) (i : Z) : Z :=
  match fuel with
  | O => SHN_UNDEF
  | S fuel' =>
      if i <? SHN_LORESERVE then
        match known !! i with
        | None => i
        | Some _ => next_free_from fuel' known (i + 1)
        end
      else SHN_UNDEF
  end.

(** [next_free]: the first index after [start], below SHN_LORESERVE, that
    is not a key of [known]; the loop variable is a u16. *)
Definition next_free (known : gmap Z Elf64_Shdr) (start : Z) : Z :=
  next_free_from (Z.to_nat SHN_LORESERVE) known (u16 (start + 1)).

(** One of the four [if (shndx != SHN_UNDEF && !shstrtab.GetOffset(name) &&
    size > 0)] blocks; the state is [(shndx, profile)]. *)
Definition add_known (h : NsoHeader) (name : string) (sz vaddr : Z)
    (acc : Z * Profile) : Z * Profile :=
  let '(shndx, p) := acc in
  if negb (shndx =? SHN_UNDEF)
     && (StringTable.GetOffset name (shstrtab p) =? 0)
     && (0 <? sz) then
    let '(shdr, tbl) := vaddr_to_shdr h vaddr (shstrtab p) in
    let known := <[shndx := shdr]> (known_sections p) in
    (next_free known shndx, mkProfile (num_shdrs p) known tbl)
  else acc.

Definition add_known_segments (h : NsoHeader) (p : Profile) : Profile :=
  if bool_decide (Z.of_nat (size (known_sections p)) = kNumSegment + 1)
  then p
  else
    let text := at_text (segments h) in
    let rodata := at_rodata (segments h) in
    let data := at_data (segments h) in
    let acc := (next_free (known_sections p) SHN_UNDEF, p) in
    let acc := add_known h ".text" (mem_size text) (mem_offset text) acc in
    let acc :=
      add_known h ".rodata" (mem_size rodata) (mem_offset rodata) acc in
    let acc := add_known h ".data" (mem_size data) (mem_offset data) acc in
    let acc := add_known h ".bss" (bss_align data)
                         (u32 (mem_offset data + mem_size data)) acc in
    acc.2.

Definition profile_sections (st : NsoFile) : outcome Profile :=
  syms ← must (iter_dynsym st);
  let p0 := mkProfile 0 ∅ (StringTable.AddString ".shstrtab"
                             StringTable.init) in
  Done (add_known_segments (header st)
          (foldl (profile_sym (header st)) p0 syms)).

(** ** WriteElf: which optional sections are needed *)

(** [count] relocation entries from [&image[table]]. *)
Definition read_relas (img : list byte) (table count : Z)
  : option (list Elf64_Rela) :=
  mapM (fun i : nat => read_rela img (table + sizeof_Elf64_Rela * Z.of_nat i))
       (seq 0 (Z.to_nat count)).

(** The running maximum of [r_offset + sizeof(u64)] over the entries of
    type [ty]. *)
Definition max_reloc_end (ty : Z) (start : Z) (relas : list Elf64_Rela) : Z :=
  foldl (fun acc r =>
           if ELF64_R_TYPE (r_info r) =? ty
           then Z.max acc (u64 (r_offset r + 8)) else acc)
        start relas.

Definition jump_slot_end (st : NsoFile) : outcome Z :=
  if negb (DynInfo.jmprel (dyn_info st) =? 0) then
    relas ← must (read_relas (image st) (DynInfo.jmprel (dyn_info st))
                    (DynInfo.pltrelsz (dyn_info st) / sizeof_Elf64_Rela));
    Done (max_reloc_end R_AARCH64_JUMP_SLOT 0 relas)
  else Done 0.

(** The search for the pointer to the dynamic table behind the jump slots. *)
Definition find_got (st : NsoFile) (dyn jump_slot_addr_end : Z) : outcome Z :=
  if negb (jump_slot_addr_end =? 0) then
    hay ← must (read_bytes (image st) jump_slot_addr_end
                  (buf_size (image st) - jump_slot_addr_end));
    match memmem hay (le_bytes 8 dyn) with
    | Some found => Done (jump_slot_addr_end + found)
    | None => Done 0
    end
  else Done 0.

(** [for (int i = 0;; i++) if (init_ptr[i] == 0xd65f03c0) ...]: the loop has
    no bound of its own; a word outside the image ends the run. *)
Fixpoint scan_init (fuel : nat) (img : list byte) (init_off i : Z)
  : outcome Z :=
  match fuel with
  | O => Undefined
  | S fuel' =>
      w ← must (read_u32 img (init_off + 4 * i));
      if w =? 0xd65f03c0 then Done (u32 ((i + 1) * 4))
      else scan_init fuel' img init_off (i + 1)
  end.

(** [for (int i = 0; i < 0x20; i++) if ((fini_ptr[i] & 0xff000000) ==
    0x14000000) ...]; [n] is the number of rounds left. *)
Fixpoint scan_fini (n : nat) (img : list byte) (fini_off i : Z)
  : outcome Z :=
  match n with
  | O => Done 0
  | S n' =>
      w ← must (read_u32 img (fini_off + 4 * i));
      if Z.land w 0xff000000 =? 0x14000000 then Done (u32 ((i + 1) * 4))
      else scan_fini n' img fini_off (i + 1)
  end.

Definition init_ret_offset_of (st : NsoFile) : outcome Z :=
  if negb (DynInfo.init (dyn_info st) =? 0)
  then scan_init (walk_fuel (image st)) (image st)
                 (DynInfo.init (dyn_info st)) 0
  else Done 0.

Definition fini_branch_offset_of (st : NsoFile) : outcome Z :=
  if negb (DynInfo.fini (dyn_info st) =? 0)
  then scan_fini 0x20 (image st) (DynInfo.fini (dyn_info st)) 0
  else Done 0.

Module Present.
Record t : Type := mk {
  plt : bool; got : bool; got_plt : bool; rela_plt : bool;
  hash : bool; gnu_hash : bool; init : bool; fini : bool;
  init_array : bool; fini_array : bool; note : bool; eh : bool
}.

(** What the flags add to [shdrs_needed]; [eh] stands for two sections. *)
Definition count (p : t) : Z :=
  Z.b2z (plt p) + Z.b2z (got p) + Z.b2z (got_plt p) + Z.b2z (rela_plt p)
  + Z.b2z (hash p) + Z.b2z (gnu_hash p) + Z.b2z (init p) + Z.b2z (fini p)
  + Z.b2z (init_array p) + Z.b2z (fini_array p) + Z.b2z (note p)
  + 2 * Z.b2z (eh p).
End Present.

Definition nonzero (z : Z) : bool := negb (z =? 0).

(** The values found while deciding what is present. *)
Record Inferred : Type := mkInferred {
  jump_slot_addr_end : Z;
  got_addr : Z;
  init_ret_offset : Z;
  fini_branch_offset : Z
}.

Definition infer (st : NsoFile) (dyn : Z) : outcome Inferred :=
  jse ← jump_slot_end st;
  got ← find_got st dyn jse;
  ini ← init_ret_offset_of st;
  fin ← fini_branch_offset_of st;
  Done (mkInferred jse got ini fin).

Definition present_of (st : NsoFile) (inf : Inferred) (eh : bool)
  : Present.t :=
  let d := dyn_info st in
  let got_plt :=
    nonzero (jump_slot_addr_end inf) && nonzero (DynInfo.pltgot d) in
  {| Present.plt := nonzero (PltInfo.addr (plt_info st));
     Present.got := nonzero (got_addr inf) && nonzero (DynInfo.rela d);
     Present.got_plt := got_plt;
     Present.rela_plt :=
       got_plt && nonzero (DynInfo.jmprel d) && nonzero (DynInfo.pltrelsz d);
     Present.hash := nonzero (DynInfo.hash d);
     Present.gnu_hash := nonzero (DynInfo.gnu_hash d);
     Present.init :=
       nonzero (DynInfo.init d) && nonzero (init_ret_offset inf);
     Present.fini :=
       nonzero (DynInfo.fini d) && nonzero (fini_branch_offset inf);
     Present.init_array :=
       nonzero (DynInfo.init_array d) && nonzero (DynInfo.init_arraysz d);
     Present.fini_array :=
       nonzero (DynInfo.fini_array d) && nonzero (DynInfo.fini_arraysz d);
     Present.note := bool_decide (is_Some (note st));
     Present.eh := eh |}.

Definition add_if (b : bool) (name : string) (tbl : StringTable.t)
  : StringTable.t :=
  if b then StringTable.AddString name tbl else tbl.

(** The names added to [shstrtab] after the profile, in program order. *)
Definition add_names (p : Present.t) (tbl : StringTable.t) : StringTable.t :=
  let tbl := StringTable.AddString ".dynstr" tbl in
  let tbl := StringTable.AddString ".dynsym" tbl in
  let tbl := StringTable.AddString ".dynamic" tbl in
  let tbl := StringTable.AddString ".rela.dyn" tbl in
  let tbl := add_if (Present.eh p) ".eh_frame_hdr" tbl in
  let tbl := add_if (Present.eh p) ".eh_frame" tbl in
  let tbl := add_if (Present.plt p) ".plt" tbl in
  let tbl := add_if (Present.got p) ".got" tbl in
  let tbl := add_if (Present.got_plt p) ".got.plt" tbl in
  let tbl := add_if (Present.rela_plt p) ".rela.plt" tbl in
  let tbl := add_if (Present.hash p) ".hash" tbl in
  let tbl := add_if (Present.gnu_hash p) ".gnu.hash" tbl in
  let tbl := add_if (Present.init p) ".init" tbl in
  let tbl := add_if (Present.fini p) ".fini" tbl in
  let tbl := add_if (Present.init_array p) ".init_array" tbl in
  let tbl := add_if (Present.fini_array p) ".fini_array" tbl in
  add_if (Present.note p) ".note" tbl.

(** [shdrs_needed] and the final [num_shdrs] (a u16). *)
Definition shdrs_needed (prof : Profile) (p : Present.t) : Z :=
  Z.of_nat (size (known_sections prof)) - u16 (num_shdrs prof + 1)
  + 1 + 1 + 4 + Present.count p.

Definition final_num_shdrs (prof : Profile) (p : Present.t) : Z :=
  let n := u16 (num_shdrs prof + 1) in
  if 0 <? shdrs_needed prof p then u16 (n + shdrs_needed prof p) else n.

(** ** WriteElf: program headers *)

Definition kNumPhdrs : Z := kNumSegment + 2.

Definition segment_p_flags (i : SegmentType) : Z :=
  match i with
  | kText => Z.lor PF_R PF_X
  | kRodata => PF_R
  | kData => Z.lor PF_R PF_W
  end.

Definition load_phdr (i : SegmentType) (seg : SegmentHeader)
    (data_offset_cur : Z) : Elf64_Phdr :=
  {| p_type := PT_LOAD;
     p_flags := segment_p_flags i;
     p_offset := data_offset_cur;
     p_vaddr := mem_offset seg;
     p_paddr := mem_offset seg;
     p_filesz := mem_size seg;
     p_memsz := match i with
                | kData => u32 (mem_size seg + bss_align seg)
                | _ => mem_size seg
                end;
     p_align := match i with
                | kData => 1
                | _ => Z.max 1 (bss_align seg)
                end |}.

(** The lambda [vaddr_to_foffset], over the PT_LOAD headers written so
    far. *)
Fixpoint vaddr_to_foffset (loads : list Elf64_Phdr) (vaddr : Z) : Z :=
  match loads with
  | [] => 0
  | phdr :: rest =>
      if (p_vaddr phdr <=? vaddr)
         && (vaddr <? u64 (p_vaddr phdr + p_filesz phdr))
      then u64 (p_offset phdr + (vaddr - p_vaddr phdr))
      else vaddr_to_foffset rest vaddr
  end.

(** [for (auto dyn = dynamic; dyn->d_tag; dyn++) dyn_size += sizeof
    (Elf64_Dyn)], started at [sizeof(Elf64_Dyn)]. *)
Fixpoint dyn_size_walk (fuel : nat) (img : list byte) (off acc : Z)
  : outcome Z :=
  match fuel with
  | O => Undefined
  | S fuel' =>
      tag ← must (read_u64 img off);
      if tag =? 0 then Done acc
      else dyn_size_walk fuel' img (off + sizeof_Elf64_Dyn)
                         (acc + sizeof_Elf64_Dyn)
  end.

(** The sh_offset fix-up of the known sections that start a segment. *)
Definition fixup_sh_offset (phdr : Elf64_Phdr) (known : gmap Z Elf64_Shdr)
  : gmap Z Elf64_Shdr :=
  (fun s => if sh_addr s =? p_vaddr phdr
            then set_sh_offset (p_offset phdr) s else s) <$> known.

(** ** WriteElf: the section header table *)

(** [shdrs[known_section.first] = known_section.second] for every known
    section. *)
Definition place_known (known : gmap Z Elf64_Shdr) (shdrs : list Elf64_Shdr)
  : option (list Elf64_Shdr) :=
  foldr (fun (entry : Z * Elf64_Shdr) acc =>
           tbl ← acc;
           if bool_decide (0 <= entry.1 < Z.of_nat (length tbl))
           then Some (<[Z.to_nat entry.1 := entry.2]> tbl)
           else None)
        (Some shdrs) (map_to_list known).

(** The start index demanded by the "ordered" flag. *)
Definition ordered_start (known : gmap Z Elf64_Shdr) (shdr : Elf64_Shdr) : Z :=
  foldr (fun (entry : Z * Elf64_Shdr) start =>
           if (sh_addr entry.2 <=? sh_addr shdr)
              && (sh_addr shdr <? u64 (sh_addr entry.2 + sh_size entry.2))
           then u32 (entry.1 + 1) else start)
        1 (map_to_list known).

(** The first index [i >= start] with [shdrs[i].sh_type == SHT_NULL]. *)
Definition first_null_from (shdrs : list Elf64_Shdr) (start : Z) : option Z :=
  (fun r : nat * Elf64_Shdr => start + Z.of_nat r.1) <$>
    list_find (fun s => sh_type s = SHT_NULL) (drop (Z.to_nat start) shdrs).

(** The lambda [insert_shdr]: the index used (SHN_UNDEF when none is free)
    and the table after the call. *)
Definition insert_shdr (known : gmap Z Elf64_Shdr) (shdr : Elf64_Shdr)
    (ordered : bool) (shdrs : list Elf64_Shdr) : Z * list Elf64_Shdr :=
  let start := if ordered then ordered_start known shdr else 1 in
  match first_null_from shdrs start with
  | Some i => (i, <[Z.to_nat i := shdr]> shdrs)
  | None =>
      if ordered && negb (start =? 1) then
        match first_null_from shdrs 1 with
        | Some i => (i, <[Z.to_nat i := shdr]> shdrs)
        | None => (SHN_UNDEF, shdrs)
        end
      else (SHN_UNDEF, shdrs)
  end.

(** [if (present.x) { ...; insert_shdr(shdr, ordered) }] *)
Definition insert_if (b : bool) (known : gmap Z Elf64_Shdr)
    (shdr : Elf64_Shdr) (ordered : bool) (shdrs : list Elf64_Shdr)
  : Z * list Elf64_Shdr :=
  if b then insert_shdr known shdr ordered shdrs else (SHN_UNDEF, shdrs).

(** Values read from the image for the sizes of .got, .hash, .gnu.hash and
    .note; each is read only when its section is present. *)
Record Measured : Type := mkMeasured {
  glob_dat_end : Z;
  hash_size : Z;
  gnu_hash_len : Z;
  note_addr : Z;
  note_size : Z
}.

Definition measure (st : NsoFile) (inf : Inferred) (p : Present.t)
  : outcome Measured :=
  let d := dyn_info st in
  gde ← (if Present.got p then
           relas ← must (read_relas (image st) (DynInfo.rela d)
                           (DynInfo.relasz d / sizeof_Elf64_Rela));
           Done (max_reloc_end R_AARCH64_GLOB_DAT (got_addr inf) relas)
         else Done 0);
  hsz ← (if Present.hash p then
           nbucket ← must (read_u32 (image st) (DynInfo.hash d));
           nchain ← must (read_u32 (image st) (DynInfo.hash d + 4));
           Done (u64 (8 + nbucket * 4 + nchain * 4))
         else Done 0);
  gsz ← (if Present.gnu_hash p then
           nbuckets ← must (read_u32 (image st) (DynInfo.gnu_hash d));
           symndx ← must (read_u32 (image st) (DynInfo.gnu_hash d + 4));
           maskwords ← must (read_u32 (image st) (DynInfo.gnu_hash d + 8));
           let dynsymcount :=
             DataExtent.size (dynsym (header st)) / sizeof_Elf64_Sym in
           Done (u64 (16 + maskwords * 8 + nbuckets * 4
                      + u64 (dynsymcount - symndx) * 4))
         else Done 0);
  '(na, nsz) ← (match note st with
                | Some n =>
                    namesz ← must (read_u32 (image st) n);
                    descsz ← must (read_u32 (image st) (n + 4));
                    Done (u64 n, u64 (sizeof_Elf64_Nhdr + descsz + namesz))
                | None => Done (0, 0)
                end);
  Done (mkMeasured gde hsz gsz na nsz).

(** What WriteElf hands to [File::Write], with the typed views of its
    header tables. *)
Record ElfOut : Type := mkElfOut {
  elf : list byte;
  ehdr : Elf64_Ehdr;
  phdrs : list Elf64_Phdr;
  shdrs : list Elf64_Shdr;
  out_shstrtab : StringTable.t
}.

Definition AX : Z := Z.lor SHF_ALLOC SHF_EXECINSTR.
Definition AW : Z := Z.lor SHF_ALLOC SHF_WRITE.

(** [last_local_dynsym_index] after the STB_LOCAL scan. *)
Definition last_local_dynsym_index (syms : list Elf64_Sym) : Z :=
  foldl (fun acc (e : nat * Elf64_Sym) =>
           if ELF64_ST_BIND (st_info e.2) =? STB_LOCAL
           then Z.max acc (Z.of_nat e.1) else acc)
        0 (imap pair syms).

(** The straight line of [insert_shdr] calls that follows the known
    sections, in program order.  The result is the table and the index given
    to .shstrtab. *)
Definition emit_sections (st : NsoFile) (syms : list Elf64_Sym)
    (inf : Inferred) (m : Measured) (p : Present.t) (tbl : StringTable.t)
    (shstrtab_offset : Z) (known : gmap Z Elf64_Shdr)
    (loads : list Elf64_Phdr) (dyn_phdr : Elf64_Phdr)
    (sh : list Elf64_Shdr) : Z * list Elf64_Shdr :=
  let d := dyn_info st in
  let h := header st in
  let name s := StringTable.GetOffset s tbl in
  let fo := vaddr_to_foffset loads in
  let rodata_off := p_offset (loads !!! 1%nat) in
  let rodata_mem := mem_offset (at_rodata (segments h)) in
  let '(_, sh) :=
    insert_if (Present.init p) known
      (mkShdr (name ".init") SHT_PROGBITS AX (DynInfo.init d)
              (fo (DynInfo.init d)) (init_ret_offset inf) 0 0 4 0)
      true sh in
  let '(_, sh) :=
    insert_if (Present.fini p) known
      (mkShdr (name ".fini") SHT_PROGBITS AX (DynInfo.fini d)
              (fo (DynInfo.fini d)) (fini_branch_offset inf) 0 0 4 0)
      true sh in
  let '(dynstr_shndx, sh) :=
    insert_shdr known
      (mkShdr (name ".dynstr") SHT_STRTAB SHF_ALLOC
              (u32 (rodata_mem + DataExtent.offset (dynstr h)))
              (u64 (rodata_off + DataExtent.offset (dynstr h)))
              (DataExtent.size (dynstr h)) 0 0 1 0)
      false sh in
  let '(dynsym_shndx, sh) :=
    insert_shdr known
      (mkShdr (name ".dynsym") SHT_DYNSYM SHF_ALLOC
              (u32 (rodata_mem + DataExtent.offset (dynsym h)))
              (u64 (rodata_off + DataExtent.offset (dynsym h)))
              (DataExtent.size (dynsym h)) dynstr_shndx
              (u32 (last_local_dynsym_index syms + 1))
              8 sizeof_Elf64_Sym)
      false sh in
  let '(_, sh) :=
    insert_shdr known
      (mkShdr (name ".dynamic") SHT_DYNAMIC AW (p_vaddr dyn_phdr)
              (p_offset dyn_phdr) (p_filesz dyn_phdr) dynstr_shndx 0
              (p_align dyn_phdr) sizeof_Elf64_Dyn)
      false sh in
  let '(_, sh) :=
    insert_shdr known
      (mkShdr (name ".rela.dyn") SHT_RELA SHF_ALLOC (DynInfo.rela d)
              (fo (DynInfo.rela d)) (DynInfo.relasz d) dynsym_shndx 0
              8 sizeof_Elf64_Rela)
      false sh in
  let '(plt_shndx, sh) :=
    insert_if (Present.plt p) known
      (mkShdr (name ".plt") SHT_PROGBITS AX (PltInfo.addr (plt_info st))
              (fo (PltInfo.addr (plt_info st)))
              (PltInfo.size (plt_info st)) 0 0 0x10 0x10)
      true sh in
  let '(_, sh) :=
    insert_if (Present.got p) known
      (mkShdr (name ".got") SHT_PROGBITS AW (got_addr inf)
              (fo (got_addr inf)) (u64 (glob_dat_end m - got_addr inf))
              0 0 8 8)
      true sh in
  let '(_, sh) :=
    insert_if (Present.got_plt p) known
      (mkShdr (name ".got.plt") SHT_PROGBITS AW (DynInfo.pltgot d)
              (fo (DynInfo.pltgot d))
              (u64 (jump_slot_addr_end inf - DynInfo.pltgot d)) 0 0 8 8)
      true sh in
  let '(_, sh) :=
    insert_if (Present.rela_plt p) known
      (mkShdr (name ".rela.plt") SHT_RELA
              (if plt_shndx =? SHN_UNDEF then SHF_ALLOC
               else Z.lor SHF_ALLOC SHF_INFO_LINK)
              (DynInfo.jmprel d) (fo (DynInfo.jmprel d))
              (DynInfo.pltrelsz d) dynsym_shndx plt_shndx
              8 sizeof_Elf64_Rela)
      false sh in
  let '(_, sh) :=
    insert_if (Present.init_array p) known
      (mkShdr (name ".init_array") SHT_INIT_ARRAY AW (DynInfo.init_array d)
              (fo (DynInfo.init_array d)) (DynInfo.init_arraysz d) 0 0 8 0)
      true sh in
  let '(_, sh) :=
    insert_if (Present.fini_array p) known
      (mkShdr (name ".fini_array") SHT_FINI_ARRAY AW (DynInfo.fini_array d)
              (fo (DynInfo.fini_array d)) (DynInfo.fini_arraysz d) 0 0 8 0)
      true sh in
  let '(_, sh) :=
    insert_if (Present.hash p) known
      (mkShdr (name ".hash") SHT_HASH SHF_ALLOC (DynInfo.hash d)
              (fo (DynInfo.hash d)) (hash_size m) dynsym_shndx 0 8 4)
      false sh in
  let '(_, sh) :=
    insert_if (Present.gnu_hash p) known
      (mkShdr (name ".gnu.hash") SHT_GNU_HASH SHF_ALLOC (DynInfo.gnu_hash d)
              (fo (DynInfo.gnu_hash d)) (gnu_hash_len m) dynsym_shndx 0 8 4)
      false sh in
  let '(_, sh) :=
    insert_if (Present.note p) known
      (mkShdr (name ".note") SHT_NOTE SHF_ALLOC (note_addr m)
              (fo (note_addr m)) (note_size m) 0 0 4 0)
      false sh in
  let '(_, sh) :=
    insert_if (Present.eh p) known
      (mkShdr (name ".eh_frame_hdr") SHT_PROGBITS SHF_ALLOC
              (EhInfo.hdr_addr (eh_info st))
              (fo (EhInfo.hdr_addr (eh_info st)))
              (EhInfo.hdr_size (eh_info st)) 0 0 4 0)
      true sh in
  let '(_, sh) :=
    insert_if (Present.eh p) known
      (mkShdr (name ".eh_frame") SHT_PROGBITS SHF_ALLOC
              (EhInfo.frame_addr (eh_info st))
              (fo (EhInfo.frame_addr (eh_info st)))
              (EhInfo.frame_size (eh_info st)) 0 0 4 0)
      true sh in
  insert_shdr known
    (mkShdr (name ".shstrtab") SHT_STRTAB 0 0 shstrtab_offset
            (buf_size (StringTable.buffer tbl)) 0 0 1 0)
    false sh.

(** What WriteElf has settled before it allocates the file: the object
    with its measured [eh_info], the symbols, the profile, the offset of the
    dynamic table, the inferred values, the present flags, the finalized
    [shstrtab] and the final [num_shdrs]. *)
Record Plan : Type := mkPlan {
  plan_st : NsoFile;
  plan_syms : list Elf64_Sym;
  plan_prof : Profile;
  plan_dyn : Z;
  plan_inf : Inferred;
  plan_present : Present.t;
  plan_tbl : StringTable.t;
  plan_num : Z
}.

Definition e_phoff_value : Z := sizeof_Elf64_Ehdr.
Definition e_shoff_value : Z :=
  e_phoff_value + sizeof_Elf64_Phdr * kNumPhdrs.

(** [shstrtab.offset] *)
Definition shstrtab_offset (pl : Plan) : Z :=
  e_shoff_value + sizeof_Elf64_Shdr * plan_num pl.

Definition elf_size (pl : Plan) : Z :=
  let h := header (plan_st pl) in
  sizeof_Elf64_Ehdr + sizeof_Elf64_Phdr * kNumPhdrs
  + sizeof_Elf64_Shdr * plan_num pl + StringTable.size (plan_tbl pl)
  + mem_size (at_text (segments h)) + mem_size (at_rodata (segments h))
  + mem_size (at_data (segments h)).

(** The ELF header as first written, with [e_shstrndx = SHN_UNDEF]. *)
Definition initial_ehdr (pl : Plan) : Elf64_Ehdr :=
  {| e_ident := elf_ident; e_type := ET_DYN; e_machine := EM_AARCH64;
     e_version := EV_CURRENT;
     e_entry := mem_offset (at_text (segments (header (plan_st pl))));
     e_phoff := e_phoff_value; e_shoff := e_shoff_value; e_flags := 0;
     e_ehsize := sizeof_Elf64_Ehdr; e_phentsize := sizeof_Elf64_Phdr;
     e_phnum := kNumPhdrs; e_shentsize := sizeof_Elf64_Shdr;
     e_shnum := plan_num pl; e_shstrndx := SHN_UNDEF |}.

(** The state of the program header loop: the file, the known sections,
    [data_offset_cur] and the PT_LOAD headers written so far. *)
Record LoadAcc : Type := mkLoadAcc {
  acc_buf : list byte;
  acc_known : gmap Z Elf64_Shdr;
  acc_cur : Z;
  acc_loads : list Elf64_Phdr
}.

(** A PT_LOAD round of the program header loop: the header is written, the
    segment copied, the known sections fixed up, the cursor moved. *)
Definition write_load (img : list byte) (h : NsoHeader) (i : SegmentType)
    (acc : LoadAcc) : outcome LoadAcc :=
  let seg := seg_get (segments h) i in
  let phdr := load_phdr i seg (acc_cur acc) in
  buf ← must (write_bytes (acc_buf acc)
                (e_phoff_value + sizeof_Elf64_Phdr * seg_index i)
                (encode_phdr phdr));
  src ← must (read_bytes img (mem_offset seg) (p_filesz phdr));
  buf ← must (write_bytes buf (p_offset phdr) src);
  Done (mkLoadAcc buf (fixup_sh_offset phdr (acc_known acc))
                  (acc_cur acc + p_filesz phdr) (acc_loads acc ++ [phdr])).

(** The file up to the end of the PT_LOAD rounds. *)
Definition write_segments (pl : Plan) : outcome LoadAcc :=
  let st := plan_st pl in
  buf ← must (write_bytes (zeros (elf_size pl)) 0
                (encode_ehdr (initial_ehdr pl)));
  buf ← must (write_bytes buf (shstrtab_offset pl)
                (StringTable.buffer (plan_tbl pl)));
  acc ← write_load (image st) (header st) kText
          (mkLoadAcc buf (known_sections (plan_prof pl))
             (shstrtab_offset pl + StringTable.size (plan_tbl pl)) []);
  acc ← write_load (image st) (header st) kRodata acc;
  write_load (image st) (header st) kData acc.

Definition dynamic_phdr (pl : Plan) (loads : list Elf64_Phdr) (dyn_size : Z)
  : Elf64_Phdr :=
  {| p_type := PT_DYNAMIC; p_flags := Z.lor PF_R PF_W;
     p_offset := vaddr_to_foffset loads (u64 (plan_dyn pl));
     p_vaddr := u64 (plan_dyn pl); p_paddr := u64 (plan_dyn pl);
     p_filesz := dyn_size; p_memsz := dyn_size; p_align := 8 |}.

Definition eh_frame_phdr (pl : Plan) (loads : list Elf64_Phdr) : Elf64_Phdr :=
  let e := eh_info (plan_st pl) in
  {| p_type := PT_GNU_EH_FRAME; p_flags := PF_R;
     p_offset := vaddr_to_foffset loads (EhInfo.hdr_addr e);
     p_vaddr := EhInfo.hdr_addr e; p_paddr := EhInfo.hdr_addr e;
     p_filesz := EhInfo.hdr_size e; p_memsz := EhInfo.hdr_size e;
     p_align := 4 |}.

(** The section header table: the known sections at their indices, then the
    calls of [insert_shdr]. *)
Definition build_shdrs (pl : Plan) (known : gmap Z Elf64_Shdr)
    (loads : list Elf64_Phdr) (dyn_phdr : Elf64_Phdr)
  : outcome (Z * list Elf64_Shdr) :=
  sh ← must (place_known known
               (replicate (Z.to_nat (plan_num pl)) zero_shdr));
  m ← measure (plan_st pl) (plan_inf pl) (plan_present pl);
  Done (emit_sections (plan_st pl) (plan_syms pl) (plan_inf pl) m
          (plan_present pl) (plan_tbl pl) (shstrtab_offset pl) known loads
          dyn_phdr sh).

Section Emitter.

(** [ElfEHInfo::MeasureFrame] of elf_eh.h, which is not part of the
    sources: for the image and the offset of the .eh_frame_hdr it yields
    [eh_frame_ptr], as an offset from [&image[0]], and the frame size, or
    [None] when it returns false. *)
Variable MeasureFrame : list byte -> Z -> option (Z * Z).

(** The update of [eh_info] after a successful measurement.  [st] is the
    object before the call. *)
Definition measured_eh (st : NsoFile) (r : Z * Z) : EhInfo.t :=
  let e := eh_info st in
  {| EhInfo.hdr_addr := EhInfo.hdr_addr e;
     EhInfo.hdr_size := u64 (ALIGN_UP (EhInfo.hdr_size e) 0x10);
     EhInfo.frame_addr :=
       u64 (EhInfo.hdr_addr e + (r.1 - EhInfo.hdr_addr e));
     EhInfo.frame_size := u64 (ALIGN_UP r.2 0x10) |}.

Definition plan_elf (st : NsoFile) : outcome Plan :=
  syms ← must (iter_dynsym st);
  prof ← profile_sections st;
  dyn ← must (dynamic st);
  inf ← infer st dyn;
  let measured := MeasureFrame (image st) (EhInfo.hdr_addr (eh_info st)) in
  let st := match measured with
            | Some r => set_eh_info (measured_eh st r) st
            | None => st
            end in
  let p := present_of st inf (bool_decide (is_Some measured)) in
  tbl ← must (StringTable.Finalize (add_names p (shstrtab prof)));
  Done (mkPlan st syms prof dyn inf p tbl (final_num_shdrs prof p)).

(** The object after the call and the file handed to [File::Write]. *)
Definition WriteElf (st : NsoFile) : outcome (NsoFile * ElfOut) :=
  pl ← plan_elf st;
  acc ← write_segments pl;
  dyn_size ← dyn_size_walk (walk_fuel (image (plan_st pl)))
               (image (plan_st pl)) (plan_dyn pl) sizeof_Elf64_Dyn;
  let dyn_phdr := dynamic_phdr pl (acc_loads acc) dyn_size in
  buf ← must (write_bytes (acc_buf acc)
                (e_phoff_value + sizeof_Elf64_Phdr * 3)
                (encode_phdr dyn_phdr));
  let eh_phdr := eh_frame_phdr pl (acc_loads acc) in
  buf ← must (write_bytes buf (e_phoff_value + sizeof_Elf64_Phdr * 4)
                (encode_phdr eh_phdr));
  r ← build_shdrs pl (acc_known acc) (acc_loads acc) dyn_phdr;
  buf ← must (write_bytes buf e_shoff_value
                (concat (encode_shdr <$> r.2)));
  buf ← must (write_bytes buf 62 (le_bytes 2 r.1));
  Done (plan_st pl,
        {| elf := buf;
           ehdr := set_e_shstrndx (u16 r.1) (initial_ehdr pl);
           phdrs := acc_loads acc ++ [dyn_phdr; eh_phdr];
           shdrs := r.2;
           out_shstrtab := plan_tbl pl |}).

End Emitter.

(** ** Specification predicates and sample inputs *)

(** The masked resolver pattern occurs at index [i] of [hay]. *)
Definition plt_match (hay : list byte) (i : Z) : Prop :=
  masked_prefix (drop (Z.to_nat i) hay)
                (words_bytes plt_pattern) (words_bytes plt_mask) = true.

(** An object whose image is the resolver thunk alone and whose .rela.plt
    holds one entry. *)
Definition plt_sample : NsoFile :=
  set_dyn_info (DynInfo.assign DT_PLTRELSZ 24 DynInfo.zero)
    (set_image (words_bytes plt_pattern) (NsoFile_new (PltInfo.mk 0 0))).

(** *** Building sample files *)

Definition pad_to (n : Z) (bs : list byte) : list byte :=
  bs ++ zeros (n - buf_size bs).

Definition dyn_entry (tag val : Z) : list byte :=
  le_bytes 8 tag ++ le_bytes 8 val.

Definition sym_entry (info shndx value : Z) : list byte :=
  le_bytes 4 0 ++ le_bytes 1 info ++ le_bytes 1 0 ++ le_bytes 2 shndx
  ++ le_bytes 8 value ++ le_bytes 8 0.

(** A ModPointer at offset 0 and the ModHeader at offset 8; the dynamic
    table is at image offset [dyn]. *)
Definition mod_prologue (dyn : Z) : list byte :=
  le_bytes 4 0 ++ le_bytes 4 8 ++ mod_magic ++ le_bytes 4 (dyn - 8)
  ++ le_bytes 4 0 ++ le_bytes 4 0 ++ le_bytes 4 0 ++ le_bytes 4 0
  ++ le_bytes 4 0.

Definition sample_header (fl : Z) (segs : per_segment SegmentHeader)
    (sizes : per_segment Z) : NsoHeader :=
  {| magic := nso_magic; field_4 := 0; field_8 := 0; flags := fl;
     segments := segs; gnu_build_id := zeros 32;
     segment_file_sizes := sizes; field_6c := zeros 36;
     dynstr := DataExtent.mk 0 0; dynsym := DataExtent.mk 0 0;
     segment_digests := zeros 96 |}.

(** Modelled from the spec: LZ4_decompress_safe is an external collaborator
    "consumed as a function".  This instance decodes the blocks used by the
    sample inputs, a single run of literals (token, length bytes, literals
    up to the end of the block), and answers an error for any other
    block. *)
Fixpoint lz4_length (src : list byte) (acc : Z) : option (Z * list byte) :=
  match src with
  | [] => None
  | b :: src' =>
      if byte_to_Z b =? 255 then lz4_length src' (acc + 255)
      else Some (acc + byte_to_Z b, src')
  end.

Definition lz4_literal_block (src : list byte) (dst_len : Z)
  : option (list byte) :=
  match src with
  | [] => None
  | token :: rest =>
      if negb (byte_to_Z token mod 16 =? 0) then None
      else
        r ← (if byte_to_Z token / 16 =? 15 then lz4_length rest 15
             else Some (byte_to_Z token / 16, rest));
        if (buf_size r.2 =? r.1) && (r.1 <=? dst_len) then Some r.2
        else None
  end.

(** No unwind information is measured in the sample runs. *)
Definition no_eh_frame : list byte -> Z -> option (Z * Z) := fun _ _ => None.

Definition fresh : NsoFile := NsoFile_new (PltInfo.mk 0 0).

(** An uncompressed NSO whose text segment ends at 0x30 while rodata starts
    at 0x40; the dynamic table is the all-zero rodata. *)
Definition nso_gap : list byte :=
  encode_NsoHeader
    (sample_header 0
       (mkSegs (mkSeg 0x100 0 0x30 0x100) (mkSeg 0x130 0x40 0x10 1)
               (mkSeg 0x140 0x60 0x10 0x10))
       (mkSegs 0x30 0x10 0x10))
  ++ pad_to 0x30 (mod_prologue 0x40) ++ zeros 0x20.

(** An NSO with contiguous segments, all stored uncompressed. *)
Definition nso_plain : list byte :=
  encode_NsoHeader
    (sample_header 0
       (mkSegs (mkSeg 0x100 0 0x30 0x100) (mkSeg 0x130 0x30 0x10 1)
               (mkSeg 0x140 0x40 0x10 0x10))
       (mkSegs 0x30 0x10 0x10))
  ++ pad_to 0x30 (mod_prologue 0x30) ++ zeros 0x20.

(** The same layout with text stored as an LZ4 block of 36 literals, twelve
    bytes short of the declared mem_size 0x30. *)
Definition nso_short_text : list byte :=
  encode_NsoHeader
    (sample_header 1
       (mkSegs (mkSeg 0x100 0 0x30 0x100) (mkSeg 0x126 0x30 0x10 1)
               (mkSeg 0x136 0x40 0x10 0x10))
       (mkSegs 38 0x10 0x10))
  ++ [Byte.xf0; Byte.x15] ++ mod_prologue 0x30 ++ zeros 0x20.

(** An uncompressed NSO whose text is stored with four bytes more than its
    mem_size; they land in the gap before rodata. *)
Definition nso_long_text : list byte :=
  encode_NsoHeader
    (sample_header 0
       (mkSegs (mkSeg 0x100 0 0x30 0x100) (mkSeg 0x134 0x40 0x10 1)
               (mkSeg 0x144 0x50 0x10 0x10))
       (mkSegs 0x34 0x10 0x10))
  ++ pad_to 0x30 (mod_prologue 0x40) ++ le_bytes 4 0xdeadbeef ++ zeros 0x20.

(** An NSO whose dynamic table names an .init at 0x20, in an image without
    any [ret] instruction. *)
Definition nso_init_no_ret : list byte :=
  encode_NsoHeader
    (sample_header 0
       (mkSegs (mkSeg 0x100 0 0x30 0x100) (mkSeg 0x130 0x30 0x20 1)
               (mkSeg 0x150 0x50 0x10 0x10))
       (mkSegs 0x30 0x20 0x10))
  ++ pad_to 0x30 (mod_prologue 0x30)
  ++ dyn_entry DT_INIT 0x24 ++ dyn_entry 0 0 ++ zeros 0x10.

(** The same with a [ret] as the second word of .init. *)
Definition nso_init_ret : list byte :=
  encode_NsoHeader
    (sample_header 0
       (mkSegs (mkSeg 0x100 0 0x30 0x100) (mkSeg 0x130 0x30 0x20 1)
               (mkSeg 0x150 0x50 0x10 0x10))
       (mkSegs 0x30 0x20 0x10))
  ++ pad_to 0x30 (mod_prologue 0x30 ++ le_bytes 4 0 ++ le_bytes 4 0xd65f03c0)
  ++ dyn_entry DT_INIT 0x24 ++ dyn_entry 0 0 ++ zeros 0x10.

(** A raw MOD: the resolver thunk at 0x40, five symbols at 0x1000 whose
    fourth has section index [last], the string table right behind them,
    the dynamic table at 0x1080 and .data at 0x1100. *)
Definition raw_mod (last : Z) : list byte :=
  pad_to 0x1000 (pad_to 0x40 (mod_prologue 0x1080) ++ words_bytes plt_pattern)
  ++ sym_entry 0 0 0 ++ sym_entry 0 1 0x10 ++ sym_entry 0 2 0x1000
  ++ sym_entry STT_SECTION 3 0x1100 ++ sym_entry 0 last 0x1110
  ++ zeros 8
  ++ dyn_entry DT_SYMTAB 0x1000 ++ dyn_entry DT_STRTAB 0x1078
  ++ dyn_entry DT_PLTRELSZ 24 ++ dyn_entry 0 0
  ++ zeros 0x50.

(** An NRO of 0xe0 bytes: the NroHeader at 0x10, the ModHeader at 0x80 with
    an empty dynamic table at 0xa0, text up to 0xa0, rodata and data of
    0x20 bytes each, and a bss_size of 0xfffffff8. *)
Definition nro_bss_wraps : list byte :=
  le_bytes 4 0 ++ le_bytes 4 0x80 ++ zeros 8
  ++ nro_magic ++ le_bytes 4 0 ++ le_bytes 4 0xe0 ++ le_bytes 4 0
  ++ le_bytes 4 0 ++ le_bytes 4 0xa0
  ++ le_bytes 4 0xa0 ++ le_bytes 4 0x20
  ++ le_bytes 4 0xc0 ++ le_bytes 4 0x20
  ++ le_bytes 4 0xfffffff8 ++ zeros 4
  ++ zeros 0x40
  ++ mod_magic ++ le_bytes 4 0x20 ++ zeros 0x18
  ++ zeros 0x40.

(** The stages of a successful [finish_load]: the MOD header, the dynamic
    table, the PLT or the raw-MOD synthesis, the note and the build id, and
    the final [eh_info]. *)
Inductive FinishRun (file : list byte) (st1 st : NsoFile) : Prop :=
  finish_run (buf : list byte) (mod_base : Z) (mod_hdr : ModHeader)
      (info : DynInfo.t) (resolved : NsoFile) (n : option Z)
      (noted : NsoFile) :
    buf = (if bool_decide (file_type st1 = kUnknown) then file
           else image st1) ->
    locate_mod buf = Done mod_base ->
    (file_type st1 = kUnknown -> sizeof_ModPointer <= buf_size file) ->
    read_ModHeader buf mod_base = Some mod_hdr ->
    mod_magic_bytes mod_hdr = mod_magic ->
    parse_dynamic (walk_fuel buf) buf (mod_base + dynamic_offset mod_hdr)
                  (dyn_info st1) = Done info ->
    (let st2 :=
       set_dyn_info info
         (set_dynamic (Some (mod_base + dynamic_offset mod_hdr))
            (if bool_decide (file_type st1 = kUnknown)
             then set_file_type kMod (set_image file st1)
             else st1)) in
     if bool_decide (file_type st2 = kMod)
     then synthesize_mod mod_base mod_hdr st2
     else
       r ← ResolvePlt st2 (mem_offset (at_text (segments (header st2))))
             (mem_size (at_text (segments (header st2))));
       Done r.2) = Done resolved ->
    find_note (image resolved) (segments (header resolved)) = Done n ->
    copy_build_id (set_note n resolved) = Done noted ->
    st = set_eh_info
           (EhInfo.mk
              (mod_get_offset mod_base (eh_start_offset mod_hdr))
              (u64 (mod_get_offset mod_base (eh_end_offset mod_hdr)
                    - mod_get_offset mod_base (eh_start_offset mod_hdr)))
              (EhInfo.frame_addr (eh_info noted))
              (EhInfo.frame_size (eh_info noted)))
           noted ->
    FinishRun file st1 st.

(** The dynamic table at [dyn] has [n] entries with a nonzero tag followed
    by the terminator. *)
Definition dyn_entries (img : list byte) (dyn : Z) (n : nat) : Prop :=
  (forall k : nat, (k < n)%nat ->
     exists tag, read_u64 img (dyn + sizeof_Elf64_Dyn * Z.of_nat k) = Some tag
                 /\ tag <> 0)
  /\ read_u64 img (dyn + sizeof_Elf64_Dyn * Z.of_nat n) = Some 0.

(** The first [ret] from [init_off] on is the word of index [k]. *)
Definition first_ret (img : list byte) (init_off : Z) (k : nat) : Prop :=
  (forall j : nat, (j < k)%nat ->
     exists w, read_u32 img (init_off + 4 * Z.of_nat j) = Some w
               /\ w <> 0xd65f03c0)
  /\ read_u32 img (init_off + 4 * Z.of_nat k) = Some 0xd65f03c0.

(** The stages of a successful [WriteElf]. *)
Inductive WriteElfRun (MF : list byte -> Z -> option (Z * Z))
    (st st' : NsoFile) (out : ElfOut) : Prop :=
  write_elf_run (pl : Plan) (acc : LoadAcc) (dyn_size : Z)
      (buf1 buf2 buf3 : list byte) (r : Z * list Elf64_Shdr) :
    plan_elf MF st = Done pl ->
    write_segments pl = Done acc ->
    dyn_size_walk (walk_fuel (image (plan_st pl))) (image (plan_st pl))
                  (plan_dyn pl) sizeof_Elf64_Dyn = Done dyn_size ->
    write_bytes (acc_buf acc) (e_phoff_value + sizeof_Elf64_Phdr * 3)
                (encode_phdr (dynamic_phdr pl (acc_loads acc) dyn_size))
    = Some buf1 ->
    write_bytes buf1 (e_phoff_value + sizeof_Elf64_Phdr * 4)
                (encode_phdr (eh_frame_phdr pl (acc_loads acc)))
    = Some buf2 ->
    build_shdrs pl (acc_known acc) (acc_loads acc)
                (dynamic_phdr pl (acc_loads acc) dyn_size) = Done r ->
    write_bytes buf2 e_shoff_value (concat (encode_shdr <$> r.2))
    = Some buf3 ->
    write_bytes buf3 62 (le_bytes 2 r.1) = Some (elf out) ->
    st' = plan_st pl ->
    ehdr out = set_e_shstrndx (u16 r.1) (initial_ehdr pl) ->
    phdrs out = acc_loads acc
                ++ [dynamic_phdr pl (acc_loads acc) dyn_size;
                    eh_frame_phdr pl (acc_loads acc)] ->
    shdrs out = r.2 ->
    out_shstrtab out = plan_tbl pl ->
    WriteElfRun MF st st' out.

(** The number of section header slots, index 0 apart, that are still
    SHT_NULL. *)
Definition free_slots (sh : list Elf64_Shdr) : nat :=
  length (filter (fun s => sh_type s = SHT_NULL) (drop 1 sh)).

(** The file has, at index [i] of its section header table, the header
    [s]. *)
Definition section_at (out : ElfOut) (i : nat) (s : Elf64_Shdr) : Prop :=
  (1 <= i)%nat /\ shdrs out !! i = Some s.

(** The header [s] carries the name [name]: [name] was entered into the
    section name table of the file, and [sh_name] is the offset recorded
    for it there. *)
Definition named (out : ElfOut) (s : Elf64_Shdr) (name : string) : Prop :=
  StringTable.entries (out_shstrtab out) !! name = Some (sh_name s).

(** The file has a section called [name] of type [ty] at address [addr]
    with size [sz]. *)
Definition has_section (out : ElfOut) (name : string) (ty addr sz : Z)
  : Prop :=
  exists i s,
    section_at out i s
    /\ named out s name
    /\ sh_type s = ty /\ sh_addr s = addr /\ sh_size s = sz.

(** What a section called [name] looks like to a test on a concrete file:
    its [sh_name] is the answer of [GetOffset] for [name]. *)
Definition has_sectionb (out : ElfOut) (name : string) (ty addr sz : Z)
  : bool :=
  existsb (fun s =>
             (sh_name s =? StringTable.GetOffset name (out_shstrtab out))
             && (sh_type s =? ty) && (sh_addr s =? addr)
             && (sh_size s =? sz))
          (drop 1 (shdrs out)).

(** The keys of [known_sections] are section indices from 1 up to, not
    including, SHN_LORESERVE. *)
Definition keys_ok (known : gmap Z Elf64_Shdr) : Prop :=
  forall k x, known !! k = Some x -> 1 <= k < SHN_LORESERVE.

(** An NSO whose dynamic table has DT_JMPREL, DT_PLTRELSZ, DT_PLTGOT and a
    DT_INIT_ARRAY without DT_INIT_ARRAYSZ; the one entry of the JMPREL
    table, at 0x70, is not a jump slot. *)
Definition nso_jmprel : list byte :=
  encode_NsoHeader
    (sample_header 0
       (mkSegs (mkSeg 0x100 0 0x30 0x100) (mkSeg 0x130 0x30 0x50 1)
               (mkSeg 0x180 0x80 0x20 0x10))
       (mkSegs 0x30 0x50 0x20))
  ++ pad_to 0x30 (mod_prologue 0x30)
  ++ dyn_entry DT_JMPREL 0x80 ++ dyn_entry DT_PLTRELSZ 24
  ++ dyn_entry DT_PLTGOT 0x98 ++ dyn_entry DT_INIT_ARRAY 0x98
  ++ dyn_entry 0 0
  ++ zeros 0x20.

(** One relocation entry. *)
Definition rela_entry (offset info addend : Z) : list byte :=
  le_bytes 8 offset ++ le_bytes 8 info ++ le_bytes 8 addend.

(** An NSO with every table of the dynamic section: the dynamic table at
    0x30, a .hash of one bucket and one chain at 0x100, a .gnu.hash of one
    bucket and one mask word at 0x110, a JMPREL table with one jump slot
    at 0x130 and a RELA table with one entry at 0x148, all in .rodata;
    .data, from 0x160, holds the PLT GOT, the jump slot at 0x170 and two
    arrays of one pointer each. *)
Definition nso_sections : list byte :=
  encode_NsoHeader
    (sample_header 0
       (mkSegs (mkSeg 0x100 0 0x30 0x100) (mkSeg 0x130 0x30 0x130 1)
               (mkSeg 0x260 0x160 0x30 0x10))
       (mkSegs 0x30 0x130 0x30))
  ++ pad_to 0x30 (mod_prologue 0x30)
  ++ dyn_entry DT_HASH 0x100 ++ dyn_entry DT_GNU_HASH 0x110
  ++ dyn_entry DT_JMPREL 0x130 ++ dyn_entry DT_PLTRELSZ 24
  ++ dyn_entry DT_PLTGOT 0x160
  ++ dyn_entry DT_RELA 0x148 ++ dyn_entry DT_RELASZ 24
  ++ dyn_entry DT_INIT_ARRAY 0x178 ++ dyn_entry DT_INIT_ARRAYSZ 8
  ++ dyn_entry DT_FINI_ARRAY 0x180 ++ dyn_entry DT_FINI_ARRAYSZ 8
  ++ dyn_entry 0 0 ++ zeros 0x10
  ++ le_bytes 4 1 ++ le_bytes 4 1 ++ le_bytes 4 0 ++ le_bytes 4 0
  ++ le_bytes 4 1 ++ le_bytes 4 0 ++ le_bytes 4 1 ++ le_bytes 4 0
  ++ zeros 8 ++ le_bytes 4 0 ++ zeros 4
  ++ rela_entry 0x170 R_AARCH64_JUMP_SLOT 0
  ++ rela_entry 0x188 1027 0
  ++ zeros 0x30.

(** *** Images that survive the uncompressed writer *)

(** Offset [k] lies in [mem_offset .. mem_offset + mem_size) of [s]. *)
Definition in_segment (s : SegmentHeader) (k : Z) : bool :=
  (mem_offset s <=? k) && (k <? mem_offset s + mem_size s).

Definition in_segments (h : NsoHeader) (k : Z) : bool :=
  in_segment (at_text (segments h)) k
  || in_segment (at_rodata (segments h)) k
  || in_segment (at_data (segments h)) k.

(** Every byte of the image that lies in none of the three segments is
    zero. *)
Definition covered (h : NsoHeader) (img : list byte) : bool :=
  forallb (fun k : nat =>
             in_segments h (Z.of_nat k)
             || bool_decide (img !! k = Some Byte.x00))
          (seq 0 (length img)).

(** The end of .data, as [WriteUncompressedNso] computes it. *)
Definition data_end (h : NsoHeader) : Z :=
  u32 (mem_offset (at_data (segments h)) + mem_size (at_data (segments h))).

(** No segment reaches beyond the end of .data, and a file offset behind
    the header still fits in 32 bits. *)
Definition well_placed (h : NsoHeader) : bool :=
  (data_end h + sizeof_NsoHeader <? 2 ^ 32)
  && (mem_offset (at_text (segments h)) + mem_size (at_text (segments h))
      <=? data_end h)
  && (mem_offset (at_rodata (segments h))
      + mem_size (at_rodata (segments h)) <=? data_end h)
  && (mem_offset (at_data (segments h)) + mem_size (at_data (segments h))
      <=? data_end h).

(** The fields of a header fit their C types. *)
Definition is_u32 (z : Z) : Prop := 0 <= z < 2 ^ 32.

Definition segment_fits (s : SegmentHeader) : Prop :=
  is_u32 (file_offset s) /\ is_u32 (mem_offset s) /\ is_u32 (mem_size s)
  /\ is_u32 (bss_align s).

Definition extent_fits (e : DataExtent.t) : Prop :=
  is_u32 (DataExtent.offset e) /\ is_u32 (DataExtent.size e).

Definition header_fits (h : NsoHeader) : Prop :=
  length (magic h) = 4%nat
  /\ is_u32 (field_4 h) /\ is_u32 (field_8 h) /\ is_u32 (flags h)
  /\ segment_fits (at_text (segments h))
  /\ segment_fits (at_rodata (segments h))
  /\ segment_fits (at_data (segments h))
  /\ length (gnu_build_id h) = 32%nat
  /\ is_u32 (at_text (segment_file_sizes h))
  /\ is_u32 (at_rodata (segment_file_sizes h))
  /\ is_u32 (at_data (segment_file_sizes h))
  /\ length (field_6c h) = 36%nat
  /\ extent_fits (dynstr h) /\ extent_fits (dynsym h)
  /\ length (segment_digests h) = 96%nat.

(** ** NsoToElf and main *)

Section Driver.

Variable LZ4_decompress_safe : list byte -> Z -> option (list byte).
Variable MeasureFrame : list byte -> Z -> option (Z * Z).

(** [File::Read]: the bytes of the file, the empty vector when it cannot be
    read. *)
Variable File_Read : string -> list byte.

(** What [File::Write] returns for a path and a buffer. *)
Variable File_Write : string -> list byte -> bool.

(** [NsoToElf] with [verbose = false]: the value returned and the calls of
    [File::Write] made, in order.  [plt0] is what the storage of the local
    [NsoFile nso] held in [plt_info]; the text printed by [Dump] is not part
    of the model.  [WriteElf] returns what [File::Write] returns,
    [WriteUncompressedNso] returns true whatever [File::Write] does. *)
Definition NsoToElf (plt0 : PltInfo.t) (path : string)
    (elf_path uncompressed_path : option string)
  : outcome (bool * list (string * list byte)) :=
  match Load LZ4_decompress_safe (NsoFile_new plt0) (File_Read path) with
  | Undefined => Undefined
  | Refused => Done (false, [])
  | Done st =>
      '(st, success, written) ←
        match elf_path with
        | Some p =>
            '(st', out) ← WriteElf MeasureFrame st;
            Done (st', File_Write p (elf out), [(p, elf out)])
        | None => Done (st, true, [])
        end;
      match uncompressed_path with
      | Some p =>
          data ← WriteUncompressedNso st;
          Done (success, written ++ [(p, data)])
      | None => Done (success, written)
      end
  end.

End Driver.

(** The three paths [main] collects from its arguments; [None] is the null
    pointer. *)
Record Options : Type := mkOptions {
  input_path : option string;
  elf_path : option string;
  uncompressed_path : option string
}.

Definition no_options : Options := mkOptions None None None.

(** The argument loop of [main] over [argv[i] .. argv[argc - 1]]; [None] is
    the return with status 1 after "Unknown option".  An option that is the
    last argument takes [argv[argc]], the null pointer, as its value. *)
Fixpoint parse_args (args : list string) (o : Options) : option Options :=
  match args with
  | [] => Some o
  | arg :: rest =>
      if bool_decide (arg = "--export-elf") then
        match rest with
        | v :: rest' =>
            parse_args rest'
              (mkOptions (input_path o) (Some v) (uncompressed_path o))
        | [] => Some (mkOptions (input_path o) None (uncompressed_path o))
        end
      else if bool_decide (arg = "--export-uncompressed") then
        match rest with
        | v :: rest' =>
            parse_args rest' (mkOptions (input_path o) (elf_path o) (Some v))
        | [] => Some (mkOptions (input_path o) (elf_path o) None)
        end
      else
        match input_path o with
        | None =>
            parse_args rest
              (mkOptions (Some arg) (elf_path o) (uncompressed_path o))
        | Some _ => None
        end
  end.

(** [main] up to the call of [fs::is_directory]: the exit status 1 of the
    two usage errors, or the input path and the two export paths that
    [NsoToElf] is called with.  [args] is [argv] without [argv[0]].  With no
    input path [fs::path] is built from a null pointer. *)
Definition main_paths (args : list string)
  : outcome (Z + string * option string * option string) :=
  match args with
  | [] => Done (inl 1)
  | _ =>
      match parse_args args no_options with
      | None => Done (inl 1)
      | Some o =>
          match input_path o with
          | None => Undefined
          | Some p => Done (inr (p, elf_path o, uncompressed_path o))
          end
      end
  end.

(** A command line taken apart: the input and the two options with their
    values. *)
Inductive Item : Type :=
  | Input (path : string)
  | ExportElf (path : string)
  | ExportUncompressed (path : string).

Definition item_args (it : Item) : list string :=
  match it with
  | Input p => [p]
  | ExportElf p => ["--export-elf"; p]
  | ExportUncompressed p => ["--export-uncompressed"; p]
  end.

Definition is_option (s : string) : bool :=
  bool_decide (s = "--export-elf")
  || bool_decide (s = "--export-uncompressed").

(** The paths the items name: the inputs in order, the last value of each
    option. *)
Definition inputs_of (items : list Item) : list string :=
  omap (fun it => match it with Input p => Some p | _ => None end) items.

Definition last_elf (items : list Item) : option string :=
  last (omap (fun it => match it with ExportElf p => Some p | _ => None end)
             items).

Definition last_uncompressed (items : list Item) : option string :=
  last (omap (fun it => match it with
                        | ExportUncompressed p => Some p
                        | _ => None
                        end) items).

(** An NRO header behind 16 zero bytes whose file_size field says 0x1000,
    in a file of 0x80 bytes. *)
Definition nro_wrong_size : list byte :=
  zeros 0x10 ++ nro_magic ++ le_bytes 4 0 ++ le_bytes 4 0x1000
  ++ zeros 0x64.

(** An NSO whose dynamic table names a .fini at 0x50, the start of a .data
    of 0xb0 zero bytes: none of its first 0x20 words is a branch. *)
Definition nso_fini_no_branch : list byte :=
  encode_NsoHeader
    (sample_header 0
       (mkSegs (mkSeg 0x100 0 0x30 0x100) (mkSeg 0x130 0x30 0x20 1)
               (mkSeg 0x150 0x50 0xb0 0x10))
       (mkSegs 0x30 0x20 0xb0))
  ++ pad_to 0x30 (mod_prologue 0x30)
  ++ dyn_entry DT_FINI 0x50 ++ dyn_entry 0 0 ++ zeros 0xb0.

(** An NSO whose dynamic table is the first thing in .data. *)
Definition nso_dynamic_in_data : list byte :=
  encode_NsoHeader
    (sample_header 0
       (mkSegs (mkSeg 0x100 0 0x30 0x100) (mkSeg 0x130 0x30 0x10 1)
               (mkSeg 0x140 0x40 0x30 0x10))
       (mkSegs 0x30 0x10 0x30))
  ++ pad_to 0x30 (mod_prologue 0x40) ++ zeros 0x10
  ++ dyn_entry DT_INIT_ARRAY 0x60 ++ dyn_entry 0 0 ++ zeros 0x10.

(** *** String tables whose entries do not collide *)

(** The bytes a name takes in the buffer: its characters and the NUL. *)
Definition name_size (s : string) : Z := StringTable.strlen s + 1.

(** The watermark after the constructor and [AddString] for every name of
    [names], were every name new and the sum computed without wrapping. *)
Definition names_size (names : list string) : Z :=
  foldr (fun s acc => name_size s + acc) 1 names.

(** Every entry lies below the watermark, and no two entries overlap. *)
Definition table_ok (tbl : StringTable.t) : Prop :=
  0 <= StringTable.watermark tbl
  /\ (forall s off,
        StringTable.entries tbl !! s = Some off ->
        0 <= off /\ off + name_size s <= StringTable.watermark tbl)
  /\ (forall s1 s2 o1 o2,
        s1 <> s2 ->
        StringTable.entries tbl !! s1 = Some o1 ->
        StringTable.entries tbl !! s2 = Some o2 ->
        o1 + name_size s1 <= o2 \/ o2 + name_size s2 <= o1).

(** The dynamic table at [dyn] holds the entries [entries], each with a
    nonzero tag, and the terminator behind them. *)
Definition dyn_table (img : list byte) (dyn : Z) (entries : list (Z * Z))
  : Prop :=
  (forall (k : nat) tag val,
     entries !! k = Some (tag, val) ->
     read_u64 img (dyn + sizeof_Elf64_Dyn * Z.of_nat k) = Some tag
     /\ read_u64 img (dyn + sizeof_Elf64_Dyn * Z.of_nat k + 8) = Some val
     /\ tag <> 0)
  /\ read_u64 img (dyn + sizeof_Elf64_Dyn * Z.of_nat (length entries))
     = Some 0.

(** [dyn_info] after the entries were assigned in order. *)
Definition assign_all (entries : list (Z * Z)) (d : DynInfo.t) : DynInfo.t :=
  foldl (fun d e => DynInfo.assign e.1 e.2 d) d entries.

(** An NSO whose .data is stored as an LZ4 block of eight literals, half of
    the declared mem_size 0x10. *)
Definition nso_packed_data : list byte :=
  encode_NsoHeader
    (sample_header 4
       (mkSegs (mkSeg 0x100 0 0x30 0x100) (mkSeg 0x130 0x30 0x10 1)
               (mkSeg 0x140 0x40 0x10 0x10))
       (mkSegs 0x30 0x10 9))
  ++ pad_to 0x30 (mod_prologue 0x30) ++ zeros 0x10
  ++ [Byte.x80] ++ le_bytes 8 0x0807060504030201.

(** *** main behind the argument loop *)

Section Main.

(** The file system as [main] sees it: [fs::is_directory] and the entries
    that [fs::directory_iterator] yields for a directory, in its order. *)
Variable is_directory : string -> bool.
Variable directory_iterator : string -> list string.

(** [File::iter_files]: the paths [func] is called with, the entries of
    [directory] that are not directories themselves. *)
Definition iter_files (directory : string) : list string :=
  filter (fun path => is_directory path = false)
         (directory_iterator directory).

(** [main]: the calls of [NsoToElf] it makes, each with the path and the
    two export paths, in order, and the exit status once they have
    returned.  What the calls return is dropped. *)
Definition main_calls (args : list string)
  : outcome (Z * list (string * option string * option string)) :=
  r ← main_paths args;
  match r with
  | inl status => Done (status, [])
  | inr (p, e, u) =>
      if is_directory p
      then Done (0, (fun nx_path => (nx_path, e, u)) <$> iter_files p)
      else Done (0, [(p, e, u)])
  end.

End Main.

(** * Properties of the embedding *)

(** ** Bytes and little-endian views *)

Lemma byte_to_Z_range (b : byte) : 0 <= byte_to_Z b < 256.
Proof.
  unfold byte_to_Z. pose proof (Byte.to_N_bounded b) as H.
  lia.
Qed.

Lemma byte_to_of_Z (z : Z) : byte_to_Z (byte_of_Z z) = z mod 256.
Proof.
  unfold byte_to_Z, byte_of_Z.
  assert (Hr : 0 <= z mod 256 < 256) by (apply Z.mod_pos_bound; lia).
  destruct (Byte.of_N (Z.to_N (z mod 256))) as [b|] eqn:E; simpl.
  - apply Byte.to_of_N in E. rewrite E. lia.
  - apply Byte.of_N_None_iff in E. lia.
Qed.

Lemma byte_of_to_Z (b : byte) : byte_of_Z (byte_to_Z b) = b.
Proof.
  unfold byte_of_Z. pose proof (byte_to_Z_range b) as Hr.
  rewrite Z.mod_small by lia. unfold byte_to_Z.
  rewrite N2Z.id, Byte.of_to_N. reflexivity.
Qed.

Lemma length_le_bytes (n : nat) (v : Z) : length (le_bytes n v) = n.
Proof. revert v. induction n as [|n IH]; intros v; simpl; [done|]. by rewrite IH. Qed.

Lemma buf_size_le_bytes (n : nat) (v : Z) : buf_size (le_bytes n v) = Z.of_nat n.
Proof. unfold buf_size. by rewrite length_le_bytes. Qed.

Lemma le_value_range (bs : list byte) :
  0 <= le_value bs < 2 ^ (8 * Z.of_nat (length bs)).
Proof.
  induction bs as [|b bs IH]; simpl length; [simpl; lia|].
  cbn [le_value]. pose proof (byte_to_Z_range b).
  replace (8 * Z.of_nat (S (length bs))) with (8 + 8 * Z.of_nat (length bs)) by lia.
  rewrite Z.pow_add_r by lia. change (2 ^ 8) with 256. nia.
Qed.

Lemma le_value_bytes (n : nat) (v : Z) :
  le_value (le_bytes n v) = v mod 2 ^ (8 * Z.of_nat n).
Proof.
  revert v. induction n as [|n IH]; intros v.
  - simpl. by rewrite Z.mod_1_r.
  - cbn [le_bytes le_value]. rewrite IH, byte_to_of_Z.
    replace (8 * Z.of_nat (S n)) with (8 + 8 * Z.of_nat n) by lia.
    rewrite Z.pow_add_r by lia. change (2 ^ 8) with 256.
    rewrite (Z.rem_mul_r v 256 (2 ^ (8 * Z.of_nat n))) by lia. lia.
Qed.

Lemma le_bytes_value (bs : list byte) : le_bytes (length bs) (le_value bs) = bs.
Proof.
  induction bs as [|b bs IH]; [done|].
  cbn [length le_bytes le_value]. pose proof (byte_to_Z_range b).
  f_equal.
  - rewrite <- (byte_of_to_Z b) at 2. unfold byte_of_Z.
    replace ((byte_to_Z b + 256 * le_value bs) mod 256)
      with (byte_to_Z b mod 256); [done|].
    rewrite Z.mul_comm, Z_mod_plus_full. reflexivity.
  - etrans; [|exact IH]. f_equal.
    rewrite Z.add_comm, Z.mul_comm, Z.div_add_l by lia.
    rewrite Z.div_small by lia. lia.
Qed.

Lemma le_value_u32 (bs : list byte) : length bs = 4%nat -> u32 (le_value bs) = le_value bs.
Proof.
  intros H. unfold u32. apply Z.mod_small.
  pose proof (le_value_range bs) as Hr. rewrite H in Hr. exact Hr.
Qed.

(** ** Reads and writes inside a buffer *)

Lemma buf_size_nonneg (buf : list byte) : 0 <= buf_size buf.
Proof. unfold buf_size. lia. Qed.

Lemma buf_size_app (a b : list byte) : buf_size (a ++ b) = buf_size a + buf_size b.
Proof. unfold buf_size. rewrite length_app. lia. Qed.

Lemma buf_size_zeros (n : Z) : buf_size (zeros n) = Z.max 0 n.
Proof. unfold buf_size, zeros. rewrite length_replicate. lia. Qed.

Lemma read_bytes_Some (buf : list byte) (off len : Z) (bs : list byte) :
  read_bytes buf off len = Some bs ->
  0 <= off /\ 0 <= len /\ off + len <= buf_size buf
  /\ bs = take (Z.to_nat len) (drop (Z.to_nat off) buf)
  /\ buf_size bs = len.
Proof.
  unfold read_bytes. case_bool_decide as H; [|done].
  intros [= <-]. destruct H as (H1 & H2 & H3). repeat split; try done.
  unfold buf_size in *. rewrite length_take, length_drop. lia.
Qed.

Lemma read_bytes_in (buf : list byte) (off len : Z) :
  0 <= off -> 0 <= len -> off + len <= buf_size buf ->
  read_bytes buf off len = Some (take (Z.to_nat len) (drop (Z.to_nat off) buf)).
Proof. intros. unfold read_bytes. by rewrite bool_decide_eq_true_2. Qed.

Lemma write_bytes_Some (buf : list byte) (off : Z) (bs buf' : list byte) :
  write_bytes buf off bs = Some buf' ->
  0 <= off /\ off + buf_size bs <= buf_size buf
  /\ buf' = take (Z.to_nat off) buf ++ bs ++ drop (Z.to_nat off + length bs) buf
  /\ buf_size buf' = buf_size buf.
Proof.
  unfold write_bytes. case_bool_decide as H; [|done].
  intros [= <-]. destruct H as (H1 & H2). repeat split; try done.
  unfold buf_size in *. rewrite !length_app, length_take, length_drop. lia.
Qed.

Lemma write_bytes_in (buf : list byte) (off : Z) (bs : list byte) :
  0 <= off -> off + buf_size bs <= buf_size buf ->
  write_bytes buf off bs
  = Some (take (Z.to_nat off) buf ++ bs ++ drop (Z.to_nat off + length bs) buf).
Proof. intros. unfold write_bytes. by rewrite bool_decide_eq_true_2. Qed.

(** A write is seen by a read of the same range. *)
Lemma read_write_same (buf : list byte) (off : Z) (bs buf' : list byte) :
  write_bytes buf off bs = Some buf' ->
  read_bytes buf' off (buf_size bs) = Some bs.
Proof.
  intros H. apply write_bytes_Some in H as (H1 & H2 & -> & H4).
  rewrite read_bytes_in; [|lia|apply buf_size_nonneg|].
  - f_equal. unfold buf_size in *.
    rewrite drop_app_length'; [|rewrite length_take; lia].
    rewrite take_app_length'; [done|lia].
  - unfold buf_size in *.
    rewrite !length_app, length_take, length_drop. lia.
Qed.

(** A write leaves every disjoint range as it was. *)
Lemma read_write_disjoint (buf : list byte) (off : Z) (bs buf' : list byte)
    (o l : Z) :
  write_bytes buf off bs = Some buf' ->
  o + l <= off \/ off + buf_size bs <= o ->
  read_bytes buf' o l = read_bytes buf o l.
Proof.
  intros H Hd. apply write_bytes_Some in H as (H1 & H2 & -> & H4).
  unfold read_bytes. rewrite H4.
  case_bool_decide as Hin; [|done]. destruct Hin as (Ho & Hl & Hol).
  f_equal. unfold buf_size in *.
  apply list_eq. intros i.
  rewrite !lookup_take. case_decide as Hi; [|done].
  rewrite !lookup_drop.
  destruct Hd as [Hd|Hd].
  - rewrite lookup_app_l by (rewrite length_take; lia).
    rewrite lookup_take_lt by lia. done.
  - rewrite lookup_app_r by (rewrite length_take; lia).
    rewrite lookup_app_r by (rewrite length_take; lia).
    rewrite lookup_drop, length_take. f_equal. lia.
Qed.

(** ** StringTable *)

Lemma AddString_lookup (str s : string) (tbl : StringTable.t) :
  is_Some (StringTable.entries (StringTable.AddString str tbl) !! s) ->
  s = str \/ is_Some (StringTable.entries tbl !! s).
Proof.
  unfold StringTable.AddString.
  destruct (StringTable.entries tbl !! str) eqn:E; simpl; [by right|].
  destruct (decide (s = str)) as [->|Hne]; [by left|].
  rewrite lookup_insert_ne by done. by right.
Qed.

Lemma AddString_keeps (str s : string) (off : Z) (tbl : StringTable.t) :
  StringTable.entries tbl !! s = Some off ->
  StringTable.entries (StringTable.AddString str tbl) !! s = Some off.
Proof.
  intros H. unfold StringTable.AddString.
  destruct (StringTable.entries tbl !! str) eqn:E; simpl; [done|].
  rewrite lookup_insert_ne; [done|]. intros ->. congruence.
Qed.

Lemma build_snoc (names : list string) (str : string) :
  StringTable.build (names ++ [str])
  = StringTable.AddString str (StringTable.build names).
Proof. unfold StringTable.build. by rewrite foldl_app. Qed.

Lemma build_lookup (names : list string) (s : string) :
  is_Some (StringTable.entries (StringTable.build names) !! s) ->
  s = "" \/ s ∈ names.
Proof.
  induction names as [|str names IH] using rev_ind.
  - intros H. apply AddString_lookup in H as [->|H]; [by left|].
    simpl in H. rewrite lookup_empty in H. by destruct H.
  - rewrite build_snoc. intros H.
    apply AddString_lookup in H as [->|H].
    + right. set_solver.
    + apply IH in H as [->|H]; [by left|right; set_solver].
Qed.

Lemma build_empty_string (names : list string) :
  StringTable.entries (StringTable.build names) !! "" = Some 0.
Proof.
  induction names as [|str names IH] using rev_ind.
  - reflexivity.
  - rewrite build_snoc. by apply AddString_keeps.
Qed.

(** ** The masked search and ResolvePlt *)

Lemma memmem_m_Some (hay needle mask : list byte) (i : Z) :
  memmem_m hay needle mask = Some i ->
  0 <= i
  /\ masked_prefix (drop (Z.to_nat i) hay) needle mask = true
  /\ forall j, 0 <= j < i ->
       masked_prefix (drop (Z.to_nat j) hay) needle mask = false.
Proof.
  revert i. induction hay as [|h hay IH]; intros i; cbn [memmem_m].
  - destruct (masked_prefix [] needle mask) eqn:E; [|done].
    intros [= <-]. split; [lia|]. split; [done|]. intros j Hj; lia.
  - destruct (masked_prefix (h :: hay) needle mask) eqn:E.
    + intros [= <-]. split; [lia|]. split; [done|]. intros j Hj; lia.
    + destruct (memmem_m hay needle mask) as [i'|] eqn:E'; [|done].
      simpl. intros [= <-]. destruct (IH i' eq_refl) as (H0 & Hm & Hfirst).
      split; [lia|]. split.
      * replace (Z.to_nat (Z.succ i')) with (S (Z.to_nat i')) by lia. done.
      * intros j Hj. destruct (decide (j = 0)) as [->|Hne]; [done|].
        replace (Z.to_nat j) with (S (Z.to_nat (j - 1))) by lia.
        simpl. apply Hfirst. lia.
Qed.

Lemma memmem_m_None (hay needle mask : list byte) (j : nat) :
  memmem_m hay needle mask = None ->
  masked_prefix (drop j hay) needle mask = false.
Proof.
  revert j. induction hay as [|h hay IH]; intros j; cbn [memmem_m].
  - destruct (masked_prefix [] needle mask) eqn:E; [done|].
    intros _. by rewrite drop_nil.
  - destruct (masked_prefix (h :: hay) needle mask) eqn:E; [done|].
    destruct (memmem_m hay needle mask) eqn:E'; [done|].
    intros _. destruct j as [|j]; [done|]. simpl. by apply IH.
Qed.

(** C4, as the code has it: without PLT relocations the scan is skipped
    and the answer is false; otherwise the first masked occurrence of the
    resolver gives [plt_info.addr], and [plt_info.size] is two 16-byte
    slots for the resolver plus one slot per relocation. *)
Theorem ResolvePlt_first_match (st : NsoFile) (base len j : Z)
    (hay : list byte) :
  0 <= DynInfo.pltrelsz (dyn_info st) < 2 ^ 64 ->
  read_bytes (image st) base len = Some hay ->
  (DynInfo.pltrelsz (dyn_info st) = 0 ->
   exists st', ResolvePlt st base len = Done (false, st'))
  /\ (DynInfo.pltrelsz (dyn_info st) <> 0 ->
      0 <= j -> plt_match hay j ->
      exists i,
        0 <= i <= j /\ plt_match hay i
        /\ (forall k, 0 <= k < i -> ~ plt_match hay k)
        /\ ResolvePlt st base len
           = Done (true,
                   set_plt_info
                     (PltInfo.mk (base + i)
                        (32 + 16 * (DynInfo.pltrelsz (dyn_info st)
                                    / sizeof_Elf64_Rela)))
                     st)).
Proof.
  intros Hrange Hread. unfold ResolvePlt. split.
  - intros ->. by eexists.
  - intros Hnz Hj Hmatch.
    destruct (DynInfo.pltrelsz (dyn_info st) =? 0) eqn:E; [lia|].
    cbn [negb]. rewrite Hread. cbn [must mbind outcome_bind].
    destruct (memmem_m hay (words_bytes plt_pattern) (words_bytes plt_mask))
      as [i|] eqn:Em.
    + apply memmem_m_Some in Em as (H0 & Hm & Hfirst).
      exists i. split.
      * split; [done|]. destruct (decide (i <= j)) as [|Hgt]; [done|].
        unfold plt_match in Hmatch. rewrite Hfirst in Hmatch by lia. done.
      * split; [exact Hm|]. split.
        { intros k Hk Hk'. unfold plt_match in Hk'.
          rewrite Hfirst in Hk' by lia. done. }
        unfold u64, sizeof_Elf64_Rela in *. repeat f_equal.
        change (2 ^ 64) with 18446744073709551616 in *.
        Z.div_mod_to_equations. lia.
    + unfold plt_match in Hmatch.
      rewrite (memmem_m_None _ _ _ (Z.to_nat j) Em) in Hmatch. done.
Qed.

Lemma ResolvePlt_first_match_witness :
  (exists i,
     ResolvePlt plt_sample 0 32
     = Done (true, set_plt_info (PltInfo.mk (0 + i) (32 + 16 * (24 / 24)))
                                plt_sample))
  /\ (exists st', ResolvePlt fresh 0 0 = Done (false, st')).
Proof.
  split.
  - assert (Hr : 0 <= DynInfo.pltrelsz (dyn_info plt_sample) < 2 ^ 64)
      by (change (0 <= 24 < 2 ^ 64); lia).
    assert (Hread : read_bytes (image plt_sample) 0 32
                    = Some (words_bytes plt_pattern)) by reflexivity.
    assert (Hnz : DynInfo.pltrelsz (dyn_info plt_sample) <> 0)
      by (change (24 <> 0); lia).
    assert (Hm : plt_match (words_bytes plt_pattern) 0) by reflexivity.
    destruct (proj2 (ResolvePlt_first_match plt_sample 0 32 0
                       (words_bytes plt_pattern) Hr Hread)
                    Hnz (Z.le_refl 0) Hm)
      as (i & _ & _ & _ & Hres).
    exists i. exact Hres.
  - assert (Hr : 0 <= DynInfo.pltrelsz (dyn_info fresh) < 2 ^ 64)
      by (change (0 <= 0 < 2 ^ 64); lia).
    assert (Hread : read_bytes (image fresh) 0 0 = Some []) by reflexivity.
    exact (proj1 (ResolvePlt_first_match fresh 0 0 0 [] Hr Hread) eq_refl).
Defined.

(** C4 as stated fails twice.  The resolver counts as two slots: on the
    thunk with one relocation the size is 48, not 32.  And with
    [pltrelsz = 0] nothing marks the PLT absent: [plt_info] keeps what the
    storage of the object held, here 0x1234, and [WriteElf] takes the
    nonzero address for a PLT that is present. *)
Lemma ResolvePlt_counterexample :
  (exists st',
     ResolvePlt plt_sample 0 32 = Done (true, st')
     /\ PltInfo.size (plt_info st')
        <> 16 + 16 * (DynInfo.pltrelsz (dyn_info plt_sample)
                      / sizeof_Elf64_Rela))
  /\ (exists st pl,
        Load lz4_literal_block (NsoFile_new (PltInfo.mk 0x1234 0x40))
             nso_plain = Done st
        /\ DynInfo.pltrelsz (dyn_info st) = 0
        /\ PltInfo.addr (plt_info st) = 0x1234
        /\ plan_elf no_eh_frame st = Done pl
        /\ Present.plt (plan_present pl) = true).
Proof.
  split.
  - eexists. split; [vm_compute; reflexivity|]. vm_compute. discriminate.
  - eexists _, _. split; [vm_compute; reflexivity|].
    split; [vm_compute; reflexivity|].
    split; [vm_compute; reflexivity|].
    split; vm_compute; reflexivity.
Qed.

(** ** Inversion of runs *)

Lemma bind_Done {A B : Type} (f : A -> outcome B) (m : outcome A) (b : B) :
  m ≫= f = Done b -> exists a, m = Done a /\ f a = Done b.
Proof. destruct m as [a| |]; simpl; [eauto|discriminate..]. Qed.

Lemma must_Done {A : Type} (o : option A) (a : A) :
  must o = Done a -> o = Some a.
Proof. destruct o; simpl; congruence. Qed.

Lemma require_Done (b : bool) (u : unit) : require b = Done u -> b = true.
Proof. destruct b; simpl; congruence. Qed.

Ltac inv_run :=
  repeat match goal with
    | H : mbind _ _ = Done _ |- _ =>
        let a := fresh "a" in
        let Ha := fresh "Hrun" in
        apply bind_Done in H as (a & Ha & H)
    | H : must _ = Done _ |- _ => apply must_Done in H
    | H : require _ = Done _ |- _ => apply require_Done in H
    | H : bool_decide _ = true |- _ => apply bool_decide_eq_true_1 in H
    | H : Done _ = Done _ |- _ => injection H as H
    | H : Refused = Done _ |- _ => discriminate H
    | H : Undefined = Done _ |- _ => discriminate H
    end.

(** ** What the steps of Load leave untouched *)

Lemma ResolvePlt_Done (st st' : NsoFile) (base len : Z) (found : bool) :
  ResolvePlt st base len = Done (found, st') ->
  file_type st' = file_type st /\ header st' = header st
  /\ image st' = image st /\ dyn_info st' = dyn_info st
  /\ dynamic st' = dynamic st /\ note st' = note st
  /\ eh_info st' = eh_info st.
Proof.
  unfold ResolvePlt.
  destruct (negb (DynInfo.pltrelsz (dyn_info st) =? 0)).
  - intros H. inv_run.
    destruct (memmem_m _ _ _); inv_run; by simplify_eq.
  - intros H. inv_run. by simplify_eq.
Qed.

Lemma copy_build_id_Done (st st' : NsoFile) :
  copy_build_id st = Done st' ->
  file_type st' = file_type st
  /\ segments (header st') = segments (header st)
  /\ segment_file_sizes (header st') = segment_file_sizes (header st)
  /\ flags (header st') = flags (header st)
  /\ dynsym (header st') = dynsym (header st)
  /\ dynstr (header st') = dynstr (header st)
  /\ image st' = image st /\ dyn_info st' = dyn_info st
  /\ dynamic st' = dynamic st /\ note st' = note st
  /\ plt_info st' = plt_info st
  /\ (file_type st <> kMod -> st' = st).
Proof.
  unfold copy_build_id.
  destruct (file_type st) eqn:Ef, (note st) eqn:En;
    intros H; inv_run; simplify_eq; try (rewrite Ef; by repeat split).
  cbn. by repeat split.
Qed.

Lemma finish_load_run (file : list byte) (st1 st : NsoFile) :
  finish_load file st1 = Done st <-> FinishRun file st1 st.
Proof.
  split.
  - unfold finish_load. intros H. inv_run.
    rename a into mod_base, a0 into mod_hdr, a2 into info, a3 into st5,
      a4 into n, a5 into st7.
    refine (finish_run _ _ _ _ mod_base mod_hdr info st5 n st7
              eq_refl _ _ Hrun0 Hrun1 _ _ Hrun4 Hrun5 (eq_sym H)).
    + destruct (decide (file_type st1 = kUnknown)) as [E|E].
      * rewrite !(bool_decide_eq_true_2 _ E) in Hrun |- *.
        cbn [negb] in Hrun.
        by destruct (bool_decide (sizeof_ModPointer <= buf_size file)).
      * rewrite !(bool_decide_eq_false_2 _ E) in Hrun |- *. exact Hrun.
    + intros E. rewrite !(bool_decide_eq_true_2 _ E) in Hrun.
      cbn [negb] in Hrun.
      destruct (bool_decide (sizeof_ModPointer <= buf_size file)) eqn:Eb;
        [by apply bool_decide_eq_true_1 in Eb|done].
    + rewrite <- Hrun2. destruct (file_type st1); reflexivity.
    + rewrite <- Hrun3. cbn zeta.
      match goal with |- (if ?b then _ else _) = (if ?b' then _ else _) =>
        change b' with b; destruct b; [reflexivity|] end.
      match goal with |- (?m ≫= _) = (?m' ≫= _) =>
        change m' with m; destruct m as [[]| |]; reflexivity end.
  - intros [buf mod_base mod_hdr info resolved n noted
              -> Hloc Hsz Hhdr Hmagic Hparse Hres Hnote Hcopy ->].
    unfold finish_load.
    assert (Hloc' :
      (if negb (bool_decide (file_type st1 = kUnknown))
       then locate_mod (image st1)
       else if bool_decide (sizeof_ModPointer <= buf_size file)
            then locate_mod file else Refused) = Done mod_base).
    { destruct (decide (file_type st1 = kUnknown)) as [E|E].
      - rewrite !(bool_decide_eq_true_2 _ E) in Hloc |- *. cbn [negb].
        by rewrite (bool_decide_eq_true_2 _ (Hsz E)).
      - by rewrite !(bool_decide_eq_false_2 _ E) in Hloc |- *. }
    rewrite Hloc'. cbn [mbind outcome_bind].
    rewrite Hhdr. cbn [must mbind outcome_bind].
    rewrite (bool_decide_eq_true_2 _ Hmagic). cbn [require mbind outcome_bind].
    assert (Hparse' :
      parse_dynamic
        (walk_fuel (image (set_dynamic (Some (mod_base + dynamic_offset mod_hdr))
           (if bool_decide (file_type st1 = kUnknown)
            then set_file_type kMod (set_image file st1) else st1))))
        (image (set_dynamic (Some (mod_base + dynamic_offset mod_hdr))
           (if bool_decide (file_type st1 = kUnknown)
            then set_file_type kMod (set_image file st1) else st1)))
        (mod_base + dynamic_offset mod_hdr)
        (dyn_info (set_dynamic (Some (mod_base + dynamic_offset mod_hdr))
           (if bool_decide (file_type st1 = kUnknown)
            then set_file_type kMod (set_image file st1) else st1)))
      = Done info).
    { rewrite <- Hparse. by case_bool_decide. }
    rewrite Hparse'. cbn [mbind outcome_bind].
    assert (Hres' : forall k : NsoFile -> outcome NsoFile,
      ((if bool_decide (file_type (set_dyn_info info
             (set_dynamic (Some (mod_base + dynamic_offset mod_hdr))
               (if bool_decide (file_type st1 = kUnknown)
                then set_file_type kMod (set_image file st1) else st1)))
           = kMod)
        then synthesize_mod mod_base mod_hdr (set_dyn_info info
             (set_dynamic (Some (mod_base + dynamic_offset mod_hdr))
               (if bool_decide (file_type st1 = kUnknown)
                then set_file_type kMod (set_image file st1) else st1)))
        else
          '(_, st) ← ResolvePlt (set_dyn_info info
             (set_dynamic (Some (mod_base + dynamic_offset mod_hdr))
               (if bool_decide (file_type st1 = kUnknown)
                then set_file_type kMod (set_image file st1) else st1)))
             (mem_offset (at_text (segments (header (set_dyn_info info
             (set_dynamic (Some (mod_base + dynamic_offset mod_hdr))
               (if bool_decide (file_type st1 = kUnknown)
                then set_file_type kMod (set_image file st1) else st1)))))))
             (mem_size (at_text (segments (header (set_dyn_info info
             (set_dynamic (Some (mod_base + dynamic_offset mod_hdr))
               (if bool_decide (file_type st1 = kUnknown)
                then set_file_type kMod (set_image file st1) else st1)))))));
          Done st) ≫= k) = k resolved).
    { intros k. cbn zeta in Hres. revert Hres.
      match goal with |- (if ?b then _ else _) = _ -> _ =>
        destruct b; [by intros ->|] end.
      match goal with |- (?m ≫= _) = _ -> _ =>
        destruct m as [[]| |]; cbn; [|done..] end.
      by intros [= ->]. }
    rewrite Hres'. rewrite Hnote. cbn [mbind outcome_bind].
    rewrite Hcopy. reflexivity.
Qed.

Lemma Load_Done (LZ4 : list byte -> Z -> option (list byte))
    (this : NsoFile) (file : list byte) (st : NsoFile) :
  Load LZ4 this file = Done st <->
  exists st1, load_container LZ4 this file = Done st1
              /\ FinishRun file st1 st.
Proof.
  unfold Load. split.
  - intros H. inv_run. exists a. split; [done|]. by apply finish_load_run.
  - intros (st1 & -> & H). by apply finish_load_run.
Qed.

(** ** Decompression in the NSO branch *)

Lemma load_container_nso (LZ4 : list byte -> Z -> option (list byte))
    (this : NsoFile) (file : list byte) :
  is_nso file = true ->
  load_container LZ4 this file = load_nso LZ4 this file.
Proof. unfold load_container. by intros ->. Qed.

Lemma load_segment_compressed (LZ4 : list byte -> Z -> option (list byte))
    (file : list byte) (h : NsoHeader) (i : SegmentType)
    (img img' : list byte) :
  Z.testbit (flags h) (seg_index i) = true ->
  load_segment LZ4 file h i img = Done img' ->
  exists src out,
    read_bytes file (file_offset (seg_get (segments h) i))
               (seg_get (segment_file_sizes h) i) = Some src
    /\ LZ4 src (mem_size (seg_get (segments h) i)) = Some out
    /\ 0 < buf_size out
    /\ write_bytes img (mem_offset (seg_get (segments h) i)) out = Some img'.
Proof.
  unfold load_segment, Decompress. intros Hbit H. cbn zeta in H.
  rewrite Hbit in H. apply bind_Done in H as (src & Hsrc & H).
  apply must_Done in Hsrc. exists src.
  destruct (LZ4 src (mem_size (seg_get (segments h) i))) as [out|] eqn:E;
    cbn [mbind outcome_bind] in H.
  - apply bind_Done in H as ([ok img1] & Hd & H).
    apply bind_Done in Hd as (img2 & Hw & Hd). apply must_Done in Hw.
    apply bind_Done in H as (u & Hok & H). apply require_Done in Hok.
    injection Hd as Hd1 Hd2. subst ok img1.
    apply bool_decide_eq_true_1 in Hok. injection H as ->.
    exists out. by repeat split.
  - apply bind_Done in H as (u & Hok & H). discriminate Hok.
Qed.

Lemma load_nso_Done (LZ4 : list byte -> Z -> option (list byte))
    (this : NsoFile) (file : list byte) (st : NsoFile) :
  load_nso LZ4 this file = Done st ->
  let h := decode_NsoHeader (take (Z.to_nat sizeof_NsoHeader) file) in
  exists img1 img2 img3,
    load_segment LZ4 file h kText
      (zeros (u32 (u32 (mem_offset (at_data (segments h))
                        + mem_size (at_data (segments h)))
                   + bss_align (at_data (segments h))))) = Done img1
    /\ load_segment LZ4 file h kRodata img1 = Done img2
    /\ load_segment LZ4 file h kData img2 = Done img3
    /\ st = set_file_type kNso (set_image img3 (set_header h this)).
Proof.
  unfold load_nso. intros H. cbn zeta in H. inv_run.
  exists a, a0, a1. by simplify_eq.
Qed.

(** C5, as the code has it: in the NSO branch [Load] goes on past a
    compressed segment only when the decoder returned a positive number of
    bytes for it (it need not be [mem_size]). *)
Theorem Load_needs_positive_length
    (LZ4 : list byte -> Z -> option (list byte)) (plt0 : PltInfo.t)
    (file : list byte) (st : NsoFile) (i : SegmentType) :
  is_nso file = true ->
  Z.testbit (flags (decode_NsoHeader (take (Z.to_nat sizeof_NsoHeader) file)))
            (seg_index i) = true ->
  Load LZ4 (NsoFile_new plt0) file = Done st ->
  exists src out,
    read_bytes file
      (file_offset
         (seg_get (segments (decode_NsoHeader
                               (take (Z.to_nat sizeof_NsoHeader) file))) i))
      (seg_get (segment_file_sizes
                  (decode_NsoHeader
                     (take (Z.to_nat sizeof_NsoHeader) file))) i)
    = Some src
    /\ LZ4 src (mem_size
                  (seg_get (segments
                              (decode_NsoHeader
                                 (take (Z.to_nat sizeof_NsoHeader) file))) i))
       = Some out
    /\ 0 < buf_size out.
Proof.
  intros Hnso Hbit Hload. apply Load_Done in Hload as (st1 & Hc & _).
  rewrite load_container_nso in Hc by done.
  apply load_nso_Done in Hc as (img1 & img2 & img3 & H1 & H2 & H3 & _).
  destruct i.
  - destruct (load_segment_compressed _ _ _ _ _ _ Hbit H1)
      as (src & out & ? & ? & ? & _). eauto.
  - destruct (load_segment_compressed _ _ _ _ _ _ Hbit H2)
      as (src & out & ? & ? & ? & _). eauto.
  - destruct (load_segment_compressed _ _ _ _ _ _ Hbit H3)
      as (src & out & ? & ? & ? & _). eauto.
Qed.

Lemma Load_needs_positive_length_witness :
  exists st src out,
    Load lz4_literal_block fresh nso_short_text = Done st
    /\ read_bytes nso_short_text 0x100 38 = Some src
    /\ lz4_literal_block src 0x30 = Some out
    /\ 0 < buf_size out.
Proof.
  assert (Hnso : is_nso nso_short_text = true) by (vm_compute; reflexivity).
  assert (Hbit :
    Z.testbit (flags (decode_NsoHeader
                        (take (Z.to_nat sizeof_NsoHeader) nso_short_text)))
              (seg_index kText) = true) by (vm_compute; reflexivity).
  destruct (Load lz4_literal_block fresh nso_short_text) as [st| |] eqn:E;
    [|vm_compute in E; discriminate E..].
  destruct (Load_needs_positive_length lz4_literal_block (PltInfo.mk 0 0)
              nso_short_text st kText Hnso Hbit E)
    as (src & out & Hsrc & Hout & Hpos).
  exists st, src, out. split; [reflexivity|]. split; [exact Hsrc|].
  split; [exact Hout|exact Hpos].
Defined.

(** C5 as stated fails: the text segment of [nso_short_text] decodes to 36
    bytes against a declared [mem_size] of 48, and [Load] succeeds. *)
Lemma Load_accepts_length_mismatch :
  exists st src out,
    Load lz4_literal_block fresh nso_short_text = Done st
    /\ Z.testbit (flags (header st)) (seg_index kText) = true
    /\ read_bytes nso_short_text
         (file_offset (at_text (segments (header st))))
         (at_text (segment_file_sizes (header st))) = Some src
    /\ lz4_literal_block src (mem_size (at_text (segments (header st))))
       = Some out
    /\ buf_size out <> mem_size (at_text (segments (header st))).
Proof.
  eexists _, _, _. split; [vm_compute; reflexivity|].
  split; [vm_compute; reflexivity|].
  split; [vm_compute; reflexivity|].
  split; [vm_compute; reflexivity|]. vm_compute. discriminate.
Qed.

(** ** Sorting and the number of distinct section indices *)

Lemma insert_sorted_perm (x : Z) (l : list Z) : insert_sorted x l ≡ₚ x :: l.
Proof.
  induction l as [|y l IH]; cbn [insert_sorted]; [done|].
  destruct (x <=? y); [done|]. rewrite IH. apply Permutation_swap.
Qed.

Lemma sort_perm (l : list Z) : sort l ≡ₚ l.
Proof.
  induction l as [|x l IH]; [done|]. cbn [sort foldr].
  rewrite insert_sorted_perm. by f_equiv.
Qed.

Lemma insert_sorted_sorted (x : Z) (l : list Z) :
  StronglySorted Z.le l -> StronglySorted Z.le (insert_sorted x l).
Proof.
  induction 1 as [|y l Hs IH Hall]; cbn [insert_sorted].
  - repeat constructor.
  - destruct (x <=? y) eqn:E.
    + apply Z.leb_le in E. constructor; [by constructor|].
      constructor; [done|]. eapply Forall_impl; [exact Hall|].
      intros z Hz. cbn in Hz. lia.
    + apply Z.leb_gt in E. constructor; [done|].
      apply Forall_forall. intros z Hz.
      rewrite insert_sorted_perm in Hz.
      apply elem_of_cons in Hz as [->|Hz]; [lia|].
      rewrite Forall_forall in Hall. by apply Hall.
Qed.

Lemma sort_sorted (l : list Z) : StronglySorted Z.le (sort l).
Proof.
  induction l as [|x l IH]; [constructor|].
  cbn [sort foldr]. by apply insert_sorted_sorted.
Qed.

Lemma elem_of_unique (x : Z) (l : list Z) : x ∈ unique l <-> x ∈ l.
Proof.
  induction l as [|y l IH]; [done|]. cbn [unique].
  destruct l as [|z l]; [done|].
  destruct (y =? z) eqn:E.
  - apply Z.eqb_eq in E as ->. rewrite IH. set_solver.
  - rewrite !elem_of_cons, IH. set_solver.
Qed.

Lemma unique_NoDup (l : list Z) : StronglySorted Z.le l -> NoDup (unique l).
Proof.
  induction 1 as [|y l Hs IH Hall]; [constructor|]. cbn [unique].
  destruct l as [|z l]; [repeat constructor; set_solver|].
  destruct (y =? z) eqn:E; [done|]. apply Z.eqb_neq in E.
  constructor; [|done]. rewrite elem_of_unique.
  inversion Hs as [|? ? Hs' Hall']; subst.
  rewrite Forall_forall in Hall, Hall'.
  intros Hin. apply elem_of_cons in Hin as [->|Hin]; [done|].
  pose proof (Hall' _ Hin). pose proof (Hall z ltac:(set_solver)).
  cbn in *. lia.
Qed.

(** [seen_shndx.size()] is the number of distinct indices collected. *)
Lemma length_unique_sort (l : list Z) :
  length (unique (sort l)) = length (remove_dups l).
Proof.
  apply Permutation_length, NoDup_Permutation.
  - apply unique_NoDup, sort_sorted.
  - apply NoDup_remove_dups.
  - intros x. rewrite elem_of_unique, elem_of_remove_dups.
    by rewrite sort_perm.
Qed.

(** ** The raw-MOD synthesis *)

Lemma iter_dynsym_ext (st st' : NsoFile) :
  image st = image st' ->
  DynInfo.symtab (dyn_info st) = DynInfo.symtab (dyn_info st') ->
  DataExtent.size (dynsym (header st))
  = DataExtent.size (dynsym (header st')) ->
  iter_dynsym st = iter_dynsym st'.
Proof. unfold iter_dynsym. by intros -> -> ->. Qed.

Lemma find_data_offset_range (k : Z) (syms : list Elf64_Sym) :
  0 <= find_data_offset k syms < 2 ^ 32.
Proof.
  unfold find_data_offset.
  assert (H : forall off, 0 <= off < 2 ^ 32 ->
    0 <= foldl (fun off sym =>
                  if (off =? 0)
                     && (ELF64_ST_TYPE (st_info sym) =? STT_SECTION)
                     && (st_shndx sym =? k)
                  then u32 (st_value sym) else off) off syms < 2 ^ 32).
  { induction syms as [|s syms IH]; intros off Hoff; [done|].
    cbn [foldl]. apply IH.
    destruct (_ && _); [|done]. unfold u32. apply Z.mod_pos_bound. lia. }
  apply H. lia.
Qed.

(** What a successful synthesis has checked and built. *)
Lemma synthesize_mod_Done (mod_base : Z) (mod_hdr : ModHeader)
    (st st' : NsoFile) :
  synthesize_mod mod_base mod_hdr st = Done st' ->
  exists syms,
    iter_dynsym st' = Some syms
    /\ Z.of_nat (length (seen_shndx syms)) = kNumSegment + 1
    /\ file_type st' = file_type st
    /\ image st' = image st
    /\ dyn_info st' = dyn_info st
    /\ mem_offset (at_text (segments (header st'))) = 0
    /\ mem_offset (at_rodata (segments (header st')))
       = u32 (ALIGN_UP (u32 (mem_offset (at_text (segments (header st')))
                             + mem_size (at_text (segments (header st')))))
                       0x1000)
    /\ mem_offset (at_data (segments (header st')))
       = u32 (mem_offset (at_rodata (segments (header st')))
              + mem_size (at_rodata (segments (header st')))).
Proof.
  unfold synthesize_mod. intros H.
  apply bind_Done in H as ([found st1] & Hplt & H).
  apply ResolvePlt_Done in Hplt as (Hft & Hh & Hi & Hd & _).
  inv_run. rename a1 into syms. exists syms. subst st'. cbn.
  split.
  { rewrite <- Hrun1. apply iter_dynsym_ext; reflexivity. }
  split; [done|]. split; [done|]. split; [done|]. split; [done|].
  split; [done|]. split; [done|].
  pose proof (find_data_offset_range (seen_shndx syms !!! 2%nat) syms) as Hr.
  unfold u32 in *. rewrite Zplus_mod_idemp_r.
  rewrite Z.mod_small; [lia|].
  match goal with |- _ <= ?a + (?b - ?a) < _ =>
    replace (a + (b - a)) with b by lia end. exact Hr.
Qed.

(** C6: a raw MOD is loaded only when its dynsym shows exactly four
    distinct section indices (SHN_UNDEF and the reserved ones set aside). *)
Theorem Load_raw_mod_four_indices
    (LZ4 : list byte -> Z -> option (list byte)) (plt0 : PltInfo.t)
    (file : list byte) (st : NsoFile) :
  Load LZ4 (NsoFile_new plt0) file = Done st ->
  file_type st = kMod ->
  exists syms,
    iter_dynsym st = Some syms
    /\ length (remove_dups (collect_shndx syms)) = 4%nat.
Proof.
  intros Hload Hmod. apply Load_Done in Hload as (st1 & Hc & Hf).
  destruct Hf as [buf mod_base mod_hdr info resolved n noted
                    -> Hloc Hsz Hhdr Hmagic Hparse Hres Hnote Hcopy ->].
  apply copy_build_id_Done in Hcopy
    as (Hft & _ & _ & _ & Hsym & _ & Himg & Hdi & _).
  cbn in Hmod, Hft, Himg, Hdi, Hsym. rewrite Hft in Hmod.
  cbn zeta in Hres.
  destruct (bool_decide _) eqn:E in Hres.
  - apply synthesize_mod_Done in Hres as (syms & Hit & Hlen & _).
    exists syms. split.
    + rewrite <- Hit. apply iter_dynsym_ext; cbn; congruence.
    + unfold seen_shndx in Hlen. rewrite length_unique_sort in Hlen.
      unfold kNumSegment in Hlen. lia.
  - apply bool_decide_eq_false_1 in E.
    apply bind_Done in Hres as ([found st5] & Hplt & Hres).
    apply ResolvePlt_Done in Hplt as (Hft' & _).
    injection Hres as <-. exfalso. apply E. by rewrite <- Hft'.
Qed.

Lemma Load_raw_mod_four_indices_witness :
  exists st syms,
    Load lz4_literal_block (NsoFile_new (PltInfo.mk 0 0)) (raw_mod 4)
    = Done st
    /\ file_type st = kMod
    /\ iter_dynsym st = Some syms
    /\ length (remove_dups (collect_shndx syms)) = 4%nat.
Proof.
  destruct (Load lz4_literal_block (NsoFile_new (PltInfo.mk 0 0)) (raw_mod 4))
    as [st| |] eqn:E; [|vm_compute in E; discriminate E..].
  assert (Hmod : file_type st = kMod).
  { vm_compute in E. injection E as <-. reflexivity. }
  destruct (Load_raw_mod_four_indices lz4_literal_block (PltInfo.mk 0 0)
              (raw_mod 4) st E Hmod) as (syms & Hsyms & Hlen).
  exists st, syms. split; [reflexivity|]. split; [exact Hmod|].
  split; [exact Hsyms|exact Hlen].
Defined.

(** The input of the scenario: three distinct indices, no output. *)
Example Load_raw_mod_three_indices :
  Load lz4_literal_block fresh (raw_mod 3) = Refused.
Proof. vm_compute. reflexivity. Qed.

(** ** The segment table after Load *)

Lemma load_container_cases (LZ4 : list byte -> Z -> option (list byte))
    (plt0 : PltInfo.t) (file : list byte) (st1 : NsoFile) :
  load_container LZ4 (NsoFile_new plt0) file = Done st1 ->
  (file_type st1 = kNso
   /\ header st1 = decode_NsoHeader (take (Z.to_nat sizeof_NsoHeader) file))
  \/ (file_type st1 = kNro
      /\ exists nro,
           read_NroHeader file nro_offset = Some nro
           /\ segments (header st1)
              = mkSegs (nro_segment nro kText) (nro_segment nro kRodata)
                       (nro_segment nro kData))
  \/ st1 = NsoFile_new plt0.
Proof.
  unfold load_container. destruct (is_nso file).
  - intros H. apply load_nso_Done in H as (? & ? & ? & _ & _ & _ & ->).
    left. by split.
  - destruct (is_nro file).
    + unfold load_nro. intros H. inv_run. subst st1.
      right. left. split; [done|]. by exists a.
    + intros [= <-]. by right; right.
Qed.

(** C8, as the code has it: the table of an NSO is the one of its header,
    the table of an NRO is built from its three extents, neither is checked
    for contiguity; the table synthesised for a raw MOD starts text at 0,
    puts rodata at the page after the end of text and data right behind
    rodata. *)
Theorem Load_segment_table
    (LZ4 : list byte -> Z -> option (list byte)) (plt0 : PltInfo.t)
    (file : list byte) (st : NsoFile) :
  Load LZ4 (NsoFile_new plt0) file = Done st ->
  (file_type st = kNso
   /\ segments (header st)
      = segments (decode_NsoHeader (take (Z.to_nat sizeof_NsoHeader) file)))
  \/ (file_type st = kNro
      /\ exists nro,
           read_NroHeader file nro_offset = Some nro
           /\ segments (header st)
              = mkSegs (nro_segment nro kText) (nro_segment nro kRodata)
                       (nro_segment nro kData))
  \/ (file_type st = kMod
      /\ mem_offset (at_text (segments (header st))) = 0
      /\ mem_offset (at_rodata (segments (header st)))
         = u32 (ALIGN_UP
                  (u32 (mem_offset (at_text (segments (header st)))
                        + mem_size (at_text (segments (header st)))))
                  0x1000)
      /\ mem_offset (at_data (segments (header st)))
         = u32 (mem_offset (at_rodata (segments (header st)))
                + mem_size (at_rodata (segments (header st))))).
Proof.
  intros Hload. apply Load_Done in Hload as (st1 & Hc & Hf).
  destruct Hf as [buf mod_base mod_hdr info resolved n noted
                    -> Hloc Hsz Hhdr Hmagic Hparse Hres Hnote Hcopy ->].
  apply copy_build_id_Done in Hcopy as (Hft & Hsegs & _).
  cbn in Hft, Hsegs |- *. rewrite Hft, Hsegs. clear Hft Hsegs.
  cbn zeta in Hres.
  assert (Hplain : file_type st1 <> kUnknown -> file_type st1 <> kMod ->
            file_type resolved = file_type st1
            /\ header resolved = header st1).
  { intros Hk Hm. rewrite (bool_decide_eq_false_2 _ Hk) in Hres.
    rewrite (bool_decide_eq_false_2 _ Hm) in Hres.
    apply bind_Done in Hres as ([found st5] & Hplt & Hres).
    apply ResolvePlt_Done in Hplt as (Hft & Hh & _).
    injection Hres as <-. by split. }
  apply load_container_cases in Hc as [[Hk Hh]|[[Hk (nro & Hn & Hs)]|Hnew]].
  - left. destruct Hplain as [-> ->]; [congruence..|]. by rewrite Hh.
  - right. left. destruct Hplain as [-> ->]; [congruence..|].
    split; [done|]. by exists nro.
  - right. right. subst st1. cbn in Hres.
    apply synthesize_mod_Done in Hres
      as (_ & _ & _ & Hft & _ & _ & H1 & H2 & H3).
    by repeat split.
Qed.

Lemma Load_segment_table_witness :
  exists st,
    Load lz4_literal_block (NsoFile_new (PltInfo.mk 0 0)) nso_plain = Done st
    /\ file_type st = kNso
    /\ segments (header st)
       = segments (decode_NsoHeader
                     (take (Z.to_nat sizeof_NsoHeader) nso_plain)).
Proof.
  destruct (Load lz4_literal_block (NsoFile_new (PltInfo.mk 0 0)) nso_plain)
    as [st| |] eqn:E; [|vm_compute in E; discriminate E..].
  exists st. split; [reflexivity|].
  destruct (Load_segment_table lz4_literal_block (PltInfo.mk 0 0)
              nso_plain st E) as [H|[[H _]|[H _]]].
  - exact H.
  - exfalso. vm_compute in E. injection E as <-. discriminate H.
  - exfalso. vm_compute in E. injection E as <-. discriminate H.
Defined.

(** C8 as stated fails: [nso_gap] is loaded although its rodata segment
    starts 16 bytes behind the end of text. *)
Lemma Load_accepts_gap :
  exists st,
    Load lz4_literal_block fresh nso_gap = Done st
    /\ mem_offset (at_rodata (segments (header st)))
       <> mem_offset (at_text (segments (header st)))
          + mem_size (at_text (segments (header st))).
Proof. eexists. split; [vm_compute; reflexivity|]. vm_compute. discriminate. Qed.

(** The same for a raw MOD: rodata is moved up to the next page. *)
Example Load_raw_mod_page_gap :
  exists st,
    Load lz4_literal_block fresh (raw_mod 4) = Done st
    /\ mem_offset (at_text (segments (header st)))
       + mem_size (at_text (segments (header st))) = 0x70
    /\ mem_offset (at_rodata (segments (header st))) = 0x1000.
Proof. eexists. split; [vm_compute; reflexivity|]. by vm_compute. Qed.

(** ** The stages of WriteElf *)

Lemma WriteElf_run (MF : list byte -> Z -> option (Z * Z))
    (st st' : NsoFile) (out : ElfOut) :
  WriteElf MF st = Done (st', out) -> WriteElfRun MF st st' out.
Proof.
  unfold WriteElf. intros H.
  apply bind_Done in H as (pl & Hpl & H).
  apply bind_Done in H as (acc & Hacc & H).
  apply bind_Done in H as (dyn_size & Hdyn & H).
  apply bind_Done in H as (buf1 & Hb1 & H). apply must_Done in Hb1.
  apply bind_Done in H as (buf2 & Hb2 & H). apply must_Done in Hb2.
  apply bind_Done in H as (r & Hr & H).
  apply bind_Done in H as (buf3 & Hb3 & H). apply must_Done in Hb3.
  apply bind_Done in H as (buf4 & Hb4 & H). apply must_Done in Hb4.
  injection H as <- <-.
  by eapply (write_elf_run _ _ _ _ pl acc dyn_size buf1 buf2 buf3 r).
Qed.

(** The plan keeps the object apart from [eh_info]. *)
Lemma plan_elf_Done (MF : list byte -> Z -> option (Z * Z))
    (st : NsoFile) (pl : Plan) :
  plan_elf MF st = Done pl ->
  image (plan_st pl) = image st
  /\ header (plan_st pl) = header st
  /\ dyn_info (plan_st pl) = dyn_info st
  /\ plt_info (plan_st pl) = plt_info st
  /\ note (plan_st pl) = note st
  /\ dynamic st = Some (plan_dyn pl)
  /\ iter_dynsym st = Some (plan_syms pl)
  /\ profile_sections st = Done (plan_prof pl)
  /\ infer st (plan_dyn pl) = Done (plan_inf pl)
  /\ plan_present pl
     = present_of (plan_st pl) (plan_inf pl) (Present.eh (plan_present pl))
  /\ StringTable.Finalize (add_names (plan_present pl)
                                     (shstrtab (plan_prof pl)))
     = Some (plan_tbl pl)
  /\ plan_num pl = final_num_shdrs (plan_prof pl) (plan_present pl).
Proof.
  unfold plan_elf. intros H. inv_run. subst pl. cbn.
  destruct (MF (image st) (EhInfo.hdr_addr (eh_info st))); by repeat split.
Qed.

(** ** The scan for the end of .init *)

(** Without a [ret] at or behind [dyn_info.init] the scan leaves the image:
    it has no other way to end. *)
Lemma scan_init_no_ret (fuel : nat) (img : list byte) (init_off i : Z) :
  (forall k, i <= k -> read_u32 img (init_off + 4 * k) <> Some 0xd65f03c0) ->
  scan_init fuel img init_off i = Undefined.
Proof.
  revert i. induction fuel as [|fuel IH]; intros i Hno; [done|].
  cbn [scan_init].
  destruct (read_u32 img (init_off + 4 * i)) as [w|] eqn:E; [|done].
  cbn [must mbind outcome_bind].
  destruct (w =? 0xd65f03c0) eqn:Ew.
  - apply Z.eqb_eq in Ew as ->. by destruct (Hno i ltac:(lia)).
  - apply IH. intros k Hk. apply Hno. lia.
Qed.

Lemma read_u32_Some (buf : list byte) (off w : Z) :
  read_u32 buf off = Some w -> 0 <= off /\ off + 4 <= buf_size buf.
Proof.
  unfold read_u32. destruct (read_bytes buf off 4) as [bs|] eqn:E; [|done].
  apply read_bytes_Some in E. lia.
Qed.

(** With a first [ret] at word [k] the scan ends there. *)
Lemma scan_init_first_ret (fuel : nat) (img : list byte) (init_off : Z)
    (i k : nat) :
  (forall j : nat, (i <= j < i + k)%nat ->
     exists w, read_u32 img (init_off + 4 * Z.of_nat j) = Some w
               /\ w <> 0xd65f03c0) ->
  read_u32 img (init_off + 4 * Z.of_nat (i + k)) = Some 0xd65f03c0 ->
  (k < fuel)%nat ->
  scan_init fuel img init_off (Z.of_nat i)
  = Done (u32 ((Z.of_nat (i + k) + 1) * 4)).
Proof.
  revert i fuel. induction k as [|k IH]; intros i fuel Hbefore Hret Hfuel.
  - destruct fuel as [|fuel]; [lia|]. cbn [scan_init].
    rewrite Nat.add_0_r in *. rewrite Hret. reflexivity.
  - destruct fuel as [|fuel]; [lia|]. cbn [scan_init].
    destruct (Hbefore i ltac:(lia)) as (w & -> & Hw).
    cbn [must mbind outcome_bind].
    apply Z.eqb_neq in Hw. rewrite Hw.
    replace (Z.of_nat i + 1) with (Z.of_nat (S i)) by lia.
    replace (i + S k)%nat with (S i + k)%nat in * by lia.
    apply IH; [|done|lia]. intros j Hj. apply Hbefore. lia.
Qed.

Lemma init_ret_offset_of_first_ret (st : NsoFile) (k : nat) :
  DynInfo.init (dyn_info st) <> 0 ->
  first_ret (image st) (DynInfo.init (dyn_info st)) k ->
  init_ret_offset_of st = Done (u32 ((Z.of_nat k + 1) * 4)).
Proof.
  intros Hnz [Hbefore Hret]. unfold init_ret_offset_of.
  apply Z.eqb_neq in Hnz. rewrite Hnz. cbn [negb].
  apply (scan_init_first_ret _ _ _ 0 k).
  - intros j Hj. apply Hbefore. lia.
  - exact Hret.
  - apply read_u32_Some in Hret. unfold walk_fuel, buf_size in *.
    destruct k as [|k]; [lia|].
    destruct (Hbefore 0%nat ltac:(lia)) as (w & Hw & _).
    apply read_u32_Some in Hw. lia.
Qed.

(** C7, the defect: the dynamic table of [nso_init_no_ret] names an .init,
    the image holds no [ret], and the scan runs out of the image instead of
    giving up the section. *)
Example WriteElf_init_without_ret :
  exists st,
    Load lz4_literal_block fresh nso_init_no_ret = Done st
    /\ DynInfo.init (dyn_info st) = 0x24
    /\ init_ret_offset_of st = Undefined
    /\ WriteElf no_eh_frame st = Undefined.
Proof.
  eexists. split; [vm_compute; reflexivity|].
  split; [vm_compute; reflexivity|].
  split; vm_compute; reflexivity.
Qed.

(** The sibling scan for .fini gives up after 0x20 words. *)
Lemma scan_fini_gives_up (n : nat) (img : list byte) (fini_off i : Z) :
  (forall k, i <= k < i + Z.of_nat n ->
     exists w, read_u32 img (fini_off + 4 * k) = Some w
               /\ Z.land w 0xff000000 <> 0x14000000) ->
  scan_fini n img fini_off i = Done 0.
Proof.
  revert i. induction n as [|n IH]; intros i Hno; [done|].
  cbn [scan_fini]. destruct (Hno i ltac:(lia)) as (w & -> & Hw).
  cbn [must mbind outcome_bind]. apply Z.eqb_neq in Hw. rewrite Hw.
  apply IH. intros k Hk. apply Hno. lia.
Qed.

(** ** The walk over the dynamic table *)

Lemma dyn_size_walk_Done (fuel : nat) (img : list byte) (off acc r : Z) :
  dyn_size_walk fuel img off acc = Done r ->
  exists n : nat,
    dyn_entries img off n /\ r = acc + sizeof_Elf64_Dyn * Z.of_nat n.
Proof.
  revert off acc. induction fuel as [|fuel IH]; intros off acc; [done|].
  cbn [dyn_size_walk].
  destruct (read_u64 img off) as [tag|] eqn:E; [|done].
  cbn [must mbind outcome_bind].
  destruct (tag =? 0) eqn:Et.
  - apply Z.eqb_eq in Et as ->. intros [= <-]. exists 0%nat. split; [|lia].
    split; [lia|]. by rewrite Z.mul_0_r, Z.add_0_r.
  - apply Z.eqb_neq in Et. intros H.
    apply IH in H as (n & [Hbefore Hend] & ->).
    exists (S n). split; [|lia]. split.
    + intros [|k] Hk.
      * exists tag. by rewrite Z.mul_0_r, Z.add_0_r.
      * destruct (Hbefore k ltac:(lia)) as (t & Ht & Hnz). exists t.
        split; [|done]. rewrite <- Ht. f_equal. lia.
    + rewrite <- Hend. f_equal. lia.
Qed.

(** ** The layout of the ELF file *)

Lemma buf_size_encode_phdr (p : Elf64_Phdr) :
  buf_size (encode_phdr p) = sizeof_Elf64_Phdr.
Proof.
  unfold encode_phdr. rewrite !buf_size_app, !buf_size_le_bytes. reflexivity.
Qed.

Lemma buf_size_encode_shdr (s : Elf64_Shdr) :
  buf_size (encode_shdr s) = sizeof_Elf64_Shdr.
Proof.
  unfold encode_shdr. rewrite !buf_size_app, !buf_size_le_bytes. reflexivity.
Qed.

Lemma buf_size_encode_shdrs (sh : list Elf64_Shdr) :
  buf_size (concat (encode_shdr <$> sh))
  = sizeof_Elf64_Shdr * Z.of_nat (length sh).
Proof.
  induction sh as [|s sh IH]; [reflexivity|].
  cbn [fmap list_fmap concat length].
  rewrite buf_size_app, buf_size_encode_shdr.
  fold (fmap encode_shdr sh). rewrite IH. lia.
Qed.

Lemma ALIGN_UP_nonneg (x a : Z) : 0 <= x -> 0 < a -> 0 <= ALIGN_UP x a.
Proof. intros. unfold ALIGN_UP. apply Z.land_nonneg. lia. Qed.

Lemma Finalize_size (tbl tbl' : StringTable.t) :
  StringTable.Finalize tbl = Some tbl' -> 0 <= StringTable.size tbl'.
Proof.
  unfold StringTable.Finalize.
  destruct (StringTable.GetBuffer tbl) as [buf|]; [|done].
  intros [= <-]. cbn. apply ALIGN_UP_nonneg; [apply buf_size_nonneg|lia].
Qed.

Lemma final_num_shdrs_nonneg (prof : Profile) (p : Present.t) :
  0 <= final_num_shdrs prof p.
Proof.
  unfold final_num_shdrs, u16.
  destruct (0 <? _); apply Z.mod_pos_bound; lia.
Qed.

(** ** The table of section headers keeps its length *)

Lemma place_known_length (known : gmap Z Elf64_Shdr)
    (sh sh' : list Elf64_Shdr) :
  place_known known sh = Some sh' -> length sh' = length sh.
Proof.
  unfold place_known. revert sh'.
  induction (map_to_list known) as [|e l IH]; intros sh'; cbn [foldr].
  - by intros [= <-].
  - destruct (foldr _ _ l) as [tbl|]; [|done]. cbn.
    case_bool_decide; [|done]. intros [= <-].
    rewrite length_insert. by apply IH.
Qed.

Lemma insert_shdr_length (known : gmap Z Elf64_Shdr) (s : Elf64_Shdr)
    (ordered : bool) (sh : list Elf64_Shdr) :
  length (insert_shdr known s ordered sh).2 = length sh.
Proof.
  unfold insert_shdr.
  repeat match goal with
         | |- context [match ?x with _ => _ end] => destruct x
         end; cbn; by rewrite ?length_insert.
Qed.

Lemma insert_if_length (b : bool) (known : gmap Z Elf64_Shdr)
    (s : Elf64_Shdr) (ordered : bool) (sh : list Elf64_Shdr) :
  length (insert_if b known s ordered sh).2 = length sh.
Proof. destruct b; [apply insert_shdr_length|done]. Qed.

(** One step through the straight line of [emit_sections]. *)
Ltac emit_step :=
  match goal with
  | |- context [let '(_, _) := ?x in _] =>
      let i := fresh "idx" in
      let t := fresh "sh" in
      let E := fresh "Eins" in
      destruct x as [i t] eqn:E
  end.

Lemma emit_sections_length (st : NsoFile) (syms : list Elf64_Sym)
    (inf : Inferred) (m : Measured) (p : Present.t) (tbl : StringTable.t)
    (off : Z) (known : gmap Z Elf64_Shdr) (loads : list Elf64_Phdr)
    (dyn_phdr : Elf64_Phdr) (sh : list Elf64_Shdr) :
  length (emit_sections st syms inf m p tbl off known loads dyn_phdr sh).2
  = length sh.
Proof.
  unfold emit_sections. cbn zeta. repeat emit_step.
  rewrite insert_shdr_length.
  repeat match goal with
         | E : insert_if _ _ _ _ ?a = (_, ?b) |- _ =>
             apply (f_equal snd) in E; cbn [snd] in E;
             rewrite <- E, insert_if_length; clear E
         | E : insert_shdr _ _ _ ?a = (_, ?b) |- _ =>
             apply (f_equal snd) in E; cbn [snd] in E;
             rewrite <- E, insert_shdr_length; clear E
         end.
  reflexivity.
Qed.

Lemma build_shdrs_length (pl : Plan) (known : gmap Z Elf64_Shdr)
    (loads : list Elf64_Phdr) (dyn_phdr : Elf64_Phdr)
    (r : Z * list Elf64_Shdr) :
  build_shdrs pl known loads dyn_phdr = Done r ->
  length r.2 = Z.to_nat (plan_num pl).
Proof.
  unfold build_shdrs. intros H. inv_run. subst r.
  rewrite emit_sections_length.
  match goal with H : place_known _ _ = Some _ |- _ =>
    apply place_known_length in H; rewrite H end.
  apply length_replicate.
Qed.

(** ** The PT_LOAD rounds *)

Lemma write_load_Done (img : list byte) (h : NsoHeader) (i : SegmentType)
    (acc acc' : LoadAcc) :
  write_load img h i acc = Done acc' ->
  let seg := seg_get (segments h) i in
  let phdr := load_phdr i seg (acc_cur acc) in
  exists buf src,
    write_bytes (acc_buf acc)
      (e_phoff_value + sizeof_Elf64_Phdr * seg_index i) (encode_phdr phdr)
    = Some buf
    /\ read_bytes img (mem_offset seg) (mem_size seg) = Some src
    /\ write_bytes buf (acc_cur acc) src = Some (acc_buf acc')
    /\ acc_cur acc' = acc_cur acc + mem_size seg
    /\ acc_loads acc' = acc_loads acc ++ [phdr]
    /\ acc_known acc' = fixup_sh_offset phdr (acc_known acc).
Proof.
  unfold write_load. intros H. cbn zeta in *.
  apply bind_Done in H as (buf & Hb & H). apply must_Done in Hb.
  apply bind_Done in H as (src & Hs & H). apply must_Done in Hs.
  apply bind_Done in H as (buf' & Hb' & H). apply must_Done in Hb'.
  injection H as <-. exists buf, src. by repeat split.
Qed.

(** A round changes its program header slot and its segment range only. *)
Lemma write_load_frame (img : list byte) (h : NsoHeader) (i : SegmentType)
    (acc acc' : LoadAcc) (o l : Z) :
  write_load img h i acc = Done acc' ->
  o + l <= e_phoff_value + sizeof_Elf64_Phdr * seg_index i
  \/ e_phoff_value + sizeof_Elf64_Phdr * (seg_index i + 1) <= o ->
  o + l <= acc_cur acc \/ acc_cur acc' <= o ->
  read_bytes (acc_buf acc') o l = read_bytes (acc_buf acc) o l.
Proof.
  intros H Hslot Hseg.
  apply write_load_Done in H
    as (buf & src & Hb & Hs & Hb' & Hcur & _ & _).
  apply read_bytes_Some in Hs as (_ & _ & _ & _ & Hlen).
  rewrite (read_write_disjoint _ _ _ _ _ _ Hb'); [|lia].
  rewrite (read_write_disjoint _ _ _ _ _ _ Hb); [done|].
  rewrite buf_size_encode_phdr. unfold sizeof_Elf64_Phdr in *. lia.
Qed.

(** What a round leaves in the file. *)
Lemma write_load_content (img : list byte) (h : NsoHeader) (i : SegmentType)
    (acc acc' : LoadAcc) :
  write_load img h i acc = Done acc' ->
  e_phoff_value + sizeof_Elf64_Phdr * (seg_index i + 1) <= acc_cur acc ->
  let seg := seg_get (segments h) i in
  let phdr := load_phdr i seg (acc_cur acc) in
  exists src,
    read_bytes img (mem_offset seg) (mem_size seg) = Some src
    /\ 0 <= mem_size seg
    /\ acc_cur acc' = acc_cur acc + mem_size seg
    /\ acc_loads acc' = acc_loads acc ++ [phdr]
    /\ read_bytes (acc_buf acc')
         (e_phoff_value + sizeof_Elf64_Phdr * seg_index i)
         sizeof_Elf64_Phdr = Some (encode_phdr phdr)
    /\ read_bytes (acc_buf acc') (acc_cur acc) (mem_size seg) = Some src.
Proof.
  intros H Hcur. cbn zeta.
  apply write_load_Done in H
    as (buf & src & Hb & Hs & Hb' & Hcur' & Hloads & _).
  exists src. split; [done|].
  pose proof (read_bytes_Some _ _ _ _ Hs) as (_ & Hsz & _ & _ & Hlen).
  split; [done|]. split; [done|]. split; [done|]. split.
  - rewrite (read_write_disjoint _ _ _ _ _ _ Hb');
      [|unfold sizeof_Elf64_Phdr in *; lia].
    rewrite <- (buf_size_encode_phdr
                  (load_phdr i (seg_get (segments h) i) (acc_cur acc))).
    by apply read_write_same in Hb.
  - rewrite <- Hlen. by apply read_write_same in Hb'.
Qed.

(** The file after the three rounds. *)
Lemma write_segments_Done (pl : Plan) (acc : LoadAcc) :
  write_segments pl = Done acc ->
  0 <= plan_num pl -> 0 <= StringTable.size (plan_tbl pl) ->
  let h := header (plan_st pl) in
  let c0 := shstrtab_offset pl + StringTable.size (plan_tbl pl) in
  let c1 := c0 + mem_size (at_text (segments h)) in
  let c2 := c1 + mem_size (at_rodata (segments h)) in
  exists src0 src1 src2,
    acc_loads acc
    = [load_phdr kText (at_text (segments h)) c0;
       load_phdr kRodata (at_rodata (segments h)) c1;
       load_phdr kData (at_data (segments h)) c2]
    /\ read_bytes (image (plan_st pl)) (mem_offset (at_text (segments h)))
         (mem_size (at_text (segments h))) = Some src0
    /\ read_bytes (image (plan_st pl)) (mem_offset (at_rodata (segments h)))
         (mem_size (at_rodata (segments h))) = Some src1
    /\ read_bytes (image (plan_st pl)) (mem_offset (at_data (segments h)))
         (mem_size (at_data (segments h))) = Some src2
    /\ read_bytes (acc_buf acc) c0 (mem_size (at_text (segments h)))
       = Some src0
    /\ read_bytes (acc_buf acc) c1 (mem_size (at_rodata (segments h)))
       = Some src1
    /\ read_bytes (acc_buf acc) c2 (mem_size (at_data (segments h)))
       = Some src2
    /\ (forall i : SegmentType,
          read_bytes (acc_buf acc)
            (e_phoff_value + sizeof_Elf64_Phdr * seg_index i)
            sizeof_Elf64_Phdr
          = encode_phdr <$> (acc_loads acc !! Z.to_nat (seg_index i))).
Proof.
  unfold write_segments. intros H Hnum Hsz. cbn zeta in *.
  apply bind_Done in H as (bufa & _ & H).
  apply bind_Done in H as (bufb & _ & H).
  apply bind_Done in H as (acc0 & H0 & H).
  apply bind_Done in H as (acc1 & H1 & H2).
  assert (Hoff : e_shoff_value <= shstrtab_offset pl).
  { unfold shstrtab_offset, sizeof_Elf64_Shdr. lia. }
  unfold e_shoff_value, e_phoff_value, kNumPhdrs, kNumSegment,
    sizeof_Elf64_Ehdr, sizeof_Elf64_Phdr in Hoff.
  pose proof (write_load_content _ _ _ _ _ H0) as C0. cbn zeta in C0.
  cbn [acc_cur acc_loads seg_get seg_index] in C0.
  destruct C0 as (src0 & Hs0 & Hz0 & Hc0 & Hl0 & Hp0 & Hd0);
    [unfold e_phoff_value, sizeof_Elf64_Ehdr, sizeof_Elf64_Phdr; lia|].
  pose proof (write_load_content _ _ _ _ _ H1) as C1. cbn zeta in C1.
  cbn [seg_get seg_index] in C1. rewrite Hc0, Hl0 in C1.
  destruct C1 as (src1 & Hs1 & Hz1 & Hc1 & Hl1 & Hp1 & Hd1);
    [unfold e_phoff_value, sizeof_Elf64_Ehdr, sizeof_Elf64_Phdr; lia|].
  pose proof (write_load_content _ _ _ _ _ H2) as C2. cbn zeta in C2.
  cbn [seg_get seg_index] in C2. rewrite Hc1, Hl1 in C2.
  destruct C2 as (src2 & Hs2 & Hz2 & Hc2 & Hl2 & Hp2 & Hd2);
    [unfold e_phoff_value, sizeof_Elf64_Ehdr, sizeof_Elf64_Phdr; lia|].
  exists src0, src1, src2.
  unfold e_phoff_value, sizeof_Elf64_Ehdr, sizeof_Elf64_Phdr in *.
  split; [exact Hl2|]. split; [done|]. split; [done|]. split; [done|].
  split.
  { rewrite (write_load_frame _ _ _ _ _ _ _ H2);
      [|cbn [seg_index]; unfold e_phoff_value, sizeof_Elf64_Ehdr,
          sizeof_Elf64_Phdr; lia..].
    rewrite (write_load_frame _ _ _ _ _ _ _ H1);
      [done|cbn [seg_index]; unfold e_phoff_value, sizeof_Elf64_Ehdr,
          sizeof_Elf64_Phdr; lia..]. }
  split.
  { rewrite (write_load_frame _ _ _ _ _ _ _ H2);
      [done|cbn [seg_index]; unfold e_phoff_value, sizeof_Elf64_Ehdr,
          sizeof_Elf64_Phdr; lia..]. }
  split; [done|].
  intros i. rewrite Hl2. destruct i; cbn [seg_index].
  - rewrite (write_load_frame _ _ _ _ _ _ _ H2);
      [|cbn [seg_index]; unfold e_phoff_value, sizeof_Elf64_Ehdr,
          sizeof_Elf64_Phdr; lia..].
    rewrite (write_load_frame _ _ _ _ _ _ _ H1);
      [done|cbn [seg_index]; unfold e_phoff_value, sizeof_Elf64_Ehdr,
          sizeof_Elf64_Phdr; lia..].
  - rewrite (write_load_frame _ _ _ _ _ _ _ H2);
      [done|cbn [seg_index]; unfold e_phoff_value, sizeof_Elf64_Ehdr,
          sizeof_Elf64_Phdr; lia..].
  - done.
Qed.

(** ** The file handed to File::Write *)

Lemma plan_bounds (MF : list byte -> Z -> option (Z * Z))
    (st : NsoFile) (pl : Plan) :
  plan_elf MF st = Done pl ->
  0 <= plan_num pl /\ 0 <= StringTable.size (plan_tbl pl).
Proof.
  intros H. apply plan_elf_Done in H
    as (_ & _ & _ & _ & _ & _ & _ & _ & _ & _ & Hfin & Hnum).
  split.
  - rewrite Hnum. apply final_num_shdrs_nonneg.
  - by apply Finalize_size in Hfin.
Qed.

(** After the PT_LOAD rounds only the last two program headers, the section
    header table and [e_shstrndx] are written. *)
Lemma WriteElf_tail_frame (MF : list byte -> Z -> option (Z * Z))
    (st st' : NsoFile) (out : ElfOut) (pl : Plan) (acc : LoadAcc)
    (dyn_size : Z) (buf1 buf2 buf3 : list byte) (r : Z * list Elf64_Shdr)
    (o l : Z) :
  plan_elf MF st = Done pl ->
  write_bytes (acc_buf acc) (e_phoff_value + sizeof_Elf64_Phdr * 3)
              (encode_phdr (dynamic_phdr pl (acc_loads acc) dyn_size))
  = Some buf1 ->
  write_bytes buf1 (e_phoff_value + sizeof_Elf64_Phdr * 4)
              (encode_phdr (eh_frame_phdr pl (acc_loads acc)))
  = Some buf2 ->
  build_shdrs pl (acc_known acc) (acc_loads acc)
              (dynamic_phdr pl (acc_loads acc) dyn_size) = Done r ->
  write_bytes buf2 e_shoff_value (concat (encode_shdr <$> r.2))
  = Some buf3 ->
  write_bytes buf3 62 (le_bytes 2 r.1) = Some (elf out) ->
  o + l <= 62 \/ 64 <= o ->
  o + l <= e_phoff_value + sizeof_Elf64_Phdr * 3 \/ shstrtab_offset pl <= o ->
  read_bytes (elf out) o l = read_bytes (acc_buf acc) o l.
Proof.
  intros Hpl Hb1 Hb2 Hr Hb3 Hb4 Hident Hrange.
  apply plan_bounds in Hpl as [Hnum _].
  apply build_shdrs_length in Hr.
  unfold shstrtab_offset, e_shoff_value, e_phoff_value, kNumPhdrs,
    kNumSegment, sizeof_Elf64_Ehdr, sizeof_Elf64_Phdr, sizeof_Elf64_Shdr in *.
  rewrite (read_write_disjoint _ _ _ _ _ _ Hb4);
    [|rewrite buf_size_le_bytes; lia].
  rewrite (read_write_disjoint _ _ _ _ _ _ Hb3);
    [|rewrite buf_size_encode_shdrs, Hr;
      unfold sizeof_Elf64_Shdr; lia].
  rewrite (read_write_disjoint _ _ _ _ _ _ Hb2);
    [|rewrite buf_size_encode_phdr; unfold sizeof_Elf64_Phdr; lia].
  rewrite (read_write_disjoint _ _ _ _ _ _ Hb1);
    [done|rewrite buf_size_encode_phdr; unfold sizeof_Elf64_Phdr; lia].
Qed.

(** C1, as the code has it: each PT_LOAD header of the file, at its slot of
    the program header table, has [p_filesz = mem_size] and is followed at
    [p_offset] by the bytes of its segment in the image; for data [p_memsz]
    is the sum [mem_size + bss_align] of two u32, cut to 32 bits, and it
    is [p_filesz + bss_align], the segment stretched over the BSS tail,
    whenever that sum does not wrap. *)
Theorem WriteElf_load_segments (MF : list byte -> Z -> option (Z * Z))
    (st st' : NsoFile) (out : ElfOut) (i : SegmentType) :
  WriteElf MF st = Done (st', out) ->
  exists ph bytes,
    phdrs out !! Z.to_nat (seg_index i) = Some ph
    /\ read_bytes (elf out)
         (e_phoff_value + sizeof_Elf64_Phdr * seg_index i) sizeof_Elf64_Phdr
       = Some (encode_phdr ph)
    /\ p_type ph = PT_LOAD
    /\ p_vaddr ph = mem_offset (seg_get (segments (header st)) i)
    /\ p_filesz ph = mem_size (seg_get (segments (header st)) i)
    /\ read_bytes (image st) (mem_offset (seg_get (segments (header st)) i))
         (mem_size (seg_get (segments (header st)) i)) = Some bytes
    /\ read_bytes (elf out) (p_offset ph) (p_filesz ph) = Some bytes
    /\ (i <> kData -> p_memsz ph = p_filesz ph)
    /\ (i = kData ->
        p_memsz ph
        = u32 (mem_size (at_data (segments (header st)))
               + bss_align (at_data (segments (header st))))
        /\ (0 <= bss_align (at_data (segments (header st))) ->
            mem_size (at_data (segments (header st)))
            + bss_align (at_data (segments (header st))) < 2 ^ 32 ->
            p_memsz ph
            = p_filesz ph + bss_align (at_data (segments (header st))))).
Proof.
  intros H. apply WriteElf_run in H.
  destruct H as [pl acc dyn_size buf1 buf2 buf3 r
                   Hpl Hacc Hdyn Hb1 Hb2 Hr Hb3 Hb4 -> Hehdr Hphdrs Hshdrs Htbl].
  pose proof (plan_bounds _ _ _ Hpl) as [Hnum Hsz].
  pose proof (plan_elf_Done _ _ _ Hpl) as (Himg & Hhdr & _).
  pose proof (write_segments_Done _ _ Hacc Hnum Hsz) as W. cbn zeta in W.
  rewrite Himg, Hhdr in W.
  destruct W as (src0 & src1 & src2 & Hloads & Hs0 & Hs1 & Hs2
                 & Hd0 & Hd1 & Hd2 & Hph).
  pose proof (read_bytes_Some _ _ _ _ Hs0) as (_ & Hz0 & _).
  pose proof (read_bytes_Some _ _ _ _ Hs1) as (_ & Hz1 & _).
  pose proof (read_bytes_Some _ _ _ _ Hs2) as (_ & Hz2 & _).
  assert (Hframe : forall o l,
            o + l <= 62 \/ 64 <= o ->
            o + l <= e_phoff_value + sizeof_Elf64_Phdr * 3
            \/ shstrtab_offset pl <= o ->
            read_bytes (elf out) o l = read_bytes (acc_buf acc) o l).
  { intros o l. by eapply WriteElf_tail_frame. }
  assert (Hoff : e_shoff_value <= shstrtab_offset pl).
  { unfold shstrtab_offset, sizeof_Elf64_Shdr. lia. }
  unfold e_shoff_value, e_phoff_value, kNumPhdrs, kNumSegment,
    sizeof_Elf64_Ehdr, sizeof_Elf64_Phdr in Hoff.
  assert (Hslot : forall j : SegmentType,
            read_bytes (elf out)
              (e_phoff_value + sizeof_Elf64_Phdr * seg_index j)
              sizeof_Elf64_Phdr
            = encode_phdr <$> (acc_loads acc !! Z.to_nat (seg_index j))).
  { intros j. rewrite Hframe; [apply Hph|..];
      destruct j; cbn [seg_index];
      unfold e_phoff_value, sizeof_Elf64_Ehdr, sizeof_Elf64_Phdr; lia. }
  rewrite Hphdrs. setoid_rewrite Hslot. rewrite Hloads.
  destruct i; cbn [seg_index seg_get Z.to_nat].
  - eexists _, src0. split; [reflexivity|]. split; [reflexivity|].
    cbn [load_phdr p_type p_vaddr p_filesz p_memsz p_offset].
    repeat split; try done.
    rewrite Hframe; [done|lia..].
  - eexists _, src1. split; [reflexivity|]. split; [reflexivity|].
    cbn [load_phdr p_type p_vaddr p_filesz p_memsz p_offset].
    repeat split; try done.
    rewrite Hframe; [done|lia..].
  - eexists _, src2. split; [reflexivity|]. split; [reflexivity|].
    cbn [load_phdr p_type p_vaddr p_filesz p_memsz p_offset].
    split; [done|]. split; [done|]. split; [done|]. split; [done|].
    split; [rewrite Hframe; [done|lia..]|].
    split; [done|]. intros _. split; [done|].
    intros Hbss Hsum. unfold u32. rewrite Z.mod_small; lia.
Qed.

Lemma WriteElf_load_segments_witness :
  exists st st' out ph bytes,
    Load lz4_literal_block fresh nso_plain = Done st
    /\ WriteElf no_eh_frame st = Done (st', out)
    /\ phdrs out !! 2%nat = Some ph
    /\ p_filesz ph = mem_size (at_data (segments (header st)))
    /\ read_bytes (image st) (mem_offset (at_data (segments (header st))))
         (mem_size (at_data (segments (header st)))) = Some bytes
    /\ read_bytes (elf out) (p_offset ph) (p_filesz ph) = Some bytes
    /\ p_memsz ph = p_filesz ph + 0x10.
Proof.
  destruct (Load lz4_literal_block fresh nso_plain) as [st| |] eqn:E;
    [|vm_compute in E; discriminate E..].
  destruct (WriteElf no_eh_frame st) as [[st' out]| |] eqn:W;
    [|vm_compute in E; injection E as <-; vm_compute in W;
      discriminate W..].
  destruct (WriteElf_load_segments no_eh_frame st st' out kData W)
    as (ph & bytes & H1 & _ & _ & _ & H5 & H6 & H7 & _ & H9).
  destruct (H9 eq_refl) as [_ Hbss].
  exists st, st', out, ph, bytes.
  split; [reflexivity|]. split; [exact W|]. split; [exact H1|].
  split; [exact H5|]. split; [exact H6|]. split; [exact H7|].
  clear W H6 H7. vm_compute in E. injection E as <-.
  apply Hbss; vm_compute; [discriminate|reflexivity].
Defined.

(** C1 as stated fails: [nro_bss_wraps] is an NRO that loads, with a .data
    of 0x20 bytes and a [bss_size] of 0xfffffff8 that [Load] takes as it
    is; the sum of the two wraps, and the data segment's [p_memsz] is
    0x18, less than its [p_filesz], so it covers no BSS tail at all. *)
Lemma WriteElf_bss_tail_wraps :
  exists st st' out ph,
    Load lz4_literal_block fresh nro_bss_wraps = Done st
    /\ WriteElf no_eh_frame st = Done (st', out)
    /\ phdrs out !! 2%nat = Some ph
    /\ p_filesz ph = mem_size (at_data (segments (header st)))
    /\ bss_align (at_data (segments (header st))) = 0xfffffff8
    /\ p_memsz ph < p_filesz ph
    /\ p_memsz ph <> p_filesz ph + bss_align (at_data (segments (header st))).
Proof.
  eexists _, _, _, _. split; [vm_compute; reflexivity|].
  split; [vm_compute; reflexivity|].
  split; [vm_compute; reflexivity|].
  split; [vm_compute; reflexivity|].
  split; [vm_compute; reflexivity|].
  split; [vm_compute; reflexivity|]. vm_compute. discriminate.
Qed.

(** C2: the PT_DYNAMIC header, fourth in the program header table, has
    [p_filesz = p_memsz = (n + 1) * sizeof(Elf64_Dyn)] for the [n] entries
    with a nonzero tag that precede the terminator. *)
Theorem WriteElf_dynamic_filesz (MF : list byte -> Z -> option (Z * Z))
    (st st' : NsoFile) (out : ElfOut) :
  WriteElf MF st = Done (st', out) ->
  exists dyn n ph,
    dynamic st = Some dyn
    /\ dyn_entries (image st) dyn n
    /\ phdrs out !! 3%nat = Some ph
    /\ read_bytes (elf out) (e_phoff_value + sizeof_Elf64_Phdr * 3)
         sizeof_Elf64_Phdr = Some (encode_phdr ph)
    /\ p_type ph = PT_DYNAMIC
    /\ p_filesz ph = (Z.of_nat n + 1) * sizeof_Elf64_Dyn
    /\ p_memsz ph = p_filesz ph.
Proof.
  intros H. apply WriteElf_run in H.
  destruct H as [pl acc dyn_size buf1 buf2 buf3 r
                   Hpl Hacc Hdyn Hb1 Hb2 Hr Hb3 Hb4 -> Hehdr Hphdrs Hshdrs Htbl].
  pose proof (plan_bounds _ _ _ Hpl) as [Hnum Hsz].
  pose proof (plan_elf_Done _ _ _ Hpl) as (Himg & Hhdr & _ & _ & _ & Hd & _).
  pose proof (write_segments_Done _ _ Hacc Hnum Hsz) as W. cbn zeta in W.
  destruct W as (src0 & src1 & src2 & Hloads & _).
  rewrite Himg in Hdyn.
  apply dyn_size_walk_Done in Hdyn as (n & Hentries & ->).
  exists (plan_dyn pl), n,
    (dynamic_phdr pl (acc_loads acc)
       (sizeof_Elf64_Dyn + sizeof_Elf64_Dyn * Z.of_nat n)).
  split; [done|]. split; [done|].
  split; [rewrite Hphdrs, Hloads; reflexivity|].
  split.
  - pose proof (build_shdrs_length _ _ _ _ _ Hr) as Hlen.
    pose proof (read_write_same _ _ _ _ Hb1) as Hsame.
    rewrite buf_size_encode_phdr in Hsame. rewrite <- Hsame.
    pose proof (buf_size_encode_phdr (eh_frame_phdr pl (acc_loads acc)))
      as Heh.
    pose proof (buf_size_encode_shdrs r.2) as Hsh.
    unfold shstrtab_offset, e_shoff_value, e_phoff_value, kNumPhdrs,
      kNumSegment, sizeof_Elf64_Ehdr, sizeof_Elf64_Phdr, sizeof_Elf64_Shdr
      in *.
    rewrite (read_write_disjoint _ _ _ _ _ _ Hb4);
      [|rewrite buf_size_le_bytes; lia].
    rewrite (read_write_disjoint _ _ _ _ _ _ Hb3); [|lia].
    rewrite (read_write_disjoint _ _ _ _ _ _ Hb2); [done|lia].
  - cbn. unfold sizeof_Elf64_Dyn. repeat split; lia.
Qed.

Lemma WriteElf_dynamic_filesz_witness :
  exists st st' out ph,
    Load lz4_literal_block fresh nso_init_ret = Done st
    /\ WriteElf no_eh_frame st = Done (st', out)
    /\ phdrs out !! 3%nat = Some ph
    /\ p_filesz ph = 32.
Proof.
  destruct (Load lz4_literal_block fresh nso_init_ret) as [st| |] eqn:E;
    [|vm_compute in E; discriminate E..].
  destruct (WriteElf no_eh_frame st) as [[st' out]| |] eqn:W;
    [|vm_compute in E; injection E as <-; vm_compute in W;
      discriminate W..].
  destruct (WriteElf_dynamic_filesz no_eh_frame st st' out W)
    as (dyn & n & ph & _ & _ & H3 & _ & _ & H6 & _).
  exists st, st', out, ph. split; [reflexivity|]. split; [exact W|].
  split; [exact H3|].
  vm_compute in E. injection E as <-. vm_compute in W. injection W as <- <-.
  vm_compute in H3. injection H3 as <-. reflexivity.
Defined.

(** ** Free slots of the section header table *)

Lemma filter_insert_length {A : Type} (P : A -> Prop)
    `{forall x, Decision (P x)} (l : list A) (i : nat) (x y : A) :
  l !! i = Some x ->
  (length (filter P (<[i:=y]> l)) + (if decide (P x) then 1 else 0)
   = length (filter P l) + (if decide (P y) then 1 else 0))%nat.
Proof.
  revert i. induction l as [|a l IH]; intros i Hi; [done|].
  destruct i as [|i]; simpl in Hi.
  - injection Hi as ->. change (<[0%nat:=y]> (x :: l)) with (y :: l).
    rewrite !filter_cons.
    destruct (decide (P x)), (decide (P y)); cbn [length]; lia.
  - change (<[S i:=y]> (a :: l)) with (a :: <[i:=y]> l).
    rewrite !filter_cons. specialize (IH i Hi).
    destruct (decide (P a)); cbn [length]; lia.
Qed.

Lemma free_slots_insert (sh : list Elf64_Shdr) (i : nat) (x s : Elf64_Shdr) :
  (1 <= i)%nat -> sh !! i = Some x ->
  (free_slots (<[i:=s]> sh)
   + (if decide (sh_type x = SHT_NULL) then 1 else 0)
   = free_slots sh + (if decide (sh_type s = SHT_NULL) then 1 else 0))%nat.
Proof.
  intros Hi Hx. unfold free_slots. rewrite drop_insert_ge by lia.
  assert (Hd : drop 1 sh !! (i - 1)%nat = Some x).
  { rewrite lookup_drop. rewrite <- Hx. f_equal. lia. }
  pose proof (filter_insert_length (fun t => sh_type t = SHT_NULL)
                (drop 1 sh) (i - 1) x s Hd) as Hc.
  cbn beta in Hc. exact Hc.
Qed.

Lemma free_slots_replicate (n : nat) :
  free_slots (replicate n zero_shdr) = (n - 1)%nat.
Proof.
  unfold free_slots. rewrite drop_replicate.
  induction (n - 1)%nat as [|k IH]; [done|].
  cbn [replicate]. rewrite filter_cons_True by done. cbn. by rewrite IH.
Qed.

Lemma first_null_from_Some (sh : list Elf64_Shdr) (start i : Z) :
  0 <= start ->
  first_null_from sh start = Some i ->
  start <= i /\ exists x, sh !! Z.to_nat i = Some x /\ sh_type x = SHT_NULL.
Proof.
  unfold first_null_from. intros Hs H.
  destruct (list_find _ _) as [[k x]|] eqn:E; [|done].
  injection H as <-. apply list_find_Some in E as (Hk & Hx & _).
  rewrite lookup_drop in Hk. split; [cbn; lia|]. exists x. split; [|done].
  rewrite <- Hk. f_equal. cbn. lia.
Qed.

Lemma first_null_from_None (sh : list Elf64_Shdr) :
  first_null_from sh 1 = None -> free_slots sh = 0%nat.
Proof.
  unfold first_null_from, free_slots. intros H.
  destruct (list_find _ _) as [[k x]|] eqn:E; [done|].
  apply list_find_None in E. change (Z.to_nat 1) with 1%nat in E.
  induction (drop 1 sh) as [|a l IH]; [done|].
  apply Forall_cons in E as [Ha El].
  rewrite filter_cons_False by done. by apply IH.
Qed.

Lemma ordered_start_pos (known : gmap Z Elf64_Shdr) (s : Elf64_Shdr) :
  (forall k x, known !! k = Some x -> 0 <= k < SHN_LORESERVE) ->
  1 <= ordered_start known s.
Proof.
  intros Hk. unfold ordered_start.
  assert (Hl : forall e, e ∈ map_to_list known -> 0 <= e.1 < SHN_LORESERVE).
  { intros [k x] He. apply elem_of_map_to_list in He. eauto. }
  induction (map_to_list known) as [|e l IH]; [cbn; lia|].
  cbn [foldr]. destruct (_ && _).
  - specialize (Hl e ltac:(left)). unfold u32, SHN_LORESERVE in *.
    rewrite Z.mod_small; lia.
  - apply IH. intros e' He'. apply Hl. by right.
Qed.

(** With a free slot, [insert_shdr] puts the header into a slot that was
    SHT_NULL and returns its index. *)
Lemma insert_shdr_spec (known : gmap Z Elf64_Shdr) (s : Elf64_Shdr)
    (ordered : bool) (sh : list Elf64_Shdr) :
  (forall k x, known !! k = Some x -> 0 <= k < SHN_LORESERVE) ->
  sh_type s <> SHT_NULL ->
  (0 < free_slots sh)%nat ->
  exists i : nat,
    insert_shdr known s ordered sh = (Z.of_nat i, <[i:=s]> sh)
    /\ (1 <= i)%nat
    /\ (exists x, sh !! i = Some x /\ sh_type x = SHT_NULL)
    /\ (free_slots (<[i:=s]> sh) + 1 = free_slots sh)%nat.
Proof.
  intros Hk Hs Hfree.
  assert (Hfound : forall start i,
            1 <= start -> first_null_from sh start = Some i ->
            exists n : nat,
              (i, <[Z.to_nat i:=s]> sh) = (Z.of_nat n, <[n:=s]> sh)
              /\ (1 <= n)%nat
              /\ (exists x, sh !! n = Some x /\ sh_type x = SHT_NULL)
              /\ (free_slots (<[n:=s]> sh) + 1 = free_slots sh)%nat).
  { intros start i Hstart Hi.
    apply first_null_from_Some in Hi as (Hle & x & Hx & Hnull); [|lia].
    exists (Z.to_nat i). split; [f_equal; lia|]. split; [lia|].
    split; [by exists x|].
    pose proof (free_slots_insert sh (Z.to_nat i) x s ltac:(lia) Hx) as Hc.
    rewrite decide_True in Hc by done. rewrite decide_False in Hc by done.
    lia. }
  unfold insert_shdr.
  set (start := if ordered then ordered_start known s else 1).
  assert (Hstart : 1 <= start).
  { subst start. destruct ordered; [by apply ordered_start_pos|lia]. }
  destruct (first_null_from sh start) as [i|] eqn:E; [by eapply Hfound|].
  destruct (first_null_from sh 1) as [i|] eqn:E1.
  - destruct (ordered && negb (start =? 1)) eqn:Eb.
    + by eapply (Hfound 1).
    + exfalso. destruct ordered; cbn in Eb.
      * apply negb_false_iff, Z.eqb_eq in Eb. rewrite Eb in E. congruence.
      * subst start. congruence.
  - apply first_null_from_None in E1. lia.
Qed.

(** A step of the straight line: what [insert_if] does to the table. *)
Lemma insert_if_spec (b : bool) (known : gmap Z Elf64_Shdr) (s : Elf64_Shdr)
    (ordered : bool) (sh sh' : list Elf64_Shdr) (idx : Z) :
  (forall k x, known !! k = Some x -> 0 <= k < SHN_LORESERVE) ->
  sh_type s <> SHT_NULL ->
  (Nat.b2n b <= free_slots sh)%nat ->
  insert_if b known s ordered sh = (idx, sh') ->
  (free_slots sh' + Nat.b2n b = free_slots sh)%nat
  /\ (forall j x, sh !! j = Some x -> sh_type x <> SHT_NULL ->
                  sh' !! j = Some x)
  /\ (b = true -> exists i : nat, (1 <= i)%nat /\ sh' !! i = Some s).
Proof.
  intros Hk Hs Hfree. unfold insert_if. destruct b; cbn [Nat.b2n] in *.
  - destruct (insert_shdr_spec known s ordered sh Hk Hs ltac:(lia))
      as (i & -> & Hi & (x & Hx & Hnull) & Hc).
    intros [= <- <-]. split; [done|]. split.
    + intros j y Hy Hty. rewrite list_lookup_insert_ne; [done|].
      intros <-. congruence.
    + intros _. exists i. split; [done|].
      apply list_lookup_insert_eq. by eapply lookup_lt_Some.
  - intros [= <- <-]. split; [lia|]. split; [done|]. done.
Qed.

Lemma insert_shdr_step (known : gmap Z Elf64_Shdr) (s : Elf64_Shdr)
    (ordered : bool) (sh sh' : list Elf64_Shdr) (idx : Z) :
  (forall k x, known !! k = Some x -> 0 <= k < SHN_LORESERVE) ->
  sh_type s <> SHT_NULL ->
  (1 <= free_slots sh)%nat ->
  insert_shdr known s ordered sh = (idx, sh') ->
  (free_slots sh' + 1 = free_slots sh)%nat
  /\ (forall j x, sh !! j = Some x -> sh_type x <> SHT_NULL ->
                  sh' !! j = Some x)
  /\ (exists i : nat, (1 <= i)%nat /\ sh' !! i = Some s).
Proof.
  intros Hk Hs Hfree H.
  destruct (insert_if_spec true known s ordered sh sh' idx Hk Hs Hfree H)
    as (H1 & H2 & H3). split; [exact H1|]. split; [exact H2|]. by apply H3.
Qed.

(** Placing the known sections uses at most one slot per section. *)
Lemma place_known_free (known : gmap Z Elf64_Shdr)
    (sh sh' : list Elf64_Shdr) :
  (forall k x, known !! k = Some x -> 1 <= k) ->
  place_known known sh = Some sh' ->
  (free_slots sh <= free_slots sh' + size known)%nat.
Proof.
  unfold place_known. intros Hk.
  rewrite <- (length_map_to_list known).
  assert (Hl : forall e, e ∈ map_to_list known -> 1 <= e.1).
  { intros [k x] He. apply elem_of_map_to_list in He. eauto. }
  revert sh'. induction (map_to_list known) as [|e l IH]; intros sh'.
  - cbn. intros [= <-]. lia.
  - cbn [foldr length]. destruct (foldr _ _ l) as [tbl|] eqn:E; [|done].
    cbn. case_bool_decide as Hin; [|done]. intros [= <-].
    specialize (IH ltac:(intros e' He'; apply Hl; by right) tbl eq_refl).
    specialize (Hl e ltac:(left)).
    destruct (lookup_lt_is_Some_2 tbl (Z.to_nat e.1) ltac:(lia)) as [x Hx].
    pose proof (free_slots_insert tbl (Z.to_nat e.1) x e.2 ltac:(lia) Hx).
    destruct (decide (sh_type x = SHT_NULL)),
      (decide (sh_type e.2 = SHT_NULL)); lia.
Qed.

(** ** The keys of the known sections *)

Lemma next_free_from_range (fuel : nat) (known : gmap Z Elf64_Shdr) (i : Z) :
  next_free_from fuel known i = SHN_UNDEF
  \/ (i <= next_free_from fuel known i < SHN_LORESERVE
      /\ known !! next_free_from fuel known i = None).
Proof.
  revert i. induction fuel as [|fuel IH]; intros i; [by left|].
  cbn [next_free_from]. destruct (i <? SHN_LORESERVE) eqn:E; [|by left].
  apply Z.ltb_lt in E. destruct (known !! i) eqn:Ek.
  - destruct (IH (i + 1)) as [->|[Hr Hn]]; [by left|right]. split; [lia|done].
  - right. split; [lia|done].
Qed.

(** [next_free] answers SHN_UNDEF or a free index of the table. *)
Lemma next_free_range (known : gmap Z Elf64_Shdr) (start : Z) :
  next_free known start = SHN_UNDEF
  \/ (1 <= next_free known start < SHN_LORESERVE
      /\ known !! next_free known start = None).
Proof.
  unfold next_free.
  destruct (next_free_from_range (Z.to_nat SHN_LORESERVE) known
              (u16 (start + 1))) as [H|[Hr Hn]]; [by left|].
  destruct (decide (next_free_from (Z.to_nat SHN_LORESERVE) known
                      (u16 (start + 1)) = 0)) as [E|E]; [by left|].
  right. split; [|done].
  assert (0 <= u16 (start + 1)) by (apply Z.mod_pos_bound; lia). lia.
Qed.

Lemma keys_ok_insert (known : gmap Z Elf64_Shdr) (k : Z) (x : Elf64_Shdr) :
  keys_ok known -> 1 <= k < SHN_LORESERVE -> keys_ok (<[k:=x]> known).
Proof.
  intros Hk Hr k' x' H. destruct (decide (k = k')) as [<-|Hne]; [done|].
  rewrite lookup_insert_ne in H by done. eauto.
Qed.

Lemma profile_sym_keys (h : NsoHeader) (p : Profile) (sym : Elf64_Sym) :
  0 <= st_shndx sym -> keys_ok (known_sections p) ->
  keys_ok (known_sections (profile_sym h p sym)).
Proof.
  intros Hs Hk. unfold profile_sym.
  destruct (SHN_LORESERVE <=? st_shndx sym) eqn:E; [done|].
  apply Z.leb_gt in E.
  destruct (negb (st_shndx sym =? SHT_NULL)
            && bool_decide (known_sections p !! st_shndx sym = None)) eqn:Eb;
    [|done].
  apply andb_true_iff in Eb as [Enz _].
  apply negb_true_iff, Z.eqb_neq in Enz. unfold SHT_NULL in Enz.
  destruct (vaddr_to_shdr h (st_value sym) (shstrtab p)) as [shdr tbl].
  destruct (negb (sh_type shdr =? SHT_NULL)); [|done]. cbn.
  apply keys_ok_insert; [done|lia].
Qed.

Lemma add_known_keys (h : NsoHeader) (name : string) (sz vaddr : Z)
    (acc : Z * Profile) :
  (acc.1 = SHN_UNDEF \/ 1 <= acc.1 < SHN_LORESERVE) ->
  keys_ok (known_sections acc.2) ->
  ((add_known h name sz vaddr acc).1 = SHN_UNDEF
   \/ 1 <= (add_known h name sz vaddr acc).1 < SHN_LORESERVE)
  /\ keys_ok (known_sections (add_known h name sz vaddr acc).2).
Proof.
  destruct acc as [shndx p]. cbn [fst snd]. intros Hs Hk.
  unfold add_known. destruct (_ && _) eqn:Eb; [|done].
  apply andb_true_iff in Eb as [Eb _]. apply andb_true_iff in Eb as [Eb _].
  apply negb_true_iff, Z.eqb_neq in Eb.
  destruct (vaddr_to_shdr h vaddr (shstrtab p)) as [shdr tbl]. cbn [fst snd].
  split.
  - destruct (next_free_range (<[shndx:=shdr]> (known_sections p)) shndx)
      as [->|[Hr _]]; [by left|by right].
  - cbn. apply keys_ok_insert; [done|]. destruct Hs; [done|lia].
Qed.

Lemma add_known_segments_keys (h : NsoHeader) (p : Profile) :
  keys_ok (known_sections p) ->
  keys_ok (known_sections (add_known_segments h p)).
Proof.
  intros Hk. unfold add_known_segments. case_bool_decide; [done|].
  cbn zeta.
  assert (H0 : (next_free (known_sections p) SHN_UNDEF = SHN_UNDEF
                \/ 1 <= next_free (known_sections p) SHN_UNDEF
                   < SHN_LORESERVE)).
  { destruct (next_free_range (known_sections p) SHN_UNDEF) as [->|[Hr _]];
      [by left|by right]. }
  pose proof (add_known_keys h ".text" (mem_size (at_text (segments h)))
                (mem_offset (at_text (segments h))) (_, p) H0 Hk) as [H1 K1].
  pose proof (add_known_keys h ".rodata" (mem_size (at_rodata (segments h)))
                (mem_offset (at_rodata (segments h))) _ H1 K1) as [H2 K2].
  pose proof (add_known_keys h ".data" (mem_size (at_data (segments h)))
                (mem_offset (at_data (segments h))) _ H2 K2) as [H3 K3].
  pose proof (add_known_keys h ".bss" (bss_align (at_data (segments h)))
                (u32 (mem_offset (at_data (segments h))
                      + mem_size (at_data (segments h)))) _ H3 K3) as [_ K4].
  exact K4.
Qed.

Lemma read_u16_range (buf : list byte) (off v : Z) :
  read_u16 buf off = Some v -> 0 <= v < 2 ^ 16.
Proof.
  unfold read_u16. destruct (read_bytes buf off 2) as [bs|] eqn:Eb; [|done].
  intros [= <-]. apply read_bytes_Some in Eb as (_ & _ & _ & _ & Hlen).
  pose proof (le_value_range bs) as Hr. unfold buf_size in Hlen.
  replace (8 * Z.of_nat (length bs)) with 16 in Hr by lia. exact Hr.
Qed.

Lemma read_sym_shndx (buf : list byte) (off : Z) (sym : Elf64_Sym) :
  read_sym buf off = Some sym -> 0 <= st_shndx sym < 2 ^ 16.
Proof.
  unfold read_sym. intros H. simplify_option_eq. cbn.
  by eapply read_u16_range.
Qed.

Lemma iter_dynsym_shndx (st : NsoFile) (syms : list Elf64_Sym) :
  iter_dynsym st = Some syms ->
  Forall (fun sym => 0 <= st_shndx sym < 2 ^ 16) syms.
Proof.
  unfold iter_dynsym. intros H. apply mapM_Some in H.
  induction H as [|i sym l k Hi _ IH]; constructor; [|done].
  by eapply read_sym_shndx.
Qed.

(** The keys of [known_sections] are section indices from 1 up to, not
    including, SHN_LORESERVE. *)
Lemma profile_sections_keys (st : NsoFile) (prof : Profile) :
  profile_sections st = Done prof -> keys_ok (known_sections prof).
Proof.
  unfold profile_sections. intros H. inv_run. subst prof.
  apply add_known_segments_keys.
  match goal with H : iter_dynsym st = Some ?l |- _ =>
    apply iter_dynsym_shndx in H; revert H; generalize l end.
  intros syms Hs.
  assert (Hgen : forall p, keys_ok (known_sections p) ->
            keys_ok (known_sections (foldl (profile_sym (header st)) p syms))).
  { induction Hs as [|sym syms Hsym _ IH]; intros p Hp; [done|].
    cbn [foldl]. apply IH. apply profile_sym_keys; [lia|done]. }
  apply Hgen. intros k x Hx. cbn in Hx. by rewrite lookup_empty in Hx.
Qed.

Lemma keys_ok_size (known : gmap Z Elf64_Shdr) :
  keys_ok known -> Z.of_nat (size known) < SHN_LORESERVE.
Proof.
  intros Hk. rewrite <- size_dom.
  assert (Hsub : dom known ⊆ list_to_set (seqZ 1 (SHN_LORESERVE - 1))).
  { intros k Hin. apply elem_of_dom in Hin as [x Hx].
    apply elem_of_list_to_set, elem_of_seqZ. specialize (Hk k x Hx). lia. }
  apply subseteq_size in Hsub.
  rewrite size_list_to_set in Hsub by apply NoDup_seqZ.
  rewrite length_seqZ in Hsub. unfold SHN_LORESERVE in *. lia.
Qed.

Lemma keys_ok_fixup (phdr : Elf64_Phdr) (known : gmap Z Elf64_Shdr) :
  keys_ok known -> keys_ok (fixup_sh_offset phdr known).
Proof.
  intros Hk k x Hx. unfold fixup_sh_offset in Hx.
  apply lookup_fmap_Some in Hx as (y & _ & Hy). eauto.
Qed.

(** ** Room in the section header table *)

Lemma Present_count_range (p : Present.t) : 0 <= Present.count p <= 13.
Proof.
  unfold Present.count.
  repeat match goal with
         | |- context [Z.b2z ?b] =>
             let H := fresh in
             assert (H : 0 <= Z.b2z b <= 1) by (destruct b; cbn; lia);
             generalize dependent (Z.b2z b); intros
         end.
  lia.
Qed.

(** [num_shdrs] leaves a slot for index 0, each known section, .shstrtab,
    the four sections that are always written and each present one. *)
Lemma final_num_shdrs_room (prof : Profile) (p : Present.t) :
  keys_ok (known_sections prof) ->
  Z.of_nat (size (known_sections prof)) + 6 + Present.count p
  <= final_num_shdrs prof p.
Proof.
  intros Hk. apply keys_ok_size in Hk.
  pose proof (Present_count_range p) as Hc.
  unfold final_num_shdrs, shdrs_needed.
  assert (Hn : 0 <= u16 (num_shdrs prof + 1) < 2 ^ 16)
    by (apply Z.mod_pos_bound; lia).
  destruct (0 <? _) eqn:E.
  - unfold SHN_LORESERVE in Hk.
    match goal with |- _ <= u16 ?x =>
      replace x with (Z.of_nat (size (known_sections prof)) + 6
                      + Present.count p) by lia end.
    unfold u16. rewrite Z.mod_small; lia.
  - apply Z.ltb_ge in E. lia.
Qed.

(** ** The straight line of insert_shdr calls *)

Lemma keys_ok_weaken (known : gmap Z Elf64_Shdr) :
  keys_ok known ->
  forall k x, known !! k = Some x -> 0 <= k < SHN_LORESERVE.
Proof. intros Hk k x Hx. specialize (Hk k x Hx). lia. Qed.

(** One call of the straight line, with its effect on the table. *)
Ltac emit_one Hk :=
  match goal with
  | |- context [let '(_, _) := insert_if ?b ?known ?s ?o ?t in _] =>
      let idx := fresh "idx" in
      let t' := fresh "sh" in
      let E := fresh "Eins" in
      let H1 := fresh "Hfree" in
      let H2 := fresh "Hkeep" in
      let H3 := fresh "Hput" in
      destruct (insert_if b known s o t) as [idx t'] eqn:E;
      destruct (insert_if_spec b known s o t t' idx Hk
                  ltac:(cbn; discriminate) ltac:(lia) E)
        as (H1 & H2 & H3);
      clear E
  | |- context [let '(_, _) := insert_shdr ?known ?s ?o ?t in _] =>
      let idx := fresh "idx" in
      let t' := fresh "sh" in
      let E := fresh "Eins" in
      let H1 := fresh "Hfree" in
      let H2 := fresh "Hkeep" in
      let H3 := fresh "Hput" in
      destruct (insert_shdr known s o t) as [idx t'] eqn:E;
      destruct (insert_shdr_step known s o t t' idx Hk
                  ltac:(cbn; discriminate) ltac:(lia) E)
        as (H1 & H2 & H3);
      clear E
  end.

(** Carry a header found in one table to the tables after it. *)
Ltac carry H :=
  repeat match goal with
         | Hk : forall j x, ?t !! j = Some x -> _ -> ?t' !! j = Some x |- _ =>
             match type of H with
             | t !! _ = Some _ => apply Hk in H; [|cbn; discriminate]
             end
         end.

Ltac found_in H i :=
  carry H; eexists i, _; split; [split; [lia|exact H]|]; by cbn.

Ltac put_named name :=
  match goal with
  | H : (exists i : nat,
           _ /\ _ !! i
                = Some (mkShdr (StringTable.GetOffset name _) _ _ _ _ _ _ _ _ _))
    |- _ =>
      let i := fresh "i" in
      let Hi := fresh "Hi" in
      let Hp := fresh "Hp" in
      destruct H as (i & Hi & Hp); found_in Hp i
  | H : _ = true ->
        (exists i : nat,
           _ /\ _ !! i
                = Some (mkShdr (StringTable.GetOffset name _) _ _ _ _ _ _ _ _ _))
    |- _ =>
      let i := fresh "i" in
      let Hi := fresh "Hi" in
      let Hp := fresh "Hp" in
      let Hb := fresh "Hb" in
      intros Hb; destruct (H Hb) as (i & Hi & Hp); found_in Hp i
  end.

(** With room for every call, each header handed to [insert_shdr] is in
    the final table. *)
Lemma emit_sections_spec (st : NsoFile) (syms : list Elf64_Sym)
    (inf : Inferred) (m : Measured) (p : Present.t) (tbl : StringTable.t)
    (off : Z) (known : gmap Z Elf64_Shdr) (loads : list Elf64_Phdr)
    (dyn_phdr : Elf64_Phdr) (sh : list Elf64_Shdr) :
  keys_ok known ->
  (5 + Nat.b2n (Present.init p) + Nat.b2n (Present.fini p)
   + Nat.b2n (Present.plt p) + Nat.b2n (Present.got p)
   + Nat.b2n (Present.got_plt p) + Nat.b2n (Present.rela_plt p)
   + Nat.b2n (Present.init_array p) + Nat.b2n (Present.fini_array p)
   + Nat.b2n (Present.hash p) + Nat.b2n (Present.gnu_hash p)
   + Nat.b2n (Present.note p) + 2 * Nat.b2n (Present.eh p)
   <= free_slots sh)%nat ->
  let r := emit_sections st syms inf m p tbl off known loads dyn_phdr sh in
  let d := dyn_info st in
  let present (name : string) (ty addr sz : Z) :=
    exists (i : nat) (s : Elf64_Shdr),
      ((1 <= i)%nat /\ r.2 !! i = Some s)
      /\ sh_name s = StringTable.GetOffset name tbl
      /\ sh_type s = ty /\ sh_addr s = addr /\ sh_size s = sz in
  present ".rela.dyn" SHT_RELA (DynInfo.rela d) (DynInfo.relasz d)
  /\ (Present.rela_plt p = true ->
      present ".rela.plt" SHT_RELA (DynInfo.jmprel d) (DynInfo.pltrelsz d))
  /\ (Present.init_array p = true ->
      present ".init_array" SHT_INIT_ARRAY (DynInfo.init_array d)
              (DynInfo.init_arraysz d))
  /\ (Present.fini_array p = true ->
      present ".fini_array" SHT_FINI_ARRAY (DynInfo.fini_array d)
              (DynInfo.fini_arraysz d))
  /\ (Present.hash p = true ->
      present ".hash" SHT_HASH (DynInfo.hash d) (hash_size m))
  /\ (Present.gnu_hash p = true ->
      present ".gnu.hash" SHT_GNU_HASH (DynInfo.gnu_hash d) (gnu_hash_len m)).
Proof.
  intros Hk0 Hroom. pose proof (keys_ok_weaken known Hk0) as Hk.
  cbn zeta. unfold emit_sections. cbn zeta.
  do 17 emit_one Hk.
  match goal with
  | |- context [insert_shdr ?known ?s ?o ?t] =>
      destruct (insert_shdr known s o t) as [idx' sh'] eqn:E;
      destruct (insert_shdr_step known s o t sh' idx' Hk
                  ltac:(cbn; discriminate) ltac:(lia) E)
        as (Hfree' & Hkeep' & _);
      clear E
  end.
  cbn [snd].
  split; [put_named ".rela.dyn"|].
  split; [put_named ".rela.plt"|].
  split; [put_named ".init_array"|].
  split; [put_named ".fini_array"|].
  split; [put_named ".hash"|].
  put_named ".gnu.hash".
Qed.

(** ** The names in the section name table *)

Lemma AddString_in (str : string) (tbl : StringTable.t) :
  is_Some (StringTable.entries (StringTable.AddString str tbl) !! str).
Proof.
  unfold StringTable.AddString.
  destruct (StringTable.entries tbl !! str) eqn:E; cbn.
  - by rewrite E.
  - rewrite lookup_insert_eq. by eexists.
Qed.

Lemma AddString_mono (str s : string) (tbl : StringTable.t) :
  is_Some (StringTable.entries tbl !! s) ->
  is_Some (StringTable.entries (StringTable.AddString str tbl) !! s).
Proof. intros [off H]. exists off. by apply AddString_keeps. Qed.

Lemma vaddr_to_shdr_mono (h : NsoHeader) (vaddr : Z) (tbl : StringTable.t)
    (s : string) :
  is_Some (StringTable.entries tbl !! s) ->
  is_Some (StringTable.entries (vaddr_to_shdr h vaddr tbl).2 !! s).
Proof.
  unfold vaddr_to_shdr. generalize zero_shdr.
  assert (Hstep : forall acc i,
            is_Some (StringTable.entries acc.2 !! s) ->
            is_Some (StringTable.entries
                       (vaddr_to_shdr_step h vaddr acc i).2 !! s)).
  { intros acc i H. unfold vaddr_to_shdr_step. cbn zeta.
    repeat match goal with
           | |- context [if ?b then _ else _] => destruct b
           end; cbn [snd]; try done; by apply AddString_mono. }
  intros z H. cbn [foldl]. by do 3 apply Hstep.
Qed.

Lemma profile_sym_mono (h : NsoHeader) (p : Profile) (sym : Elf64_Sym)
    (s : string) :
  is_Some (StringTable.entries (shstrtab p) !! s) ->
  is_Some (StringTable.entries (shstrtab (profile_sym h p sym)) !! s).
Proof.
  intros H. unfold profile_sym.
  destruct (SHN_LORESERVE <=? st_shndx sym); [done|]. cbn zeta.
  destruct (negb (st_shndx sym =? SHT_NULL)
            && bool_decide (known_sections p !! st_shndx sym = None));
    [|done].
  pose proof (vaddr_to_shdr_mono h (st_value sym) (shstrtab p) s H) as Hv.
  destruct (vaddr_to_shdr h (st_value sym) (shstrtab p)) as [shdr tbl].
  by destruct (negb (sh_type shdr =? SHT_NULL)).
Qed.

Lemma add_known_mono (h : NsoHeader) (name : string) (sz vaddr : Z)
    (acc : Z * Profile) (s : string) :
  is_Some (StringTable.entries (shstrtab acc.2) !! s) ->
  is_Some (StringTable.entries
             (shstrtab (add_known h name sz vaddr acc).2) !! s).
Proof.
  intros H. unfold add_known. destruct acc as [shndx p]. cbn [snd] in H.
  destruct (negb (shndx =? SHN_UNDEF)
            && (StringTable.GetOffset name (shstrtab p) =? 0) && (0 <? sz));
    [|done].
  pose proof (vaddr_to_shdr_mono h vaddr (shstrtab p) s H) as Hv.
  by destruct (vaddr_to_shdr h vaddr (shstrtab p)) as [shdr tbl].
Qed.

Lemma profile_sections_named (st : NsoFile) (prof : Profile) :
  profile_sections st = Done prof ->
  is_Some (StringTable.entries (shstrtab prof) !! ".shstrtab").
Proof.
  unfold profile_sections. intros H. inv_run. subst prof.
  match goal with H : iter_dynsym st = Some ?l |- _ =>
    clear H; generalize l end.
  intros syms.
  assert (Hfold : forall p,
            is_Some (StringTable.entries (shstrtab p) !! ".shstrtab") ->
            is_Some (StringTable.entries
                       (shstrtab (foldl (profile_sym (header st)) p syms))
                     !! ".shstrtab")).
  { induction syms as [|sym syms IH]; intros p Hp; [done|].
    cbn [foldl]. by apply IH, profile_sym_mono. }
  unfold add_known_segments.
  match goal with |- context [bool_decide ?P] => destruct (bool_decide P) end.
  - apply Hfold. cbn [shstrtab]. apply AddString_in.
  - cbn zeta. do 4 apply add_known_mono. cbn [snd].
    apply Hfold. cbn [shstrtab]. apply AddString_in.
Qed.

Lemma add_if_mono (b : bool) (name s : string) (tbl : StringTable.t) :
  is_Some (StringTable.entries tbl !! s) ->
  is_Some (StringTable.entries (add_if b name tbl) !! s).
Proof. destruct b; [apply AddString_mono|done]. Qed.

Lemma add_if_in (name : string) (tbl : StringTable.t) :
  is_Some (StringTable.entries (add_if true name tbl) !! name).
Proof. apply AddString_in. Qed.

(** One name of [add_names]: found where it is added, kept behind. *)
Ltac name_added :=
  repeat first [ apply AddString_in | apply add_if_in
               | apply AddString_mono | apply add_if_mono ];
  try assumption.

Lemma add_names_named (p : Present.t) (tbl : StringTable.t) :
  let tbl' := add_names p tbl in
  let has s := is_Some (StringTable.entries tbl' !! s) in
  (forall s, is_Some (StringTable.entries tbl !! s) -> has s)
  /\ has ".dynstr" /\ has ".dynsym" /\ has ".dynamic" /\ has ".rela.dyn"
  /\ (Present.rela_plt p = true -> has ".rela.plt")
  /\ (Present.hash p = true -> has ".hash")
  /\ (Present.gnu_hash p = true -> has ".gnu.hash")
  /\ (Present.init p = true -> has ".init")
  /\ (Present.init_array p = true -> has ".init_array")
  /\ (Present.fini_array p = true -> has ".fini_array").
Proof.
  cbn zeta. unfold add_names. cbn zeta.
  split; [intros s H; name_added|].
  repeat split; try (intros ->); name_added.
Qed.

Lemma Finalize_entries (tbl tbl' : StringTable.t) :
  StringTable.Finalize tbl = Some tbl' ->
  StringTable.entries tbl' = StringTable.entries tbl.
Proof.
  unfold StringTable.Finalize. intros H.
  destruct (StringTable.GetBuffer tbl); [|done].
  by injection H as <-.
Qed.

(** The names that [WriteElf] has put into [shstrtab] when it finalizes
    it. *)
Lemma plan_named (MF : list byte -> Z -> option (Z * Z)) (st : NsoFile)
    (pl : Plan) :
  plan_elf MF st = Done pl ->
  let p := plan_present pl in
  let has s := is_Some (StringTable.entries (plan_tbl pl) !! s) in
  has ".shstrtab"
  /\ has ".dynstr" /\ has ".dynsym" /\ has ".dynamic" /\ has ".rela.dyn"
  /\ (Present.rela_plt p = true -> has ".rela.plt")
  /\ (Present.hash p = true -> has ".hash")
  /\ (Present.gnu_hash p = true -> has ".gnu.hash")
  /\ (Present.init p = true -> has ".init")
  /\ (Present.init_array p = true -> has ".init_array")
  /\ (Present.fini_array p = true -> has ".fini_array").
Proof.
  intros H.
  pose proof (plan_elf_Done _ _ _ H)
    as (_ & _ & _ & _ & _ & _ & _ & Hprof & _ & _ & Hfin & _).
  apply profile_sections_named in Hprof.
  apply Finalize_entries in Hfin. cbn zeta. rewrite Hfin.
  destruct (add_names_named (plan_present pl) (shstrtab (plan_prof pl)))
    as (Hmono & Hrest).
  split; [by apply Hmono|exact Hrest].
Qed.

(** A header whose [sh_name] was looked up for a name that is in the table
    carries the offset recorded for that name. *)
Lemma GetOffset_entry (name : string) (tbl : StringTable.t) :
  is_Some (StringTable.entries tbl !! name) ->
  StringTable.entries tbl !! name
  = Some (StringTable.GetOffset name tbl).
Proof. intros [off H]. unfold StringTable.GetOffset. by rewrite H. Qed.

(** ** The sections that follow the dynamic table *)

Lemma write_load_known (img : list byte) (h : NsoHeader) (i : SegmentType)
    (acc acc' : LoadAcc) :
  write_load img h i acc = Done acc' ->
  keys_ok (acc_known acc) ->
  keys_ok (acc_known acc') /\ size (acc_known acc') = size (acc_known acc).
Proof.
  intros H Hk. apply write_load_Done in H
    as (buf & src & _ & _ & _ & _ & _ & ->).
  split; [by apply keys_ok_fixup|]. apply map_size_fmap.
Qed.

Lemma write_segments_known (pl : Plan) (acc : LoadAcc) :
  write_segments pl = Done acc ->
  keys_ok (known_sections (plan_prof pl)) ->
  keys_ok (acc_known acc)
  /\ size (acc_known acc) = size (known_sections (plan_prof pl)).
Proof.
  unfold write_segments. intros H Hk. cbn zeta in H.
  apply bind_Done in H as (bufa & _ & H).
  apply bind_Done in H as (bufb & _ & H).
  apply bind_Done in H as (acc0 & H0 & H).
  apply bind_Done in H as (acc1 & H1 & H2).
  apply write_load_known in H0 as [K0 S0]; [|done].
  apply write_load_known in H1 as [K1 S1]; [|done].
  apply write_load_known in H2 as [K2 S2]; [|done].
  split; [done|]. cbn in S0. congruence.
Qed.

Lemma b2z_b2n (b : bool) : Z.b2z b = Z.of_nat (Nat.b2n b).
Proof. by destruct b. Qed.

Lemma nonzero_true (z : Z) : z <> 0 -> nonzero z = true.
Proof. intros H. unfold nonzero. by apply negb_true_iff, Z.eqb_neq. Qed.

(** What was measured for a present .hash and .gnu.hash. *)
Lemma measure_Done (st : NsoFile) (inf : Inferred) (p : Present.t)
    (m : Measured) :
  measure st inf p = Done m ->
  (Present.hash p = true ->
   exists nbucket nchain,
     read_u32 (image st) (DynInfo.hash (dyn_info st)) = Some nbucket
     /\ read_u32 (image st) (DynInfo.hash (dyn_info st) + 4) = Some nchain
     /\ hash_size m = u64 (8 + nbucket * 4 + nchain * 4))
  /\ (Present.gnu_hash p = true ->
      exists nbuckets symndx maskwords,
        read_u32 (image st) (DynInfo.gnu_hash (dyn_info st)) = Some nbuckets
        /\ read_u32 (image st) (DynInfo.gnu_hash (dyn_info st) + 4)
           = Some symndx
        /\ read_u32 (image st) (DynInfo.gnu_hash (dyn_info st) + 8)
           = Some maskwords
        /\ gnu_hash_len m
           = u64 (16 + maskwords * 8 + nbuckets * 4
                  + u64 (DataExtent.size (dynsym (header st))
                         / sizeof_Elf64_Sym - symndx) * 4)).
Proof.
  unfold measure. intros H. cbn zeta in H.
  apply bind_Done in H as (gde & _ & H).
  apply bind_Done in H as (hsz & Hh & H).
  apply bind_Done in H as (gsz & Hg & H).
  apply bind_Done in H as ([na nsz] & _ & H). injection H as <-. cbn.
  split.
  - intros Hp. rewrite Hp in Hh. inv_run. subst hsz. eauto.
  - intros Hp. rewrite Hp in Hg. inv_run. subst gsz. eauto 10.
Qed.

(** C3, as the code has it: .rela.dyn is always written with [sh_addr =
    rela] and [sh_size = relasz]; .hash and .gnu.hash are written when
    their dynamic entry is set, with the size read from their header;
    .init_array and .fini_array when both their address and their size are
    set; .rela.plt when [jmprel], [pltrelsz] and [pltgot] are set and the
    JMPREL table holds a jump slot. *)
Theorem WriteElf_dynamic_sections (MF : list byte -> Z -> option (Z * Z))
    (st st' : NsoFile) (out : ElfOut) :
  WriteElf MF st = Done (st', out) ->
  has_section out ".rela.dyn" SHT_RELA (DynInfo.rela (dyn_info st))
              (DynInfo.relasz (dyn_info st))
  /\ (DynInfo.hash (dyn_info st) <> 0 ->
      exists nbucket nchain,
        read_u32 (image st) (DynInfo.hash (dyn_info st)) = Some nbucket
        /\ read_u32 (image st) (DynInfo.hash (dyn_info st) + 4) = Some nchain
        /\ has_section out ".hash" SHT_HASH (DynInfo.hash (dyn_info st))
                       (u64 (8 + nbucket * 4 + nchain * 4)))
  /\ (DynInfo.gnu_hash (dyn_info st) <> 0 ->
      exists nbuckets symndx maskwords,
        read_u32 (image st) (DynInfo.gnu_hash (dyn_info st)) = Some nbuckets
        /\ read_u32 (image st) (DynInfo.gnu_hash (dyn_info st) + 4)
           = Some symndx
        /\ read_u32 (image st) (DynInfo.gnu_hash (dyn_info st) + 8)
           = Some maskwords
        /\ has_section out ".gnu.hash" SHT_GNU_HASH
             (DynInfo.gnu_hash (dyn_info st))
             (u64 (16 + maskwords * 8 + nbuckets * 4
                   + u64 (DataExtent.size (dynsym (header st))
                          / sizeof_Elf64_Sym - symndx) * 4)))
  /\ (DynInfo.init_array (dyn_info st) <> 0 ->
      DynInfo.init_arraysz (dyn_info st) <> 0 ->
      has_section out ".init_array" SHT_INIT_ARRAY
                  (DynInfo.init_array (dyn_info st))
                  (DynInfo.init_arraysz (dyn_info st)))
  /\ (DynInfo.fini_array (dyn_info st) <> 0 ->
      DynInfo.fini_arraysz (dyn_info st) <> 0 ->
      has_section out ".fini_array" SHT_FINI_ARRAY
                  (DynInfo.fini_array (dyn_info st))
                  (DynInfo.fini_arraysz (dyn_info st)))
  /\ (DynInfo.jmprel (dyn_info st) <> 0 ->
      DynInfo.pltrelsz (dyn_info st) <> 0 ->
      DynInfo.pltgot (dyn_info st) <> 0 ->
      jump_slot_end st <> Done 0 ->
      has_section out ".rela.plt" SHT_RELA (DynInfo.jmprel (dyn_info st))
                  (DynInfo.pltrelsz (dyn_info st))).
Proof.
  intros H. apply WriteElf_run in H.
  destruct H as [pl acc dyn_size buf1 buf2 buf3 r
                   Hpl Hacc Hdyn Hb1 Hb2 Hr Hb3 Hb4 -> Hehdr Hphdrs Hshdrs Htbl].
  pose proof (plan_elf_Done _ _ _ Hpl)
    as (Himg & Hhdr & Hdi & _ & _ & _ & _ & Hprof & Hinf & Hpres & _ & Hnum).
  pose proof (profile_sections_keys _ _ Hprof) as Hkeys.
  pose proof (write_segments_known _ _ Hacc Hkeys) as [Hk Hsize].
  pose proof (final_num_shdrs_room _ (plan_present pl) Hkeys) as Hroom.
  rewrite <- Hnum in Hroom.
  unfold build_shdrs in Hr.
  apply bind_Done in Hr as (sh0 & Hplace & Hr). apply must_Done in Hplace.
  apply bind_Done in Hr as (m & Hm & Hr). injection Hr as Hr.
  pose proof (place_known_free _ _ _
                ltac:(intros k x Hx; specialize (Hk k x Hx); lia) Hplace)
    as Hfree.
  rewrite free_slots_replicate, Hsize in Hfree.
  unfold Present.count in Hroom. rewrite !b2z_b2n in Hroom.
  pose proof (emit_sections_spec (plan_st pl) (plan_syms pl) (plan_inf pl) m
                (plan_present pl) (plan_tbl pl) (shstrtab_offset pl)
                (acc_known acc) (acc_loads acc)
                (dynamic_phdr pl (acc_loads acc) dyn_size) sh0 Hk
                ltac:(lia)) as Hspec.
  cbn zeta in Hspec. rewrite Hr, Hdi in Hspec.
  destruct Hspec as (S1 & S2 & S3 & S4 & S5 & S6).
  apply measure_Done in Hm as [Mh Mg]. rewrite ?Himg, ?Hdi in Mh. rewrite ?Himg, ?Hdi, ?Hhdr in Mg.
  pose proof (plan_named _ _ _ Hpl)
    as (_ & _ & _ & _ & N1 & N2 & N3 & N4 & _ & N5 & N6).
  cbn zeta in N2, N3, N4, N5, N6.
  assert (Hhas : forall name ty addr sz,
            is_Some (StringTable.entries (plan_tbl pl) !! name) ->
            (exists (i : nat) (s : Elf64_Shdr),
               ((1 <= i)%nat /\ r.2 !! i = Some s)
               /\ sh_name s = StringTable.GetOffset name (plan_tbl pl)
               /\ sh_type s = ty /\ sh_addr s = addr /\ sh_size s = sz) ->
            has_section out name ty addr sz).
  { intros name ty addr sz Hin (i & s & [Hi Hs] & Hn & Ht & Ha & Hz).
    exists i, s. unfold section_at, named. rewrite Hshdrs, Htbl, Hn.
    split; [done|]. split; [by apply GetOffset_entry|done]. }
  rewrite Hpres in S2, S3, S4, S5, S6, Mh, Mg, N2, N3, N4, N5, N6.
  cbn in S2, S3, S4, S5, S6, Mh, Mg, N2, N3, N4, N5, N6.
  rewrite Hdi in S2, S3, S4, S5, S6, Mh, Mg, N2, N3, N4, N5, N6.
  split; [by apply Hhas|].
  split.
  { intros Hnz. apply nonzero_true in Hnz.
    destruct (Mh Hnz) as (nb & nc & R1 & R2 & Hsz).
    exists nb, nc. split; [done|]. split; [done|].
    apply Hhas; [by apply N3|]. rewrite <- Hsz. by apply S5. }
  split.
  { intros Hnz. apply nonzero_true in Hnz.
    destruct (Mg Hnz) as (nb & sx & mw & R1 & R2 & R3 & Hsz).
    exists nb, sx, mw. split; [done|]. split; [done|]. split; [done|].
    apply Hhas; [by apply N4|]. rewrite <- Hsz. by apply S6. }
  split.
  { intros Ha Hz.
    assert (nonzero (DynInfo.init_array (dyn_info st))
            && nonzero (DynInfo.init_arraysz (dyn_info st)) = true) as Hb
      by (by rewrite (nonzero_true _ Ha), (nonzero_true _ Hz)).
    apply Hhas; [by apply N5|by apply S3]. }
  split.
  { intros Ha Hz.
    assert (nonzero (DynInfo.fini_array (dyn_info st))
            && nonzero (DynInfo.fini_arraysz (dyn_info st)) = true) as Hb
      by (by rewrite (nonzero_true _ Ha), (nonzero_true _ Hz)).
    apply Hhas; [by apply N6|by apply S4]. }
  intros Hj Hp Hg Hslot.
  assert (jump_slot_addr_end (plan_inf pl) <> 0) as Hjs.
  { intros Hz. apply Hslot.
    unfold infer in Hinf. apply bind_Done in Hinf as (jse & Hjse & Hinf).
    apply bind_Done in Hinf as (got & _ & Hinf).
    apply bind_Done in Hinf as (ini & _ & Hinf).
    apply bind_Done in Hinf as (fin & _ & Hinf).
    injection Hinf as Hinf. rewrite <- Hinf in Hz. cbn in Hz.
    by rewrite Hjse, Hz. }
  assert (nonzero (jump_slot_addr_end (plan_inf pl))
          && nonzero (DynInfo.pltgot (dyn_info st))
          && nonzero (DynInfo.jmprel (dyn_info st))
          && nonzero (DynInfo.pltrelsz (dyn_info st)) = true) as Hb
    by (by rewrite (nonzero_true _ Hj), (nonzero_true _ Hp),
             (nonzero_true _ Hg), (nonzero_true _ Hjs)).
  apply Hhas; [by apply N2|by apply S2].
Qed.

Lemma WriteElf_dynamic_sections_witness :
  exists st st' out,
    Load lz4_literal_block fresh nso_sections = Done st
    /\ WriteElf no_eh_frame st = Done (st', out)
    /\ has_section out ".rela.dyn" SHT_RELA 0x148 24
    /\ has_section out ".hash" SHT_HASH 0x100 16
    /\ has_section out ".gnu.hash" SHT_GNU_HASH 0x110 28
    /\ has_section out ".init_array" SHT_INIT_ARRAY 0x178 8
    /\ has_section out ".fini_array" SHT_FINI_ARRAY 0x180 8
    /\ has_section out ".rela.plt" SHT_RELA 0x130 24.
Proof.
  destruct (Load lz4_literal_block fresh nso_sections) as [st| |] eqn:E;
    [|vm_compute in E; discriminate E..].
  destruct (WriteElf no_eh_frame st) as [[st' out]| |] eqn:W;
    [|vm_compute in E; injection E as <-; vm_compute in W;
      discriminate W..].
  destruct (WriteElf_dynamic_sections no_eh_frame st st' out W)
    as (H1 & H2 & H3 & H4 & H5 & H6).
  exists st, st', out. split; [reflexivity|]. split; [exact W|].
  clear W. vm_compute in E. injection E as <-.
  split; [exact H1|].
  split.
  { destruct (H2 ltac:(vm_compute; discriminate))
      as (nb & nc & R1 & R2 & H).
    vm_compute in R1. injection R1 as <-.
    vm_compute in R2. injection R2 as <-. exact H. }
  split.
  { destruct (H3 ltac:(vm_compute; discriminate))
      as (nb & sx & mw & R1 & R2 & R3 & H).
    vm_compute in R1. injection R1 as <-.
    vm_compute in R2. injection R2 as <-.
    vm_compute in R3. injection R3 as <-. exact H. }
  split.
  { exact (H4 ltac:(vm_compute; discriminate)
              ltac:(vm_compute; discriminate)). }
  split.
  { exact (H5 ltac:(vm_compute; discriminate)
              ltac:(vm_compute; discriminate)). }
  exact (H6 ltac:(vm_compute; discriminate) ltac:(vm_compute; discriminate)
            ltac:(vm_compute; discriminate)
            ltac:(vm_compute; discriminate)).
Defined.

Lemma has_section_test (out : ElfOut) (name : string) (ty addr sz : Z) :
  has_section out name ty addr sz -> has_sectionb out name ty addr sz = true.
Proof.
  intros (i & s & [Hi Hs] & Hn & Ht & Ha & Hz). unfold has_sectionb.
  unfold named in Hn.
  assert (sh_name s = StringTable.GetOffset name (out_shstrtab out)) as Hg
    by (unfold StringTable.GetOffset; by rewrite Hn).
  apply existsb_exists. exists s. split.
  - apply list_elem_of_In, list_elem_of_lookup. exists (i - 1)%nat.
    rewrite lookup_drop. rewrite <- Hs. f_equal. lia.
  - rewrite <- Hg, Ht, Ha, Hz, !Z.eqb_refl. reflexivity.
Qed.

(** C3 as stated fails: the dynamic table of [nso_jmprel] sets DT_JMPREL
    and DT_PLTRELSZ, and DT_INIT_ARRAY too, yet the file has neither a
    .rela.plt nor an .init_array section: no section of type SHT_RELA is
    at the address of the JMPREL table, under any name, and no section at
    all has the type SHT_INIT_ARRAY. *)
Lemma WriteElf_without_rela_plt :
  exists st st' out,
    Load lz4_literal_block fresh nso_jmprel = Done st
    /\ WriteElf no_eh_frame st = Done (st', out)
    /\ DynInfo.jmprel (dyn_info st) <> 0
    /\ DynInfo.pltrelsz (dyn_info st) <> 0
    /\ DynInfo.init_array (dyn_info st) <> 0
    /\ ~ has_section out ".rela.plt" SHT_RELA (DynInfo.jmprel (dyn_info st))
                     (DynInfo.pltrelsz (dyn_info st))
    /\ ~ has_section out ".init_array" SHT_INIT_ARRAY
                     (DynInfo.init_array (dyn_info st))
                     (DynInfo.init_arraysz (dyn_info st))
    /\ Forall (fun s => ~ (sh_type s = SHT_RELA
                           /\ sh_addr s = DynInfo.jmprel (dyn_info st)))
              (shdrs out)
    /\ Forall (fun s => sh_type s <> SHT_INIT_ARRAY) (shdrs out).
Proof.
  eexists _, _, _. split; [vm_compute; reflexivity|].
  split; [vm_compute; reflexivity|].
  split; [vm_compute; discriminate|].
  split; [vm_compute; discriminate|].
  split; [vm_compute; discriminate|].
  split; [intros H; apply has_section_test in H; vm_compute in H;
          discriminate H|].
  split; [intros H; apply has_section_test in H; vm_compute in H;
          discriminate H|].
  split; apply (bool_decide_unpack _); vm_compute; exact I.
Qed.

(** ** The packed NsoHeader *)

Lemma take_bytes_app (n : nat) (a rest : list byte) :
  length a = n -> take_bytes n (a ++ rest) = (a, rest).
Proof.
  intros <-. unfold take_bytes.
  by rewrite take_app_length, drop_app_length.
Qed.

Lemma take_u32_app (v : Z) (rest : list byte) :
  is_u32 v -> take_u32 (le_bytes 4 v ++ rest) = (v, rest).
Proof.
  intros Hv. unfold take_u32.
  rewrite (take_app_length' (le_bytes 4 v)) by by rewrite length_le_bytes.
  rewrite (drop_app_length' (le_bytes 4 v)) by by rewrite length_le_bytes.
  rewrite le_value_bytes. f_equal. apply Z.mod_small. exact Hv.
Qed.

Lemma take_segment_app (s : SegmentHeader) (rest : list byte) :
  segment_fits s -> take_segment (encode_segment s ++ rest) = (s, rest).
Proof.
  intros (H1 & H2 & H3 & H4). unfold take_segment, encode_segment.
  rewrite <- !app_assoc.
  rewrite !take_u32_app by done. by destruct s.
Qed.

Lemma take_extent_app (e : DataExtent.t) (rest : list byte) :
  extent_fits e -> take_extent (encode_extent e ++ rest) = (e, rest).
Proof.
  intros (H1 & H2). unfold take_extent, encode_extent.
  rewrite <- !app_assoc.
  rewrite !take_u32_app by done. by destruct e.
Qed.

(** Reading back a header that was written gives the same header. *)
Lemma decode_encode_NsoHeader (h : NsoHeader) :
  header_fits h -> decode_NsoHeader (encode_NsoHeader h) = h.
Proof.
  intros (Hm & H4 & H8 & Hf & Ht & Hr & Hd & Hid & Hz0 & Hz1 & Hz2 & H6c
          & Hstr & Hsym & Hdig).
  unfold decode_NsoHeader, encode_NsoHeader.
  rewrite (take_bytes_app 4) by done.
  rewrite !take_u32_app by done.
  rewrite !take_segment_app by done.
  rewrite (take_bytes_app 32) by done.
  rewrite !take_u32_app by done.
  rewrite (take_bytes_app 36) by done.
  rewrite !take_extent_app by done.
  rewrite <- (app_nil_r (segment_digests h)).
  rewrite (take_bytes_app 96) by done.
  destruct h as [? ? ? ? [] ? [] ? ? ? ?]. reflexivity.
Qed.

Lemma length_encode_NsoHeader (h : NsoHeader) :
  header_fits h -> buf_size (encode_NsoHeader h) = sizeof_NsoHeader.
Proof.
  intros (Hm & _ & _ & _ & _ & _ & _ & Hid & _ & _ & _ & H6c & _ & _ & Hdig).
  unfold encode_NsoHeader, encode_segment, encode_extent, buf_size.
  rewrite !length_app, !length_le_bytes, Hm, Hid, H6c, Hdig. reflexivity.
Qed.

Lemma is_u32_le_value (bs : list byte) : is_u32 (le_value (take 4 bs)).
Proof.
  pose proof (le_value_range (take 4 bs)) as H.
  pose proof (length_take bs 4) as Hl. unfold is_u32.
  split; [lia|]. eapply Z.lt_le_trans; [apply H|].
  apply Z.pow_le_mono_r; lia.
Qed.

(** ** Writing an NSO back and loading it again *)

Lemma is_u32_u32 (z : Z) : is_u32 (u32 z).
Proof. unfold is_u32, u32. apply Z.mod_pos_bound. lia. Qed.

Lemma decode_NsoHeader_fits (bs : list byte) :
  length bs = 256%nat -> header_fits (decode_NsoHeader bs).
Proof.
  intros Hl. unfold decode_NsoHeader, take_segment, take_extent, take_u32,
    take_bytes. cbn [magic field_4 field_8 flags segments gnu_build_id
    segment_file_sizes field_6c dynstr dynsym segment_digests at_text
    at_rodata at_data].
  unfold header_fits, segment_fits, extent_fits.
  cbn [magic field_4 field_8 flags segments gnu_build_id
    segment_file_sizes field_6c dynstr dynsym segment_digests at_text
    at_rodata at_data file_offset mem_offset mem_size bss_align
    DataExtent.offset DataExtent.size].
  repeat match goal with |- _ /\ _ => split end;
    try apply is_u32_le_value;
    rewrite length_take, ?length_drop, Hl; reflexivity.
Qed.

Lemma uncompressed_header_fits (h : NsoHeader) :
  header_fits h -> header_fits (uncompressed_header h).
Proof.
  intros (Hm & H4 & H8 & Hf & Ht & Hr & Hd & Hid & Hz0 & Hz1 & Hz2 & H6c
          & Hstr & Hsym & Hdig).
  destruct Ht as (? & ? & ? & ?), Hr as (? & ? & ? & ?),
    Hd as (? & ? & ? & ?).
  assert (is_u32 (Z.land (flags h) 0xf8)) as Hfl.
  { assert (0 <= Z.land (flags h) 0xf8)
      by (apply Z.land_nonneg; left; apply Hf).
    split; [done|].
    destruct (decide (Z.land (flags h) 0xf8 = 0)) as [->|Hnz]; [done|].
    apply Z.log2_lt_pow2; [lia|].
    pose proof (Z.log2_land (flags h) 0xf8 (proj1 Hf) ltac:(lia)) as Hl.
    change (Z.log2 0xf8) with 7 in Hl. lia. }
  unfold header_fits, segment_fits. cbn.
  repeat match goal with |- _ /\ _ => split end;
    try done; apply is_u32_u32.
Qed.

Lemma NsoHeader_ext (h h' : NsoHeader) :
  magic h = magic h' -> field_4 h = field_4 h' -> field_8 h = field_8 h' ->
  flags h = flags h' -> segments h = segments h' ->
  gnu_build_id h = gnu_build_id h' ->
  segment_file_sizes h = segment_file_sizes h' ->
  field_6c h = field_6c h' -> dynstr h = dynstr h' -> dynsym h = dynsym h' ->
  segment_digests h = segment_digests h' ->
  h = h'.
Proof. destruct h, h'. cbn. by intros -> -> -> -> -> -> -> -> -> -> ->. Qed.

Lemma flags_uncompressed (h : NsoHeader) :
  flags (uncompressed_header h) = Z.land (flags h) 0xf8.
Proof. reflexivity. Qed.

Lemma uncompressed_header_idem (h : NsoHeader) :
  uncompressed_header (uncompressed_header h) = uncompressed_header h.
Proof.
  apply NsoHeader_ext; try reflexivity.
  rewrite !flags_uncompressed, <- Z.land_assoc. reflexivity.
Qed.

Lemma read_bytes_lookup (buf : list byte) (off len : Z) (bs : list byte)
    (j : nat) :
  read_bytes buf off len = Some bs -> (j < Z.to_nat len)%nat ->
  bs !! j = buf !! (Z.to_nat off + j)%nat.
Proof.
  unfold read_bytes. case_bool_decide; [|done]. intros [= <-] Hj.
  rewrite lookup_take_lt by lia. by rewrite lookup_drop.
Qed.

Lemma write_bytes_lookup (buf : list byte) (off : Z) (bs buf' : list byte)
    (k : nat) :
  write_bytes buf off bs = Some buf' ->
  buf' !! k
  = if bool_decide (Z.to_nat off <= k < Z.to_nat off + length bs)%nat
    then bs !! (k - Z.to_nat off)%nat else buf !! k.
Proof.
  intros H. apply write_bytes_Some in H as (H1 & H2 & -> & _).
  unfold buf_size in *.
  assert (length (take (Z.to_nat off) buf) = Z.to_nat off) as Hl
    by (rewrite length_take; lia).
  case_bool_decide as Hk.
  - rewrite lookup_app_r by lia. rewrite Hl.
    rewrite lookup_app_l by lia. done.
  - destruct (decide (k < Z.to_nat off)%nat).
    + rewrite lookup_app_l by lia. by rewrite lookup_take_lt by lia.
    + rewrite lookup_app_r by lia. rewrite lookup_app_r by lia.
      rewrite lookup_drop, Hl. f_equal. lia.
Qed.

(** A call of the segment loop keeps the size of the image. *)
Lemma load_segment_size (LZ4 : list byte -> Z -> option (list byte))
    (file : list byte) (h : NsoHeader) (i : SegmentType)
    (img img' : list byte) :
  load_segment LZ4 file h i img = Done img' -> buf_size img' = buf_size img.
Proof.
  destruct (Z.testbit (flags h) (seg_index i)) eqn:Hbit.
  - intros H. apply load_segment_compressed in H
      as (src & out & _ & _ & _ & Hw); [|done].
    by apply write_bytes_Some in Hw as (_ & _ & _ & ?).
  - unfold load_segment. cbn zeta. rewrite Hbit. intros H.
    apply bind_Done in H as (src & _ & H). apply must_Done in H.
    by apply write_bytes_Some in H as (_ & _ & _ & ?).
Qed.

Lemma load_nso_size (LZ4 : list byte -> Z -> option (list byte))
    (this : NsoFile) (file : list byte) (st : NsoFile) :
  load_nso LZ4 this file = Done st ->
  buf_size (image st)
  = u32 (u32 (mem_offset (at_data (segments (header st)))
              + mem_size (at_data (segments (header st))))
         + bss_align (at_data (segments (header st)))).
Proof.
  intros H. apply load_nso_Done in H as (a & b & c & Ha & Hb & Hc & ->).
  cbn [image header set_file_type set_image set_header].
  apply load_segment_size in Ha, Hb, Hc. rewrite Hc, Hb, Ha, buf_size_zeros.
  pose proof (is_u32_u32
    (u32 (mem_offset (at_data (segments
       (decode_NsoHeader (take (Z.to_nat sizeof_NsoHeader) file))))
          + mem_size (at_data (segments
       (decode_NsoHeader (take (Z.to_nat sizeof_NsoHeader) file)))))
     + bss_align (at_data (segments
       (decode_NsoHeader (take (Z.to_nat sizeof_NsoHeader) file)))))) as [? _].
  lia.
Qed.

Lemma uncompressed_flag_clear (h : NsoHeader) (i : SegmentType) :
  Z.testbit (flags (uncompressed_header h)) (seg_index i) = false.
Proof.
  unfold uncompressed_header. cbn [flags set_segments set_segment_file_sizes
    set_flags]. rewrite Z.land_spec. destruct i; apply andb_false_r.
Qed.

Lemma uncompressed_segment (h : NsoHeader) (i : SegmentType) :
  let s := seg_get (segments (uncompressed_header h)) i in
  file_offset s = u32 (mem_offset (seg_get (segments h) i) + sizeof_NsoHeader)
  /\ mem_offset s = mem_offset (seg_get (segments h) i)
  /\ mem_size s = mem_size (seg_get (segments h) i)
  /\ seg_get (segment_file_sizes (uncompressed_header h)) i
     = mem_size (seg_get (segments h) i).
Proof. by destruct i. Qed.

(** Loading one segment of a file that [WriteUncompressedNso] wrote copies
    the bytes the image had in the range of that segment. *)
Lemma reload_segment (LZ4 : list byte -> Z -> option (list byte))
    (h : NsoHeader) (img0 body img : list byte) (i : SegmentType) :
  header_fits h ->
  data_end h + sizeof_NsoHeader < 2 ^ 32 ->
  mem_offset (seg_get (segments h) i) + mem_size (seg_get (segments h) i)
  <= data_end h ->
  read_bytes img0 0 (data_end h) = Some body ->
  length img = length img0 ->
  exists img',
    load_segment LZ4 (encode_NsoHeader (uncompressed_header h) ++ body)
                 (uncompressed_header h) i img = Done img'
    /\ length img' = length img0
    /\ forall k : nat,
         img' !! k = if in_segment (seg_get (segments h) i) (Z.of_nat k)
                     then img0 !! k else img !! k.
Proof.
  intros Hfits Hend Hin Hbody Hlen.
  pose proof (uncompressed_segment h i) as (Hfo & Hmo & Hms & Hfs).
  cbn zeta in Hfo, Hmo, Hms.
  assert (is_u32 (mem_offset (seg_get (segments h) i))
          /\ is_u32 (mem_size (seg_get (segments h) i))) as [Ho Hs].
  { destruct Hfits as (_ & _ & _ & _ & (_ & ? & ? & _) & (_ & ? & ? & _)
                       & (_ & ? & ? & _) & _). by destruct i. }
  set (mo := mem_offset (seg_get (segments h) i)) in *.
  set (ms := mem_size (seg_get (segments h) i)) in *.
  unfold is_u32 in Ho, Hs.
  pose proof (length_encode_NsoHeader _ (uncompressed_header_fits h Hfits))
    as Hhl.
  apply read_bytes_Some in Hbody as (_ & Hd0 & Hd1 & Hbody & Hbl).
  rewrite Z.add_0_l in Hd1. change (Z.to_nat 0) with 0%nat in Hbody.
  rewrite drop_0 in Hbody.
  unfold load_segment. cbn zeta.
  rewrite uncompressed_flag_clear, Hfo, Hmo, Hfs.
  fold mo ms. unfold sizeof_NsoHeader in *.
  assert (u32 (mo + 256) = mo + 256) as ->
    by (unfold u32; apply Z.mod_small; lia).
  pose proof (read_bytes_in
                (encode_NsoHeader (uncompressed_header h) ++ body)
                (mo + 256) ms ltac:(lia) ltac:(lia)
                ltac:(rewrite buf_size_app, Hhl, Hbl; lia)) as Hr.
  rewrite Hr. cbn [must mbind outcome_bind].
  set (src := take (Z.to_nat ms) _) in *.
  assert (buf_size src = ms) as Hsl
    by (apply read_bytes_Some in Hr; tauto).
  assert (forall j : nat, (j < Z.to_nat ms)%nat ->
            src !! j = img0 !! (Z.to_nat mo + j)%nat) as Hsrc.
  { intros j Hj. rewrite (read_bytes_lookup _ _ _ _ j Hr Hj).
    unfold buf_size in Hhl.
    rewrite lookup_app_r by lia. rewrite Hbody.
    rewrite lookup_take_lt by lia. f_equal. lia. }
  unfold buf_size in *.
  pose proof (write_bytes_in img mo src ltac:(lia)
                ltac:(unfold buf_size; lia)) as Hw.
  eexists. rewrite Hw. split; [reflexivity|]. split.
  - apply write_bytes_Some in Hw as (_ & _ & _ & Hsz).
    unfold buf_size in Hsz. lia.
  - intros k. rewrite (write_bytes_lookup _ _ _ _ k Hw).
    unfold in_segment. fold mo ms.
    case_bool_decide as Hk.
    + rewrite (proj2 (Z.leb_le _ _)) by lia.
      rewrite (proj2 (Z.ltb_lt _ _)) by lia. cbn [andb].
      rewrite Hsrc by lia. f_equal. lia.
    + destruct (mo <=? Z.of_nat k) eqn:E1; [|done].
      destruct (Z.of_nat k <? mo + ms) eqn:E2; [|done].
      apply Z.leb_le in E1. apply Z.ltb_lt in E2. lia.
Qed.

Lemma find_note_in_ext (img : list byte) (s s' : SegmentHeader) :
  mem_offset s' = mem_offset s -> mem_size s' = mem_size s ->
  find_note_in img s' = find_note_in img s.
Proof. unfold find_note_in. by intros -> ->. Qed.

Lemma find_note_uncompressed (img : list byte) (h : NsoHeader) :
  find_note img (segments (uncompressed_header h))
  = find_note img (segments h).
Proof.
  unfold find_note.
  rewrite (find_note_in_ext img (at_rodata (segments h))
             (at_rodata (segments (uncompressed_header h)))) by done.
  rewrite (find_note_in_ext img (at_text (segments h))
             (at_text (segments (uncompressed_header h)))) by done.
  rewrite (find_note_in_ext img (at_data (segments h))
             (at_data (segments (uncompressed_header h)))) by done.
  reflexivity.
Qed.

Lemma ResolvePlt_set_header (st st' : NsoFile) (h : NsoHeader)
    (base len : Z) (found : bool) :
  ResolvePlt st base len = Done (found, st') ->
  ResolvePlt (set_header h st) base len = Done (found, set_header h st').
Proof.
  unfold ResolvePlt. cbn [dyn_info image set_header].
  destruct (negb (DynInfo.pltrelsz (dyn_info st) =? 0)).
  - destruct (read_bytes (image st) base len) as [hay|]; [|done].
    cbn [must mbind outcome_bind].
    destruct (memmem_m _ _ _); by intros [= <- <-].
  - by intros [= <- <-].
Qed.

(** For an NSO, what [Load] does after the container probe reads the image
    and the memory ranges of the segments only: with the header the
    uncompressed writer makes, it takes the same course. *)
Lemma finish_load_uncompressed (file file' : list byte) (s st : NsoFile) :
  file_type s = kNso ->
  finish_load file s = Done st ->
  finish_load file' (set_header (uncompressed_header (header s)) s)
  = Done (set_header (uncompressed_header (header s)) st)
  /\ header st = header s /\ image st = image s.
Proof.
  intros Hft Hf. apply finish_load_run in Hf.
  destruct Hf as [buf mod_base mod_hdr info resolved n noted
                    -> Hloc Hsz Hhdr Hmagic Hparse Hres Hnote Hcopy ->].
  assert (file_type s <> kUnknown) as Hk by congruence.
  assert (file_type s <> kMod) as Hm by congruence.
  rewrite (bool_decide_eq_false_2 _ Hk) in Hloc, Hhdr, Hparse, Hres.
  cbn zeta in Hres. cbn [file_type set_dyn_info set_dynamic] in Hres.
  rewrite (bool_decide_eq_false_2 _ Hm) in Hres.
  apply bind_Done in Hres as ([found st5] & Hplt & Hres).
  injection Hres as Hres. cbn [snd] in Hres. subst st5.
  pose proof (ResolvePlt_Done _ _ _ _ _ Hplt)
    as (Rft & Rh & Rimg & _).
  cbn [file_type header image set_dyn_info set_dynamic] in Rft, Rh, Rimg.
  pose proof (copy_build_id_Done _ _ Hcopy) as Hc.
  destruct Hc as (_ & _ & _ & _ & _ & _ & _ & _ & _ & _ & _ & Hsame).
  cbn [file_type set_note] in Hsame.
  specialize (Hsame ltac:(congruence)). subst noted.
  split; [|by split].
  apply finish_load_run.
  refine (finish_run _ _ _ (image s) mod_base mod_hdr info
            (set_header (uncompressed_header (header s)) resolved) n
            (set_header (uncompressed_header (header s))
               (set_note n resolved)) _ _ _ _ _ _ _ _ _ _).
  - cbn [file_type image set_header].
    by rewrite (bool_decide_eq_false_2 _ Hk).
  - exact Hloc.
  - cbn [file_type set_header]. congruence.
  - exact Hhdr.
  - exact Hmagic.
  - exact Hparse.
  - cbn zeta. cbn [file_type set_header set_dyn_info set_dynamic header].
    rewrite (bool_decide_eq_false_2 _ Hk), (bool_decide_eq_false_2 _ Hm).
    cbn [header set_dyn_info set_dynamic] in Hplt.
    apply (ResolvePlt_set_header _ _ (uncompressed_header (header s)))
      in Hplt.
    cbn [header set_header set_dyn_info set_dynamic file_type image dynamic
         note dyn_info plt_info eh_info] in Hplt |- *.
    change (mem_offset (at_text (segments (uncompressed_header (header s)))))
      with (mem_offset (at_text (segments (header s)))).
    change (mem_size (at_text (segments (uncompressed_header (header s)))))
      with (mem_size (at_text (segments (header s)))).
    unfold set_header, set_dyn_info, set_dynamic in Hplt |- *.
    cbn [header file_type image dynamic note dyn_info plt_info eh_info]
      in Hplt |- *.
    by rewrite Hplt.
  - cbn [image header set_header]. rewrite find_note_uncompressed.
    by rewrite <- Rh.
  - unfold copy_build_id. cbn [file_type set_note set_header].
    rewrite Rft, Hft. reflexivity.
  - reflexivity.
Qed.

Lemma covered_lookup (h : NsoHeader) (img : list byte) (k : nat) :
  covered h img = true -> (k < length img)%nat ->
  in_segments h (Z.of_nat k) = false -> img !! k = Some Byte.x00.
Proof.
  unfold covered. intros H Hk Hout.
  rewrite forallb_forall in H.
  specialize (H k ltac:(apply in_seq; lia)).
  rewrite Hout in H. cbn [orb] in H.
  by apply bool_decide_eq_true_1 in H.
Qed.

(** The image that the segment loop rebuilds from a file written by
    [WriteUncompressedNso] is the image that was written. *)
Lemma reload_image (LZ4 : list byte -> Z -> option (list byte))
    (h : NsoHeader) (img0 body : list byte) :
  header_fits h ->
  well_placed h = true ->
  covered h img0 = true ->
  read_bytes img0 0 (data_end h) = Some body ->
  buf_size img0
  = u32 (data_end h + bss_align (at_data (segments h))) ->
  let file1 := encode_NsoHeader (uncompressed_header h) ++ body in
  exists img1 img2,
    load_segment LZ4 file1 (uncompressed_header h) kText
      (zeros (u32 (data_end h + bss_align (at_data (segments h)))))
    = Done img1
    /\ load_segment LZ4 file1 (uncompressed_header h) kRodata img1
       = Done img2
    /\ load_segment LZ4 file1 (uncompressed_header h) kData img2
       = Done img0.
Proof.
  intros Hfits Hwp Hcov Hbody Hsize file1.
  unfold well_placed in Hwp.
  apply andb_true_iff in Hwp as [Hwp Hd]. apply andb_true_iff in Hwp as [Hwp Hr].
  apply andb_true_iff in Hwp as [He Ht].
  apply Z.ltb_lt in He. apply Z.leb_le in Ht, Hr, Hd.
  assert (length (zeros (u32 (data_end h + bss_align (at_data (segments h)))))
          = length img0) as Hz.
  { unfold zeros. rewrite length_replicate, <- Hsize. unfold buf_size. lia. }
  destruct (reload_segment LZ4 h img0 body _ kText Hfits He Ht Hbody Hz)
    as (img1 & H1 & L1 & K1).
  destruct (reload_segment LZ4 h img0 body img1 kRodata Hfits He Hr Hbody L1)
    as (img2 & H2 & L2 & K2).
  destruct (reload_segment LZ4 h img0 body img2 kData Hfits He Hd Hbody L2)
    as (img3 & H3 & L3 & K3).
  exists img1, img2. split; [exact H1|]. split; [exact H2|].
  fold file1 in H3. rewrite H3. f_equal.
  apply list_eq. intros k. rewrite K3, K2, K1. cbn [seg_get].
  destruct (in_segment (at_data (segments h)) (Z.of_nat k)) eqn:Ed; [done|].
  destruct (in_segment (at_rodata (segments h)) (Z.of_nat k)) eqn:Er; [done|].
  destruct (in_segment (at_text (segments h)) (Z.of_nat k)) eqn:Et; [done|].
  destruct (decide (k < length img0)%nat) as [Hk|Hk].
  - rewrite (covered_lookup h img0 k Hcov Hk)
      by (unfold in_segments; by rewrite Ed, Er, Et).
    apply lookup_replicate_2. rewrite <- Hz in Hk. unfold zeros in Hk.
    by rewrite length_replicate in Hk.
  - rewrite (lookup_ge_None_2 img0) by lia.
    apply lookup_ge_None_2. rewrite Hz. lia.
Qed.

Lemma data_end_uncompressed (h : NsoHeader) :
  data_end (uncompressed_header h) = data_end h.
Proof. reflexivity. Qed.

Lemma bss_align_uncompressed (h : NsoHeader) :
  bss_align (at_data (segments (uncompressed_header h)))
  = bss_align (at_data (segments h)).
Proof. reflexivity. Qed.

Lemma magic_uncompressed (h : NsoHeader) :
  magic (uncompressed_header h) = magic h.
Proof. reflexivity. Qed.

Lemma magic_decode (bs : list byte) :
  magic (decode_NsoHeader bs) = take 4 bs.
Proof. reflexivity. Qed.

(** The container probe on a file written by [WriteUncompressedNso]. *)
Lemma load_container_rewritten (LZ4 : list byte -> Z -> option (list byte))
    (this : NsoFile) (h : NsoHeader) (img0 body : list byte) :
  header_fits h ->
  magic h = nso_magic ->
  well_placed h = true ->
  covered h img0 = true ->
  read_bytes img0 0 (data_end h) = Some body ->
  buf_size img0 = u32 (data_end h + bss_align (at_data (segments h))) ->
  load_container LZ4 this (encode_NsoHeader (uncompressed_header h) ++ body)
  = Done (set_file_type kNso
            (set_image img0 (set_header (uncompressed_header h) this))).
Proof.
  intros Hfits Hmagic Hwp Hcov Hbody Hsize.
  pose proof (uncompressed_header_fits h Hfits) as Hfits1.
  pose proof (length_encode_NsoHeader _ Hfits1) as Hhl.
  destruct (reload_image LZ4 h img0 body Hfits Hwp Hcov Hbody Hsize)
    as (img1 & img2 & H1 & H2 & H3).
  rewrite load_container_nso.
  - unfold load_nso. cbn zeta.
    rewrite take_app_length' by (unfold buf_size in Hhl; lia).
    rewrite (decode_encode_NsoHeader _ Hfits1).
    fold (data_end (uncompressed_header h)).
    rewrite data_end_uncompressed, bss_align_uncompressed.
    rewrite H1. cbn [mbind outcome_bind]. rewrite H2.
    cbn [mbind outcome_bind]. rewrite H3. reflexivity.
  - unfold is_nso. apply andb_true_iff. split; apply bool_decide_eq_true_2.
    + rewrite buf_size_app, Hhl. pose proof (buf_size_nonneg body). lia.
    + unfold encode_NsoHeader. rewrite <- app_assoc.
      rewrite magic_uncompressed, Hmagic. reflexivity.
Qed.

(** C9, as the code has it: for an NSO whose loaded image is zero outside
    the memory ranges of its three segments, and whose segments end at or
    before the end of .data, the file that [WriteUncompressedNso] writes
    loads again, and writing it once more gives the same bytes. *)
Theorem WriteUncompressedNso_idempotent
    (LZ4 : list byte -> Z -> option (list byte)) (this : NsoFile)
    (file0 file1 : list byte) (st0 : NsoFile) :
  is_nso file0 = true ->
  Load LZ4 this file0 = Done st0 ->
  WriteUncompressedNso st0 = Done file1 ->
  well_placed (header st0) = true ->
  covered (header st0) (image st0) = true ->
  exists st1,
    Load LZ4 this file1 = Done st1
    /\ WriteUncompressedNso st1 = Done file1.
Proof.
  intros Hnso Hload Hw Hwp Hcov.
  unfold Load in Hload. apply bind_Done in Hload as (s0 & Hc & Hf).
  rewrite load_container_nso in Hc by done.
  pose proof (load_nso_size _ _ _ _ Hc) as Hsize.
  apply load_nso_Done in Hc as (a & b & c & _ & _ & _ & Hs0).
  cbn zeta in Hs0.
  unfold is_nso in Hnso. apply andb_true_iff in Hnso as [Hlen Hmagic].
  apply bool_decide_eq_true_1 in Hlen. apply bool_decide_eq_true_1 in Hmagic.
  assert (header_fits
            (decode_NsoHeader (take (Z.to_nat sizeof_NsoHeader) file0)))
    as Hfits.
  { apply decode_NsoHeader_fits. rewrite length_take.
    unfold buf_size, sizeof_NsoHeader in *. lia. }
  assert (magic (decode_NsoHeader (take (Z.to_nat sizeof_NsoHeader) file0))
          = nso_magic) as Hmg.
  { rewrite magic_decode, take_take. exact Hmagic. }
  revert Hs0 Hfits Hmg.
  generalize (decode_NsoHeader (take (Z.to_nat sizeof_NsoHeader) file0)).
  intros h0 Hs0 Hfits Hmg.
  assert (file_type s0 = kNso) as Hft by (rewrite Hs0; reflexivity).
  assert (header s0 = h0) as Hh0 by (rewrite Hs0; reflexivity).
  assert (image s0 = c) as Hc0 by (rewrite Hs0; reflexivity).
  destruct (finish_load_uncompressed file0 file1 s0 st0 Hft Hf)
    as (Hf1 & Hhdr & Himg).
  rewrite Hhdr, Hh0 in Hwp, Hcov. rewrite Himg, Hc0 in Hcov.
  rewrite Hh0 in Hsize, Hf1. rewrite Hc0 in Hsize.
  fold (data_end h0) in Hsize.
  unfold WriteUncompressedNso in Hw. cbn zeta in Hw.
  rewrite Hhdr, Hh0, Himg, Hc0 in Hw.
  fold (data_end (uncompressed_header h0)) in Hw.
  rewrite data_end_uncompressed in Hw.
  apply bind_Done in Hw as (body & Hbody & Hw). apply must_Done in Hbody.
  injection Hw as Hw.
  pose proof (load_container_rewritten LZ4 this h0 c body Hfits Hmg Hwp Hcov
                Hbody Hsize) as Hc1.
  rewrite Hw in Hc1.
  exists (set_header (uncompressed_header h0) st0). split.
  - unfold Load. rewrite Hc1. cbn [mbind outcome_bind].
    rewrite <- Hf1. f_equal. rewrite Hs0. reflexivity.
  - unfold WriteUncompressedNso. cbn zeta. cbn [header image set_header].
    rewrite uncompressed_header_idem.
    fold (data_end (uncompressed_header h0)).
    rewrite data_end_uncompressed.
    rewrite Himg, Hc0, Hbody. cbn [must mbind outcome_bind]. by rewrite Hw.
Qed.

Lemma WriteUncompressedNso_idempotent_witness :
  exists st0 file1 st1,
    Load lz4_literal_block fresh nso_plain = Done st0
    /\ WriteUncompressedNso st0 = Done file1
    /\ Load lz4_literal_block fresh file1 = Done st1
    /\ WriteUncompressedNso st1 = Done file1.
Proof.
  destruct (Load lz4_literal_block fresh nso_plain) as [st0| |] eqn:E;
    [|vm_compute in E; discriminate E..].
  destruct (WriteUncompressedNso st0) as [file1| |] eqn:W;
    [|vm_compute in E; injection E as <-; vm_compute in W;
      discriminate W..].
  destruct (WriteUncompressedNso_idempotent lz4_literal_block fresh
              nso_plain file1 st0) as (st1 & L1 & W1).
  - reflexivity.
  - exact E.
  - exact W.
  - vm_compute in E. injection E as <-. reflexivity.
  - vm_compute in E. injection E as <-. reflexivity.
  - exists st0, file1, st1. by repeat split.
Defined.

(** C9 as stated fails: the text of [nso_long_text] is stored uncompressed
    with four bytes more than its mem_size; they reach the image, and the
    first file, but the second load leaves them out. *)
Lemma WriteUncompressedNso_not_idempotent :
  exists st0 file1 st1 file2,
    is_nso nso_long_text = true
    /\ Load lz4_literal_block fresh nso_long_text = Done st0
    /\ WriteUncompressedNso st0 = Done file1
    /\ Load lz4_literal_block fresh file1 = Done st1
    /\ WriteUncompressedNso st1 = Done file2
    /\ file1 <> file2.
Proof.
  eexists _, _, _, _. split; [reflexivity|].
  split; [vm_compute; reflexivity|].
  split; [vm_compute; reflexivity|].
  split; [vm_compute; reflexivity|].
  split; [vm_compute; reflexivity|].
  discriminate.
Qed.

(** ** Further properties of Load *)

Lemma is_nso_size (file : list byte) :
  is_nso file = true -> sizeof_NsoHeader <= buf_size file.
Proof.
  unfold is_nso. intros H. apply andb_true_iff in H as [H _].
  by apply bool_decide_eq_true_1 in H.
Qed.

Lemma is_nro_size (file : list byte) :
  is_nro file = true -> nro_offset + sizeof_NroHeader <= buf_size file.
Proof.
  unfold is_nro. intros H. apply andb_true_iff in H as [H _].
  by apply bool_decide_eq_true_1 in H.
Qed.

(** X1: a file shorter than a ModPointer, the empty vector that
    [File::Read] gives for an unreadable file included, is refused. *)
Theorem Load_refuses_short_file
    (LZ4 : list byte -> Z -> option (list byte)) (plt0 : PltInfo.t)
    (file : list byte) :
  buf_size file < sizeof_ModPointer ->
  Load LZ4 (NsoFile_new plt0) file = Refused.
Proof.
  intros Hshort. unfold Load, load_container.
  destruct (is_nso file) eqn:Enso.
  { apply is_nso_size in Enso. unfold sizeof_NsoHeader, sizeof_ModPointer in *.
    lia. }
  destruct (is_nro file) eqn:Enro.
  { apply is_nro_size in Enro. pose proof (buf_size_nonneg file).
    unfold nro_offset, sizeof_NroHeader, sizeof_ModPointer in *.
    change (ALIGN_UP 8 16) with 16 in Enro. lia. }
  cbn [mbind outcome_bind]. unfold finish_load.
  cbn [file_type NsoFile_new]. rewrite bool_decide_eq_true_2 by done.
  cbn [negb]. rewrite bool_decide_eq_false_2 by lia. reflexivity.
Qed.

Lemma Load_refuses_short_file_witness :
  Load lz4_literal_block fresh [] = Refused.
Proof. apply Load_refuses_short_file. reflexivity. Defined.

Lemma locate_mod_Done (buf : list byte) (m : Z) :
  locate_mod buf = Done m ->
  read_u32 buf 4 = Some m /\ m + sizeof_ModHeader <= buf_size buf.
Proof.
  unfold locate_mod. intros H. inv_run. subst m.
  split; [done|]. apply negb_true_iff, bool_decide_eq_false_1 in Hrun0. lia.
Qed.

Lemma read_ModHeader_magic (buf : list byte) (off : Z) (hdr : ModHeader) :
  read_ModHeader buf off = Some hdr ->
  read_bytes buf off 4 = Some (mod_magic_bytes hdr).
Proof.
  unfold read_ModHeader. intros H.
  destruct (read_bytes buf off 4) as [mg|]; [|done].
  cbn [mbind option_bind] in H.
  repeat match type of H with
         | (?m ≫= _) = Some _ => destruct m; [cbn [mbind option_bind] in H|done]
         end.
  by injection H as <-.
Qed.

(** The image after a successful [finish_load]. *)
Lemma FinishRun_image (file : list byte) (st1 st : NsoFile) :
  FinishRun file st1 st ->
  image st = (if bool_decide (file_type st1 = kUnknown) then file
              else image st1).
Proof.
  intros [buf mod_base mod_hdr info resolved n noted
            -> Hloc Hsz Hhdr Hmagic Hparse Hres Hnote Hcopy ->].
  apply copy_build_id_Done in Hcopy
    as (_ & _ & _ & _ & _ & _ & Himg & _).
  cbn [image set_eh_info set_note] in Himg |- *. rewrite Himg.
  cbn zeta in Hres.
  destruct (decide (file_type st1 = kUnknown)) as [E|E].
  - rewrite !(bool_decide_eq_true_2 _ E) in Hres |- *.
    cbn [file_type set_dyn_info set_dynamic set_file_type] in Hres.
    rewrite bool_decide_eq_true_2 in Hres by done.
    by apply synthesize_mod_Done in Hres as (_ & _ & _ & _ & -> & _).
  - rewrite !(bool_decide_eq_false_2 _ E) in Hres |- *.
    cbn [file_type set_dyn_info set_dynamic] in Hres.
    destruct (decide (file_type st1 = kMod)) as [Em|Em].
    + rewrite (bool_decide_eq_true_2 _ Em) in Hres.
      by apply synthesize_mod_Done in Hres as (_ & _ & _ & _ & -> & _).
    + rewrite (bool_decide_eq_false_2 _ Em) in Hres.
      apply bind_Done in Hres as ([found st5] & Hplt & Hres).
      injection Hres as <-.
      by apply ResolvePlt_Done in Hplt as (_ & _ & -> & _).
Qed.

(** X2: every image that [Load] accepts, of whichever container, holds at
    offset 4 the offset of a ModHeader that lies inside the image and
    starts with the magic MOD0. *)
Theorem Load_finds_mod_magic
    (LZ4 : list byte -> Z -> option (list byte)) (this : NsoFile)
    (file : list byte) (st : NsoFile) :
  Load LZ4 this file = Done st ->
  exists magic_offset,
    read_u32 (image st) 4 = Some magic_offset
    /\ magic_offset + sizeof_ModHeader <= buf_size (image st)
    /\ read_bytes (image st) magic_offset 4 = Some mod_magic.
Proof.
  intros H. apply Load_Done in H as (st1 & _ & Hf).
  pose proof (FinishRun_image _ _ _ Hf) as Himg.
  destruct Hf as [buf mod_base mod_hdr info resolved n noted
                    Hbuf Hloc Hsz Hhdr Hmagic Hparse Hres Hnote Hcopy Hst].
  rewrite <- Hbuf in Himg. rewrite Himg.
  apply locate_mod_Done in Hloc as [Hoff Hin].
  exists mod_base. split; [done|]. split; [done|].
  rewrite <- Hmagic. by apply read_ModHeader_magic.
Qed.

Lemma Load_finds_mod_magic_witness :
  exists st magic_offset,
    Load lz4_literal_block fresh (raw_mod 4) = Done st
    /\ read_u32 (image st) 4 = Some magic_offset
    /\ read_bytes (image st) magic_offset 4 = Some mod_magic.
Proof.
  destruct (Load lz4_literal_block fresh (raw_mod 4)) as [st| |] eqn:E;
    [|vm_compute in E; discriminate E..].
  destruct (Load_finds_mod_magic _ _ _ _ E) as (m & H1 & _ & H2).
  exists st, m. split; [reflexivity|]. split; [exact H1|exact H2].
Defined.

(** What [Load] keeps of an NSO after the container probe. *)
Lemma Load_nso_parts (LZ4 : list byte -> Z -> option (list byte))
    (this : NsoFile) (file : list byte) (st : NsoFile) :
  is_nso file = true ->
  Load LZ4 this file = Done st ->
  exists s0 img1 img2,
    let h := decode_NsoHeader (take (Z.to_nat sizeof_NsoHeader) file) in
    load_nso LZ4 this file = Done s0
    /\ load_segment LZ4 file h kText
         (zeros (u32 (u32 (mem_offset (at_data (segments h))
                           + mem_size (at_data (segments h)))
                      + bss_align (at_data (segments h))))) = Done img1
    /\ load_segment LZ4 file h kRodata img1 = Done img2
    /\ load_segment LZ4 file h kData img2 = Done (image st)
    /\ file_type st = kNso
    /\ header st = h
    /\ finish_load file s0 = Done st
    /\ file_type s0 = kNso /\ header s0 = h /\ image s0 = image st.
Proof.
  intros Hnso Hload. unfold Load in Hload.
  apply bind_Done in Hload as (s0 & Hc & Hf).
  rewrite load_container_nso in Hc by done.
  pose proof (load_nso_Done _ _ _ _ Hc) as (a & b & c & Ha & Hb & Hc' & Hs0).
  cbn zeta in Ha, Hb, Hc', Hs0.
  assert (file_type s0 = kNso) as Hft by (rewrite Hs0; reflexivity).
  destruct (finish_load_uncompressed file file s0 st Hft Hf)
    as (_ & Hhdr & Himg).
  pose proof (proj1 (finish_load_run _ _ _) Hf) as Hrun.
  assert (file_type st = kNso) as Hft'.
  { destruct Hrun as [buf mod_base mod_hdr info resolved n noted
                        -> Hloc Hsz Hhdr' Hmagic Hparse Hres Hnote Hcopy ->].
    apply copy_build_id_Done in Hcopy as (Hcft & _).
    cbn [file_type set_eh_info set_note] in Hcft |- *. rewrite Hcft.
    cbn zeta in Hres.
    rewrite (bool_decide_eq_false_2 (file_type s0 = kUnknown)) in Hres
      by congruence.
    cbn [file_type set_dyn_info set_dynamic] in Hres.
    rewrite (bool_decide_eq_false_2 (file_type s0 = kMod)) in Hres
      by congruence.
    apply bind_Done in Hres as ([found st5] & Hplt & Hres).
    injection Hres as <-.
    apply ResolvePlt_Done in Hplt as (-> & _). exact Hft. }
  exists s0, a, b. cbn zeta.
  assert (image s0 = c) as Hc0 by (rewrite Hs0; reflexivity).
  assert (header s0
          = decode_NsoHeader (take (Z.to_nat sizeof_NsoHeader) file)) as Hh0
    by (rewrite Hs0; reflexivity).
  rewrite Himg, Hc0, Hhdr, Hh0. by repeat split.
Qed.

(** X3: the image of a loaded NSO has the size computed from the header of
    the file, [data.mem_offset + data.mem_size + data.bss_align] in u32
    arithmetic, whatever the segments hold; the header is the first 0x100
    bytes of the file. *)
Theorem Load_nso_image_size
    (LZ4 : list byte -> Z -> option (list byte)) (this : NsoFile)
    (file : list byte) (st : NsoFile) :
  is_nso file = true ->
  Load LZ4 this file = Done st ->
  file_type st = kNso
  /\ header st = decode_NsoHeader (take (Z.to_nat sizeof_NsoHeader) file)
  /\ buf_size (image st)
     = u32 (u32 (mem_offset (at_data (segments (header st)))
                 + mem_size (at_data (segments (header st))))
            + bss_align (at_data (segments (header st)))).
Proof.
  intros Hnso Hload.
  destruct (Load_nso_parts _ _ _ _ Hnso Hload)
    as (s0 & a & b & Hs0 & _ & _ & _ & Hft & Hh & _ & _ & Hh0 & Hi0).
  cbn zeta in Hh, Hh0. split; [done|]. split; [done|].
  apply load_nso_size in Hs0. by rewrite Hh0, Hi0, <- Hh in Hs0.
Qed.

Lemma Load_nso_image_size_witness :
  exists st,
    Load lz4_literal_block fresh nso_short_text = Done st
    /\ buf_size (image st) = 0x60.
Proof.
  destruct (Load lz4_literal_block fresh nso_short_text) as [st| |] eqn:E;
    [|vm_compute in E; discriminate E..].
  destruct (Load_nso_image_size lz4_literal_block fresh nso_short_text st
              eq_refl E) as (_ & _ & Hsz).
  exists st. split; [reflexivity|]. rewrite Hsz.
  vm_compute in E. injection E as <-. reflexivity.
Defined.

(** X4: an uncompressed .data is the last segment copied, so the image holds
    its [segment_file_sizes[kData]] bytes of the file at [data.mem_offset]
    as they are. *)
Theorem Load_nso_data_bytes
    (LZ4 : list byte -> Z -> option (list byte)) (this : NsoFile)
    (file : list byte) (st : NsoFile) :
  is_nso file = true ->
  Z.testbit (flags (decode_NsoHeader (take (Z.to_nat sizeof_NsoHeader) file)))
            (seg_index kData) = false ->
  Load LZ4 this file = Done st ->
  exists src,
    read_bytes file (file_offset (at_data (segments (header st))))
               (at_data (segment_file_sizes (header st))) = Some src
    /\ read_bytes (image st) (mem_offset (at_data (segments (header st))))
                  (at_data (segment_file_sizes (header st))) = Some src.
Proof.
  intros Hnso Hbit Hload.
  destruct (Load_nso_parts _ _ _ _ Hnso Hload)
    as (s0 & a & b & _ & _ & _ & Hd & _ & Hh & _).
  cbn zeta in Hd, Hh. rewrite Hh.
  unfold load_segment in Hd. cbn zeta in Hd. rewrite Hbit in Hd.
  apply bind_Done in Hd as (src & Hsrc & Hd).
  apply must_Done in Hsrc, Hd. cbn [seg_get] in Hsrc, Hd.
  exists src. split; [exact Hsrc|].
  apply read_bytes_Some in Hsrc as (_ & _ & _ & _ & <-).
  by apply read_write_same in Hd.
Qed.

Lemma Load_nso_data_bytes_witness :
  exists st src,
    Load lz4_literal_block fresh nso_long_text = Done st
    /\ read_bytes nso_long_text 0x144 0x10 = Some src
    /\ read_bytes (image st) 0x50 0x10 = Some src.
Proof.
  destruct (Load lz4_literal_block fresh nso_long_text) as [st| |] eqn:E;
    [|vm_compute in E; discriminate E..].
  destruct (Load_nso_data_bytes lz4_literal_block fresh nso_long_text st
              eq_refl eq_refl E) as (src & H1 & H2).
  exists st, src. split; [reflexivity|].
  vm_compute in E. injection E as <-. split; [exact H1|exact H2].
Defined.

(** X5: without PLT relocations ([DT_PLTRELSZ] absent or 0) [Load] never
    writes [plt_info], the member without an initialiser: it is left as the
    storage of the object held it. *)
Theorem Load_keeps_plt_info
    (LZ4 : list byte -> Z -> option (list byte)) (this : NsoFile)
    (file : list byte) (st : NsoFile) :
  Load LZ4 this file = Done st ->
  DynInfo.pltrelsz (dyn_info st) = 0 ->
  plt_info st = plt_info this.
Proof.
  intros H Hz. apply Load_Done in H as (st1 & Hc & Hf).
  assert (plt_info st1 = plt_info this) as Hp1.
  { unfold load_container in Hc. destruct (is_nso file).
    - by apply load_nso_Done in Hc as (? & ? & ? & _ & _ & _ & ->).
    - destruct (is_nro file); [|by injection Hc as <-].
      unfold load_nro in Hc. inv_run. by subst st1. }
  rewrite <- Hp1.
  destruct Hf as [buf mod_base mod_hdr info resolved n noted
                    -> Hloc Hsz Hhdr Hmagic Hparse Hres Hnote Hcopy ->].
  apply copy_build_id_Done in Hcopy
    as (_ & _ & _ & _ & _ & _ & _ & Hdi & _ & _ & Hplt & _).
  cbn [plt_info dyn_info set_eh_info set_note] in Hdi, Hplt, Hz |- *.
  rewrite Hplt. rewrite Hdi in Hz. cbn zeta in Hres.
  assert (forall s s' base len found,
            ResolvePlt s base len = Done (found, s') ->
            DynInfo.pltrelsz (dyn_info s) = 0 ->
            found = false /\ s' = s) as Hnone.
  { intros s s' base len found Hr Hs. unfold ResolvePlt in Hr.
    rewrite Hs in Hr. cbn in Hr. by injection Hr as <- <-. }
  match type of Hres with
  | (if ?b then _ else _) = _ => destruct b
  end.
  - exfalso.
    pose proof (synthesize_mod_Done _ _ _ _ Hres)
      as (_ & _ & _ & _ & _ & Hd5 & _).
    rewrite Hd5 in Hz. unfold synthesize_mod in Hres.
    apply bind_Done in Hres as ([found s5] & Hr & Hres).
    apply bind_Done in Hres as (u & Hfound & _).
    apply require_Done in Hfound.
    destruct (Hnone _ _ _ _ _ Hr Hz) as [Hf _]. congruence.
  - apply bind_Done in Hres as ([found s5] & Hr & Hres).
    injection Hres as <-.
    pose proof (ResolvePlt_Done _ _ _ _ _ Hr) as (_ & _ & _ & Hd5 & _).
    rewrite Hd5 in Hz. destruct (Hnone _ _ _ _ _ Hr Hz) as [_ ->].
    cbn [plt_info set_dyn_info set_dynamic].
    by destruct (bool_decide (file_type st1 = kUnknown)).
Qed.

Lemma Load_keeps_plt_info_witness :
  exists st,
    Load lz4_literal_block (NsoFile_new (PltInfo.mk 0x1234 0x40)) nso_plain
    = Done st
    /\ plt_info st = PltInfo.mk 0x1234 0x40.
Proof.
  destruct (Load lz4_literal_block (NsoFile_new (PltInfo.mk 0x1234 0x40))
              nso_plain) as [st| |] eqn:E;
    [|vm_compute in E; discriminate E..].
  pose proof (Load_keeps_plt_info _ _ _ _ E) as H.
  exists st. split; [reflexivity|]. apply H.
  vm_compute in E. injection E as <-. reflexivity.
Defined.

(** X6: an NRO whose [file_size] field differs from the size of the file is
    refused. *)
Theorem Load_nro_size_mismatch
    (LZ4 : list byte -> Z -> option (list byte)) (this : NsoFile)
    (file : list byte) (nro : NroHeader) :
  is_nso file = false ->
  is_nro file = true ->
  read_NroHeader file nro_offset = Some nro ->
  nro_file_size nro <> buf_size file ->
  Load LZ4 this file = Refused.
Proof.
  intros Hnso Hnro Hread Hsize. unfold Load, load_container.
  rewrite Hnso, Hnro. unfold load_nro. rewrite Hread.
  cbn [must mbind outcome_bind].
  by rewrite bool_decide_eq_false_2.
Qed.

Lemma Load_nro_size_mismatch_witness :
  Load lz4_literal_block fresh nro_wrong_size = Refused.
Proof.
  destruct (read_NroHeader nro_wrong_size nro_offset) as [nro|] eqn:E;
    [|vm_compute in E; discriminate E].
  apply (Load_nro_size_mismatch lz4_literal_block fresh nro_wrong_size nro).
  - reflexivity.
  - reflexivity.
  - exact E.
  - vm_compute in E. injection E as <-. vm_compute. discriminate.
Defined.

(** ** The bytes of an NsoHeader *)

Lemma take_u32_bytes (bs : list byte) :
  (4 <= length bs)%nat ->
  le_bytes 4 (take_u32 bs).1 ++ (take_u32 bs).2 = bs.
Proof.
  intros Hl. unfold take_u32. cbn [fst snd].
  assert (length (take 4 bs) = 4%nat) as H4 by (rewrite length_take; lia).
  rewrite <- H4 at 1. rewrite le_bytes_value. apply take_drop.
Qed.

Lemma take_u32_rest (bs : list byte) :
  length (take_u32 bs).2 = (length bs - 4)%nat.
Proof. unfold take_u32. cbn [snd]. by rewrite length_drop. Qed.

Lemma take_segment_bytes (bs : list byte) :
  (16 <= length bs)%nat ->
  encode_segment (take_segment bs).1 ++ (take_segment bs).2 = bs
  /\ length (take_segment bs).2 = (length bs - 16)%nat.
Proof.
  intros Hl. unfold take_segment.
  destruct (take_u32 bs) as [fo r1] eqn:E1.
  destruct (take_u32 r1) as [mo r2] eqn:E2.
  destruct (take_u32 r2) as [ms r3] eqn:E3.
  destruct (take_u32 r3) as [ba r4] eqn:E4.
  pose proof (take_u32_rest bs) as L1. rewrite E1 in L1. cbn [snd] in L1.
  pose proof (take_u32_rest r1) as L2. rewrite E2 in L2. cbn [snd] in L2.
  pose proof (take_u32_rest r2) as L3. rewrite E3 in L3. cbn [snd] in L3.
  pose proof (take_u32_rest r3) as L4. rewrite E4 in L4. cbn [snd] in L4.
  pose proof (take_u32_bytes bs ltac:(lia)) as B1. rewrite E1 in B1.
  pose proof (take_u32_bytes r1 ltac:(lia)) as B2. rewrite E2 in B2.
  pose proof (take_u32_bytes r2 ltac:(lia)) as B3. rewrite E3 in B3.
  pose proof (take_u32_bytes r3 ltac:(lia)) as B4. rewrite E4 in B4.
  cbn [fst snd] in *. unfold encode_segment.
  cbn [file_offset mem_offset mem_size bss_align].
  split; [|lia].
  rewrite <- !app_assoc. by rewrite B4, B3, B2, B1.
Qed.

Lemma take_extent_bytes (bs : list byte) :
  (8 <= length bs)%nat ->
  encode_extent (take_extent bs).1 ++ (take_extent bs).2 = bs
  /\ length (take_extent bs).2 = (length bs - 8)%nat.
Proof.
  intros Hl. unfold take_extent.
  destruct (take_u32 bs) as [o r1] eqn:E1.
  destruct (take_u32 r1) as [z r2] eqn:E2.
  pose proof (take_u32_rest bs) as L1. rewrite E1 in L1. cbn [snd] in L1.
  pose proof (take_u32_rest r1) as L2. rewrite E2 in L2. cbn [snd] in L2.
  pose proof (take_u32_bytes bs ltac:(lia)) as B1. rewrite E1 in B1.
  pose proof (take_u32_bytes r1 ltac:(lia)) as B2. rewrite E2 in B2.
  cbn [fst snd] in *. unfold encode_extent.
  cbn [DataExtent.offset DataExtent.size].
  split; [|lia].
  rewrite <- !app_assoc. by rewrite B2, B1.
Qed.

(** X7: the header that [Load] copies out of the first 0x100 bytes of an
    NSO and the bytes that [WriteUncompressedNso] copies from a header are
    inverse to each other: writing back a header just read gives the same
    0x100 bytes. *)
Theorem NsoHeader_bytes_roundtrip (bs : list byte) :
  length bs = Z.to_nat sizeof_NsoHeader ->
  encode_NsoHeader (decode_NsoHeader bs) = bs.
Proof.
  change (Z.to_nat sizeof_NsoHeader) with 256%nat. intros Hl.
  unfold decode_NsoHeader, take_bytes.
  set (r0 := drop 4 bs).
  assert (length r0 = 252%nat) as L0 by (unfold r0; rewrite length_drop; lia).
  destruct (take_u32 r0) as [f4 r1] eqn:E1.
  pose proof (take_u32_rest r0) as L1. rewrite E1 in L1. cbn [snd] in L1.
  pose proof (take_u32_bytes r0 ltac:(lia)) as B1. rewrite E1 in B1.
  destruct (take_u32 r1) as [f8 r2] eqn:E2.
  pose proof (take_u32_rest r1) as L2. rewrite E2 in L2. cbn [snd] in L2.
  pose proof (take_u32_bytes r1 ltac:(lia)) as B2. rewrite E2 in B2.
  destruct (take_u32 r2) as [fl r3] eqn:E3.
  pose proof (take_u32_rest r2) as L3. rewrite E3 in L3. cbn [snd] in L3.
  pose proof (take_u32_bytes r2 ltac:(lia)) as B3. rewrite E3 in B3.
  destruct (take_segment r3) as [s0 r4] eqn:E4.
  pose proof (take_segment_bytes r3 ltac:(lia)) as [B4 L4].
  rewrite E4 in B4, L4.
  destruct (take_segment r4) as [s1 r5] eqn:E5.
  pose proof (take_segment_bytes r4 ltac:(cbn [snd] in L4; lia)) as [B5 L5].
  rewrite E5 in B5, L5.
  destruct (take_segment r5) as [s2 r6] eqn:E6.
  pose proof (take_segment_bytes r5 ltac:(cbn [snd] in L4, L5; lia))
    as [B6 L6].
  rewrite E6 in B6, L6. cbn [fst snd] in *.
  set (r7 := drop 32 r6).
  assert (length r7 = (length r6 - 32)%nat) as L7
    by (unfold r7; by rewrite length_drop).
  destruct (take_u32 r7) as [z0 r8] eqn:E8.
  pose proof (take_u32_rest r7) as L8. rewrite E8 in L8.
  pose proof (take_u32_bytes r7 ltac:(lia)) as B8. rewrite E8 in B8.
  destruct (take_u32 r8) as [z1 r9] eqn:E9.
  pose proof (take_u32_rest r8) as L9. rewrite E9 in L9.
  pose proof (take_u32_bytes r8 ltac:(cbn [snd] in L8; lia)) as B9.
  rewrite E9 in B9.
  destruct (take_u32 r9) as [z2 r10] eqn:E10.
  pose proof (take_u32_rest r9) as L10. rewrite E10 in L10.
  pose proof (take_u32_bytes r9 ltac:(cbn [snd] in L8, L9; lia)) as B10.
  rewrite E10 in B10. cbn [fst snd] in *.
  set (r11 := drop 36 r10).
  assert (length r11 = (length r10 - 36)%nat) as L11
    by (unfold r11; by rewrite length_drop).
  destruct (take_extent r11) as [dstr r12] eqn:E12.
  pose proof (take_extent_bytes r11 ltac:(lia)) as [B12 L12].
  rewrite E12 in B12, L12.
  destruct (take_extent r12) as [dsym r13] eqn:E13.
  pose proof (take_extent_bytes r12 ltac:(cbn [snd] in L12; lia))
    as [B13 L13].
  rewrite E13 in B13, L13. cbn [fst snd] in *.
  unfold encode_NsoHeader.
  cbn [magic field_4 field_8 flags segments gnu_build_id segment_file_sizes
       field_6c dynstr dynsym segment_digests at_text at_rodata at_data].
  rewrite (take_ge r13) by lia.
  rewrite B13, B12. fold r11. unfold r11. rewrite take_drop.
  rewrite B10, B9, B8. unfold r7. rewrite take_drop.
  rewrite B6, B5, B4, B3, B2, B1. unfold r0. apply take_drop.
Qed.

Lemma NsoHeader_bytes_roundtrip_witness :
  encode_NsoHeader (decode_NsoHeader (take 256 nso_short_text))
  = take 256 nso_short_text.
Proof. apply NsoHeader_bytes_roundtrip. reflexivity. Defined.

(** ** The file written by WriteUncompressedNso *)

Lemma testbit_0xf8 (n : Z) :
  0 <= n -> Z.testbit 0xf8 n = (3 <=? n) && (n <? 8).
Proof.
  intros Hn. destruct (decide (n < 8)) as [Hlt|Hge].
  - assert (n = 0 \/ n = 1 \/ n = 2 \/ n = 3 \/ n = 4 \/ n = 5 \/ n = 6
            \/ n = 7) as Hc by lia.
    destruct Hc as [->|[->|[->|[->|[->|[->|[->| ->]]]]]]]; reflexivity.
  - rewrite Z.bits_above_log2 by (change (Z.log2 0xf8) with 7; lia).
    rewrite (proj2 (Z.ltb_ge n 8)) by lia. by rewrite andb_false_r.
Qed.

(** X8: for a loaded NSO the file written by [WriteUncompressedNso] is
    0x100 bytes of header followed by the image up to the end of .data.  Of
    the flags the header keeps bits 3 to 7 only (the three compression bits
    and every bit from 8 up are cleared); each segment is declared at file
    offset [mem_offset + 0x100] with file size [mem_size]; the memory
    layout, the build id and the extents are those of the input. *)
Theorem WriteUncompressedNso_layout
    (LZ4 : list byte -> Z -> option (list byte)) (this : NsoFile)
    (file : list byte) (st : NsoFile) (out : list byte) :
  is_nso file = true ->
  Load LZ4 this file = Done st ->
  WriteUncompressedNso st = Done out ->
  let h := header st in
  let h' := decode_NsoHeader (take (Z.to_nat sizeof_NsoHeader) out) in
  buf_size out = sizeof_NsoHeader + data_end h
  /\ read_bytes out sizeof_NsoHeader (data_end h)
     = read_bytes (image st) 0 (data_end h)
  /\ (forall n, 0 <= n ->
        Z.testbit (flags h') n
        = Z.testbit (flags h) n && (3 <=? n) && (n <? 8))
  /\ (forall i,
        file_offset (seg_get (segments h') i)
        = u32 (mem_offset (seg_get (segments h) i) + sizeof_NsoHeader)
        /\ seg_get (segment_file_sizes h') i
           = mem_size (seg_get (segments h) i)
        /\ mem_offset (seg_get (segments h') i)
           = mem_offset (seg_get (segments h) i)
        /\ mem_size (seg_get (segments h') i)
           = mem_size (seg_get (segments h) i))
  /\ bss_align (at_data (segments h')) = bss_align (at_data (segments h))
  /\ magic h' = magic h /\ gnu_build_id h' = gnu_build_id h
  /\ dynstr h' = dynstr h /\ dynsym h' = dynsym h.
Proof.
  intros Hnso Hload Hw.
  destruct (Load_nso_parts _ _ _ _ Hnso Hload)
    as (s0 & a & b & _ & _ & _ & _ & _ & Hh & _).
  cbn zeta in Hh.
  assert (header_fits (header st)) as Hfits.
  { rewrite Hh. apply decode_NsoHeader_fits. rewrite length_take.
    apply is_nso_size in Hnso. unfold buf_size, sizeof_NsoHeader in *. lia. }
  clear Hh Hload Hnso.
  unfold WriteUncompressedNso in Hw. cbn zeta in Hw.
  fold (data_end (uncompressed_header (header st))) in Hw.
  rewrite data_end_uncompressed in Hw.
  apply bind_Done in Hw as (body & Hbody & Hw). apply must_Done in Hbody.
  injection Hw as Hw.
  revert Hfits Hbody Hw. generalize (header st).
  intros h Hfits Hbody Hw. cbn zeta.
  pose proof (uncompressed_header_fits h Hfits) as Hfits1.
  pose proof (length_encode_NsoHeader _ Hfits1) as Hhl.
  pose proof (read_bytes_Some _ _ _ _ Hbody) as (_ & Hd0 & Hd1 & Hbeq & Hbl).
  rewrite <- Hw.
  rewrite take_app_length' by (unfold buf_size in Hhl; lia).
  rewrite (decode_encode_NsoHeader _ Hfits1).
  split; [by rewrite buf_size_app, Hhl, Hbl|].
  split.
  { rewrite Hbody. rewrite read_bytes_in;
      [|unfold sizeof_NsoHeader; lia|lia|rewrite buf_size_app, Hhl, Hbl; lia].
    f_equal. rewrite drop_app_length' by (unfold buf_size in Hhl; lia).
    apply take_ge. unfold buf_size in Hbl. lia. }
  split.
  { intros n Hn. rewrite flags_uncompressed, Z.land_spec, testbit_0xf8 by done.
    by rewrite andb_assoc. }
  split.
  { intros i. pose proof (uncompressed_segment h i) as (? & ? & ? & ?).
    by repeat split. }
  by repeat split.
Qed.

Lemma WriteUncompressedNso_layout_witness :
  exists st out,
    Load lz4_literal_block fresh nso_short_text = Done st
    /\ WriteUncompressedNso st = Done out
    /\ buf_size out = 0x100 + 0x50
    /\ Z.testbit
         (flags (decode_NsoHeader (take (Z.to_nat sizeof_NsoHeader) out))) 0
       = false.
Proof.
  destruct (Load lz4_literal_block fresh nso_short_text) as [st| |] eqn:E;
    [|vm_compute in E; discriminate E..].
  destruct (WriteUncompressedNso st) as [out| |] eqn:W;
    [|vm_compute in E; injection E as <-; vm_compute in W;
      discriminate W..].
  destruct (WriteUncompressedNso_layout lz4_literal_block fresh
              nso_short_text st out eq_refl E W) as (Hsz & _ & Hfl & _).
  exists st, out. split; [reflexivity|]. split; [exact W|].
  split.
  - rewrite Hsz. vm_compute in E. injection E as <-. reflexivity.
  - rewrite Hfl by lia. change (3 <=? 0) with false.
    by rewrite andb_false_r.
Defined.

(** ** The buffer of a StringTable *)

Lemma name_size_pos (s : string) : 1 <= name_size s.
Proof. unfold name_size, StringTable.strlen. lia. Qed.

Lemma length_list_byte_of_string (s : string) :
  length (String.list_byte_of_string s) = String.length s.
Proof.
  unfold String.list_byte_of_string. rewrite length_map.
  induction s as [|c s IH]; [done|]. cbn. by rewrite IH.
Qed.

Lemma buf_size_c_str (s : string) :
  buf_size (StringTable.c_str s) = name_size s.
Proof.
  unfold StringTable.c_str, name_size, StringTable.strlen, buf_size.
  rewrite length_app, length_list_byte_of_string. cbn [length]. lia.
Qed.

Lemma names_size_pos (names : list string) : 1 <= names_size names.
Proof.
  induction names as [|s names IH]; cbn; [lia|].
  pose proof (name_size_pos s). fold (names_size names). lia.
Qed.

Lemma names_size_app (names : list string) (s : string) :
  names_size (names ++ [s]) = names_size names + name_size s.
Proof.
  induction names as [|x names IH]; cbn; [lia|].
  fold (names_size (names ++ [s])) (names_size names). lia.
Qed.

Lemma table_ok_init : table_ok StringTable.init.
Proof.
  unfold StringTable.init, StringTable.AddString, StringTable.empty.
  cbn [StringTable.entries StringTable.watermark].
  rewrite lookup_empty.
  cbn [StringTable.entries StringTable.watermark].
  change (u32 (0 + (u32 (StringTable.strlen "") + 1))) with 1.
  unfold table_ok. cbn [StringTable.entries StringTable.watermark].
  split; [done|]. split.
  - intros s off H. apply lookup_insert_Some in H as [[<- <-]|[_ H]];
      [by change (name_size "") with 1|].
    by rewrite lookup_empty in H.
  - intros s1 s2 o1 o2 Hne H1 H2.
    apply lookup_insert_Some in H1 as [[<- <-]|[_ H1]];
      [|by rewrite lookup_empty in H1].
    apply lookup_insert_Some in H2 as [[<- <-]|[_ H2]];
      [done|by rewrite lookup_empty in H2].
Qed.

Lemma table_ok_AddString (str : string) (tbl : StringTable.t) :
  table_ok tbl ->
  StringTable.watermark tbl + name_size str < 2 ^ 32 ->
  table_ok (StringTable.AddString str tbl)
  /\ StringTable.watermark (StringTable.AddString str tbl)
     <= StringTable.watermark tbl + name_size str
  /\ is_Some (StringTable.entries (StringTable.AddString str tbl) !! str).
Proof.
  intros (Hw & Hin & Hdis) Hfit. pose proof (name_size_pos str) as Hpos.
  unfold StringTable.AddString.
  destruct (StringTable.entries tbl !! str) as [off|] eqn:E.
  - split; [exact (conj Hw (conj Hin Hdis))|]. split; [lia|]. by rewrite E.
  - cbn [StringTable.entries StringTable.watermark].
    assert (u32 (StringTable.watermark tbl
                 + (u32 (StringTable.strlen str) + 1))
            = StringTable.watermark tbl + name_size str) as ->.
    { unfold name_size in *. unfold u32.
      rewrite (Z.mod_small (StringTable.strlen str))
        by (unfold StringTable.strlen in *; lia).
      apply Z.mod_small. lia. }
    split; [|split; [lia|apply lookup_insert_is_Some; by left]].
    unfold table_ok. cbn [StringTable.entries StringTable.watermark].
    split; [lia|]. split.
    + intros s off H. apply lookup_insert_Some in H as [[<- <-]|[_ H]].
      * lia.
      * apply Hin in H. lia.
    + intros s1 s2 o1 o2 Hne H1 H2.
      apply lookup_insert_Some in H1 as [[<- <-]|[Hn1 H1]];
        apply lookup_insert_Some in H2 as [[<- <-]|[Hn2 H2]].
      * done.
      * apply Hin in H2. lia.
      * apply Hin in H1. lia.
      * eauto.
Qed.

Lemma table_ok_build (names : list string) :
  names_size names < 2 ^ 32 ->
  table_ok (StringTable.build names)
  /\ StringTable.watermark (StringTable.build names) <= names_size names
  /\ forall s, s ∈ names ->
       is_Some (StringTable.entries (StringTable.build names) !! s).
Proof.
  induction names as [|s names IH] using rev_ind; intros Hfit.
  - split; [apply table_ok_init|]. split; [done|].
    intros s Hs. by apply elem_of_nil in Hs.
  - rewrite names_size_app in Hfit |- *. rewrite build_snoc.
    pose proof (name_size_pos s) as Hpos.
    destruct (IH ltac:(lia)) as (Hok & Hw & Hall).
    destruct (table_ok_AddString s _ Hok ltac:(lia)) as (Hok' & Hw' & Hs).
    split; [done|]. split; [lia|].
    intros x Hx. apply elem_of_app in Hx as [Hx|Hx].
    + destruct (Hall x Hx) as [off Hoff].
      exists off. by apply AddString_keeps.
    + apply list_elem_of_singleton in Hx. by subst x.
Qed.

(** [GetBuffer] over entries that do not collide: whichever order the map
    is walked in, every entry is in the buffer at its offset. *)
Lemma write_entries (entries : list (string * Z)) (w : Z) :
  (forall s off, (s, off) ∈ entries -> 0 <= off /\ off + name_size s <= w) ->
  (forall i j s1 s2 o1 o2, i <> j ->
     entries !! i = Some (s1, o1) -> entries !! j = Some (s2, o2) ->
     o1 + name_size s1 <= o2 \/ o2 + name_size s2 <= o1) ->
  0 <= w ->
  exists buf,
    foldr (fun (entry : string * Z) (acc : option (list byte)) =>
             buf ← acc; write_bytes buf entry.2 (StringTable.c_str entry.1))
          (Some (zeros w)) entries = Some buf
    /\ buf_size buf = w
    /\ forall s off, (s, off) ∈ entries ->
         read_bytes buf off (name_size s) = Some (StringTable.c_str s).
Proof.
  intros Hin Hdis Hw.
  induction entries as [|[s off] entries IH].
  - exists (zeros w). split; [done|]. split; [rewrite buf_size_zeros; lia|].
    intros s off H. by apply elem_of_nil in H.
  - destruct IH as (buf & Hbuf & Hsz & Hread).
    + intros s' off' H. apply Hin. by right.
    + intros i j s1 s2 o1 o2 Hne H1 H2.
      apply (Hdis (S i) (S j) s1 s2 o1 o2); [lia|done..].
    + cbn [foldr]. rewrite Hbuf. cbn [mbind option_bind fst snd].
      destruct (Hin s off ltac:(left)) as [Ho Hend].
      pose proof (write_bytes_in buf off (StringTable.c_str s) Ho
                    ltac:(rewrite buf_size_c_str, Hsz; lia)) as Hwr.
      eexists. split; [exact Hwr|].
      split; [by apply write_bytes_Some in Hwr as (_ & _ & _ & ->)|].
      intros s' off' H. apply elem_of_cons in H as [[= -> ->]|H].
      * rewrite <- buf_size_c_str. by apply read_write_same in Hwr.
      * rewrite (read_write_disjoint _ _ _ _ off' (name_size s') Hwr).
        { by apply Hread. }
        apply list_elem_of_lookup in H as [j Hj].
        rewrite buf_size_c_str.
        destruct (Hdis 0%nat (S j) s s' off off' ltac:(lia) eq_refl Hj);
          lia.
Qed.

(** X9: after the constructor and any calls of [AddString] whose names fit
    below 4 GiB in all, [Finalize] builds a buffer that holds every name
    added, NUL included, at the offset [GetOffset] answers for it; the
    order in which the map is walked does not matter. *)
Theorem Finalize_holds_names (names : list string) :
  names_size names < 2 ^ 32 ->
  exists tbl,
    StringTable.Finalize (StringTable.build names) = Some tbl
    /\ StringTable.entries tbl
       = StringTable.entries (StringTable.build names)
    /\ buf_size (StringTable.buffer tbl)
       = StringTable.watermark (StringTable.build names)
    /\ forall s, s ∈ names ->
         read_bytes (StringTable.buffer tbl) (StringTable.GetOffset s tbl)
                    (name_size s) = Some (StringTable.c_str s).
Proof.
  intros Hfit. destruct (table_ok_build names Hfit) as (Hok & Hw & Hall).
  destruct Hok as (Hw0 & Hin & Hdis).
  destruct (write_entries
              (map_to_list (StringTable.entries (StringTable.build names)))
              (StringTable.watermark (StringTable.build names)))
    as (buf & Hbuf & Hsz & Hread).
  - intros s off H. apply elem_of_map_to_list in H. by apply Hin.
  - intros i j s1 s2 o1 o2 Hne H1 H2.
    assert (s1 <> s2) as Hs.
    { intros ->.
      pose proof (NoDup_fst_map_to_list
                    (StringTable.entries (StringTable.build names))) as Hnd.
      apply Hne. eapply (NoDup_lookup _ i j s2 Hnd);
        rewrite list_lookup_fmap; [by rewrite H1|by rewrite H2]. }
    apply (Hdis s1 s2 o1 o2 Hs); apply elem_of_map_to_list;
      eapply list_elem_of_lookup_2; eauto.
  - done.
  - unfold StringTable.Finalize, StringTable.GetBuffer. rewrite Hbuf.
    cbn [mbind option_bind]. eexists. split; [reflexivity|].
    cbn [StringTable.entries StringTable.buffer]. split; [done|].
    split; [done|].
    intros s Hs. destruct (Hall s Hs) as [off Hoff].
    unfold StringTable.GetOffset. cbn [StringTable.entries]. rewrite Hoff.
    apply Hread. by apply elem_of_map_to_list.
Qed.

Lemma Finalize_holds_names_witness :
  exists tbl,
    StringTable.Finalize (StringTable.build [".shstrtab"; ".text"])
    = Some tbl
    /\ read_bytes (StringTable.buffer tbl) (StringTable.GetOffset ".text" tbl)
                  6 = Some (StringTable.c_str ".text").
Proof.
  destruct (Finalize_holds_names [".shstrtab"; ".text"])
    as (tbl & Hf & _ & _ & Hr).
  - vm_compute. reflexivity.
  - exists tbl. split; [exact Hf|]. apply (Hr ".text").
    apply (bool_decide_unpack _). vm_compute. exact I.
Defined.

(** X10: two different names that were added never share an offset, so the
    [sh_name] of a section tells its name. *)
Theorem GetOffset_injective (names : list string) (s1 s2 : string) :
  names_size names < 2 ^ 32 ->
  s1 ∈ names -> s2 ∈ names -> s1 <> s2 ->
  StringTable.GetOffset s1 (StringTable.build names)
  <> StringTable.GetOffset s2 (StringTable.build names).
Proof.
  intros Hfit H1 H2 Hne.
  destruct (table_ok_build names Hfit) as ((_ & _ & Hdis) & _ & Hall).
  destruct (Hall s1 H1) as [o1 E1]. destruct (Hall s2 H2) as [o2 E2].
  unfold StringTable.GetOffset. rewrite E1, E2.
  pose proof (name_size_pos s1). pose proof (name_size_pos s2).
  destruct (Hdis s1 s2 o1 o2 Hne E1 E2); lia.
Qed.

Lemma GetOffset_injective_witness :
  StringTable.GetOffset ".text"
    (StringTable.build [".shstrtab"; ".text"; ".data"])
  <> StringTable.GetOffset ".data"
       (StringTable.build [".shstrtab"; ".text"; ".data"]).
Proof.
  apply GetOffset_injective.
  - vm_compute. reflexivity.
  - apply (bool_decide_unpack _). vm_compute. exact I.
  - apply (bool_decide_unpack _). vm_compute. exact I.
  - discriminate.
Defined.

(** ** What WriteElf leaves alone *)

(** What [WriteElf] does to the object. *)
Lemma WriteElf_object (MF : list byte -> Z -> option (Z * Z))
    (st st' : NsoFile) (out : ElfOut) :
  WriteElf MF st = Done (st', out) ->
  st' = set_eh_info (eh_info st') st
  /\ match MF (image st) (EhInfo.hdr_addr (eh_info st)) with
     | Some r => eh_info st' = measured_eh st r
     | None => st' = st
     end.
Proof.
  intros H. apply WriteElf_run in H.
  destruct H as [pl acc dyn_size buf1 buf2 buf3 r
                   Hpl Hacc Hdyn Hb1 Hb2 Hr Hb3 Hb4 -> _ _ _ _].
  unfold plan_elf in Hpl.
  apply bind_Done in Hpl as (syms & _ & Hpl).
  apply bind_Done in Hpl as (prof & _ & Hpl).
  apply bind_Done in Hpl as (dyn & _ & Hpl).
  apply bind_Done in Hpl as (inf & _ & Hpl).
  cbn zeta in Hpl.
  apply bind_Done in Hpl as (tbl & _ & Hpl).
  injection Hpl as <-. cbn [plan_st].
  destruct (MF (image st) (EhInfo.hdr_addr (eh_info st))) as [r'|].
  - split; [|reflexivity]. by destruct st.
  - split; [|reflexivity]. by destruct st.
Qed.

(** ** No refusal after Load *)

Lemma bind_not_Refused {A B : Type} (m : outcome A) (f : A -> outcome B) :
  m <> Refused -> (forall a, f a <> Refused) -> m ≫= f <> Refused.
Proof. destruct m; cbn; [auto|done..]. Qed.

Lemma must_not_Refused {A : Type} (o : option A) : must o <> Refused.
Proof. by destruct o. Qed.

Ltac no_refusal :=
  repeat first
    [ apply must_not_Refused
    | apply bind_not_Refused; [|intros ?]
    | progress cbn zeta
    | match goal with
      | |- Done _ <> Refused => discriminate
      | |- Undefined <> Refused => discriminate
      | |- (if ?b then _ else _) <> Refused => destruct b
      | |- match ?x with Some _ => _ | None => _ end <> Refused => destruct x
      | |- (let '(_, _) := ?x in _) <> Refused => destruct x
      end ].

Lemma scan_init_not_Refused (fuel : nat) (img : list byte) (off i : Z) :
  scan_init fuel img off i <> Refused.
Proof.
  revert i. induction fuel as [|fuel IH]; intros i; cbn [scan_init];
    [discriminate|]. no_refusal. apply IH.
Qed.

Lemma scan_fini_not_Refused (n : nat) (img : list byte) (off i : Z) :
  scan_fini n img off i <> Refused.
Proof.
  revert i. induction n as [|n IH]; intros i; cbn [scan_fini];
    [discriminate|]. no_refusal. apply IH.
Qed.

Lemma dyn_size_walk_not_Refused (fuel : nat) (img : list byte) (off acc : Z) :
  dyn_size_walk fuel img off acc <> Refused.
Proof.
  revert off acc. induction fuel as [|fuel IH]; intros off acc;
    cbn [dyn_size_walk]; [discriminate|]. no_refusal. apply IH.
Qed.

Lemma plan_elf_not_Refused (MF : list byte -> Z -> option (Z * Z))
    (st : NsoFile) :
  plan_elf MF st <> Refused.
Proof.
  unfold plan_elf, profile_sections, infer, jump_slot_end, find_got,
    init_ret_offset_of, fini_branch_offset_of.
  no_refusal;
    first [apply scan_init_not_Refused | apply scan_fini_not_Refused].
Qed.

Lemma write_segments_not_Refused (pl : Plan) : write_segments pl <> Refused.
Proof. unfold write_segments, write_load. no_refusal. Qed.

Lemma build_shdrs_not_Refused (pl : Plan) (known : gmap Z Elf64_Shdr)
    (loads : list Elf64_Phdr) (dyn_phdr : Elf64_Phdr) :
  build_shdrs pl known loads dyn_phdr <> Refused.
Proof. unfold build_shdrs, measure. no_refusal. Qed.

(** X12: the two writers have no check of their own.  Whatever object they
    are given, neither [WriteElf] (up to its final [File::Write]) nor
    [WriteUncompressedNso] returns false: an object they cannot handle
    takes them outside the image instead. *)
Theorem writers_never_refuse (MF : list byte -> Z -> option (Z * Z))
    (st : NsoFile) :
  WriteElf MF st <> Refused /\ WriteUncompressedNso st <> Refused.
Proof.
  split.
  - unfold WriteElf.
    apply bind_not_Refused; [apply plan_elf_not_Refused|intros pl].
    apply bind_not_Refused; [apply write_segments_not_Refused|intros acc].
    apply bind_not_Refused; [apply dyn_size_walk_not_Refused|intros n].
    cbn zeta.
    apply bind_not_Refused; [apply must_not_Refused|intros b1].
    apply bind_not_Refused; [apply must_not_Refused|intros b2].
    apply bind_not_Refused; [apply build_shdrs_not_Refused|intros r].
    no_refusal.
  - unfold WriteUncompressedNso. no_refusal.
Qed.

(** ** The headers of the ELF file *)

Lemma ALIGN_UP_16 (x : Z) : ALIGN_UP x 16 = (x + 15) / 16 * 16.
Proof.
  unfold ALIGN_UP. change (16 - 1) with (Z.ones 4).
  change (Z.land (x + Z.ones 4) (Z.lnot (Z.ones 4)))
    with (Z.ldiff (x + Z.ones 4) (Z.ones 4)).
  rewrite Z.ldiff_ones_r by lia.
  rewrite Z.shiftr_div_pow2, Z.shiftl_mul_pow2 by lia. reflexivity.
Qed.

Lemma ALIGN_UP_16_ge (x : Z) : x <= ALIGN_UP x 16.
Proof. rewrite ALIGN_UP_16. Z.div_mod_to_equations. lia. Qed.

Lemma Finalize_buffer_fits (tbl tbl' : StringTable.t) :
  StringTable.Finalize tbl = Some tbl' ->
  buf_size (StringTable.buffer tbl') <= StringTable.size tbl'.
Proof.
  unfold StringTable.Finalize. intros H.
  destruct (StringTable.GetBuffer tbl) as [buf|]; [|done].
  injection H as <-. cbn. apply ALIGN_UP_16_ge.
Qed.

Lemma buf_size_encode_ehdr (e : Elf64_Ehdr) :
  length (e_ident e) = 16%nat -> buf_size (encode_ehdr e) = sizeof_Elf64_Ehdr.
Proof.
  intros H. unfold encode_ehdr, buf_size.
  rewrite !length_app, !length_le_bytes, H. reflexivity.
Qed.

Lemma write_load_size (img : list byte) (h : NsoHeader) (i : SegmentType)
    (acc acc' : LoadAcc) :
  write_load img h i acc = Done acc' ->
  buf_size (acc_buf acc') = buf_size (acc_buf acc).
Proof.
  intros H. apply write_load_Done in H
    as (buf & src & H1 & _ & H2 & _).
  apply write_bytes_Some in H1 as (_ & _ & _ & E1).
  apply write_bytes_Some in H2 as (_ & _ & _ & E2). congruence.
Qed.

(** The file after the PT_LOAD rounds: its size, the ELF header and the
    section name table. *)
Lemma write_segments_head (pl : Plan) (acc : LoadAcc) :
  write_segments pl = Done acc ->
  0 <= plan_num pl ->
  buf_size (StringTable.buffer (plan_tbl pl))
  <= StringTable.size (plan_tbl pl) ->
  buf_size (acc_buf acc) = Z.max 0 (elf_size pl)
  /\ read_bytes (acc_buf acc) 0 sizeof_Elf64_Ehdr
     = Some (encode_ehdr (initial_ehdr pl))
  /\ read_bytes (acc_buf acc) (shstrtab_offset pl)
       (buf_size (StringTable.buffer (plan_tbl pl)))
     = Some (StringTable.buffer (plan_tbl pl)).
Proof.
  unfold write_segments. intros H Hnum Hfit. cbn zeta in H.
  apply bind_Done in H as (bufa & Ha & H). apply must_Done in Ha.
  apply bind_Done in H as (bufb & Hb & H). apply must_Done in Hb.
  apply bind_Done in H as (acc0 & H0 & H).
  apply bind_Done in H as (acc1 & H1 & H2).
  assert (Hoff : e_shoff_value <= shstrtab_offset pl).
  { unfold shstrtab_offset, sizeof_Elf64_Shdr. lia. }
  pose proof (buf_size_nonneg (StringTable.buffer (plan_tbl pl))) as Hbn.
  pose proof (write_load_Done _ _ _ _ _ H0)
    as (? & ? & _ & _ & _ & Hc0 & _).
  pose proof (write_load_Done _ _ _ _ _ H1)
    as (? & src1 & _ & Hr1 & _ & Hc1 & _).
  pose proof (write_load_Done _ _ _ _ _ H2)
    as (? & src2 & _ & Hr2 & _ & Hc2 & _).
  cbn zeta in Hc0, Hc1, Hc2, Hr1, Hr2. cbn [acc_cur] in Hc0.
  assert (0 <= mem_size (seg_get (segments (header (plan_st pl))) kText))
    as Hz0.
  { pose proof (write_load_Done _ _ _ _ _ H0) as (? & s & _ & Hr & _).
    cbn zeta in Hr. by apply read_bytes_Some in Hr as (_ & ? & _). }
  apply read_bytes_Some in Hr1 as (_ & Hz1 & _).
  pose proof (write_load_size _ _ _ _ _ H0) as S0.
  pose proof (write_load_size _ _ _ _ _ H1) as S1.
  pose proof (write_load_size _ _ _ _ _ H2) as S2.
  cbn [acc_buf] in S0.
  pose proof (write_bytes_Some _ _ _ _ Ha) as (_ & _ & _ & Sa).
  pose proof (write_bytes_Some _ _ _ _ Hb) as (_ & _ & _ & Sb).
  rewrite buf_size_zeros in Sa.
  unfold e_shoff_value, e_phoff_value, kNumPhdrs, kNumSegment,
    sizeof_Elf64_Ehdr, sizeof_Elf64_Phdr in *.
  split; [congruence|].
  assert (forall o l, 0 <= o -> 0 <= l ->
            o + l <= 64
            \/ (shstrtab_offset pl <= o
                /\ o + l <= shstrtab_offset pl
                            + StringTable.size (plan_tbl pl)) ->
            read_bytes (acc_buf acc) o l = read_bytes bufb o l) as Hframe.
  { intros o l Ho Hl Hrange.
    rewrite (write_load_frame _ _ _ _ _ _ _ H2);
      [|cbn [seg_index]; unfold e_phoff_value, sizeof_Elf64_Ehdr,
          sizeof_Elf64_Phdr; lia..].
    rewrite (write_load_frame _ _ _ _ _ _ _ H1);
      [|cbn [seg_index]; unfold e_phoff_value, sizeof_Elf64_Ehdr,
          sizeof_Elf64_Phdr; lia..].
    rewrite (write_load_frame _ _ _ _ _ _ _ H0);
      [done|cbn [seg_index acc_cur]; unfold e_phoff_value, sizeof_Elf64_Ehdr,
          sizeof_Elf64_Phdr; lia..]. }
  split.
  - rewrite Hframe by lia.
    rewrite (read_write_disjoint _ _ _ _ _ _ Hb) by lia.
    pose proof (buf_size_encode_ehdr (initial_ehdr pl) eq_refl) as He.
    apply read_write_same in Ha. by rewrite He in Ha.
  - rewrite Hframe by lia. by apply read_write_same in Hb.
Qed.

Lemma read_bytes_app (buf : list byte) (o l1 l2 : Z) (a b : list byte) :
  read_bytes buf o l1 = Some a ->
  read_bytes buf (o + l1) l2 = Some b ->
  read_bytes buf o (l1 + l2) = Some (a ++ b).
Proof.
  intros Ha Hb.
  apply read_bytes_Some in Ha as (Ho & Hl1 & _ & -> & _).
  apply read_bytes_Some in Hb as (_ & Hl2 & Hend & -> & _).
  rewrite read_bytes_in by lia. f_equal.
  rewrite Z2Nat.inj_add by lia.
  rewrite <- (take_drop (Z.to_nat l1) (drop (Z.to_nat o) buf)) at 1.
  rewrite take_app_add'.
  - rewrite drop_drop. do 3 f_equal. lia.
  - rewrite length_take, length_drop. unfold buf_size in *. lia.
Qed.

Lemma encode_set_e_shstrndx (e : Elf64_Ehdr) (v : Z) :
  length (e_ident e) = 16%nat ->
  encode_ehdr (set_e_shstrndx v e)
  = take 62 (encode_ehdr e) ++ le_bytes 2 v.
Proof.
  intros H. unfold encode_ehdr, set_e_shstrndx.
  cbn [e_ident e_type e_machine e_version e_entry e_phoff e_shoff e_flags
       e_ehsize e_phentsize e_phnum e_shentsize e_shnum e_shstrndx].
  rewrite !app_assoc. rewrite take_app_length'.
  - reflexivity.
  - rewrite !length_app, !length_le_bytes, H. reflexivity.
Qed.

Lemma le_bytes_u16 (v : Z) : le_bytes 2 (u16 v) = le_bytes 2 v.
Proof.
  pose proof (le_bytes_value (le_bytes 2 v)) as H.
  rewrite length_le_bytes, le_value_bytes in H. exact H.
Qed.

(** ** The sections every file has *)

Lemma insert_shdr_index (known : gmap Z Elf64_Shdr) (s : Elf64_Shdr)
    (ordered : bool) (sh sh' : list Elf64_Shdr) (idx : Z) :
  (forall k x, known !! k = Some x -> 0 <= k < SHN_LORESERVE) ->
  sh_type s <> SHT_NULL ->
  (1 <= free_slots sh)%nat ->
  insert_shdr known s ordered sh = (idx, sh') ->
  (free_slots sh' + 1 = free_slots sh)%nat
  /\ (forall j x, sh !! j = Some x -> sh_type x <> SHT_NULL ->
                  sh' !! j = Some x)
  /\ (exists i : nat, idx = Z.of_nat i /\ (1 <= i)%nat /\ sh' !! i = Some s).
Proof.
  intros Hk Hs Hfree H.
  destruct (insert_shdr_spec known s ordered sh Hk Hs ltac:(lia))
    as (i & E & Hi & (x & Hx & Hnull) & Hc).
  rewrite E in H. injection H as <- <-.
  split; [done|]. split.
  - intros j y Hy Hty. rewrite list_lookup_insert_ne; [done|].
    intros <-. congruence.
  - exists i. split; [done|]. split; [done|].
    apply list_lookup_insert_eq. by eapply lookup_lt_Some.
Qed.

(** One call of the straight line, keeping the index it returns. *)
Ltac emit_indexed Hk :=
  match goal with
  | |- context [let '(_, _) := insert_if ?b ?known ?s ?o ?t in _] =>
      let idx := fresh "idx" in
      let t' := fresh "sh" in
      let E := fresh "Eins" in
      let H1 := fresh "Hfree" in
      let H2 := fresh "Hkeep" in
      let H3 := fresh "Hput" in
      destruct (insert_if b known s o t) as [idx t'] eqn:E;
      destruct (insert_if_spec b known s o t t' idx Hk
                  ltac:(cbn; discriminate) ltac:(lia) E)
        as (H1 & H2 & H3);
      clear E
  | |- context [let '(_, _) := insert_shdr ?known ?s ?o ?t in _] =>
      let idx := fresh "idx" in
      let t' := fresh "sh" in
      let E := fresh "Eins" in
      let H1 := fresh "Hfree" in
      let H2 := fresh "Hkeep" in
      let i := fresh "i" in
      let Hi := fresh "Hi" in
      let Hp := fresh "Hp" in
      destruct (insert_shdr known s o t) as [idx t'] eqn:E;
      destruct (insert_shdr_index known s o t t' idx Hk
                  ltac:(cbn; discriminate) ltac:(lia) E)
        as (H1 & H2 & (i & -> & Hi & Hp));
      clear E
  end.

(** With room for every call, the sections that are not optional are in
    the final table, .dynsym and .dynamic linked to the index of .dynstr,
    and the index returned is the one of .shstrtab. *)
Lemma emit_sections_fixed (st : NsoFile) (syms : list Elf64_Sym)
    (inf : Inferred) (m : Measured) (p : Present.t) (tbl : StringTable.t)
    (off : Z) (known : gmap Z Elf64_Shdr) (loads : list Elf64_Phdr)
    (dyn_phdr : Elf64_Phdr) (sh : list Elf64_Shdr) :
  keys_ok known ->
  (5 + Nat.b2n (Present.init p) + Nat.b2n (Present.fini p)
   + Nat.b2n (Present.plt p) + Nat.b2n (Present.got p)
   + Nat.b2n (Present.got_plt p) + Nat.b2n (Present.rela_plt p)
   + Nat.b2n (Present.init_array p) + Nat.b2n (Present.fini_array p)
   + Nat.b2n (Present.hash p) + Nat.b2n (Present.gnu_hash p)
   + Nat.b2n (Present.note p) + 2 * Nat.b2n (Present.eh p)
   <= free_slots sh)%nat ->
  let r := emit_sections st syms inf m p tbl off known loads dyn_phdr sh in
  let name s := StringTable.GetOffset s tbl in
  let h := header st in
  exists i_str i_sym i_dyn i_tab : nat,
    (1 <= i_str)%nat /\ (1 <= i_sym)%nat /\ (1 <= i_dyn)%nat
    /\ (1 <= i_tab)%nat
    /\ r.1 = Z.of_nat i_tab
    /\ r.2 !! i_str
       = Some (mkShdr (name ".dynstr") SHT_STRTAB SHF_ALLOC
                 (u32 (mem_offset (at_rodata (segments h))
                       + DataExtent.offset (dynstr h)))
                 (u64 (p_offset (loads !!! 1%nat)
                       + DataExtent.offset (dynstr h)))
                 (DataExtent.size (dynstr h)) 0 0 1 0)
    /\ r.2 !! i_sym
       = Some (mkShdr (name ".dynsym") SHT_DYNSYM SHF_ALLOC
                 (u32 (mem_offset (at_rodata (segments h))
                       + DataExtent.offset (dynsym h)))
                 (u64 (p_offset (loads !!! 1%nat)
                       + DataExtent.offset (dynsym h)))
                 (DataExtent.size (dynsym h)) (Z.of_nat i_str)
                 (u32 (last_local_dynsym_index syms + 1))
                 8 sizeof_Elf64_Sym)
    /\ r.2 !! i_dyn
       = Some (mkShdr (name ".dynamic") SHT_DYNAMIC AW (p_vaddr dyn_phdr)
                 (p_offset dyn_phdr) (p_filesz dyn_phdr) (Z.of_nat i_str) 0
                 (p_align dyn_phdr) sizeof_Elf64_Dyn)
    /\ r.2 !! i_tab
       = Some (mkShdr (name ".shstrtab") SHT_STRTAB 0 0 off
                 (buf_size (StringTable.buffer tbl)) 0 0 1 0)
    /\ (Present.init p = true ->
        exists i : nat,
          (1 <= i)%nat
          /\ r.2 !! i
             = Some (mkShdr (name ".init") SHT_PROGBITS AX
                       (DynInfo.init (dyn_info st))
                       (vaddr_to_foffset loads (DynInfo.init (dyn_info st)))
                       (init_ret_offset inf) 0 0 4 0)).
Proof.
  intros Hk0 Hroom. pose proof (keys_ok_weaken known Hk0) as Hk.
  cbn zeta. unfold emit_sections. cbn zeta.
  do 17 emit_indexed Hk.
  match goal with
  | |- context [insert_shdr ?known ?s ?o ?t] =>
      destruct (insert_shdr known s o t) as [idx' sh'] eqn:E;
      destruct (insert_shdr_index known s o t sh' idx' Hk
                  ltac:(cbn; discriminate) ltac:(lia) E)
        as (Hfree' & Hkeep' & (i_tab & -> & Hi_tab & Hp_tab));
      clear E
  end.
  cbn [fst snd].
  match goal with
  | H1 : _ !! ?i1
         = Some (mkShdr (StringTable.GetOffset ".dynstr" _) _ _ _ _ _ _ _ _ _),
    H2 : _ !! ?i2
         = Some (mkShdr (StringTable.GetOffset ".dynsym" _) _ _ _ _ _ _ _ _ _),
    H3 : _ !! ?i3
         = Some (mkShdr (StringTable.GetOffset ".dynamic" _) _ _ _ _ _ _ _ _ _)
    |- _ =>
      carry H1; carry H2; carry H3;
      exists i1, i2, i3, i_tab;
      repeat (split; [first [lia | reflexivity | exact H1 | exact H2
                            | exact H3 | exact Hp_tab]|])
  end.
  match goal with
  | H : Present.init p = true -> _ |- _ =>
      let k := fresh "k" in
      let Hk1 := fresh "Hk1" in
      let Hq := fresh "Hq" in
      intros Hb; destruct (H Hb) as (k & Hk1 & Hq); carry Hq;
      exists k; split; [lia|exact Hq]
  end.
Qed.

(** ** A name that was never added *)

(** C10: [GetOffset] answers 0 for a name that was never added, and 0 is
    the offset that the constructor has given to the empty string, which is
    in every table; so the answer for a missing name is the answer for the
    empty string.  Where [WriteElf] builds its section headers, from the
    finalized table, the header of a section whose name was not added is
    put into the section table like any other, with [sh_name = 0]: here
    for .dynstr, .dynsym, .dynamic and .shstrtab, the sections every file
    has; the index of .shstrtab is returned all the same. *)
Theorem GetOffset_missing_is_empty (names : list string) (str : string) :
  str ∉ names ->
  StringTable.GetOffset str (StringTable.build names) = 0
  /\ StringTable.entries (StringTable.build names) !! "" = Some 0
  /\ StringTable.GetOffset str (StringTable.build names)
     = StringTable.GetOffset "" (StringTable.build names)
  /\ forall tbl st syms inf m p off known loads dyn_phdr sh,
       StringTable.Finalize (StringTable.build names) = Some tbl ->
       keys_ok known ->
       (5 + Nat.b2n (Present.init p) + Nat.b2n (Present.fini p)
        + Nat.b2n (Present.plt p) + Nat.b2n (Present.got p)
        + Nat.b2n (Present.got_plt p) + Nat.b2n (Present.rela_plt p)
        + Nat.b2n (Present.init_array p) + Nat.b2n (Present.fini_array p)
        + Nat.b2n (Present.hash p) + Nat.b2n (Present.gnu_hash p)
        + Nat.b2n (Present.note p) + 2 * Nat.b2n (Present.eh p)
        <= free_slots sh)%nat ->
       let r :=
         emit_sections st syms inf m p tbl off known loads dyn_phdr sh in
       exists (i_str i_sym i_dyn i_tab : nat) s_str s_sym s_dyn s_tab,
         (1 <= i_str)%nat /\ (1 <= i_sym)%nat /\ (1 <= i_dyn)%nat
         /\ (1 <= i_tab)%nat
         /\ r.2 !! i_str = Some s_str
         /\ sh_type s_str = SHT_STRTAB /\ sh_flags s_str = SHF_ALLOC
         /\ r.2 !! i_sym = Some s_sym /\ sh_type s_sym = SHT_DYNSYM
         /\ r.2 !! i_dyn = Some s_dyn /\ sh_type s_dyn = SHT_DYNAMIC
         /\ r.1 = Z.of_nat i_tab
         /\ r.2 !! i_tab = Some s_tab
         /\ sh_type s_tab = SHT_STRTAB /\ sh_offset s_tab = off
         /\ (str = ".dynstr" -> sh_name s_str = 0)
         /\ (str = ".dynsym" -> sh_name s_sym = 0)
         /\ (str = ".dynamic" -> sh_name s_dyn = 0)
         /\ (str = ".shstrtab" -> sh_name s_tab = 0).
Proof.
  intros Hnot.
  assert (Hempty : StringTable.GetOffset "" (StringTable.build names) = 0).
  { unfold StringTable.GetOffset. by rewrite build_empty_string. }
  assert (Hstr : StringTable.GetOffset str (StringTable.build names) = 0).
  { unfold StringTable.GetOffset.
    destruct (StringTable.entries (StringTable.build names) !! str) eqn:E;
      [|done].
    destruct (build_lookup names str) as [->|Hin]; [by eexists| |done].
    rewrite build_empty_string in E. congruence. }
  split; [done|]. split; [apply build_empty_string|].
  split; [by rewrite Hstr, Hempty|].
  intros tbl st syms inf m p off known loads dyn_phdr sh Hfin Hk Hroom.
  assert (Htbl : StringTable.GetOffset str tbl = 0).
  { unfold StringTable.GetOffset in Hstr |- *.
    by rewrite (Finalize_entries _ _ Hfin). }
  destruct (emit_sections_fixed st syms inf m p tbl off known loads
              dyn_phdr sh Hk Hroom)
    as (i_str & i_sym & i_dyn & i_tab & H1 & H2 & H3 & H4 & Hr & Hs1 & Hs2
        & Hs3 & Hs4 & _).
  cbn zeta. eexists i_str, i_sym, i_dyn, i_tab, _, _, _, _.
  split; [exact H1|]. split; [exact H2|]. split; [exact H3|].
  split; [exact H4|].
  split; [exact Hs1|]. split; [reflexivity|]. split; [reflexivity|].
  split; [exact Hs2|]. split; [reflexivity|].
  split; [exact Hs3|]. split; [reflexivity|].
  split; [exact Hr|].
  split; [exact Hs4|]. split; [reflexivity|]. split; [reflexivity|].
  cbn [sh_name]. repeat split; by intros <-.
Qed.

Lemma GetOffset_missing_is_empty_witness :
  exists tbl (i_sym : nat) s_sym,
    (".dynsym" ∉ [".shstrtab"; ".dynstr"])
    /\ StringTable.Finalize (StringTable.build [".shstrtab"; ".dynstr"])
       = Some tbl
    /\ StringTable.GetOffset ".dynsym"
         (StringTable.build [".shstrtab"; ".dynstr"]) = 0
    /\ StringTable.entries (StringTable.build [".shstrtab"; ".dynstr"]) !! ""
       = Some 0
    /\ (emit_sections fresh [] (mkInferred 0 0 0 0) (mkMeasured 0 0 0 0 0)
          (Present.mk false false false false false false false false
                      false false false false)
          tbl 0x400 ∅ [] (mkPhdr 0 0 0 0 0 0 0 0)
          (replicate 6 zero_shdr)).2 !! i_sym = Some s_sym
    /\ sh_type s_sym = SHT_DYNSYM
    /\ sh_name s_sym = 0.
Proof.
  assert (H : ".dynsym" ∉ [".shstrtab"; ".dynstr"])
    by (apply (bool_decide_unpack _); vm_compute; exact I).
  destruct (GetOffset_missing_is_empty [".shstrtab"; ".dynstr"] ".dynsym" H)
    as (H1 & H2 & _ & H4).
  destruct (StringTable.Finalize (StringTable.build [".shstrtab"; ".dynstr"]))
    as [tbl|] eqn:F; [|vm_compute in F; discriminate F].
  destruct (H4 tbl fresh [] (mkInferred 0 0 0 0) (mkMeasured 0 0 0 0 0)
              (Present.mk false false false false false false false false
                          false false false false)
              0x400 ∅ [] (mkPhdr 0 0 0 0 0 0 0 0) (replicate 6 zero_shdr)
              eq_refl)
    as (i_str & i_sym & i_dyn & i_tab & s_str & s_sym & s_dyn & s_tab
        & _ & _ & _ & _ & _ & _ & _ & Hs & Ht & _ & _ & _ & _ & _ & _ & _
        & Hn & _).
  - intros k x Hx. by rewrite lookup_empty in Hx.
  - vm_compute. lia.
  - exists tbl, i_sym, s_sym. split; [exact H|]. split; [reflexivity|].
    split; [exact H1|]. split; [exact H2|]. split; [exact Hs|].
    split; [exact Ht|]. exact (Hn eq_refl).
Defined.

Lemma final_num_shdrs_u16 (prof : Profile) (p : Present.t) :
  final_num_shdrs prof p < 2 ^ 16.
Proof.
  unfold final_num_shdrs. cbn zeta.
  destruct (0 <? shdrs_needed prof p); unfold u16;
    apply Z.mod_pos_bound; lia.
Qed.

(** The table [build_shdrs] hands to the straight line has room for every
    call of it. *)
Lemma build_shdrs_emit (MF : list byte -> Z -> option (Z * Z))
    (st : NsoFile) (pl : Plan) (acc : LoadAcc) (dyn_phdr : Elf64_Phdr)
    (r : Z * list Elf64_Shdr) :
  plan_elf MF st = Done pl ->
  write_segments pl = Done acc ->
  build_shdrs pl (acc_known acc) (acc_loads acc) dyn_phdr = Done r ->
  exists sh0 m,
    r = emit_sections (plan_st pl) (plan_syms pl) (plan_inf pl) m
          (plan_present pl) (plan_tbl pl) (shstrtab_offset pl)
          (acc_known acc) (acc_loads acc) dyn_phdr sh0
    /\ keys_ok (acc_known acc)
    /\ (let p := plan_present pl in
        5 + Nat.b2n (Present.init p) + Nat.b2n (Present.fini p)
        + Nat.b2n (Present.plt p) + Nat.b2n (Present.got p)
        + Nat.b2n (Present.got_plt p) + Nat.b2n (Present.rela_plt p)
        + Nat.b2n (Present.init_array p) + Nat.b2n (Present.fini_array p)
        + Nat.b2n (Present.hash p) + Nat.b2n (Present.gnu_hash p)
        + Nat.b2n (Present.note p) + 2 * Nat.b2n (Present.eh p)
        <= free_slots sh0)%nat.
Proof.
  intros Hpl Hacc Hr.
  pose proof (plan_elf_Done _ _ _ Hpl)
    as (_ & _ & _ & _ & _ & _ & _ & Hprof & _ & _ & _ & Hnum).
  pose proof (profile_sections_keys _ _ Hprof) as Hkeys.
  pose proof (write_segments_known _ _ Hacc Hkeys) as [Hk Hsize].
  pose proof (final_num_shdrs_room _ (plan_present pl) Hkeys) as Hroom.
  rewrite <- Hnum in Hroom.
  unfold build_shdrs in Hr.
  apply bind_Done in Hr as (sh0 & Hplace & Hr). apply must_Done in Hplace.
  apply bind_Done in Hr as (m & Hm & Hr). injection Hr as Hr.
  pose proof (place_known_free _ _ _
                ltac:(intros k x Hx; specialize (Hk k x Hx); lia) Hplace)
    as Hfree.
  rewrite free_slots_replicate, Hsize in Hfree.
  unfold Present.count in Hroom. rewrite !b2z_b2n in Hroom.
  exists sh0, m. split; [done|]. split; [done|]. cbn zeta. lia.
Qed.

Lemma read_bytes_prefix (buf : list byte) (o l l' : Z) (a : list byte) :
  read_bytes buf o l = Some a -> 0 <= l' <= l ->
  read_bytes buf o l' = Some (take (Z.to_nat l') a).
Proof.
  intros H Hl. apply read_bytes_Some in H as (Ho & _ & Hend & -> & _).
  rewrite read_bytes_in by lia. f_equal.
  rewrite take_take. f_equal. lia.
Qed.

(** X13: the typed views of the headers are what the file holds: the ELF
    header, with [e_shstrndx] patched in, is the first 64 bytes; the five
    program headers follow it; the section header table of [e_shnum]
    entries is at [e_shoff], right behind them. *)
Theorem WriteElf_headers_in_file (MF : list byte -> Z -> option (Z * Z))
    (st st' : NsoFile) (out : ElfOut) :
  WriteElf MF st = Done (st', out) ->
  read_bytes (elf out) 0 sizeof_Elf64_Ehdr = Some (encode_ehdr (ehdr out))
  /\ e_entry (ehdr out) = mem_offset (at_text (segments (header st)))
  /\ e_phoff (ehdr out) = sizeof_Elf64_Ehdr
  /\ e_phnum (ehdr out) = 5
  /\ length (phdrs out) = 5%nat
  /\ (forall (k : nat) ph,
        phdrs out !! k = Some ph ->
        read_bytes (elf out)
                   (e_phoff (ehdr out) + sizeof_Elf64_Phdr * Z.of_nat k)
                   sizeof_Elf64_Phdr = Some (encode_phdr ph))
  /\ e_shoff (ehdr out) = sizeof_Elf64_Ehdr + sizeof_Elf64_Phdr * 5
  /\ e_shnum (ehdr out) = Z.of_nat (length (shdrs out))
  /\ read_bytes (elf out) (e_shoff (ehdr out))
                (sizeof_Elf64_Shdr * e_shnum (ehdr out))
     = Some (concat (encode_shdr <$> shdrs out)).
Proof.
  intros H. apply WriteElf_run in H.
  destruct H as [pl acc dyn_size buf1 buf2 buf3 r
                   Hpl Hacc Hdyn Hb1 Hb2 Hr Hb3 Hb4 -> Hehdr Hphdrs Hshdrs Htbl].
  pose proof (plan_bounds _ _ _ Hpl) as [Hnum Hsz].
  pose proof (plan_elf_Done _ _ _ Hpl)
    as (_ & Hhdr & _ & _ & _ & _ & _ & _ & _ & _ & Hfin & _).
  pose proof (Finalize_buffer_fits _ _ Hfin) as Hfit.
  pose proof (write_segments_head _ _ Hacc Hnum Hfit) as (_ & Hhead & _).
  pose proof (write_segments_Done _ _ Hacc Hnum Hsz) as W. cbn zeta in W.
  destruct W as (src0 & src1 & src2 & Hloads & _ & _ & _ & _ & _ & _ & Hph).
  pose proof (build_shdrs_length _ _ _ _ _ Hr) as Hlen.
  pose proof (WriteElf_tail_frame MF st (plan_st pl) out pl acc dyn_size
                buf1 buf2 buf3 r) as Hframe.
  rewrite Hehdr, Hshdrs, Hphdrs.
  cbn [e_entry e_phoff e_phnum e_shoff e_shnum set_e_shstrndx initial_ehdr].
  assert (read_bytes (elf out) 0 sizeof_Elf64_Ehdr
          = Some (encode_ehdr (set_e_shstrndx (u16 r.1) (initial_ehdr pl))))
    as Hfirst.
  { rewrite encode_set_e_shstrndx by reflexivity. rewrite le_bytes_u16.
    change sizeof_Elf64_Ehdr with (62 + 2).
    apply read_bytes_app.
    - rewrite (Hframe 0 62 Hpl Hb1 Hb2 Hr Hb3 Hb4);
        [|lia|unfold e_phoff_value, sizeof_Elf64_Ehdr, sizeof_Elf64_Phdr; lia].
      apply (read_bytes_prefix _ _ _ 62) in Hhead;
        [exact Hhead|unfold sizeof_Elf64_Ehdr; lia].
    - apply read_write_same in Hb4. by rewrite buf_size_le_bytes in Hb4. }
  split; [exact Hfirst|]. split; [by rewrite Hhdr|]. split; [done|].
  split; [done|].
  split; [rewrite length_app, Hloads; reflexivity|].
  split.
  { intros k ph Hk.
    assert (k < 5)%nat as Hk5.
    { apply lookup_lt_Some in Hk. rewrite length_app, Hloads in Hk.
      cbn in Hk. lia. }
    unfold e_phoff_value.
    destruct (decide (k < 3)%nat) as [Hlt|Hge].
    - rewrite lookup_app_l in Hk by (rewrite Hloads; cbn; lia).
      rewrite (Hframe _ _ Hpl Hb1 Hb2 Hr Hb3 Hb4);
        [|unfold sizeof_Elf64_Ehdr, sizeof_Elf64_Phdr; lia
         |unfold e_phoff_value, sizeof_Elf64_Ehdr, sizeof_Elf64_Phdr; lia].
      assert (exists i : SegmentType, Z.of_nat k = seg_index i) as [i Hi].
      { destruct k as [|[|[|k]]]; [by exists kText|by exists kRodata
                                   |by exists kData|lia]. }
      rewrite Hi. fold e_phoff_value. rewrite Hph.
      rewrite <- Hi, Nat2Z.id, Hk. reflexivity.
    - rewrite lookup_app_r in Hk by (rewrite Hloads; cbn; lia).
      pose proof (buf_size_encode_phdr
                    (dynamic_phdr pl (acc_loads acc) dyn_size)) as Ed.
      pose proof (buf_size_encode_phdr (eh_frame_phdr pl (acc_loads acc)))
        as Ee.
      assert (length (acc_loads acc) = 3%nat) as Hl3 by by rewrite Hloads.
      rewrite Hl3 in Hk.
      unfold e_shoff_value, e_phoff_value, kNumPhdrs, kNumSegment,
        sizeof_Elf64_Ehdr, sizeof_Elf64_Phdr, sizeof_Elf64_Shdr in *.
      rewrite (read_write_disjoint _ _ _ _ _ _ Hb4)
        by (rewrite buf_size_le_bytes; lia).
      rewrite (read_write_disjoint _ _ _ _ _ _ Hb3) by lia.
      assert (k = 3 \/ k = 4)%nat as [-> | ->] by lia.
      + cbn in Hk. injection Hk as <-. change (Z.of_nat 3) with 3.
        rewrite (read_write_disjoint _ _ _ _ _ _ Hb2) by lia.
        apply read_write_same in Hb1. by rewrite Ed in Hb1.
      + cbn in Hk. injection Hk as <-. change (Z.of_nat 4) with 4.
        apply read_write_same in Hb2. by rewrite Ee in Hb2. }
  split; [reflexivity|].
  split; [rewrite Hlen; lia|].
  unfold e_shoff_value, e_phoff_value, kNumPhdrs, kNumSegment,
    sizeof_Elf64_Ehdr, sizeof_Elf64_Phdr, sizeof_Elf64_Shdr in *.
  rewrite (read_write_disjoint _ _ _ _ _ _ Hb4)
    by (rewrite buf_size_le_bytes; lia).
  apply read_write_same in Hb3.
  rewrite buf_size_encode_shdrs, Hlen in Hb3.
  unfold sizeof_Elf64_Shdr in Hb3.
  by rewrite Z2Nat.id in Hb3 by lia.
Qed.

Lemma WriteElf_headers_in_file_witness :
  exists st st' out,
    Load lz4_literal_block fresh nso_plain = Done st
    /\ WriteElf no_eh_frame st = Done (st', out)
    /\ read_bytes (elf out) 0 sizeof_Elf64_Ehdr
       = Some (encode_ehdr (ehdr out)).
Proof.
  destruct (Load lz4_literal_block fresh nso_plain) as [st| |] eqn:E;
    [|vm_compute in E; discriminate E..].
  destruct (WriteElf no_eh_frame st) as [[st' out]| |] eqn:W;
    [|vm_compute in E; injection E as <-; vm_compute in W;
      discriminate W..].
  pose proof (proj1 (WriteElf_headers_in_file no_eh_frame st st' out W))
    as H.
  exists st, st', out. split; [reflexivity|]. split; [exact W|exact H].
Defined.

(** What the straight line gives for a whole run of [WriteElf]. *)
Lemma WriteElf_fixed_sections (MF : list byte -> Z -> option (Z * Z))
    (st : NsoFile) (pl : Plan) (acc : LoadAcc) (dyn_phdr : Elf64_Phdr)
    (r : Z * list Elf64_Shdr) :
  plan_elf MF st = Done pl ->
  write_segments pl = Done acc ->
  build_shdrs pl (acc_known acc) (acc_loads acc) dyn_phdr = Done r ->
  let name s := StringTable.GetOffset s (plan_tbl pl) in
  let h := header (plan_st pl) in
  exists i_str i_sym i_dyn i_tab : nat,
    (1 <= i_str)%nat /\ (1 <= i_sym)%nat /\ (1 <= i_dyn)%nat
    /\ (1 <= i_tab)%nat
    /\ r.1 = Z.of_nat i_tab
    /\ r.2 !! i_str
       = Some (mkShdr (name ".dynstr") SHT_STRTAB SHF_ALLOC
                 (u32 (mem_offset (at_rodata (segments h))
                       + DataExtent.offset (dynstr h)))
                 (u64 (p_offset (acc_loads acc !!! 1%nat)
                       + DataExtent.offset (dynstr h)))
                 (DataExtent.size (dynstr h)) 0 0 1 0)
    /\ r.2 !! i_sym
       = Some (mkShdr (name ".dynsym") SHT_DYNSYM SHF_ALLOC
                 (u32 (mem_offset (at_rodata (segments h))
                       + DataExtent.offset (dynsym h)))
                 (u64 (p_offset (acc_loads acc !!! 1%nat)
                       + DataExtent.offset (dynsym h)))
                 (DataExtent.size (dynsym h)) (Z.of_nat i_str)
                 (u32 (last_local_dynsym_index (plan_syms pl) + 1))
                 8 sizeof_Elf64_Sym)
    /\ r.2 !! i_dyn
       = Some (mkShdr (name ".dynamic") SHT_DYNAMIC AW (p_vaddr dyn_phdr)
                 (p_offset dyn_phdr) (p_filesz dyn_phdr) (Z.of_nat i_str) 0
                 (p_align dyn_phdr) sizeof_Elf64_Dyn)
    /\ r.2 !! i_tab
       = Some (mkShdr (name ".shstrtab") SHT_STRTAB 0 0 (shstrtab_offset pl)
                 (buf_size (StringTable.buffer (plan_tbl pl))) 0 0 1 0)
    /\ (Present.init (plan_present pl) = true ->
        exists i : nat,
          (1 <= i)%nat
          /\ r.2 !! i
             = Some (mkShdr (name ".init") SHT_PROGBITS AX
                       (DynInfo.init (dyn_info (plan_st pl)))
                       (vaddr_to_foffset (acc_loads acc)
                          (DynInfo.init (dyn_info (plan_st pl))))
                       (init_ret_offset (plan_inf pl)) 0 0 4 0)).
Proof.
  intros Hpl Hacc Hr.
  destruct (build_shdrs_emit _ _ _ _ _ _ Hpl Hacc Hr)
    as (sh0 & m & -> & Hk & Hroom).
  apply (emit_sections_fixed (plan_st pl) (plan_syms pl) (plan_inf pl) m
           (plan_present pl) (plan_tbl pl) (shstrtab_offset pl)
           (acc_known acc) (acc_loads acc) dyn_phdr sh0 Hk Hroom).
Qed.

(** X14: [e_shstrndx] is the index of a section of type SHT_STRTAB named
    .shstrtab: the name is in the section name table and [sh_name] is the
    offset recorded for it.  The bytes the file holds at its [sh_offset]
    are the buffer of that table. *)
Theorem WriteElf_string_table (MF : list byte -> Z -> option (Z * Z))
    (st st' : NsoFile) (out : ElfOut) :
  WriteElf MF st = Done (st', out) ->
  exists s,
    1 <= e_shstrndx (ehdr out)
    /\ shdrs out !! Z.to_nat (e_shstrndx (ehdr out)) = Some s
    /\ sh_type s = SHT_STRTAB
    /\ named out s ".shstrtab"
    /\ sh_size s = buf_size (StringTable.buffer (out_shstrtab out))
    /\ read_bytes (elf out) (sh_offset s) (sh_size s)
       = Some (StringTable.buffer (out_shstrtab out)).
Proof.
  intros H. apply WriteElf_run in H.
  destruct H as [pl acc dyn_size buf1 buf2 buf3 r
                   Hpl Hacc Hdyn Hb1 Hb2 Hr Hb3 Hb4 -> Hehdr Hphdrs Hshdrs Htbl].
  pose proof (plan_bounds _ _ _ Hpl) as [Hnum Hsz].
  pose proof (plan_elf_Done _ _ _ Hpl)
    as (_ & _ & _ & _ & _ & _ & _ & _ & _ & _ & Hfin & Hn).
  pose proof (Finalize_buffer_fits _ _ Hfin) as Hfit.
  pose proof (plan_named _ _ _ Hpl) as (Hname & _).
  pose proof (write_segments_head _ _ Hacc Hnum Hfit) as (_ & _ & Hstr).
  pose proof (build_shdrs_length _ _ _ _ _ Hr) as Hlen.
  destruct (WriteElf_fixed_sections _ _ _ _ _ _ Hpl Hacc Hr)
    as (i_str & i_sym & i_dyn & i_tab & _ & _ & _ & Hi & Hr1 & _ & _ & _
        & Htab & _).
  pose proof (final_num_shdrs_u16 (plan_prof pl) (plan_present pl)) as Hu.
  rewrite <- Hn in Hu.
  assert (Z.of_nat i_tab < 2 ^ 16) as Hsmall.
  { apply lookup_lt_Some in Htab. lia. }
  unfold named. rewrite Hehdr, Hshdrs, Htbl. cbn [e_shstrndx set_e_shstrndx].
  rewrite Hr1. unfold u16. rewrite Z.mod_small by lia. rewrite Nat2Z.id.
  eexists. split; [lia|]. split; [exact Htab|].
  cbn [sh_type sh_name sh_size sh_offset].
  split; [done|]. split; [by apply GetOffset_entry|]. split; [done|].
  pose proof (buf_size_nonneg (StringTable.buffer (plan_tbl pl))) as Hbn.
  rewrite (WriteElf_tail_frame MF st (plan_st pl) out pl acc dyn_size
             buf1 buf2 buf3 r _ _ Hpl Hb1 Hb2 Hr Hb3 Hb4); [exact Hstr| |].
  - right. unfold shstrtab_offset, e_shoff_value, e_phoff_value, kNumPhdrs,
      kNumSegment, sizeof_Elf64_Ehdr, sizeof_Elf64_Phdr, sizeof_Elf64_Shdr.
    lia.
  - right. lia.
Qed.

Lemma WriteElf_string_table_witness :
  exists st st' out s,
    Load lz4_literal_block fresh nso_plain = Done st
    /\ WriteElf no_eh_frame st = Done (st', out)
    /\ shdrs out !! Z.to_nat (e_shstrndx (ehdr out)) = Some s
    /\ named out s ".shstrtab"
    /\ read_bytes (elf out) (sh_offset s) (sh_size s)
       = Some (StringTable.buffer (out_shstrtab out)).
Proof.
  destruct (Load lz4_literal_block fresh nso_plain) as [st| |] eqn:E;
    [|vm_compute in E; discriminate E..].
  destruct (WriteElf no_eh_frame st) as [[st' out]| |] eqn:W;
    [|vm_compute in E; injection E as <-; vm_compute in W;
      discriminate W..].
  destruct (WriteElf_string_table no_eh_frame st st' out W)
    as (s & _ & H1 & _ & Hn & _ & H2).
  exists st, st', out, s. split; [reflexivity|]. split; [exact W|].
  split; [exact H1|]. split; [exact Hn|exact H2].
Defined.

(** X15: every file has a .dynstr, a .dynsym and a .dynamic section, each
    with its name in the section name table and [sh_name] the offset
    recorded for it; the two that hold names, .dynsym and .dynamic, carry
    in [sh_link] the index at which .dynstr was placed; .dynsym spans
    [dynsym.size] bytes in entries of 24. *)
Theorem WriteElf_symbol_sections (MF : list byte -> Z -> option (Z * Z))
    (st st' : NsoFile) (out : ElfOut) :
  WriteElf MF st = Done (st', out) ->
  exists (i_str i_sym i_dyn : nat) s_str s_sym s_dyn,
    (1 <= i_str)%nat
    /\ shdrs out !! i_str = Some s_str
    /\ shdrs out !! i_sym = Some s_sym
    /\ shdrs out !! i_dyn = Some s_dyn
    /\ named out s_str ".dynstr"
    /\ sh_type s_str = SHT_STRTAB
    /\ sh_size s_str = DataExtent.size (dynstr (header st))
    /\ named out s_sym ".dynsym"
    /\ sh_type s_sym = SHT_DYNSYM
    /\ sh_size s_sym = DataExtent.size (dynsym (header st))
    /\ sh_entsize s_sym = sizeof_Elf64_Sym
    /\ sh_link s_sym = Z.of_nat i_str
    /\ named out s_dyn ".dynamic"
    /\ sh_type s_dyn = SHT_DYNAMIC
    /\ sh_link s_dyn = Z.of_nat i_str
    /\ (exists ph, phdrs out !! 3%nat = Some ph
                   /\ sh_addr s_dyn = p_vaddr ph
                   /\ sh_offset s_dyn = p_offset ph
                   /\ sh_size s_dyn = p_filesz ph).
Proof.
  intros H. apply WriteElf_run in H.
  destruct H as [pl acc dyn_size buf1 buf2 buf3 r
                   Hpl Hacc Hdyn Hb1 Hb2 Hr Hb3 Hb4 -> Hehdr Hphdrs Hshdrs Htbl].
  pose proof (plan_bounds _ _ _ Hpl) as [Hnum Hsz].
  pose proof (plan_elf_Done _ _ _ Hpl) as (_ & Hhdr & _).
  pose proof (write_segments_Done _ _ Hacc Hnum Hsz) as W. cbn zeta in W.
  destruct W as (src0 & src1 & src2 & Hloads & _).
  destruct (WriteElf_fixed_sections _ _ _ _ _ _ Hpl Hacc Hr)
    as (i_str & i_sym & i_dyn & i_tab & H1 & _ & _ & _ & _ & Hstr & Hsym
        & Hd & _).
  pose proof (plan_named _ _ _ Hpl) as (_ & N1 & N2 & N3 & _).
  unfold named. rewrite Hshdrs, Htbl, Hphdrs, <- Hhdr.
  eexists i_str, i_sym, i_dyn, _, _, _.
  split; [exact H1|]. split; [exact Hstr|]. split; [exact Hsym|].
  split; [exact Hd|].
  cbn [sh_name sh_type sh_size sh_entsize sh_link sh_addr sh_offset].
  repeat (split; [first [reflexivity | by apply GetOffset_entry]|]).
  eexists. split; [|by repeat split].
  rewrite lookup_app_r by (rewrite Hloads; cbn; lia).
  by rewrite Hloads.
Qed.

Lemma WriteElf_symbol_sections_witness :
  exists st st' out (i_str i_sym : nat) s_sym,
    Load lz4_literal_block fresh nso_plain = Done st
    /\ WriteElf no_eh_frame st = Done (st', out)
    /\ shdrs out !! i_sym = Some s_sym
    /\ named out s_sym ".dynsym"
    /\ sh_type s_sym = SHT_DYNSYM
    /\ sh_link s_sym = Z.of_nat i_str.
Proof.
  destruct (Load lz4_literal_block fresh nso_plain) as [st| |] eqn:E;
    [|vm_compute in E; discriminate E..].
  destruct (WriteElf no_eh_frame st) as [[st' out]| |] eqn:W;
    [|vm_compute in E; injection E as <-; vm_compute in W;
      discriminate W..].
  destruct (WriteElf_symbol_sections no_eh_frame st st' out W)
    as (i_str & i_sym & i_dyn & s_str & s_sym & s_dyn & _ & _ & H1 & _ & _
        & _ & _ & Hn & H2 & _ & _ & H3 & _).
  exists st, st', out, i_str, i_sym, s_sym.
  split; [reflexivity|]. split; [exact W|].
  split; [exact H1|]. split; [exact Hn|]. split; [exact H2|exact H3].
Defined.

(** X16: when the dynamic table names an .init and a [ret] follows at word
    [k], none before it, and [(k + 1) * 4] fits the u32 that
    [init_ret_offset] is, the file has a section named .init, its name in
    the section name table, at [dyn_info.init] that ends behind that
    [ret]: its size is [(k + 1) * 4]. *)
Theorem WriteElf_init_section (MF : list byte -> Z -> option (Z * Z))
    (st st' : NsoFile) (out : ElfOut) (k : nat) :
  WriteElf MF st = Done (st', out) ->
  DynInfo.init (dyn_info st) <> 0 ->
  first_ret (image st) (DynInfo.init (dyn_info st)) k ->
  (Z.of_nat k + 1) * 4 < 2 ^ 32 ->
  has_section out ".init" SHT_PROGBITS (DynInfo.init (dyn_info st))
              ((Z.of_nat k + 1) * 4).
Proof.
  intros H Hinit Hret Hsmall. apply WriteElf_run in H.
  destruct H as [pl acc dyn_size buf1 buf2 buf3 r
                   Hpl Hacc Hdyn Hb1 Hb2 Hr Hb3 Hb4 -> Hehdr Hphdrs Hshdrs Htbl].
  pose proof (plan_elf_Done _ _ _ Hpl)
    as (_ & _ & Hdi & _ & _ & _ & _ & _ & Hinf & Hpres & _).
  destruct (WriteElf_fixed_sections _ _ _ _ _ _ Hpl Hacc Hr)
    as (_ & _ & _ & _ & _ & _ & _ & _ & _ & _ & _ & _ & _ & Hsec).
  pose proof (init_ret_offset_of_first_ret st k Hinit Hret) as Hoff.
  assert (init_ret_offset (plan_inf pl) = (Z.of_nat k + 1) * 4) as Hsize.
  { unfold infer in Hinf. apply bind_Done in Hinf as (jse & _ & Hinf).
    apply bind_Done in Hinf as (got & _ & Hinf).
    apply bind_Done in Hinf as (ini & Hini & Hinf).
    apply bind_Done in Hinf as (fin & _ & Hinf).
    injection Hinf as <-. cbn [init_ret_offset].
    rewrite Hoff in Hini. injection Hini as <-.
    unfold u32. apply Z.mod_small. lia. }
  assert (Present.init (plan_present pl) = true) as Hp.
  { rewrite Hpres. cbn [Present.init present_of]. rewrite Hdi, Hsize.
    rewrite (nonzero_true _ Hinit). apply nonzero_true. lia. }
  pose proof (plan_named _ _ _ Hpl)
    as (_ & _ & _ & _ & _ & _ & _ & _ & Hname & _).
  specialize (Hname Hp).
  destruct (Hsec Hp) as (i & Hi & Hs).
  exists i. eexists. unfold section_at, named. rewrite Hshdrs, Htbl.
  split; [split; [exact Hi|exact Hs]|].
  cbn [sh_name sh_type sh_addr sh_size]. rewrite Hdi, Hsize.
  split; [by apply GetOffset_entry|]. by repeat split.
Qed.

Lemma WriteElf_init_section_witness :
  exists st st' out,
    Load lz4_literal_block fresh nso_init_ret = Done st
    /\ WriteElf no_eh_frame st = Done (st', out)
    /\ has_section out ".init" SHT_PROGBITS 0x24 8.
Proof.
  destruct (Load lz4_literal_block fresh nso_init_ret) as [st| |] eqn:E;
    [|vm_compute in E; discriminate E..].
  destruct (WriteElf no_eh_frame st) as [[st' out]| |] eqn:W;
    [|vm_compute in E; injection E as <-; vm_compute in W;
      discriminate W..].
  pose proof (WriteElf_init_section no_eh_frame st st' out 1 W) as H.
  exists st, st', out. split; [reflexivity|]. split; [exact W|].
  vm_compute in E. injection E as <-.
  apply H.
  - vm_compute. discriminate.
  - split.
    + intros j Hj. assert (j = 0%nat) as -> by lia.
      eexists. split; [vm_compute; reflexivity|]. discriminate.
    + vm_compute. reflexivity.
  - vm_compute. reflexivity.
Defined.

(** ** The scan for the end of .fini *)

(** X17: the scan for the end of .fini gives up after 0x20 words.  When the
    dynamic table names a .fini and none of the 0x20 words from it is a
    branch ([b], opcode 0x14 in the top byte), the inferred size is 0 and
    the .fini section is not allocated. *)
Theorem fini_scan_gives_up_after_0x20
    (MF : list byte -> Z -> option (Z * Z)) (st : NsoFile) (pl : Plan) :
  plan_elf MF st = Done pl ->
  DynInfo.fini (dyn_info st) <> 0 ->
  (forall k, 0 <= k < 0x20 ->
     exists w,
       read_u32 (image st) (DynInfo.fini (dyn_info st) + 4 * k) = Some w
       /\ Z.land w 0xff000000 <> 0x14000000) ->
  fini_branch_offset_of st = Done 0
  /\ fini_branch_offset (plan_inf pl) = 0
  /\ Present.fini (plan_present pl) = false.
Proof.
  intros Hpl Hfini Hwords.
  assert (fini_branch_offset_of st = Done 0) as Hoff.
  { unfold fini_branch_offset_of.
    rewrite (proj2 (Z.eqb_neq _ _) Hfini). cbn [negb].
    apply scan_fini_gives_up. intros k Hk. apply Hwords. lia. }
  pose proof (plan_elf_Done _ _ _ Hpl)
    as (_ & _ & Hdi & _ & _ & _ & _ & _ & Hinf & Hpres & _).
  assert (fini_branch_offset (plan_inf pl) = 0) as Hz.
  { unfold infer in Hinf. apply bind_Done in Hinf as (jse & _ & Hinf).
    apply bind_Done in Hinf as (got & _ & Hinf).
    apply bind_Done in Hinf as (ini & _ & Hinf).
    apply bind_Done in Hinf as (fin & Hfin & Hinf).
    injection Hinf as <-. cbn [fini_branch_offset]. congruence. }
  split; [done|]. split; [done|].
  rewrite Hpres. cbn [Present.fini present_of]. rewrite Hz.
  apply andb_false_r.
Qed.

Lemma fini_scan_gives_up_after_0x20_witness :
  exists st pl,
    Load lz4_literal_block fresh nso_fini_no_branch = Done st
    /\ plan_elf no_eh_frame st = Done pl
    /\ DynInfo.fini (dyn_info st) = 0x50
    /\ Present.fini (plan_present pl) = false.
Proof.
  destruct (Load lz4_literal_block fresh nso_fini_no_branch) as [st| |] eqn:E;
    [|vm_compute in E; discriminate E..].
  destruct (plan_elf no_eh_frame st) as [pl| |] eqn:P;
    [|vm_compute in E; injection E as <-; vm_compute in P;
      discriminate P..].
  pose proof (fini_scan_gives_up_after_0x20 no_eh_frame st pl P) as H.
  exists st, pl. split; [reflexivity|]. split; [exact P|].
  vm_compute in E. injection E as <-.
  split; [reflexivity|]. apply H.
  - vm_compute. discriminate.
  - intros k Hk. exists 0. split; [|vm_compute; discriminate].
    assert (k = 0 \/ k = 1 \/ k = 2 \/ k = 3 \/ k = 4 \/ k = 5 \/ k = 6
            \/ k = 7 \/ k = 8 \/ k = 9 \/ k = 10 \/ k = 11 \/ k = 12
            \/ k = 13 \/ k = 14 \/ k = 15 \/ k = 16 \/ k = 17 \/ k = 18
            \/ k = 19 \/ k = 20 \/ k = 21 \/ k = 22 \/ k = 23 \/ k = 24
            \/ k = 25 \/ k = 26 \/ k = 27 \/ k = 28 \/ k = 29 \/ k = 30
            \/ k = 31) as Hc by lia.
    repeat (destruct Hc as [-> | Hc]; [vm_compute; reflexivity|]).
    subst k. vm_compute. reflexivity.
Defined.

(** ** insert_shdr *)

Lemma first_null_from_full (sh : list Elf64_Shdr) (start : Z) :
  1 <= start -> free_slots sh = 0%nat -> first_null_from sh start = None.
Proof.
  unfold first_null_from, free_slots. intros Hs Hfree.
  destruct (list_find _ _) as [[k x]|] eqn:E; [|done]. exfalso.
  apply list_find_Some in E as (Hk & Hx & _). rewrite lookup_drop in Hk.
  assert (x ∈ filter (fun s => sh_type s = SHT_NULL) (drop 1 sh)) as Hin.
  { apply list_elem_of_filter. split; [done|].
    apply list_elem_of_lookup. exists (Z.to_nat start + k - 1)%nat.
    rewrite lookup_drop. rewrite <- Hk. f_equal. lia. }
  destruct (filter _ _); [by apply elem_of_nil in Hin|done].
Qed.

(** X18: [insert_shdr] only ever fills a slot that was still SHT_NULL, never
    slot 0, and leaves every other slot as it was; the index it returns is
    the slot it filled.  When no slot from 1 on is free it returns SHN_UNDEF
    and the table is unchanged. *)
Theorem insert_shdr_uses_free_slot (known : gmap Z Elf64_Shdr)
    (s : Elf64_Shdr) (ordered : bool) (sh sh' : list Elf64_Shdr) (idx : Z) :
  (forall k x, known !! k = Some x -> 0 <= k < SHN_LORESERVE) ->
  insert_shdr known s ordered sh = (idx, sh') ->
  (free_slots sh = 0%nat /\ idx = SHN_UNDEF /\ sh' = sh)
  \/ (exists (i : nat) x,
        idx = Z.of_nat i /\ (1 <= i)%nat
        /\ sh !! i = Some x /\ sh_type x = SHT_NULL
        /\ sh' = <[i:=s]> sh).
Proof.
  intros Hk H. unfold insert_shdr in H.
  set (start := if ordered then ordered_start known s else 1) in H.
  assert (Hstart : 1 <= start).
  { subst start. destruct ordered; [by apply ordered_start_pos|lia]. }
  assert (Hfound : forall start' i,
            1 <= start' -> first_null_from sh start' = Some i ->
            (i, <[Z.to_nat i:=s]> sh) = (idx, sh') ->
            exists (n : nat) x,
              idx = Z.of_nat n /\ (1 <= n)%nat
              /\ sh !! n = Some x /\ sh_type x = SHT_NULL
              /\ sh' = <[n:=s]> sh).
  { intros start' i Hs' Hi [= <- <-].
    apply first_null_from_Some in Hi as (Hle & x & Hx & Hnull); [|lia].
    exists (Z.to_nat i), x. split; [lia|]. split; [lia|]. done. }
  destruct (first_null_from sh start) as [i|] eqn:E.
  { right. by eapply Hfound. }
  destruct (ordered && negb (start =? 1)) eqn:Eb.
  - destruct (first_null_from sh 1) as [i|] eqn:E1.
    + right. by eapply (Hfound 1).
    + left. injection H as <- <-. split; [|done].
      by apply first_null_from_None.
  - left. injection H as <- <-. split; [|done].
    apply first_null_from_None. rewrite <- E. f_equal.
    destruct ordered; cbn in Eb.
    + apply negb_false_iff, Z.eqb_eq in Eb. by rewrite Eb.
    + done.
Qed.

Lemma insert_shdr_uses_free_slot_witness :
  insert_shdr ∅ (mkShdr 1 SHT_STRTAB 0 0 0 0 0 0 1 0) false
              [zero_shdr; mkShdr 7 SHT_PROGBITS 0 0 0 0 0 0 1 0; zero_shdr]
  = (2, [zero_shdr; mkShdr 7 SHT_PROGBITS 0 0 0 0 0 0 1 0;
         mkShdr 1 SHT_STRTAB 0 0 0 0 0 0 1 0]).
Proof.
  destruct (insert_shdr ∅ (mkShdr 1 SHT_STRTAB 0 0 0 0 0 0 1 0) false
              [zero_shdr; mkShdr 7 SHT_PROGBITS 0 0 0 0 0 0 1 0; zero_shdr])
    as [idx sh'] eqn:E.
  destruct (insert_shdr_uses_free_slot ∅ _ _ _ _ _
              ltac:(intros k x Hx; by rewrite lookup_empty in Hx) E)
    as [(Hfull & _)|(i & x & -> & Hi & Hx & Hnull & ->)].
  - vm_compute in Hfull. discriminate Hfull.
  - destruct i as [|[|[|i]]]; [lia| | |by cbn in Hx].
    + cbn in Hx. injection Hx as <-. vm_compute in Hnull. discriminate Hnull.
    + reflexivity.
Defined.

(** ** The layout of the file *)

Lemma WriteElf_size (MF : list byte -> Z -> option (Z * Z))
    (st st' : NsoFile) (out : ElfOut) (pl : Plan) (acc : LoadAcc)
    (dyn_size : Z) (buf1 buf2 buf3 : list byte) (r : Z * list Elf64_Shdr) :
  write_bytes (acc_buf acc) (e_phoff_value + sizeof_Elf64_Phdr * 3)
              (encode_phdr (dynamic_phdr pl (acc_loads acc) dyn_size))
  = Some buf1 ->
  write_bytes buf1 (e_phoff_value + sizeof_Elf64_Phdr * 4)
              (encode_phdr (eh_frame_phdr pl (acc_loads acc)))
  = Some buf2 ->
  write_bytes buf2 e_shoff_value (concat (encode_shdr <$> r.2))
  = Some buf3 ->
  write_bytes buf3 62 (le_bytes 2 r.1) = Some (elf out) ->
  buf_size (elf out) = buf_size (acc_buf acc).
Proof.
  intros H1 H2 H3 H4.
  apply write_bytes_Some in H1 as (_ & _ & _ & E1).
  apply write_bytes_Some in H2 as (_ & _ & _ & E2).
  apply write_bytes_Some in H3 as (_ & _ & _ & E3).
  apply write_bytes_Some in H4 as (_ & _ & _ & E4). congruence.
Qed.

(** X19: the file is the ELF header, the five program headers, the section
    header table, the section name table padded to 16 bytes, and then the
    three segments back to back: .text starts right behind the name table,
    each next segment where the one before ends, and the file ends with
    .data.  The segments are readable and executable, read-only, and
    readable and writable, in this order. *)
Theorem WriteElf_segments_packed (MF : list byte -> Z -> option (Z * Z))
    (st st' : NsoFile) (out : ElfOut) :
  WriteElf MF st = Done (st', out) ->
  exists text rodata data,
    phdrs out !! 0%nat = Some text
    /\ phdrs out !! 1%nat = Some rodata
    /\ phdrs out !! 2%nat = Some data
    /\ p_flags text = Z.lor PF_R PF_X
    /\ p_flags rodata = PF_R
    /\ p_flags data = Z.lor PF_R PF_W
    /\ p_offset text
       = e_shoff (ehdr out) + sizeof_Elf64_Shdr * e_shnum (ehdr out)
         + StringTable.size (out_shstrtab out)
    /\ p_offset rodata = p_offset text + p_filesz text
    /\ p_offset data = p_offset rodata + p_filesz rodata
    /\ buf_size (elf out) = p_offset data + p_filesz data.
Proof.
  intros H. apply WriteElf_run in H.
  destruct H as [pl acc dyn_size buf1 buf2 buf3 r
                   Hpl Hacc Hdyn Hb1 Hb2 Hr Hb3 Hb4 -> Hehdr Hphdrs Hshdrs Htbl].
  pose proof (plan_bounds _ _ _ Hpl) as [Hnum Hsz].
  pose proof (plan_elf_Done _ _ _ Hpl)
    as (_ & _ & _ & _ & _ & _ & _ & _ & _ & _ & Hfin & _).
  pose proof (Finalize_buffer_fits _ _ Hfin) as Hfit.
  pose proof (write_segments_head _ _ Hacc Hnum Hfit) as (Hsize & _ & _).
  pose proof (write_segments_Done _ _ Hacc Hnum Hsz) as W. cbn zeta in W.
  destruct W as (src0 & src1 & src2 & Hloads & R0 & R1 & R2 & _).
  apply read_bytes_Some in R0 as (_ & Z0 & _).
  apply read_bytes_Some in R1 as (_ & Z1 & _).
  apply read_bytes_Some in R2 as (_ & Z2 & _).
  pose proof (WriteElf_size MF st (plan_st pl) out pl acc dyn_size buf1 buf2
                buf3 r Hb1 Hb2 Hb3 Hb4) as Hout.
  rewrite Hphdrs, Hloads, Hehdr, Htbl, Hout, Hsize.
  eexists _, _, _.
  split; [reflexivity|]. split; [reflexivity|]. split; [reflexivity|].
  cbn [p_flags p_offset p_filesz load_phdr segment_p_flags e_shoff e_shnum
       set_e_shstrndx initial_ehdr].
  split; [reflexivity|]. split; [reflexivity|]. split; [reflexivity|].
  split; [reflexivity|]. split; [reflexivity|]. split; [reflexivity|].
  unfold elf_size, shstrtab_offset, e_shoff_value, e_phoff_value, kNumPhdrs,
    kNumSegment, sizeof_Elf64_Ehdr, sizeof_Elf64_Phdr, sizeof_Elf64_Shdr.
  cbn zeta. lia.
Qed.

Lemma WriteElf_segments_packed_witness :
  exists st st' out data,
    Load lz4_literal_block fresh nso_plain = Done st
    /\ WriteElf no_eh_frame st = Done (st', out)
    /\ phdrs out !! 2%nat = Some data
    /\ buf_size (elf out) = p_offset data + p_filesz data.
Proof.
  destruct (Load lz4_literal_block fresh nso_plain) as [st| |] eqn:E;
    [|vm_compute in E; discriminate E..].
  destruct (WriteElf no_eh_frame st) as [[st' out]| |] eqn:W;
    [|vm_compute in E; injection E as <-; vm_compute in W;
      discriminate W..].
  destruct (WriteElf_segments_packed no_eh_frame st st' out W)
    as (text & rodata & data & _ & _ & H2 & _ & _ & _ & _ & _ & _ & H9).
  exists st, st', out, data. split; [reflexivity|]. split; [exact W|].
  split; [exact H2|exact H9].
Defined.

Lemma read_bytes_sub (buf : list byte) (o l d l' : Z) (a : list byte) :
  read_bytes buf o l = Some a ->
  0 <= d -> 0 <= l' -> d + l' <= l ->
  read_bytes buf (o + d) l'
  = Some (take (Z.to_nat l') (drop (Z.to_nat d) a)).
Proof.
  intros H Hd Hl' Hfit.
  apply read_bytes_Some in H as (Ho & Hl & Hend & -> & _).
  rewrite read_bytes_in by lia. f_equal.
  rewrite skipn_firstn_comm, take_take, drop_drop.
  f_equal; [lia|]. f_equal. lia.
Qed.

(** The file offset the lambda [vaddr_to_foffset] gives for an address of
    segment [i] that lies in no segment before it. *)
Lemma vaddr_to_foffset_segment (h : NsoHeader) (c0 c1 c2 v : Z)
    (i : SegmentType) :
  (forall j, 0 <= mem_offset (seg_get (segments h) j)
             /\ 0 <= mem_size (seg_get (segments h) j)
             /\ mem_offset (seg_get (segments h) j)
                + mem_size (seg_get (segments h) j) < 2 ^ 64) ->
  (forall j, seg_index j < seg_index i ->
     ~ (mem_offset (seg_get (segments h) j) <= v
        < mem_offset (seg_get (segments h) j)
          + mem_size (seg_get (segments h) j))) ->
  mem_offset (seg_get (segments h) i) <= v
  < mem_offset (seg_get (segments h) i) + mem_size (seg_get (segments h) i) ->
  vaddr_to_foffset
    [load_phdr kText (at_text (segments h)) c0;
     load_phdr kRodata (at_rodata (segments h)) c1;
     load_phdr kData (at_data (segments h)) c2] v
  = u64 (seg_get (mkSegs c0 c1 c2) i
         + (v - mem_offset (seg_get (segments h) i))).
Proof.
  intros Hfit Hbefore Hin.
  assert (forall j,
            (mem_offset (seg_get (segments h) j) <=? v)
            && (v <? u64 (mem_offset (seg_get (segments h) j)
                          + mem_size (seg_get (segments h) j)))
            = bool_decide
                (mem_offset (seg_get (segments h) j) <= v
                 < mem_offset (seg_get (segments h) j)
                   + mem_size (seg_get (segments h) j))) as Htest.
  { intros j. destruct (Hfit j) as (? & ? & ?).
    unfold u64. rewrite Z.mod_small by lia.
    case_bool_decide as Hd.
    - apply andb_true_iff. split; [apply Z.leb_le|apply Z.ltb_lt]; lia.
    - apply andb_false_iff.
      destruct (decide (mem_offset (seg_get (segments h) j) <= v)).
      + right. apply Z.ltb_ge. lia.
      + left. apply Z.leb_gt. lia. }
  pose proof (Htest kText) as T0. pose proof (Htest kRodata) as T1.
  pose proof (Htest kData) as T2. cbn [seg_get] in T0, T1, T2.
  cbn [vaddr_to_foffset load_phdr p_vaddr p_filesz p_offset].
  rewrite T0, T1, T2.
  destruct i; cbn [seg_get seg_index] in *.
  - by rewrite bool_decide_eq_true_2.
  - rewrite bool_decide_eq_false_2
      by (apply (Hbefore kText); cbn; lia).
    by rewrite bool_decide_eq_true_2.
  - rewrite bool_decide_eq_false_2
      by (apply (Hbefore kText); cbn; lia).
    rewrite bool_decide_eq_false_2
      by (apply (Hbefore kRodata); cbn; lia).
    by rewrite bool_decide_eq_true_2.
Qed.

(** X20: the bytes that PT_DYNAMIC points at in the file are the dynamic
    table of the image, terminator included, whenever the table lies
    inside one segment and its address in no segment before that one. *)
Theorem WriteElf_dynamic_bytes (MF : list byte -> Z -> option (Z * Z))
    (st st' : NsoFile) (out : ElfOut) (dyn : Z) (i : SegmentType)
    (ph : Elf64_Phdr) :
  WriteElf MF st = Done (st', out) ->
  dynamic st = Some dyn ->
  phdrs out !! 3%nat = Some ph ->
  buf_size (image st) < 2 ^ 64 ->
  buf_size (elf out) < 2 ^ 64 ->
  (forall j, seg_index j < seg_index i ->
     ~ (mem_offset (seg_get (segments (header st)) j) <= dyn
        < mem_offset (seg_get (segments (header st)) j)
          + mem_size (seg_get (segments (header st)) j))) ->
  mem_offset (seg_get (segments (header st)) i) <= dyn ->
  dyn + p_filesz ph
  <= mem_offset (seg_get (segments (header st)) i)
     + mem_size (seg_get (segments (header st)) i) ->
  p_vaddr ph = dyn
  /\ exists bytes,
       read_bytes (image st) dyn (p_filesz ph) = Some bytes
       /\ read_bytes (elf out) (p_offset ph) (p_filesz ph) = Some bytes.
Proof.
  intros H Hdyn Hph Himg Helf Hbefore Hlo Hhi. apply WriteElf_run in H.
  destruct H as [pl acc dyn_size buf1 buf2 buf3 r
                   Hpl Hacc Hwalk Hb1 Hb2 Hr Hb3 Hb4 -> Hehdr Hphdrs Hshdrs Htbl].
  pose proof (plan_bounds _ _ _ Hpl) as [Hnum Hsz].
  pose proof (plan_elf_Done _ _ _ Hpl)
    as (Hi & Hh & _ & _ & _ & Hd & _ & _ & _ & _ & Hfin & _).
  rewrite Hdyn in Hd. injection Hd as Hd.
  pose proof (Finalize_buffer_fits _ _ Hfin) as Hfit.
  pose proof (write_segments_head _ _ Hacc Hnum Hfit) as (Hsize & _ & _).
  pose proof (write_segments_Done _ _ Hacc Hnum Hsz) as W. cbn zeta in W.
  destruct W as (src0 & src1 & src2 & Hloads & R0 & R1 & R2 & F0 & F1 & F2
                 & _).
  pose proof (WriteElf_size MF st (plan_st pl) out pl acc dyn_size buf1 buf2
                buf3 r Hb1 Hb2 Hb3 Hb4) as Hout.
  pose proof (dyn_size_walk_Done _ _ _ _ _ Hwalk) as (n & _ & Hds).
  rewrite Hphdrs in Hph.
  rewrite lookup_app_r in Hph by (rewrite Hloads; cbn; lia).
  rewrite Hloads in Hph at 1. cbn in Hph. injection Hph as <-.
  cbn [p_vaddr p_filesz p_offset dynamic_phdr] in *.
  assert (elf_size pl < 2 ^ 64) as Helf' by (rewrite Hout, Hsize in Helf; lia).
  unfold elf_size in Helf'. cbn zeta in Helf'.
  rewrite Hi, Hh in *. clear Hi Hh.
  pose proof (read_bytes_Some _ _ _ _ R0) as (M0 & Z0 & E0 & _).
  pose proof (read_bytes_Some _ _ _ _ R1) as (M1 & Z1 & E1 & _).
  pose proof (read_bytes_Some _ _ _ _ R2) as (M2 & Z2 & E2 & _).
  assert (0 <= dyn < 2 ^ 64) as Hdr.
  { destruct i; cbn [seg_get] in *; unfold sizeof_Elf64_Dyn in *; lia. }
  subst dyn.
  assert (u64 (plan_dyn pl) = plan_dyn pl) as Hu
    by (unfold u64; apply Z.mod_small; lia).
  rewrite Hu. split; [reflexivity|].
  rewrite Hloads.
  rewrite (vaddr_to_foffset_segment (header st) _ _ _ (plan_dyn pl) i).
  - assert (e_shoff_value <= shstrtab_offset pl) as Hoff
      by (unfold shstrtab_offset, sizeof_Elf64_Shdr; lia).
    unfold shstrtab_offset, e_shoff_value, e_phoff_value, kNumPhdrs,
      kNumSegment, sizeof_Elf64_Ehdr, sizeof_Elf64_Phdr, sizeof_Elf64_Shdr,
      sizeof_Elf64_Dyn in *.
    destruct i; cbn [seg_get at_text at_rodata at_data] in *.
    + unfold u64. rewrite Z.mod_small by lia.
      rewrite (WriteElf_tail_frame MF st (plan_st pl) out pl acc dyn_size
                 buf1 buf2 buf3 r _ _ Hpl Hb1 Hb2 Hr Hb3 Hb4);
        [|right; lia|right; unfold shstrtab_offset, e_shoff_value,
            e_phoff_value, kNumPhdrs, kNumSegment, sizeof_Elf64_Ehdr,
            sizeof_Elf64_Phdr, sizeof_Elf64_Shdr; lia].
      eexists. split.
      * replace (plan_dyn pl)
          with (mem_offset (at_text (segments (header st)))
                + (plan_dyn pl - mem_offset (at_text (segments (header st)))))
          at 1 by lia.
        apply (read_bytes_sub _ _ _ _ _ _ R0); lia.
      * apply (read_bytes_sub _ _ _ _ _ _ F0); lia.
    + unfold u64. rewrite Z.mod_small by lia.
      rewrite (WriteElf_tail_frame MF st (plan_st pl) out pl acc dyn_size
                 buf1 buf2 buf3 r _ _ Hpl Hb1 Hb2 Hr Hb3 Hb4);
        [|right; lia|right; unfold shstrtab_offset, e_shoff_value,
            e_phoff_value, kNumPhdrs, kNumSegment, sizeof_Elf64_Ehdr,
            sizeof_Elf64_Phdr, sizeof_Elf64_Shdr; lia].
      eexists. split.
      * replace (plan_dyn pl)
          with (mem_offset (at_rodata (segments (header st)))
                + (plan_dyn pl
                   - mem_offset (at_rodata (segments (header st)))))
          at 1 by lia.
        apply (read_bytes_sub _ _ _ _ _ _ R1); lia.
      * apply (read_bytes_sub _ _ _ _ _ _ F1); lia.
    + unfold u64. rewrite Z.mod_small by lia.
      rewrite (WriteElf_tail_frame MF st (plan_st pl) out pl acc dyn_size
                 buf1 buf2 buf3 r _ _ Hpl Hb1 Hb2 Hr Hb3 Hb4);
        [|right; lia|right; unfold shstrtab_offset, e_shoff_value,
            e_phoff_value, kNumPhdrs, kNumSegment, sizeof_Elf64_Ehdr,
            sizeof_Elf64_Phdr, sizeof_Elf64_Shdr; lia].
      eexists. split.
      * replace (plan_dyn pl)
          with (mem_offset (at_data (segments (header st)))
                + (plan_dyn pl - mem_offset (at_data (segments (header st)))))
          at 1 by lia.
        apply (read_bytes_sub _ _ _ _ _ _ R2); lia.
      * apply (read_bytes_sub _ _ _ _ _ _ F2); lia.
  - intros j. unfold buf_size in *. destruct j; cbn [seg_get]; lia.
  - exact Hbefore.
  - unfold sizeof_Elf64_Dyn in *. lia.
Qed.

Lemma WriteElf_dynamic_bytes_witness :
  exists st st' out ph bytes,
    Load lz4_literal_block fresh nso_dynamic_in_data = Done st
    /\ WriteElf no_eh_frame st = Done (st', out)
    /\ phdrs out !! 3%nat = Some ph
    /\ read_bytes (image st) 0x40 (p_filesz ph) = Some bytes
    /\ read_bytes (elf out) (p_offset ph) (p_filesz ph) = Some bytes.
Proof.
  destruct (Load lz4_literal_block fresh nso_dynamic_in_data)
    as [st| |] eqn:E; [|vm_compute in E; discriminate E..].
  destruct (WriteElf no_eh_frame st) as [[st' out]| |] eqn:W;
    [|vm_compute in E; injection E as <-; vm_compute in W;
      discriminate W..].
  destruct (phdrs out !! 3%nat) as [ph|] eqn:P;
    [|exfalso; vm_compute in E; injection E as <-; vm_compute in W;
      injection W as <- <-; vm_compute in P; discriminate P].
  destruct (WriteElf_dynamic_bytes no_eh_frame st st' out 0x40 kData ph W)
    as (_ & bytes & R1 & R2).
  - vm_compute in E. injection E as <-. reflexivity.
  - exact P.
  - vm_compute in E. injection E as <-. vm_compute. reflexivity.
  - vm_compute in E. injection E as <-. vm_compute in W.
    injection W as <- <-. vm_compute. reflexivity.
  - vm_compute in E. injection E as <-.
    intros j Hj. destruct j; cbn in Hj |- *; lia.
  - vm_compute in E. injection E as <-. vm_compute. discriminate.
  - vm_compute in E. injection E as <-. vm_compute in W.
    injection W as <- <-. vm_compute in P. injection P as <-.
    vm_compute. discriminate.
  - exists st, st', out, ph, bytes. split; [reflexivity|].
    split; [exact W|]. split; [exact P|]. split; [exact R1|exact R2].
Defined.

(** ** NsoToElf *)

Lemma WriteUncompressedNso_eh_info (e : EhInfo.t) (st : NsoFile) :
  WriteUncompressedNso (set_eh_info e st) = WriteUncompressedNso st.
Proof. reflexivity. Qed.

(** X21: asked for both exports, [NsoToElf] writes what it writes when
    asked for the ELF alone, followed by what it writes when asked for the
    uncompressed NSO alone: the NSO is byte for byte the same, for what
    [WriteElf] changes in the object does not reach it.  The value returned
    is the one of the ELF export alone; the write of the NSO is never
    checked. *)
Theorem NsoToElf_exports_independent
    (LZ4 : list byte -> Z -> option (list byte))
    (MF : list byte -> Z -> option (Z * Z))
    (File_Read : string -> list byte)
    (File_Write : string -> list byte -> bool)
    (plt0 : PltInfo.t) (path e u : string) (ok : bool)
    (written : list (string * list byte)) :
  NsoToElf LZ4 MF File_Read File_Write plt0 path (Some e) (Some u)
  = Done (ok, written) ->
  exists w_elf w_nso ok',
    written = w_elf ++ w_nso
    /\ NsoToElf LZ4 MF File_Read File_Write plt0 path (Some e) None
       = Done (ok, w_elf)
    /\ NsoToElf LZ4 MF File_Read File_Write plt0 path None (Some u)
       = Done (ok', w_nso)
    /\ (Load LZ4 (NsoFile_new plt0) (File_Read path) <> Refused ->
        ok' = true
        /\ exists file data,
             w_elf = [(e, file)] /\ w_nso = [(u, data)]
             /\ ok = File_Write e file).
Proof.
  unfold NsoToElf.
  destruct (Load LZ4 (NsoFile_new plt0) (File_Read path)) as [st| |];
    [|intros [= <- <-]; by exists [], [], false|discriminate].
  intros H.
  apply bind_Done in H as ([[st1 ok1] w1] & Helf & H).
  apply bind_Done in Helf as ([st' out] & HW & Helf).
  injection Helf as <- <- <-.
  apply bind_Done in H as (data & Hdata & H). injection H as <- <-.
  destruct (WriteElf_object _ _ _ _ HW) as [Hst _].
  rewrite Hst, WriteUncompressedNso_eh_info in Hdata.
  exists [(e, elf out)], [(u, data)], true. split; [reflexivity|].
  rewrite HW. cbn [mbind outcome_bind]. split; [reflexivity|].
  rewrite Hdata. split; [reflexivity|].
  intros _. split; [reflexivity|]. by exists (elf out), data.
Qed.

Lemma NsoToElf_exports_independent_witness :
  exists ok w_elf w_nso,
    NsoToElf lz4_literal_block no_eh_frame (fun _ => nso_plain)
             (fun _ _ => true) (PltInfo.mk 0 0) "in.nso" (Some "out.elf")
             (Some "out.nso")
    = Done (ok, w_elf ++ w_nso)
    /\ NsoToElf lz4_literal_block no_eh_frame (fun _ => nso_plain)
                (fun _ _ => true) (PltInfo.mk 0 0) "in.nso" None
                (Some "out.nso")
       = Done (true, w_nso)
    /\ length w_nso = 1%nat.
Proof.
  destruct (NsoToElf lz4_literal_block no_eh_frame (fun _ => nso_plain)
              (fun _ _ => true) (PltInfo.mk 0 0) "in.nso" (Some "out.elf")
              (Some "out.nso")) as [[ok written]| |] eqn:E;
    [|vm_compute in E; discriminate E..].
  destruct (NsoToElf_exports_independent _ _ _ _ _ _ _ _ _ _ E)
    as (w_elf & w_nso & ok' & -> & _ & H & Hload).
  destruct Hload as (-> & file & data & _ & -> & _).
  { intros Hr. vm_compute in Hr. discriminate Hr. }
  exists ok, w_elf, [("out.nso", data)].
  split; [reflexivity|]. split; [exact H|reflexivity].
Defined.

(** ** The arguments of main *)

Lemma last_cons_default {A : Type} (x : A) (l : list A) :
  last (x :: l) = match last l with Some y => Some y | None => Some x end.
Proof.
  destruct l as [|y l]; [done|].
  change (last (x :: y :: l)) with (last (y :: l)).
  destruct (last (y :: l)) eqn:E; [done|]. by apply last_None in E.
Qed.

(** The loop over a command line made of items, from any state. *)
Lemma parse_args_items (items : list Item) (o : Options) :
  Forall (fun it => match it with
                    | Input p => is_option p = false
                    | _ => True
                    end) items ->
  parse_args (concat (item_args <$> items)) o
  = let e := match last_elf items with
             | Some v => Some v
             | None => elf_path o
             end in
    let u := match last_uncompressed items with
             | Some v => Some v
             | None => uncompressed_path o
             end in
    match inputs_of items, input_path o with
    | [], ip => Some (mkOptions ip e u)
    | [p], None => Some (mkOptions (Some p) e u)
    | _, _ => None
    end.
Proof.
  intros Hok. revert o.
  induction Hok as [|it items Hit Hok IH]; intros o.
  { cbn. by destruct o. }
  destruct it as [p|v|v]; cbn [fmap list_fmap concat item_args app].
  - unfold is_option in Hit. apply orb_false_iff in Hit as [H1 H2].
    cbn [parse_args]. rewrite H1, H2.
    change (inputs_of (Input p :: items)) with (p :: inputs_of items).
    change (last_elf (Input p :: items)) with (last_elf items).
    change (last_uncompressed (Input p :: items))
      with (last_uncompressed items).
    cbn zeta.
    destruct (input_path o) as [q|] eqn:Eq.
    + by destruct (inputs_of items).
    + rewrite IH. cbn [input_path elf_path uncompressed_path]. cbn zeta.
      by destruct (inputs_of items) as [|? [|]].
  - cbn [parse_args]. rewrite bool_decide_eq_true_2 by done.
    rewrite IH. cbn [input_path elf_path uncompressed_path].
    change (inputs_of (ExportElf v :: items)) with (inputs_of items).
    change (last_uncompressed (ExportElf v :: items))
      with (last_uncompressed items).
    assert (last_elf (ExportElf v :: items)
            = match last_elf items with
              | Some y => Some y
              | None => Some v
              end) as -> by apply last_cons_default.
    cbn zeta. by destruct (last_elf items).
  - cbn [parse_args]. rewrite bool_decide_eq_false_2 by done.
    rewrite bool_decide_eq_true_2 by done.
    rewrite IH. cbn [input_path elf_path uncompressed_path].
    change (inputs_of (ExportUncompressed v :: items))
      with (inputs_of items).
    change (last_elf (ExportUncompressed v :: items)) with (last_elf items).
    assert (last_uncompressed (ExportUncompressed v :: items)
            = match last_uncompressed items with
              | Some y => Some y
              | None => Some v
              end) as -> by apply last_cons_default.
    cbn zeta. by destruct (last_uncompressed items).
Qed.

(** X22: the input and the two options may come in any order: with one
    input on the command line the argument loop ends with that input, the
    value of the last --export-elf and the value of the last
    --export-uncompressed, the null pointer for an option that was not
    given; the argument behind an option is its value whatever it is.
    [main] then calls [NsoToElf] with these export paths, once with the
    input when it is no directory, and otherwise once with every entry of
    the directory that is no directory itself, never with the input; once
    the calls have returned the exit status is 0, whatever they
    returned. *)
Theorem main_paths_any_order (is_directory : string -> bool)
    (directory_iterator : string -> list string) (items : list Item)
    (p : string) :
  Forall (fun it => match it with
                    | Input p => is_option p = false
                    | _ => True
                    end) items ->
  inputs_of items = [p] ->
  let e := last_elf items in
  let u := last_uncompressed items in
  main_paths (concat (item_args <$> items)) = Done (inr (p, e, u))
  /\ (is_directory p = false ->
      main_calls is_directory directory_iterator
                 (concat (item_args <$> items))
      = Done (0, [(p, e, u)]))
  /\ (is_directory p = true ->
      exists files,
        main_calls is_directory directory_iterator
                   (concat (item_args <$> items))
        = Done (0, (fun f => (f, e, u)) <$> files)
        /\ files `sublist_of` directory_iterator p
        /\ forall f, f ∈ files
                     <-> f ∈ directory_iterator p
                         /\ is_directory f = false).
Proof.
  intros Hok Hin e u.
  assert (main_paths (concat (item_args <$> items)) = Done (inr (p, e, u)))
    as Hpaths.
  { unfold main_paths.
    rewrite (parse_args_items items no_options Hok). cbn zeta. rewrite Hin.
    cbn [input_path elf_path uncompressed_path no_options].
    destruct (concat (item_args <$> items)) eqn:E.
    - destruct items as [|[] items]; cbn in E, Hin; discriminate.
    - subst e u. by destruct (last_elf items), (last_uncompressed items). }
  split; [exact Hpaths|]. unfold main_calls. rewrite Hpaths.
  cbn [mbind outcome_bind]. split.
  - by intros ->.
  - intros ->. exists (iter_files is_directory directory_iterator p).
    split; [reflexivity|]. unfold iter_files.
    split; [apply sublist_filter|].
    intros f. rewrite list_elem_of_filter. tauto.
Qed.

Lemma main_paths_any_order_witness :
  let is_dir := fun s : string =>
    bool_decide (s = "dir") || bool_decide (s = "dir/sub") in
  let entries := fun s : string =>
    if bool_decide (s = "dir") then ["dir/a.nso"; "dir/sub"; "dir/b.nso"]
    else [] in
  main_calls is_dir entries
    ["--export-elf"; "a.elf"; "in.nso"; "--export-uncompressed";
     "--export-elf"; "--export-elf"; "b.elf"]
  = Done (0, [("in.nso", Some "b.elf", Some "--export-elf")])
  /\ exists files,
       main_calls is_dir entries ["dir"; "--export-elf"; "a.elf"]
       = Done (0, (fun f => (f, Some "a.elf", None)) <$> files)
       /\ "dir/b.nso" ∈ files /\ "dir/sub" ∉ files.
Proof.
  intros is_dir entries. split.
  - apply (main_paths_any_order is_dir entries
             [ExportElf "a.elf"; Input "in.nso";
              ExportUncompressed "--export-elf"; ExportElf "b.elf"]
             "in.nso").
    + repeat constructor.
    + reflexivity.
    + reflexivity.
  - destruct (main_paths_any_order is_dir entries
                [Input "dir"; ExportElf "a.elf"] "dir") as (_ & _ & H).
    + repeat constructor.
    + reflexivity.
    + destruct (H eq_refl) as (files & Hcalls & _ & Hfiles).
      exists files. split; [exact Hcalls|]. split.
      * apply Hfiles. split; [|reflexivity].
        apply (bool_decide_unpack _). vm_compute. exact I.
      * intros Hin. apply Hfiles in Hin as [_ Hd]. discriminate Hd.
Defined.

(** X23: a command line of options only, such as [--export-elf out.elf],
    passes the argument loop with [input_path] still null, and [main] then
    builds an [fs::path] from the null pointer. *)
Theorem main_paths_without_input (items : list Item) :
  items <> [] ->
  inputs_of items = [] ->
  main_paths (concat (item_args <$> items)) = Undefined.
Proof.
  intros Hne Hin. unfold main_paths.
  rewrite (parse_args_items items no_options).
  - cbn zeta. rewrite Hin. cbn [input_path no_options].
    destruct items as [|[] items]; [done|discriminate Hin|done..].
  - clear Hne. induction items as [|[] items IH]; [constructor| |
      constructor; [done|by apply IH]..].
    discriminate Hin.
Qed.

Lemma main_paths_without_input_witness :
  main_paths ["--export-elf"; "out.elf"] = Undefined.
Proof.
  apply (main_paths_without_input [ExportElf "out.elf"]);
    [discriminate|reflexivity].
Defined.

(** X24: a second input on the command line ends [main] with status 1
    before anything is read or written. *)
Theorem main_paths_two_inputs (items : list Item) (p q : string)
    (rest : list string) :
  Forall (fun it => match it with
                    | Input p => is_option p = false
                    | _ => True
                    end) items ->
  inputs_of items = p :: q :: rest ->
  main_paths (concat (item_args <$> items)) = Done (inl 1).
Proof.
  intros Hok Hin. unfold main_paths.
  rewrite (parse_args_items items no_options Hok). cbn zeta. rewrite Hin.
  by destruct (concat (item_args <$> items)).
Qed.

Lemma main_paths_two_inputs_witness :
  main_paths ["a.nso"; "--export-elf"; "a.elf"; "b.nso"] = Done (inl 1).
Proof.
  apply (main_paths_two_inputs
           [Input "a.nso"; ExportElf "a.elf"; Input "b.nso"]
           "a.nso" "b.nso" []).
  - repeat constructor.
  - reflexivity.
Defined.

(** ** The dynamic table *)

Lemma parse_dynamic_Done (fuel : nat) (img : list byte) (off : Z)
    (d d' : DynInfo.t) :
  parse_dynamic fuel img off d = Done d' ->
  exists entries, dyn_table img off entries /\ d' = assign_all entries d.
Proof.
  revert off d. induction fuel as [|fuel IH]; intros off d H; [done|].
  cbn [parse_dynamic] in H.
  apply bind_Done in H as (tag & Htag & H). apply must_Done in Htag.
  destruct (tag =? 0) eqn:E.
  - apply Z.eqb_eq in E. subst tag. injection H as <-.
    exists []. split; [|done]. split.
    + intros k t v Hk. by rewrite lookup_nil in Hk.
    + cbn [length]. by rewrite Z.mul_0_r, Z.add_0_r.
  - apply Z.eqb_neq in E.
    apply bind_Done in H as (val & Hval & H). apply must_Done in Hval.
    apply IH in H as (entries & [Hent Hend] & ->).
    exists ((tag, val) :: entries). split; [|done]. split.
    + intros k t v Hk. destruct k as [|k].
      * injection Hk as <- <-. by rewrite Z.mul_0_r, Z.add_0_r.
      * cbn in Hk. destruct (Hent k t v Hk) as (H1 & H2 & H3).
        replace (off + sizeof_Elf64_Dyn * Z.of_nat (S k))
          with (off + sizeof_Elf64_Dyn + sizeof_Elf64_Dyn * Z.of_nat k)
          by lia.
        done.
    + cbn [length].
      replace (off + sizeof_Elf64_Dyn * Z.of_nat (S (length entries)))
        with (off + sizeof_Elf64_Dyn
              + sizeof_Elf64_Dyn * Z.of_nat (length entries)) by lia.
      done.
Qed.

(** X25: [dyn_info] after [Load] is what the switch over the tags makes of
    the entries of the dynamic table, taken in order up to the first zero
    tag, from the values the object had: for a tag given twice the later
    entry stands, a tag the switch does not know changes nothing, and
    whatever follows the terminator is not looked at.  The table is the
    one at [mod_base + dynamic_offset]. *)
Theorem Load_dyn_info
    (LZ4 : list byte -> Z -> option (list byte)) (this : NsoFile)
    (file : list byte) (st : NsoFile) :
  Load LZ4 this file = Done st ->
  exists magic_offset offset dyn entries,
    read_u32 (image st) 4 = Some magic_offset
    /\ read_s32 (image st) (magic_offset + 4) = Some offset
    /\ dyn = magic_offset + offset
    /\ dynamic st = Some dyn
    /\ dyn_table (image st) dyn entries
    /\ dyn_info st = assign_all entries (dyn_info this).
Proof.
  intros H. apply Load_Done in H as (st1 & Hc & Hf).
  assert (dyn_info st1 = dyn_info this) as Hd1.
  { unfold load_container in Hc. destruct (is_nso file).
    - by apply load_nso_Done in Hc as (? & ? & ? & _ & _ & _ & ->).
    - destruct (is_nro file); [|by injection Hc as <-].
      unfold load_nro in Hc. inv_run. by subst st1. }
  pose proof (FinishRun_image _ _ _ Hf) as Himg.
  destruct Hf as [buf mod_base mod_hdr info resolved n noted
                    Hbuf Hloc Hsz Hhdr Hmagic Hparse Hres Hnote Hcopy ->].
  rewrite <- Hbuf in Himg.
  apply copy_build_id_Done in Hcopy
    as (_ & _ & _ & _ & _ & _ & _ & Hdi & Hdy & _).
  cbn [image dynamic dyn_info set_eh_info set_note] in Himg, Hdi, Hdy |- *.
  rewrite Himg, Hdi, Hdy. clear Himg Hdi Hdy.
  apply locate_mod_Done in Hloc as [Hoff _].
  apply parse_dynamic_Done in Hparse as (entries & Htab & ->).
  assert (read_s32 buf (mod_base + 4) = Some (dynamic_offset mod_hdr))
    as Hrd.
  { unfold read_ModHeader in Hhdr.
    destruct (read_bytes buf mod_base 4); [|done].
    cbn [mbind option_bind] in Hhdr.
    destruct (read_s32 buf (mod_base + 4)) as [dy|]; [|done].
    cbn [mbind option_bind] in Hhdr.
    repeat match type of Hhdr with
           | (?m ≫= _) = Some _ =>
               destruct m; [cbn [mbind option_bind] in Hhdr|done]
           end.
    by injection Hhdr as <-. }
  assert (dynamic resolved = Some (mod_base + dynamic_offset mod_hdr)
          /\ dyn_info resolved = assign_all entries (dyn_info st1))
    as [Hdyn Hinfo].
  { cbn zeta in Hres.
    match type of Hres with
    | (if ?b then _ else _) = _ => destruct b
    end.
    - unfold synthesize_mod in Hres.
      pose proof (synthesize_mod_Done _ _ _ _ Hres)
        as (_ & _ & _ & _ & _ & Hd & _).
      split; [|by rewrite Hd].
      apply bind_Done in Hres as ([found s5] & Hr & Hres).
      apply ResolvePlt_Done in Hr as (_ & _ & _ & _ & Hdy5 & _).
      inv_run. subst resolved. cbn [dynamic set_header]. by rewrite Hdy5.
    - apply bind_Done in Hres as ([found s5] & Hr & Hres).
      injection Hres as <-.
      by apply ResolvePlt_Done in Hr as (_ & _ & _ & -> & -> & _). }
  exists mod_base, (dynamic_offset mod_hdr),
    (mod_base + dynamic_offset mod_hdr), entries.
  split; [done|]. split; [done|]. split; [reflexivity|].
  split; [done|]. split; [done|]. by rewrite Hinfo, Hd1.
Qed.

Lemma Load_dyn_info_witness :
  exists st entries,
    Load lz4_literal_block fresh nso_jmprel = Done st
    /\ dyn_table (image st) 0x30 entries
    /\ dyn_info st = assign_all entries DynInfo.zero.
Proof.
  destruct (Load lz4_literal_block fresh nso_jmprel) as [st| |] eqn:E;
    [|vm_compute in E; discriminate E..].
  destruct (Load_dyn_info _ _ _ _ E)
    as (m & o & dyn & entries & H1 & H2 & -> & _ & H5 & H6).
  exists st, entries. split; [reflexivity|].
  assert (m + o = 0x30) as Hdyn.
  { vm_compute in E. injection E as <-.
    vm_compute in H1. injection H1 as <-.
    vm_compute in H2. injection H2 as <-. reflexivity. }
  rewrite Hdyn in H5. split; [exact H5|exact H6].
Defined.

(** X26: a compressed .data is the last segment decoded, so the image holds
    at [data.mem_offset] exactly the bytes the LZ4 decoder returned for it,
    however many they are. *)
Theorem Load_nso_data_decoded
    (LZ4 : list byte -> Z -> option (list byte)) (this : NsoFile)
    (file : list byte) (st : NsoFile) :
  is_nso file = true ->
  Z.testbit (flags (decode_NsoHeader (take (Z.to_nat sizeof_NsoHeader) file)))
            (seg_index kData) = true ->
  Load LZ4 this file = Done st ->
  exists src out,
    read_bytes file (file_offset (at_data (segments (header st))))
               (at_data (segment_file_sizes (header st))) = Some src
    /\ LZ4 src (mem_size (at_data (segments (header st)))) = Some out
    /\ read_bytes (image st) (mem_offset (at_data (segments (header st))))
                  (buf_size out) = Some out.
Proof.
  intros Hnso Hbit Hload.
  destruct (Load_nso_parts _ _ _ _ Hnso Hload)
    as (s0 & a & b & _ & _ & _ & Hd & _ & Hh & _).
  cbn zeta in Hd, Hh. rewrite Hh.
  apply load_segment_compressed in Hd as (src & out & Hsrc & Hout & _ & Hw);
    [|done].
  cbn [seg_get] in Hsrc, Hout, Hw.
  exists src, out. split; [done|]. split; [done|].
  by apply read_write_same in Hw.
Qed.

Lemma Load_nso_data_decoded_witness :
  exists st out,
    Load lz4_literal_block fresh nso_packed_data = Done st
    /\ lz4_literal_block (drop 0x140 nso_packed_data) 0x10 = Some out
    /\ read_bytes (image st) 0x40 (buf_size out) = Some out.
Proof.
  destruct (Load lz4_literal_block fresh nso_packed_data) as [st| |] eqn:E;
    [|vm_compute in E; discriminate E..].
  destruct (Load_nso_data_decoded lz4_literal_block fresh nso_packed_data st
              eq_refl eq_refl E) as (src & out & H1 & H2 & H3).
  exists st, out. split; [reflexivity|].
  assert (file_offset (at_data (segments (header st))) = 0x140
          /\ at_data (segment_file_sizes (header st)) = 9
          /\ mem_size (at_data (segments (header st))) = 0x10
          /\ mem_offset (at_data (segments (header st))) = 0x40)
    as (Ha & Hb & Hc & Hd).
  { vm_compute in E. injection E as <-. repeat split. }
  rewrite Ha, Hb in H1. rewrite Hc in H2. rewrite Hd in H3.
  assert (src = drop 0x140 nso_packed_data) as ->.
  { clear -H1. vm_compute in H1. injection H1 as <-. vm_compute. reflexivity. }
  split; [exact H2|exact H3].
Defined.
